(* ===== verification/_CoqProject ===== *)
-Q . S2P
Prelude.v
GoStd.v
Quantity.v
Kube.v
Cloud.v
MapUtils.v
Provider.v
Instances.v
Volume.v
LoadBalancer.v
Routes.v
Interfaces.v
Net.v
Conc.v
RouteController.v
Flags.v
GoFlag.v
Options.v
LeaderElection.v
WorkQueue.v
Services.v
Controller.v
GoRoutineMap.v
Provisioner.v
ControllerRun.v
SLB.v
ECS.v
SimCloud.v
InstancesSpec.v
MapUtilsSpec.v
QuantitySpec.v
ProviderSpec.v
LBSpec.v
LBSync.v
VolumeSpec.v
ProvisionSpec.v
ProvisionerSpec.v
ProvisionerSync.v
ProvisionerRuns.v
SimVolumes.v
DeviceSpec.v
RoutesSpec.v
NetSpec.v
RouteControllerSpec.v
ReconcileSpec.v
WorkQueueSpec.v
ServicesSpec.v
ServicesSync.v
SimKube.v
FlagsSpec.v
OptionsSpec.v
ControllerSpec.v
RunSpec.v
LeaderElectionSpec.v
LeaseRuns.v
Replicas.v
Json.v
JsonSpec.v
FlexV.v
FlexVSpec.v
