(* ===== verification/Prelude.v ===== *)
(** * A verification of kube-aliyun: the Aliyun cloud provider for Kubernetes

    ** The program

    The repository holds a cloud provider for Kubernetes on Aliyun and two programs
    that run it.  [pkg/cloudprovider/providers/aliyun] is the provider: it keeps one
    load balancer (SLB) per Kubernetes service ([loadbalancer.go]), attaches,
    detaches, mounts, provisions and deletes disks ([volume.go]), keeps routes in a
    VPC route table ([routes.go]), answers the zone of the cluster ([zones.go]), and
    translates between node names and instances ([utils.go]).  [aliyun.go] builds
    the provider from the environment and the metadata service;
    [pkg/cloudprovider] has the registry of providers and the flex volume statuses;
    [pkg/util] converts between annotations and tagged structs by reflection.
    [cmd/aliyun-flexv] is the command the kubelet runs for a volume: one operation
    per run, a json response on the standard output.  [cmd/aliyun-controller] with
    [pkg/controller] reads options from the command line, hands the provider to the
    service, route and provision controllers of Kubernetes (vendored), and runs them
    once it leads, or at once without leader election.  The service controller takes
    keys of services from a queue and brings each service's load balancer and status
    into their state; the provision controller makes a disk and a volume for a claim
    and deletes them when the volume is released; the elector keeps a lease in an
    endpoints object of the API server that the replicas of the controller share.

    The provider keeps no state between calls: all state is in the cloud, and the
    behaviours that matter are which requests an operation makes on which evidence,
    in which order, and what it does with failures.

    ** How the program is modelled

    A Go function with effects is a computation [M E W A] (this file): from a world
    [W] it gives an outcome (a return value, a panic, an exit of the process, or the
    end of the fuel of a loop), the world it leaves and the trace of the requests it
    made with their answers.  [Cloud.req] lists the requests: the ECS, SLB and
    metadata calls of the SDK, the host's file system and mounter, the clock,
    randomness, the standard output, and ([Kube.kreq]) the API server and its client
    libraries.  A [Handler req W] answers them.  The code
    is a function of the handler, so a theorem without a law about the handler holds
    whatever the cloud answers, errors included.  A result [(A, error)] of Go is a
    [result A], an error its text; integers are [Z], wrapped to their width where
    the code computes with them; strings are byte strings.  The iteration order of a
    Go map is unspecified: the code ranges over a map in an order given by a
    function of which only that it permutes is known ([GoStd]).

    Code with goroutines is a program [Conc.prog], a tree of requests, starts of
    goroutines, slots of a rate limiter and waits; a configuration of threads steps by
    one action of any of them.  [Conc.eventually] says that every schedule gets
    somewhere, and [Conc.ok_main] is a rely-guarantee logic that proves it.  The
    controller's [Run] is a state machine of two goroutines and a clock
    ([ControllerRun.run_step]).  The elector's attempt is a program too; replicas run
    it in a system with a clock, in which a request is sent, takes effect or fails, and
    is answered, each within a bound [delta], processes crash and start again, and the
    clocks of the replicas differ ([LeaderElection.system_step]).
    [Replicas.deployment_step] runs such a replica and a [Run] together in every
    process.  The provision controller is a machine of the informers' events, the
    goroutines of its operations and the electors of claims
    ([Provisioner.prov_step]).

    Type classes state what the services promise to the provider: [SLB.SLB] (load
    balancers), [ECS.ECS] (disks, with attachments that take effect after a number of
    descriptions), [RoutesSpec.VPC] (route tables), [ReconcileSpec.Nodes] (the
    nodes of the API server, beside the route tables), [ServicesSync.ServiceAPI]
    (its services and nodes, beside the load balancers) and
    [ProvisionerSync.VolumeAPI] (its volumes, beside the disks).  [SimCloud] is an
    in-memory account that implements the first three; [ReconcileSpec.cluster] adds
    nodes to it, [SimKube.kcluster] services and nodes, and [SimVolumes.vcluster]
    storage classes and volumes; the examples and witnesses run on them.  The provider
    meets its callers through the records of [Interfaces] (the Go interfaces), and
    [FlexVSpec.QuietVolume] is what the flex volume command relies on in them.

    ** Files

    - [Prelude]: computations, their weakest preconditions ([wp]) and the rules for
      traces ([emits], [preserves], [total]); list lemmas; hints and tactics.
    - [GoStd]: machine integers, [strings], [strconv], [path], [fmt.Sprintf], map
      ranges.
    - [Kube]: the requests to the API server and its client libraries.
    - [Cloud]: data of the SDK, the requests, pagination, [Client.WaitForDisk].
    - [MapUtils] ([pkg/util/map_utils.go]); [MapUtilsSpec].
    - [Provider] ([aliyun.go], [pkg/cloudprovider/provider.go] and [volume.go]);
      [ProviderSpec].
    - [Instances] ([utils.go], [pkg/util/node.go]); [InstancesSpec].
    - [Quantity] (the scaling functions of the vendored apimachinery that
      [Provision] runs); [QuantitySpec].
    - [Volume] ([volume.go]); [VolumeSpec], [ProvisionSpec], [DeviceSpec].
    - [LoadBalancer] ([loadbalancer.go]); [LBSpec] (any cloud), [LBSync] (against
      the laws of [SLB]).
    - [Routes] ([routes.go], [zones.go]); [RoutesSpec].
    - [Interfaces] ([pkg/cloudprovider]'s interfaces, the accessors of [aliyun.go], the
      registry after the imports).
    - [Net] ([net.ParseCIDR], [IPNet.Contains]); [NetSpec].
    - [Conc]: goroutines, their steps and their logic.
    - [RouteController] (the vendored route controller on the provider's routes);
      [RouteControllerSpec], [ReconcileSpec].
    - [Flags] (the vendored [pflag] with the number and duration readers behind it);
      [FlagsSpec].
    - [GoFlag] (Go's [flag] package and the flags of the vendored glog).
    - [Options] ([pkg/controller/options.go]); [OptionsSpec].
    - [LeaderElection] (the vendored elector, its lock, replicas on one lock);
      [LeaderElectionSpec] (its invariant), [LeaseRuns] (runs of it).
    - [WorkQueue] (the vendored queue and delaying queue of client-go);
      [WorkQueueSpec].
    - [Services] (the vendored service controller); [ServicesSpec] (any cloud),
      [ServicesSync] (against the laws of [SLB] and [ServiceAPI]), [SimKube] (an
      implementation of the laws, and the examples).
    - [GoRoutineMap] (the vendored map of named goroutines).
    - [Provisioner] (the vendored provision controller); [ProvisionerSpec] (any cloud),
      [ProvisionerSync] (against the laws of [ECS] and [VolumeAPI]), [ProvisionerRuns]
      (runs of the controller), [SimVolumes] (an implementation of the laws, and the
      examples).
    - [Controller] ([pkg/controller/controller.go]'s [NewController],
      [cmd/aliyun-controller/main.go]); [ControllerSpec].
    - [ControllerRun] ([controller.go]'s [Run]); [RunSpec]; [Replicas] (several
      processes of it on one lease).
    - [Json], [JsonSpec]: what the command uses of [encoding/json].
    - [FlexV] ([cmd/aliyun-flexv/main.go]); [FlexVSpec].
    - [SLB], [ECS], [SimCloud]: the services' promises and an implementation.

    Definitions carry the names of the Go functions.  A piece of a function with a
    name of its own (a loop body, a guard) is described at its definition.

    ** What the theorems show

    - Load balancers.  Against the laws of the service, [ensureLBListeners] and
      [ensureLBBackends] leave exactly the listeners and servers asked for, from
      whatever was there; [EnsureLoadBalancer] finds or creates the load balancer of
      the service, synchronises it and returns its address, and a second run only
      reads; [UpdateLoadBalancer] and [EnsureLoadBalancerDeleted] likewise.  For
      every cloud, at most one load balancer is created or deleted, under the
      service's name and after a listing that justifies it.  The failure paths are
      stated as they are: the missing status after three lookups, the panic on a
      failed attribute request, the failure on clusters of several host names.
    - Volumes.  For every cloud, [Attach] and [Detach] return, and touch the named
      disk only, on the evidence they read; against the laws of the disk service
      they reach the state they report.  [Provision] asks for the least size that
      covers the claim and the category's minimum, and [Delete] undoes it.  Device
      names, volume names and mount requests are covered in [DeviceSpec].
    - Instances and routes.  Node names lead back to their instance; [ListRoutes]
      is exactly the table's routes to instances; [CreateRoute] and [DeleteRoute]
      add and remove one.
    - Data.  [StructToMap] and [MapToStruct] are inverse, their errors are the first
      in field order; quantities scale by rounding up; the flex volume response is
      json that decodes to the status.
    - The flex volume command prints one response and exits with its code, whatever
      its command line and the cloud; its log settings, with a threshold that is not
      set, are [FlexVSpec.logs_prepared].
    - The service controller.  An event leads to a round of the worker that gives the
      service its load balancer and status; a second round only reads; a service that
      is gone loses its load balancer; a change of the nodes reaches every load
      balancer of the cache.  For every cloud, what needs no update is the same to the
      provider, a failure is retried after a bounded delay, and the provider's missing
      status becomes a panic of the controller.  The queue gives a key to one worker
      at a time and loses none.
    - The provision controller.  For every cloud and API server, provisioning a claim
      asks for at most one disk and gives it back only when its volume was never saved,
      and a disk is deleted only for a released volume of the provisioner.  When
      requests to the API server fail without effect, provisioning is all or nothing
      and every disk the controller makes has its volume, in any run; a claim's life
      leaves no trace.  At most one operation provisions a claim at a time, and after
      the configured number of failures it is given up.  An API server that loses
      answers makes the controller delete the disk of a volume that exists.
    - Leader election.  At most one replica leads, and in at most one process the
      controllers work, when the lease leaves room for a second and ten delays; a
      lease passes on exactly when it has run out; a shorter lease that the code
      accepts lets two replicas lead.
    - Reconciliation.  On every schedule of its goroutines a round of the route
      controller ends and never takes a node's route away; two rounds bring the table
      to exactly the routes of the nodes; the test of responsibility decides the
      inclusion of blocks; the programs that are interleaved are [routes.go]'s
      operations.
    - The controller manager.  Every option is set by its flag; [NewController] only
      reads, and builds the controllers of the options and the provider or ends the
      process; [Run] starts each controller once, in order and only while leading,
      and serves for good without an election.  Two flaws are stated as theorems: the
      flags of [main]'s own flag set are refused, and the shutdown grace period is not
      kept.

    ** Bounds and fuel

    [WaitForDisk] runs with its timeout in seconds as fuel: every round but the
    last takes five of them, so the fuel is never reached, and the default of 60
    gives at most 12 descriptions ([Cloud.WaitForDisk_bounded]); [ECS.max_lag] is
    the delay that fits in them.  [getDiskByDevice] takes the number of pages as
    fuel; the theorem shows that fuel above a fiftieth of the listing's length is
    enough and that the loop ends in a value.  The json decoder runs with twice the
    length of the text plus one, enough for any text ([JsonSpec]).  The lookup loop
    after a creation has three rounds, as in the code.  The parser of the command line
    runs with the number of its arguments, the shorthands of one argument with their
    number, and the terms of a duration with the length of the text, each shown to be
    enough ([FlagsSpec.parseArgs_fuel], [parseShortArg_fuel], [duration_terms_fuel]);
    the loop of Go's [flag] package likewise ([GoFlag]).
    Retries of the route, service and provision controllers are counted as in the code.  Rounds of goroutines
    need no fuel: [Conc.ok_main_sound] bounds the steps of every goroutine and shows
    that every schedule ends.  All other recursion is structural.

    ** What is not modelled

    - The elector that the provision controller runs for a claim: when it observes, leads
      and ends is left to the environment, so its lease on the claim and the watches
      that tell it of success do not appear.  The path of a self link ([net/url]) is a
      parameter.
    - The informers: a lister is a request that answers the current objects.  The
      workers of the service controller run one at a time, and the channel of the
      delaying queue delivers at once.  Recorded events are left out.
    - Time inside a computation: in the lease protocol only requests and wake-ups take
      time, at most [delta] each, and clocks differ by a constant.  The text of a lease
      record is represented by the record with its times in whole seconds; that
      identities of replicas are distinct and not empty is assumed.
    - Log messages; flags that imported packages other than glog define are a
      parameter of both programs.
    - The HTTP layer and signatures of the SDK: a request is one step with an
      answer.  The SDK's debug switch has no effect on it.
    - Concurrent use of the load balancer and volume operations: an operation runs
      alone; the laws of the services say so.  The route operations are interleaved.

    ** Plan

    What is left: the elector of a claim as an instance of the lease protocol, and the
    delivery of events by the informers. *)

From Stdlib Require Export ZArith Lia Ascii String.
From stdpp Require Export base tactics option list gmap strings pretty fin_maps.

Open Scope Z_scope.

(** ** Results, outcomes and the computation monad *)

(** A Go function with results [(A, error)] whose callers look at [A] only when
    the error is nil is a [result A]; an [error] is its [Error()] text. *)
Definition error : Type := string.

Inductive result (A : Type) : Type :=
| Ok (a : A)
| Err (e : error).
Arguments Ok {A} a.
Arguments Err {A} e.

#[export] Instance Ok_inj {A} : Inj (=) (=) (@Ok A).
Proof. by intros a b [= ->]. Qed.

(** How a Go computation ends: it returns, it panics, it ends the process with
    [os.Exit], or (a loop run with fuel) it did not finish within the fuel. *)
Inductive outcome (A : Type) : Type :=
| Ret (a : A)
| Panic (msg : string)
| Exit (code : Z)
| OutOfFuel.
Arguments Ret {A} a.
Arguments Panic {A} msg.
Arguments Exit {A} code.
Arguments OutOfFuel {A}.

#[export] Instance result_eq_dec {A} `{EqDecision A} : EqDecision (result A).
Proof. solve_decision. Defined.
#[export] Instance outcome_eq_dec {A} `{EqDecision A} : EqDecision (outcome A).
Proof. solve_decision. Defined.

(** A request signature [E] gives, for each request to the outside (a cloud API
    call, a sleep, a print), the type of its answer.  A handler answers requests
    from a world of type [W], which it may change. *)
Class Handler (E : Type → Type) (W : Type) : Type :=
  handle : ∀ R : Type, E R → W → R * W.
Arguments handle {E W _ R} e w : simpl never.

(** A request together with the answer it got: one entry of a trace. *)
Inductive event (E : Type → Type) : Type :=
| Ev {R : Type} (e : E R) (r : R).
Arguments Ev {E R} e r.

(** A Go computation: from a world it gives an outcome, the world it leaves and
    the trace of the requests it made, in order. *)
Definition M (E : Type → Type) (W A : Type) : Type :=
  W → outcome A * W * list (event E).

Section monad.
Context {E : Type → Type} {W : Type}.

#[export] Instance M_ret : MRet (M E W) := λ A a w, (Ret a, w, []).

#[export] Instance M_bind : MBind (M E W) := λ A B f m w,
  let '(o, w1, t1) := m w in
  match o with
  | Ret a => let '(o2, w2, t2) := f a w1 in (o2, w2, t1 ++ t2)
  | Panic s => (Panic s, w1, t1)
  | Exit c => (Exit c, w1, t1)
  | OutOfFuel => (OutOfFuel, w1, t1)
  end.

(** A Go panic, [os.Exit], and a loop whose fuel is used up. *)
Definition panic {A} (msg : string) : M E W A := λ w, (Panic msg, w, []).
Definition exit {A} (code : Z) : M E W A := λ w, (Exit code, w, []).
Definition out_of_fuel {A} : M E W A := λ w, (OutOfFuel, w, []).

(** Make a request and record it. *)
Definition call `{Handler E W} {R} (e : E R) : M E W R := λ w,
  let '(r, w') := handle e w in (Ret r, w', [Ev e r]).

Definition outcome_of {A} (m : M E W A) (w : W) : outcome A := (m w).1.1.
Definition world_of {A} (m : M E W A) (w : W) : W := (m w).1.2.
Definition trace_of {A} (m : M E W A) (w : W) : list (event E) := (m w).2.

(** ** Weakest preconditions over outcome, final world and trace *)

Definition wp {A} (m : M E W A) (Q : outcome A → W → list (event E) → Prop) (w : W) : Prop :=
  Q (outcome_of m w) (world_of m w) (trace_of m w).

(** Lift a postcondition on returned values: anything but a return fails it. *)
Definition returns {A} (Q : A → W → list (event E) → Prop) (o : outcome A) (w : W)
    (t : list (event E)) : Prop :=
  match o with Ret a => Q a w t | _ => False end.

(** Every request a computation makes, whatever the world answers, satisfies
    [P]. *)
Definition emits {A} (P : event E → Prop) (m : M E W A) : Prop :=
  ∀ w, Forall P (trace_of m w).

(** A computation that always returns: no panic, no exit, no exhausted fuel. *)
Definition total {A} (m : M E W A) : Prop :=
  ∀ w, ∃ a, outcome_of m w = Ret a.

Lemma wp_ret {A} (a : A) Q w : wp (mret a) Q w ↔ Q (Ret a) w [].
Proof. done. Qed.

Lemma wp_panic {A} s (Q : outcome A → _) w : wp (panic s) Q w ↔ Q (Panic s) w [].
Proof. done. Qed.

Lemma wp_exit {A} c (Q : outcome A → _) w : wp (exit c) Q w ↔ Q (Exit c) w [].
Proof. done. Qed.

Lemma wp_out_of_fuel {A} (Q : outcome A → _) w : wp out_of_fuel Q w ↔ Q OutOfFuel w [].
Proof. done. Qed.

Lemma wp_bind {A B} (m : M E W A) (f : A → M E W B) Q w :
  wp (m ≫= f) Q w ↔
  wp m (λ o w1 t1, match o with
    | Ret a => wp (f a) (λ o2 w2 t2, Q o2 w2 (t1 ++ t2)) w1
    | Panic s => Q (Panic s) w1 t1
    | Exit c => Q (Exit c) w1 t1
    | OutOfFuel => Q OutOfFuel w1 t1
    end) w.
Proof.
  unfold wp, outcome_of, world_of, trace_of, mbind, M_bind.
  destruct (m w) as [[[] w1] t1]; simpl; try done.
  by destruct (f a w1) as [[o2 w2] t2].
Qed.

Lemma wp_mono {A} (m : M E W A) (Q Q' : outcome A → W → list (event E) → Prop) w :
  wp m Q w → (∀ o w' t, Q o w' t → Q' o w' t) → wp m Q' w.
Proof. unfold wp. eauto. Qed.

Lemma wp_returns {A} (m : M E W A) (Q : A → W → list (event E) → Prop) w :
  wp m (returns Q) w → ∃ a w' t, m w = (Ret a, w', t) ∧ Q a w' t.
Proof.
  unfold wp, outcome_of, world_of, trace_of. destruct (m w) as [[[] w'] t]; simpl; try done. eauto.
Qed.

Lemma wp_call `{Handler E W} {R} (e : E R) Q w :
  wp (call e) Q w ↔ Q (Ret (handle e w).1) (handle e w).2 [Ev e (handle e w).1].
Proof. unfold wp, outcome_of, world_of, trace_of, call. by destruct (handle e w). Qed.

(** ** Compositional rules for [emits] and [total] *)

Lemma emits_ret {A} P (a : A) : emits P (mret a).
Proof. constructor. Qed.

Lemma emits_panic {A} P s : emits P (panic (A:=A) s).
Proof. constructor. Qed.

Lemma emits_exit {A} P c : emits P (exit (A:=A) c).
Proof. constructor. Qed.

Lemma emits_out_of_fuel {A} P : emits P (out_of_fuel (A:=A)).
Proof. constructor. Qed.

Lemma emits_call `{Handler E W} {R} P (e : E R) : (∀ r, P (Ev e r)) → emits P (call e).
Proof.
  intros HP w. unfold trace_of, call. destruct (handle e w); simpl. by repeat constructor.
Qed.

Lemma emits_bind {A B} P (m : M E W A) (f : A → M E W B) :
  emits P m → (∀ a, emits P (f a)) → emits P (m ≫= f).
Proof.
  intros Hm Hf w. specialize (Hm w). unfold trace_of, mbind, M_bind in *.
  destruct (m w) as [[[a| | |] w1] t1]; simpl in *; try done.
  specialize (Hf a w1). unfold trace_of in Hf.
  destruct (f a w1) as [[o2 w2] t2]; simpl in *. by apply Forall_app.
Qed.

Lemma emits_mono {A} (P P' : event E → Prop) (m : M E W A) :
  emits P m → (∀ e, P e → P' e) → emits P' m.
Proof. intros Hm HP w. eapply Forall_impl; eauto. Qed.

(** A property of worlds that every step of a computation keeps. *)
Definition preserves {A} (I : W → Prop) (m : M E W A) : Prop :=
  ∀ w, I w → I (world_of m w).

Lemma preserves_ret {A} I (a : A) : preserves I (mret (M:=M E W) a).
Proof. by intros w. Qed.

Lemma preserves_panic {A} I s : preserves I (panic (A:=A) s).
Proof. by intros w. Qed.

Lemma preserves_call `{Handler E W} {R} I (e : E R) :
  (∀ w, I w → I (handle e w).2) → preserves I (call e).
Proof. intros He w Hw. unfold world_of, call. specialize (He w Hw). by destruct (handle e w). Qed.

Lemma preserves_bind {A B} I (m : M E W A) (f : A → M E W B) :
  preserves I m → (∀ a, preserves I (f a)) → preserves I (m ≫= f).
Proof.
  intros Hm Hf w Hw. specialize (Hm w Hw). unfold world_of, mbind, M_bind in *.
  destruct (m w) as [[[a| | |] w1] t1]; simpl in *; try done.
  specialize (Hf a w1 Hm). unfold world_of in Hf. by destruct (f a w1) as [[o2 w2] t2].
Qed.

(** A preserved property may be added to any postcondition. *)
Lemma wp_preserves {A} I (m : M E W A) Q w :
  preserves I m → I w → wp m Q w → wp m (λ o w' t, I w' ∧ Q o w' t) w.
Proof. unfold wp. auto. Qed.

Lemma total_ret {A} (a : A) : total (mret (M:=M E W) a).
Proof. intros w. by exists a. Qed.

Lemma total_call `{Handler E W} {R} (e : E R) : total (call e).
Proof. intros w. unfold outcome_of, call. destruct (handle e w); simpl. eauto. Qed.

Lemma total_bind {A B} (m : M E W A) (f : A → M E W B) :
  total m → (∀ a, total (f a)) → total (m ≫= f).
Proof.
  intros Hm Hf w. destruct (Hm w) as [a Ha].
  unfold outcome_of, mbind, M_bind in *.
  destruct (m w) as [[o w1] t1]; simpl in *; subst.
  destruct (Hf a w1) as [b Hb]. unfold outcome_of in Hb.
  destruct (f a w1) as [[o2 w2] t2]; simpl in *. eauto.
Qed.
End monad.

Create HintDb go.
#[export] Hint Resolve emits_ret emits_panic emits_exit emits_out_of_fuel
  total_ret total_call preserves_ret preserves_panic : go.

(** [x ← m; k] (stdpp) binds the result of [m].  [x ←? m; k] is the Go idiom
    [x, err := m; if err != nil { return err }; k]. *)
Definition bind_ok {E W A B} (m : M E W (result A)) (k : A → M E W (result B)) :
    M E W (result B) :=
  r ← m; match r with Ok a => k a | Err e => mret (Err e) end.

Declare Scope go_scope.
Notation "x ←? m ; k" := (bind_ok m (λ x, k))
  (at level 20, m at level 100, k at level 200, only parsing) : go_scope.
Notation "' x ←? m ; k" := (bind_ok m (λ r, match r with x => k end))
  (at level 20, x pattern, m at level 100, k at level 200, only parsing) : go_scope.
Open Scope go_scope.

Lemma emits_bind_ok {E W A B} P (m : M E W (result A)) (k : A → M E W (result B)) :
  emits P m → (∀ a, emits P (k a)) → emits P (bind_ok m k).
Proof. intros Hm Hk. apply emits_bind; [done|]. intros []; [done|apply emits_ret]. Qed.

Lemma preserves_bind_ok {E W A B} I (m : M E W (result A)) (k : A → M E W (result B)) :
  preserves I m → (∀ a, preserves I (k a)) → preserves I (bind_ok m k).
Proof. intros Hm Hk. apply preserves_bind; [done|]. intros []; [done|apply preserves_ret]. Qed.

Lemma total_bind_ok {E W A B} (m : M E W (result A)) (k : A → M E W (result B)) :
  total m → (∀ a, total (k a)) → total (bind_ok m k).
Proof. intros Hm Hk. apply total_bind; [done|]. intros []; [done|apply total_ret]. Qed.

(** ** Lists *)

Lemma filter_ext_elem {A} (P1 P2 : A → Prop) `{∀ x, Decision (P1 x), ∀ x, Decision (P2 x)}
    (l : list A) :
  (∀ x, x ∈ l → P1 x ↔ P2 x) → base.filter P1 l = base.filter P2 l.
Proof.
  induction l as [|x l IH]; intros HP; [done|].
  rewrite !filter_cons. rewrite IH by (intros; apply HP; by right).
  specialize (HP x ltac:(left)). by repeat case_decide; try tauto.
Qed.

Lemma NoDup_fmap_filter {A B} (f : A → B) (P : A → Prop) `{∀ x, Decision (P x)} (l : list A) :
  NoDup (f <$> l) → NoDup (f <$> base.filter P l).
Proof.
  induction l as [|x l IH]; intros Hnd; [done|]. rewrite fmap_cons, NoDup_cons in Hnd.
  rewrite filter_cons. destruct Hnd as [Hx Hnd]. case_decide; [|by apply IH].
  rewrite fmap_cons, NoDup_cons. split; [|by apply IH].
  intros (y & Hfy & Hy)%list_elem_of_fmap. apply list_elem_of_filter in Hy as [_ Hy].
  apply Hx. rewrite Hfy. by apply list_elem_of_fmap_2.
Qed.

(** Membership tests on a longer list. *)
Lemma if_elem_cons {A B} `{EqDecision A} (x y : A) (l : list A) (a b : B) :
  (if bool_decide (x ∈ y :: l) then a else b) =
  if decide (y = x) then a else if bool_decide (x ∈ l) then a else b.
Proof.
  destruct (decide (y = x)) as [->|Hne].
  - by rewrite bool_decide_true by left.
  - rewrite (bool_decide_ext _ (x ∈ l)); [done|]. rewrite elem_of_cons. naive_solver.
Qed.

(** Distinct images single out an element. *)
Lemma NoDup_fmap_elem {A B} (f : A → B) (l : list A) x y :
  NoDup (f <$> l) → x ∈ l → y ∈ l → f x = f y → x = y.
Proof.
  induction l as [|z l IH]; intros Hnd; [intros []%not_elem_of_nil|].
  rewrite fmap_cons, NoDup_cons in Hnd. destruct Hnd as [Hz Hnd].
  rewrite !elem_of_cons. intros [->|Hx] [->|Hy] Hf; [done| | |by apply IH].
  - destruct Hz. rewrite Hf. by apply list_elem_of_fmap_2.
  - destruct Hz. rewrite <- Hf. by apply list_elem_of_fmap_2.
Qed.

(** ** Tactics *)

(** Run the first steps of a computation in a [wp] goal. *)
Ltac wp_step :=
  first [ rewrite wp_bind | rewrite wp_ret | rewrite wp_call | rewrite wp_panic
        | rewrite wp_exit | rewrite wp_out_of_fuel ]; cbn beta iota.

(** Break the first stuck [match] of a computation in the goal. *)
Ltac wp_case :=
  match goal with
  | |- context [match ?x with _ => _ end] =>
      lazymatch x with
      | context [match _ with _ => _ end] => fail
      | _ => destruct x eqn:?
      end
  end.

(** Prove [emits]/[total]/[preserves] goals structurally. *)
Ltac go_struct :=
  repeat first
    [ apply preserves_bind_ok; [| intros ?]
    | apply preserves_bind; [| intros ?]
    | apply preserves_call; intros ? ?
    | apply emits_bind_ok; [| intros ?]
    | apply total_bind_ok; [| intros ?]
    | apply emits_bind; [| intros ?]
    | apply total_bind; [| intros ?]
    | apply emits_call; intros ?
    | solve [eauto 2 with go]
    | match goal with
      | |- emits _ (match ?x with _ => _ end) => destruct x eqn:?
      | |- total (match ?x with _ => _ end) => destruct x eqn:?
      | |- preserves _ (match ?x with _ => _ end) => destruct x eqn:?
      | |- preserves _ (let '_ := ?x in _) => destruct x eqn:?
      | |- emits _ (let '_ := ?x in _) => destruct x eqn:?
      end ].
