(* ===== verification/GoStd.v ===== *)
(** * The parts of the Go language and standard library the sources use

    Machine integers ([int] is 64-bit, [int32]), the [strings], [path] and
    [strconv] functions called by the provider, [fmt.Sprintf] on the verbs that
    occur, and the unspecified iteration order of maps.  Strings are sequences of
    bytes ([ascii] is an 8-bit character). *)

From S2P Require Import Prelude.

(** ** Machine integers *)

(** Two's complement wrap-around to [bits] bits. *)
Definition wrap (bits : Z) (z : Z) : Z :=
  (z + 2 ^ (bits - 1)) mod 2 ^ bits - 2 ^ (bits - 1).
Definition int32 (z : Z) : Z := wrap 32 z.
Definition int64 (z : Z) : Z := wrap 64 z.

Definition in_int32 (z : Z) : Prop := - 2 ^ 31 ≤ z < 2 ^ 31.
Definition in_int64 (z : Z) : Prop := - 2 ^ 63 ≤ z < 2 ^ 63.

#[export] Instance in_int64_dec z : Decision (in_int64 z).
Proof. unfold in_int64. apply _. Defined.
#[export] Instance in_int32_dec z : Decision (in_int32 z).
Proof. unfold in_int32. apply _. Defined.

(** ** Package strings *)

Fixpoint str_to_list (s : string) : list ascii :=
  match s with EmptyString => [] | String c s' => c :: str_to_list s' end.
Fixpoint list_to_str (l : list ascii) : string :=
  match l with [] => EmptyString | c :: l' => String c (list_to_str l') end.

(** The scan of [strings.Replace(s, old, new, n)] for a non-empty [old]: replace
    the first [n] non-overlapping instances, all of them when [n < 0].  [skip]
    counts the bytes of the current instance still to be dropped. *)
Fixpoint replace_from (old new : string) (n : Z) (skip : nat) (s : string) : string :=
  match s with
  | EmptyString => EmptyString
  | String c s' =>
      match skip with
      | S k => replace_from old new n k s'
      | O => if bool_decide (n = 0) then s
             else if String.prefix old s
             then new +:+ replace_from old new (n - 1) (String.length old - 1) s'
             else String c (replace_from old new n 0 s')
      end
  end.
Definition Replace (s old new : string) (n : Z) : string := replace_from old new n 0 s.

Definition lower_ascii (c : ascii) : ascii :=
  let n := N_of_ascii c in
  if (65 <=? n)%N && (n <=? 90)%N then ascii_of_N (n + 32) else c.

(** [strings.ToLower] on ASCII letters (other bytes are left alone). *)
Fixpoint ToLower (s : string) : string :=
  match s with
  | EmptyString => EmptyString
  | String c s' => String (lower_ascii c) (ToLower s')
  end.

(** [strings.Split(s, sep)] for a one-byte separator. *)
Fixpoint Split (s : string) (sep : ascii) : list string :=
  match s with
  | EmptyString => [EmptyString]
  | String c s' =>
      if bool_decide (c = sep) then EmptyString :: Split s' sep
      else match Split s' sep with
           | [] => [String c EmptyString]
           | x :: xs => String c x :: xs
           end
  end.

(** [s[:n]] for [n ≤ len(s)]. *)
Fixpoint str_take (n : nat) (s : string) : string :=
  match n, s with
  | S n', String c s' => String c (str_take n' s')
  | _, _ => EmptyString
  end.

(** ** Package path: [path.Base] *)

Definition slash : ascii := "/"%char.

Fixpoint drop_while (f : ascii → bool) (l : list ascii) : list ascii :=
  match l with
  | [] => []
  | c :: l' => if f c then drop_while f l' else l
  end.
Fixpoint take_while (f : ascii → bool) (l : list ascii) : list ascii :=
  match l with
  | [] => []
  | c :: l' => if f c then c :: take_while f l' else []
  end.

(** Strip trailing slashes, keep what follows the last slash left; [""] gives
    ["."] and a path of slashes gives ["/"]. *)
Definition path_Base (path : string) : string :=
  if bool_decide (path = "") then "."
  else
    let stripped := drop_while (λ c, bool_decide (c = slash)) (rev (str_to_list path)) in
    let base := take_while (λ c, bool_decide (c ≠ slash)) stripped in
    match base with
    | [] => "/"
    | _ => list_to_str (rev base)
    end.

(** ** Package strconv *)

Inductive num_error : Type := ErrSyntax | ErrRange.

#[export] Instance num_error_eq_dec : EqDecision num_error.
Proof. solve_decision. Defined.

Definition digit_val (c : ascii) : option Z :=
  let n := Z.of_N (N_of_ascii c) in
  if (48 <=? n) && (n <=? 57) then Some (n - 48) else None.

(** The digits of a non-empty decimal number. *)
Fixpoint parse_digits (acc : Z) (s : string) : option Z :=
  match s with
  | EmptyString => Some acc
  | String c s' =>
      match digit_val c with
      | Some d => parse_digits (acc * 10 + d) s'
      | None => None
      end
  end.

(** The number after the sign, in the range of [int]. *)
Definition Atoi_unsigned (neg : bool) (ds : string) : Z + num_error :=
  if bool_decide (ds = "") then inr ErrSyntax
  else match parse_digits 0 ds with
       | None => inr ErrSyntax
       | Some n =>
           let v := if neg then - n else n in
           if bool_decide (in_int64 v) then inl v else inr ErrRange
       end.

(** [strconv.Atoi]: an optional sign and decimal digits. *)
Definition Atoi (s : string) : Z + num_error :=
  match s with
  | String "-" s' => Atoi_unsigned true s'
  | String "+" s' => Atoi_unsigned false s'
  | _ => Atoi_unsigned false s
  end.

(** [strconv.ParseBool]. *)
Definition ParseBool (s : string) : bool + num_error :=
  if bool_decide (s ∈ ["1"; "t"; "T"; "true"; "TRUE"; "True"]) then inl true
  else if bool_decide (s ∈ ["0"; "f"; "F"; "false"; "FALSE"; "False"]) then inl false
  else inr ErrSyntax.

(** ** Package fmt *)

(** [%v] of a bool. *)
Definition show_bool (b : bool) : string := if b then "true" else "false".

(** The arguments that occur in formats: strings (and errors, printed by their
    text), integers, and a nil error. *)
Inductive fmt_arg : Type := AStr (s : string) | AInt (z : Z) | ANil.

Definition show_arg (a : fmt_arg) : string :=
  match a with AStr s => s | AInt z => pretty z | ANil => "<nil>" end.

(** The type name and value printed for an argument no verb consumed. *)
Definition show_extra (a : fmt_arg) : string :=
  match a with
  | AStr s => "string=" +:+ s
  | AInt z => "int=" +:+ pretty z
  | ANil => "<nil>"
  end.

Definition is_flag (c : ascii) : bool :=
  bool_decide (c ∈ ["#"; "0"; "+"; "-"; " "; "1"; "2"; "3"; "4"; "5"; "6"; "7"; "8"; "9"; "."]%char).

(** The scan of [fmt.Sprintf]: text is copied, [%%] prints a percent sign, a verb
    prints the next argument, a verb with no argument left prints a [MISSING]
    note and a format that ends inside a verb a [NOVERB] note.  [in_verb] says
    that the scan is between a percent sign and its verb.  (Flags and widths are
    read over: no format of the program pads; explicit argument indexes do not
    occur.) *)
Fixpoint fmt_scan (in_verb : bool) (args : list fmt_arg) (f : string) : string :=
  match f with
  | EmptyString =>
      (if in_verb then "%!(NOVERB)" else "") +:+
      match args with
      | [] => ""
      | a :: rest =>
          "%!(EXTRA " +:+ show_extra a +:+
          foldr (λ x acc, ", " +:+ show_extra x +:+ acc) ")" rest
      end
  | String c f' =>
      if in_verb then
        if is_flag c then fmt_scan true args f'
        else if bool_decide (c = "%"%char) then String "%" (fmt_scan false args f')
        else match args with
             | [] => "%!" +:+ String c ("(MISSING)" +:+ fmt_scan false [] f')
             | a :: rest => show_arg a +:+ fmt_scan false rest f'
             end
      else if bool_decide (c = "%"%char) then fmt_scan true args f'
      else String c (fmt_scan false args f')
  end.
Definition Sprintf (f : string) (args : list fmt_arg) : string := fmt_scan false args f.

(** ** Maps *)

(** Go leaves the order in which [range] visits a map unspecified: any function
    that lists every binding exactly once is a legal order. *)
Class MapOrder : Type := {
  range_map : ∀ {A : Type}, gmap string A → list (string * A);
  range_map_perm : ∀ A (m : gmap string A), range_map m ≡ₚ map_to_list m
}.

(** The order a concrete run uses in the examples. *)
#[export] Instance canonical_order : MapOrder | 100 := {|
  range_map A m := map_to_list m;
  range_map_perm A m := reflexivity _
|}.

(** ** Lemmas: machine integers *)

Lemma wrap_id bits z :
  0 < bits → - 2 ^ (bits - 1) ≤ z < 2 ^ (bits - 1) → wrap bits z = z.
Proof.
  intros Hb Hz. unfold wrap.
  assert (2 ^ bits = 2 * 2 ^ (bits - 1)) as Hp.
  { rewrite <- Z.pow_succ_r by lia. f_equal. lia. }
  rewrite Z.mod_small; lia.
Qed.

Lemma int64_id z : in_int64 z → int64 z = z.
Proof. intros Hz. apply wrap_id; [lia|]. exact Hz. Qed.

Lemma int32_id z : in_int32 z → int32 z = z.
Proof. intros Hz. apply wrap_id; [lia|]. exact Hz. Qed.

Lemma wrap_range bits z : 0 < bits → - 2 ^ (bits - 1) ≤ wrap bits z < 2 ^ (bits - 1).
Proof.
  intros Hb. unfold wrap.
  assert (2 ^ bits = 2 * 2 ^ (bits - 1)) as Hp.
  { rewrite <- Z.pow_succ_r by lia. f_equal. lia. }
  pose proof (Z.mod_pos_bound (z + 2 ^ (bits - 1)) (2 ^ bits)). lia.
Qed.

(** ** Lemmas: strings as lists of bytes *)

Lemma str_to_list_app s1 s2 : str_to_list (s1 +:+ s2) = str_to_list s1 ++ str_to_list s2.
Proof. induction s1 as [|c s1 IH]; simpl; [done|]. by f_equal. Qed.

Lemma list_to_str_to_list l : str_to_list (list_to_str l) = l.
Proof. induction l as [|c l IH]; simpl; [done|]. by f_equal. Qed.

Lemma str_to_list_to_str s : list_to_str (str_to_list s) = s.
Proof. induction s as [|c s IH]; simpl; [done|]. by f_equal. Qed.

Lemma str_to_list_length s : length (str_to_list s) = String.length s.
Proof. induction s as [|c s IH]; simpl; [done|]. by f_equal. Qed.

#[export] Instance str_to_list_inj : Inj (=) (=) str_to_list.
Proof. intros s1 s2 Hs. rewrite <- (str_to_list_to_str s1), Hs. apply str_to_list_to_str. Qed.

Lemma str_to_list_take n s : str_to_list (str_take n s) = take n (str_to_list s).
Proof. revert s. induction n as [|n IH]; intros [|c s]; simpl; [done..|]. by f_equal. Qed.

Lemma str_app_nil_r s : s +:+ "" = s.
Proof. apply (inj str_to_list). rewrite str_to_list_app. apply app_nil_r. Qed.

Lemma str_app_assoc s1 s2 s3 : (s1 +:+ s2) +:+ s3 = s1 +:+ (s2 +:+ s3).
Proof. apply (inj str_to_list). rewrite !str_to_list_app. symmetry. apply app_assoc. Qed.

(** The bytes of a string all satisfy [P]. *)
Definition str_Forall (P : ascii → Prop) (s : string) : Prop := Forall P (str_to_list s).

(** A separator absent from the heads splits a string uniquely. *)
Lemma split_at_sep (c : ascii) (l1 l2 r1 r2 : list ascii) :
  c ∉ l1 → c ∉ l2 → l1 ++ c :: r1 = l2 ++ c :: r2 → l1 = l2 ∧ r1 = r2.
Proof.
  revert l2. induction l1 as [|x l1 IH]; intros [|y l2]; rewrite ?not_elem_of_cons;
    intros H1 H2 Heq; simplify_eq/=; try tauto.
  destruct (IH l2) as [-> ->]; tauto.
Qed.

(** ** Lemmas: decimal numbers *)

Definition decimal_byte (c : ascii) : Prop := is_Some (digit_val c) ∨ c = "-"%char.

Lemma digit_val_pretty_char (x : N) :
  (x < 10)%N → digit_val (pretty_N_char x) = Some (Z.of_N x).
Proof.
  intros Hx.
  assert (x ∈ [0; 1; 2; 3; 4; 5; 6; 7; 8; 9]%N) as Hin.
  { rewrite !elem_of_cons. lia. }
  by repeat (apply elem_of_cons in Hin as [->|Hin]; [reflexivity|]); apply not_elem_of_nil in Hin.
Qed.

Lemma parse_digits_pretty_go (x : N) s acc :
  ∃ k, 0 ≤ k ∧ parse_digits acc (pretty_N_go x s) = parse_digits (acc * 10 ^ k + Z.of_N x) s.
Proof.
  revert s acc. induction (N.lt_wf_0 x) as [x _ IH]; intros s acc.
  destruct (decide (x = 0)%N) as [->|Hx].
  { exists 0. split; [lia|]. rewrite pretty_N_go_0. f_equal. lia. }
  rewrite pretty_N_go_step by lia.
  destruct (IH (x `div` 10)%N) with (s := String (pretty_N_char (x `mod` 10)) s) (acc := acc)
    as (k & Hk & ->); [apply N.div_lt; lia|].
  exists (k + 1). split; [lia|]. simpl.
  rewrite digit_val_pretty_char by (apply N.mod_lt; lia). f_equal.
  rewrite Z.pow_add_r, Z.pow_1_r, Z.mul_assoc by lia.
  generalize (acc * 10 ^ k). intros a. pose proof (N.div_mod x 10 ltac:(lia)). lia.
Qed.

Lemma parse_digits_pretty (x : N) : parse_digits 0 (pretty x) = Some (Z.of_N x).
Proof.
  unfold pretty, pretty_N. case_decide as Hx; [by subst|].
  destruct (parse_digits_pretty_go x "" 0) as (k & _ & ->). simpl. f_equal.
Qed.

(** The first byte of a number is a digit, and so are the others. *)
Lemma pretty_go_head (x : N) s :
  (0 < x)%N → ∃ d s', pretty_N_go x s = String d s' ∧ is_Some (digit_val d).
Proof.
  revert s. induction (N.lt_wf_0 x) as [x _ IH]; intros s Hx.
  rewrite pretty_N_go_step by lia.
  destruct (decide (x `div` 10 = 0)%N) as [E|E].
  - rewrite E, pretty_N_go_0. do 2 eexists. split; [done|].
    rewrite digit_val_pretty_char by (apply N.mod_lt; lia). eauto.
  - apply IH; [apply N.div_lt; lia|by apply N.neq_0_lt_0].
Qed.

Lemma pretty_N_head (x : N) : ∃ d s', pretty x = String d s' ∧ is_Some (digit_val d).
Proof.
  unfold pretty, pretty_N. case_decide as Hx; [by exists "0"%char, ""|].
  apply pretty_go_head. lia.
Qed.

Lemma pretty_go_bytes (x : N) s :
  str_Forall decimal_byte s → str_Forall decimal_byte (pretty_N_go x s).
Proof.
  revert s. induction (N.lt_wf_0 x) as [x _ IH]; intros s Hs.
  destruct (decide (x = 0)%N) as [->|Hx]; [by rewrite pretty_N_go_0|].
  rewrite pretty_N_go_step by lia. apply IH; [apply N.div_lt; lia|].
  constructor; [|done]. left.
  rewrite digit_val_pretty_char by (apply N.mod_lt; lia). eauto.
Qed.

Lemma pretty_N_bytes (x : N) : str_Forall decimal_byte (pretty x).
Proof.
  unfold pretty, pretty_N. case_decide.
  - constructor; [left; by eexists|constructor].
  - apply pretty_go_bytes. constructor.
Qed.

Lemma pretty_Z_eq (z : Z) :
  pretty z = if decide (z < 0) then "-" +:+ pretty (Z.to_N (- z)) else pretty (Z.to_N z).
Proof. destruct z; case_decide; try lia; reflexivity. Qed.

Lemma pretty_Z_bytes (z : Z) : str_Forall decimal_byte (pretty z).
Proof.
  rewrite pretty_Z_eq. case_decide; [|apply pretty_N_bytes].
  constructor; [by right|apply pretty_N_bytes].
Qed.

Lemma decimal_byte_digit_or_dash c : decimal_byte c → c ≠ "|"%char.
Proof. intros [[? Hd]|Hd] Hc; subst; done. Qed.

Lemma Atoi_unsigned_pretty neg (x : N) :
  let v := if (neg : bool) then - Z.of_N x else Z.of_N x in
  in_int64 v → Atoi_unsigned neg (pretty x) = inl v.
Proof.
  intros v Hv. unfold Atoi_unsigned. rewrite parse_digits_pretty.
  destruct (pretty_N_head x) as (d & s & Hp & _).
  rewrite bool_decide_false by (by rewrite Hp). by rewrite bool_decide_true.
Qed.

(** [strconv.Atoi] reads back what [%v] and [%d] print. *)
Lemma Atoi_pretty z : in_int64 z → Atoi (pretty z) = inl z.
Proof.
  intros Hz. rewrite pretty_Z_eq. case_decide as Hneg.
  - change (Atoi ("-" +:+ ?s)) with (Atoi_unsigned true s).
    rewrite Atoi_unsigned_pretty; rewrite Z2N.id by lia; rewrite Z.opp_involutive; done.
  - transitivity (Atoi_unsigned false (pretty (Z.to_N z))).
    + destruct (pretty_N_head (Z.to_N z)) as (d & s & -> & v & Hd).
      destruct d as [[] [] [] [] [] [] [] []]; done.
    + rewrite Atoi_unsigned_pretty; by rewrite Z2N.id by lia.
Qed.

(** ** Lemmas: letter case *)

Lemma ToLower_idemp s : ToLower (ToLower s) = ToLower s.
Proof.
  induction s as [|c s IH]; simpl; [done|]. rewrite IH. f_equal.
  by destruct c as [[] [] [] [] [] [] [] []].
Qed.

(** ** Lemmas: [strings.Replace] *)

Lemma prefix_nil s : String.prefix "" s = true.
Proof. by destruct s. Qed.

(** Removing every instance of a byte. *)
Lemma Replace_remove s (c : ascii) :
  str_to_list (Replace s (String c "") "" (-1)) = base.filter (λ d, d ≠ c) (str_to_list s).
Proof.
  unfold Replace. assert (∀ n, n < 0 →
    str_to_list (replace_from (String c "") "" n 0 s) = base.filter (λ d, d ≠ c) (str_to_list s)) as Hgen;
    [|by apply Hgen].
  induction s as [|d s IH]; intros n Hn; [done|]. cbn [replace_from str_to_list].
  rewrite bool_decide_false by lia. rewrite filter_cons. cbn [String.prefix].
  destruct (ascii_dec c d) as [->|Hne].
  - rewrite prefix_nil, decide_False by tauto. simpl. apply IH. lia.
  - rewrite decide_True by congruence. simpl. f_equal. by apply IH.
Qed.

(** A string without the first byte of the searched text is left alone. *)
Lemma Replace_absent s c old new n :
  c ∉ str_to_list s → Replace s (String c old) new n = s.
Proof.
  unfold Replace. induction s as [|d s IH]; [done|]. simpl. rewrite not_elem_of_cons.
  intros [Hne Hs]. case_bool_decide; [done|]. destruct (ascii_dec c d); [done|]. f_equal. auto.
Qed.

Lemma replace_from_0 old new s : replace_from old new 0 0 s = s.
Proof. by destruct s. Qed.

(** ** Lemmas: [path.Base] *)

Lemma drop_while_none f l : Forall (λ c, f c = false) l → drop_while f l = l.
Proof. destruct 1 as [|c l Hc]; simpl; [done|]. by rewrite Hc. Qed.

Lemma take_while_app f l1 c l2 :
  Forall (λ c, f c = true) l1 → f c = false → take_while f (l1 ++ c :: l2) = l1.
Proof. induction 1 as [|d l1 Hd _ IH]; intros Hc; simpl; [by rewrite Hc|]. rewrite Hd. f_equal. auto. Qed.

Lemma take_while_all f l : Forall (λ c, f c = true) l → take_while f l = l.
Proof. induction 1 as [|d l Hd _ IH]; simpl; [done|]. by rewrite Hd, IH. Qed.

(** The base of a path that ends in a name is the name. *)
Lemma path_Base_app dir name :
  name ≠ "" → slash ∉ str_to_list name → path_Base (dir +:+ "/" +:+ name) = name.
Proof.
  intros Hne Hs. unfold path_Base.
  assert (Forall (λ c, bool_decide (c = slash) = false) (rev (str_to_list name))) as H1.
  { apply Forall_forall. intros c Hc. apply bool_decide_eq_false. intros ->.
    apply Hs. by apply list_elem_of_In, in_rev, list_elem_of_In. }
  rewrite bool_decide_false by (by destruct dir). rewrite !str_to_list_app. simpl.
  rewrite rev_app_distr. simpl. rewrite <- app_assoc. simpl.
  destruct (rev (str_to_list name)) as [|c l] eqn:Hrev.
  { apply (f_equal (@rev ascii)) in Hrev. rewrite rev_involutive in Hrev.
    destruct Hne. by apply (inj str_to_list). }
  apply Forall_cons in H1 as [H0 H1]. simpl. rewrite H0. simpl.
  rewrite bool_decide_true by (by apply bool_decide_eq_false in H0).
  fold slash. rewrite take_while_app; [|eapply Forall_impl; [exact H1|]|done].
  - rewrite <- Hrev, rev_involutive. apply str_to_list_to_str.
  - intros d Hd. apply bool_decide_eq_true. by apply bool_decide_eq_false in Hd.
Qed.

(** ** Lemmas: formats *)

(** A format without a percent sign prints itself. *)
Lemma Sprintf_plain s : "%"%char ∉ str_to_list s → Sprintf s [] = s.
Proof.
  unfold Sprintf. induction s as [|c s IH]; [done|]. cbn [str_to_list fmt_scan].
  rewrite not_elem_of_cons. intros [Hc Hs]. rewrite bool_decide_false by congruence. by rewrite IH.
Qed.
