(* ===== verification/Quantity.v ===== *)
(** * k8s.io/apimachinery/pkg/api/resource: scaled values of quantities

    [Provision] reads the requested capacity with [Quantity.ScaledValue] and
    writes the granted one with [Quantity.SetScaled].  A quantity is a 64-bit
    integer with a decimal scale, or, when that does not fit, an arbitrary
    precision decimal.  Go's [/] and [%] truncate ([Z.quot], [Z.rem]). *)

From S2P Require Import Prelude GoStd.

(** [type int64Amount struct]: [value * 10^scale]. *)
Record int64Amount : Type := mkAmount { am_value : Z; am_scale : Z }.

(** [type Quantity struct]: [q_dec] is [d.Dec], with value
    [unscaled * 10^(-scale)]; it takes precedence over [q_i] when set. *)
Record Quantity : Type := mkQuantity { q_i : int64Amount; q_dec : option (Z * Z) }.

#[export] Instance int64Amount_eq_dec : EqDecision int64Amount.
Proof. solve_decision. Defined.
#[export] Instance Quantity_eq_dec : EqDecision Quantity.
Proof. solve_decision. Defined.

Definition zero_Quantity : Quantity := mkQuantity (mkAmount 0 0) None.

Definition Giga : Z := 9.
Definition mostNegative : Z := - 2 ^ 63.
Definition maxInt64 : Z := 2 ^ 63 - 1.

(** [func int64MultiplyScale(a int64, b int64) (int64, bool)] and its copies for
    the constants 10, 100 and 1000. *)
Definition int64MultiplyScale (a b : Z) : Z * bool :=
  if bool_decide (a = 0) || bool_decide (a = 1) then (int64 (a * b), true)
  else if bool_decide (a = mostNegative) && bool_decide (b ≠ 1) then (0, false)
  else let c := int64 (a * b) in (c, bool_decide (Z.quot c b = a)).

(** The default case of [positiveScaleInt64]: multiply by ten [n] times. *)
Fixpoint scale_up_loop (n : nat) (value : Z) : Z * bool :=
  match n with
  | O => (value, true)
  | S n' =>
      let '(v, ok) := int64MultiplyScale value 10 in
      if ok then scale_up_loop n' v else (0, false)
  end.

(** [func positiveScaleInt64(base int64, scale Scale) (int64, bool)]. *)
Definition positiveScaleInt64 (base scale : Z) : Z * bool :=
  if bool_decide (scale = 0) then (base, true)
  else if bool_decide (scale = 1) then int64MultiplyScale base 10
  else if bool_decide (scale = 2) then int64MultiplyScale base 100
  else if bool_decide (scale = 3) then int64MultiplyScale base 1000
  else if bool_decide (scale = 6) then int64MultiplyScale base 1000000
  else if bool_decide (scale = 9) then int64MultiplyScale base 1000000000
  else scale_up_loop (Z.to_nat scale) base.

(** The loop of [negativeScaleInt64] with its early return and the rounding after
    it; [value] and [fraction] are its variables. *)
Fixpoint scale_down_loop (n : nat) (base value : Z) (fraction : bool) : Z * bool :=
  match n with
  | O =>
      if fraction then (if bool_decide (base > 0) then int64 (value + 1) else int64 (value - 1), false)
      else (value, true)
  | S n' =>
      let fraction := fraction || negb (bool_decide (Z.rem value 10 = 0)) in
      let value := Z.quot value 10 in
      if bool_decide (value = 0) then
        if fraction then (if bool_decide (base > 0) then 1 else -1, false) else (0, true)
      else scale_down_loop n' base value fraction
  end.

(** [func negativeScaleInt64(base int64, scale Scale) (result int64, exact bool)]. *)
Definition negativeScaleInt64 (base scale : Z) : Z * bool :=
  if bool_decide (scale = 0) then (base, true)
  else scale_down_loop (Z.to_nat scale) base base false.

(** [func (a int64Amount) AsScaledInt64(scale Scale) (result int64, ok bool)];
    [Scale] is an [int32]. *)
Definition AsScaledInt64 (a : int64Amount) (scale : Z) : Z * bool :=
  if bool_decide (am_scale a < scale)
  then ((negativeScaleInt64 (am_value a) (int32 (scale - am_scale a))).1, true)
  else positiveScaleInt64 (am_value a) (int32 (am_scale a - scale)).

(** [int64(math.Pow10(n))] for [n ≥ 0]: exact up to 18; above, the conversion of
    an out-of-range float, which is the least integer on amd64. *)
Definition pow10_int64 (n : Z) : Z := if bool_decide (n <= 18) then 10 ^ n else mostNegative.

(** [func scaledValue(unscaled *big.Int, scale, newScale int) int64]. *)
Definition scaledValue (unscaled scale newScale : Z) : Z :=
  let dif := scale - newScale in
  if bool_decide (dif = 0) then int64 unscaled
  else if bool_decide (dif < 0) then int64 (int64 unscaled * pow10_int64 (- dif))
  else if bool_decide (unscaled < maxInt64) && bool_decide (dif < 19) then
    let divide := pow10_int64 dif in
    let result := Z.quot (int64 unscaled) divide in
    if bool_decide (Z.rem (int64 unscaled) divide = 0) then result else int64 (result + 1)
  else
    let divisor := 10 ^ dif in
    let result := unscaled / divisor in
    if bool_decide (unscaled mod divisor = 0) then int64 result else int64 (int64 result + 1).

(** [func (q *Quantity) ScaledValue(scale Scale) int64]. *)
Definition ScaledValue (q : Quantity) (scale : Z) : Z :=
  match q_dec q with
  | None => (AsScaledInt64 (q_i q) scale).1
  | Some (unscaled, s) => scaledValue unscaled s (- scale)
  end.

(** [func (q *Quantity) SetScaled(value int64, scale Scale)]. *)
Definition SetScaled (q : Quantity) (value scale : Z) : Quantity :=
  mkQuantity (mkAmount value scale) None.
