(* ===== verification/Kube.v ===== *)
(** * Requests to the Kubernetes API and to its client libraries

    What the controller asks of the API server and of the vendored client packages:
    client configurations, clients, the version of the server, the nodes and services
    of the informers' caches, patches of node conditions, updates of service
    statuses, storage classes and persistent volumes. *)

From S2P Require Import Prelude GoStd Quantity.

(** The parts of a node the route and service controllers read. *)
Record NodeCondition : Type := mkNodeCondition {
  nc_Type : string; nc_Status : string; nc_Reason : string; nc_Message : string }.
Record KNode : Type := mkKNode {
  kn_Name : string; kn_UID : string; kn_PodCIDR : string; kn_Conditions : list NodeCondition;
  kn_Unschedulable : bool; kn_Addresses : list (string * string) }.

(** The parts of a service the service controller reads; a nil map or slice is [None]
    where the code tells it from an empty one. *)
Record KServicePort : Type := mkKServicePort {
  ksp_Name : string; ksp_Protocol : string; ksp_Port : Z; ksp_NodePort : Z }.
Record LoadBalancerIngress : Type := mkIngress { ing_IP : string; ing_Hostname : string }.
Record KService : Type := mkKService {
  ks_Namespace : string; ks_Name : string; ks_UID : string;
  ks_Annotations : option (gmap string string);
  ks_Type : string; ks_Ports : list KServicePort; ks_SessionAffinity : string;
  ks_LoadBalancerIP : string; ks_LoadBalancerSourceRanges : option (list string);
  ks_ExternalIPs : list string;
  ks_Status : list LoadBalancerIngress }.

#[export] Instance LoadBalancerIngress_eq_dec : EqDecision LoadBalancerIngress.
Proof. solve_decision. Defined.

Definition set_ks_Status (s : KService) (status : list LoadBalancerIngress) : KService :=
  mkKService (ks_Namespace s) (ks_Name s) (ks_UID s) (ks_Annotations s) (ks_Type s) (ks_Ports s)
    (ks_SessionAffinity s) (ks_LoadBalancerIP s) (ks_LoadBalancerSourceRanges s) (ks_ExternalIPs s) status.

(** The parts of a claim and of a persistent volume that [Provision] and [Delete] read
    and write. *)
Record PersistentVolumeClaim : Type := mkPVC {
  pvc_has_Selector : bool; pvc_AccessModes : list string;
  pvc_Requests : gmap string Quantity; pvc_StorageClassName : option string }.

Record FlexVolumeSource : Type := mkFlexVolume {
  fv_Driver : string; fv_Options : gmap string string }.

Record PersistentVolume : Type := mkPV {
  pv_Name : string; pv_ReclaimPolicy : string; pv_AccessModes : list string;
  pv_Capacity : gmap string Quantity; pv_StorageClassName : string;
  pv_FlexVolume : option FlexVolumeSource }.

(** [v1.ObjectReference]. *)
Record ObjectReference : Type := mkReference {
  or_Kind : string; or_APIVersion : string; or_Namespace : string; or_Name : string;
  or_UID : string; or_ResourceVersion : string }.

(** A claim with its metadata, as the provision controller reads it; [cl_Rest] stands
    for the rest of the object, which is only compared. *)
Record KClaim : Type := mkKClaim {
  cl_Kind : string; cl_APIVersion : string; cl_SelfLink : string;
  cl_Namespace : string; cl_Name : string; cl_UID : string; cl_ResourceVersion : string;
  cl_Annotations : option (gmap string string);
  cl_VolumeName : string; cl_Spec : PersistentVolumeClaim; cl_Rest : string }.

#[export] Instance PersistentVolumeClaim_eq_dec : EqDecision PersistentVolumeClaim.
Proof. solve_decision. Defined.
#[export] Instance KClaim_eq_dec : EqDecision KClaim.
Proof. solve_decision. Defined.

(** A volume with the metadata, the reference and the status the provision controller
    reads and writes. *)
Record KVolume : Type := mkKVolume {
  kv_PV : PersistentVolume; kv_UID : string; kv_Annotations : option (gmap string string);
  kv_ClaimRef : option ObjectReference; kv_Phase : string }.

(** [storagev1.StorageClass]. *)
Record StorageClass : Type := mkStorageClass {
  sto_Name : string; sto_Provisioner : string; sto_Parameters : option (gmap string string) }.

(** An error of the API: a conflict, a missing object or another one. *)
Inductive api_error : Type :=
| Conflict (msg : string) | NotFoundError (msg : string) | OtherError (msg : string).

Definition IsConflict (e : api_error) : bool := match e with Conflict _ => true | _ => false end.

(** [clientcmd.ConfigOverrides]: the fields that have a flag. *)
Record ConfigOverrides : Type := mkOverrides {
  ov_ClientCertificate : string; ov_ClientKey : string; ov_Token : string;
  ov_Impersonate : string; ov_Username : string; ov_Password : string;
  ov_Server : string; ov_APIVersion : string; ov_CertificateAuthority : string;
  ov_InsecureSkipTLSVerify : bool;
  ov_Cluster : string; ov_AuthInfo : string; ov_Namespace : string;
  ov_CurrentContext : string; ov_Timeout : string }.

(** A client configuration: only handed on. *)
Definition RestConfig : Type := string.

Inductive kreq : Type → Type :=
| InClusterConfig : kreq (result RestConfig)
| BuildConfigFromFlags (masterUrl kubeconfigPath : string) : kreq (result RestConfig)
| ClientConfig (overrides : ConfigOverrides) : kreq (result RestConfig)
| KubernetesForConfig (config : RestConfig) : kreq (result unit)
| ClientKubernetesForConfig (config : RestConfig) : kreq (result unit)
| ServerVersion : kreq (result string)
| ListNodes : kreq (result (list KNode))
| SetNodeCondition (node : string) (condition : NodeCondition) : kreq (option api_error)
| GetService (namespace name : string) : kreq (KService + api_error)
| UpdateServiceStatus (service : KService) : kreq (option api_error)
(** The store of storage classes, which a reflector fills. *)
| GetClass (name : string) : kreq (option StorageClass)
| GetVolume (name : string) : kreq (KVolume + api_error)
| CreateVolume (volume : KVolume) : kreq (option api_error)
| DeleteVolume (name : string) : kreq (option api_error).
