(* ===== verification/Cloud.v ===== *)
(** * The Aliyun SDK and the outside of the program

    The data types of [github.com/denverdino/aliyungo] (with the fields the
    provider reads or writes), the SDK helpers the provider runs
    ([Pagination.Validate], [PaginationResult.NextPage], [Client.WaitForDisk]),
    and the signature [req] of the requests the program makes to the outside:
    the ECS and SLB services, the instance metadata service, the Kubernetes API, the
    host, the clock.
    The services themselves are not part of the repository: the program is
    verified for every handler of [req], and where a theorem needs the services
    to behave, it assumes laws stated in the file that uses them. *)

From S2P Require Import Prelude GoStd Kube.

(** ** SDK data *)

Record Pagination : Type := mkPagination { pg_PageNumber : Z; pg_PageSize : Z }.

Record PaginationResult : Type := mkPaginationResult {
  pr_TotalCount : Z; pr_PageNumber : Z; pr_PageSize : Z }.

(** [func (p *Pagination) Validate()]. *)
Definition Validate (p : Pagination) : Pagination :=
  let n := if bool_decide (pg_PageNumber p < 0) then 1 else pg_PageNumber p in
  let s := if bool_decide (pg_PageSize p < 0) then 10
           else if bool_decide (pg_PageSize p > 50) then 50 else pg_PageSize p in
  mkPagination n s.

(** [func (r *PaginationResult) NextPage() *Pagination]. *)
Definition NextPage (r : PaginationResult) : option Pagination :=
  if bool_decide (int64 (pr_PageNumber r * pr_PageSize r) >= pr_TotalCount r) then None
  else Some (mkPagination (int64 (pr_PageNumber r + 1)) (pr_PageSize r)).

Definition DiskCategoryCloud : string := "cloud".
Definition DiskCategoryEphemeral : string := "ephemeral".
Definition DiskCategoryEphemeralSSD : string := "ephemeral_ssd".
Definition DiskCategoryCloudEfficiency : string := "cloud_efficiency".
Definition DiskCategoryCloudSSD : string := "cloud_ssd".

Definition DiskStatusInUse : string := "In_use".
Definition DiskStatusAvailable : string := "Available".
Definition DiskStatusAttaching : string := "Attaching".
Definition DiskStatusDetaching : string := "Detaching".

Record DescribeDisksArgs : Type := mkDescribeDisksArgs {
  dd_RegionId : string; dd_DiskIds : list string; dd_InstanceId : string;
  dd_Pagination : Pagination }.

Record DiskItemType : Type := mkDiskItem {
  di_DiskId : string; di_Status : string; di_InstanceId : string; di_Device : string }.

Record CreateDiskArgs : Type := mkCreateDiskArgs {
  cd_RegionId : string; cd_ZoneId : string; cd_DiskCategory : string;
  cd_DiskName : string; cd_Size : Z }.

Record AttachDiskArgs : Type := mkAttachDiskArgs {
  ad_InstanceId : string; ad_DiskId : string; ad_DeleteWithInstance : bool }.

Record DescribeInstancesArgs : Type := mkDescribeInstancesArgs {
  dis_RegionId : string; dis_VpcId : string; dis_Pagination : Pagination }.

(** [i_PrivateIpAddress] is [VpcAttributes.PrivateIpAddress.IpAddress]. *)
Record InstanceAttributesType : Type := mkInstance {
  i_InstanceId : string; i_HostName : string; i_PrivateIpAddress : list string }.

Definition NextHopIntance : string := "Instance".

Record RouteEntrySetType : Type := mkRouteEntry {
  re_DestinationCidrBlock : string; re_NextHopType : string; re_InstanceId : string }.

Record RouteTableSetType : Type := mkRouteTable {
  rt_VRouterId : string; rt_RouteTableId : string; rt_RouteEntry : list RouteEntrySetType }.

Record DescribeRouteTablesArgs : Type := mkDescribeRouteTablesArgs {
  drt_VRouterId : string; drt_RouteTableId : string; drt_Pagination : Pagination }.

(** The arguments of [CreateRouteEntry] and [DeleteRouteEntry] that the provider
    sets (it leaves the next hop type to its default, the instance). *)
Record RouteEntryArgs : Type := mkRouteEntryArgs {
  rea_RouteTableId : string; rea_DestinationCidrBlock : string; rea_NextHopId : string }.

Record DescribeVSwitchesArgs : Type := mkDescribeVSwitchesArgs {
  dv_VpcId : string; dv_VSwitchId : string; dv_Pagination : Pagination }.

Record VSwitchSetType : Type := mkVSwitch { vs_VSwitchId : string; vs_ZoneId : string }.

Definition InternetAddressType : string := "internet".
Definition TCPHealthCheckType : string := "tcp".
Definition Stopped : string := "stopped".
Definition Running : string := "running".

Record ListenerPortAndProtocolType : Type := mkListenerPP {
  lp_ListenerPort : Z; lp_ListenerProtocol : string }.

Record BackendServerType : Type := mkBackendServer { bs_ServerId : string; bs_Weight : Z }.

Record LoadBalancerType : Type := mkLoadBalancer {
  lb_LoadBalancerId : string; lb_LoadBalancerName : string; lb_Address : string;
  lb_ListenerPortAndProtocol : list ListenerPortAndProtocolType;
  lb_BackendServer : list BackendServerType }.

Record CreateLoadBalancerArgs : Type := mkCreateLoadBalancerArgs {
  cl_RegionId : string; cl_LoadBalancerName : string; cl_AddressType : string;
  cl_InternetChargeType : string; cl_Bandwidth : Z; cl_ClientToken : string }.

(** The part of [TCPListenerType] and [UDPListenerType] the provider fills in.
    [la_HealthCheckType] is sent for TCP only. *)
Record ListenerArgs : Type := mkListenerArgs {
  la_LoadBalancerId : string; la_ListenerPort : Z; la_BackendServerPort : Z;
  la_Bandwidth : Z; la_HealthCheckType : string; la_HealthCheckConnectPort : Z;
  la_HealthyThreshold : Z; la_UnhealthyThreshold : Z;
  la_HealthCheckConnectTimeout : Z; la_HealthCheckInterval : Z }.

(** The part of a listener attribute response the provider reads. *)
Record ListenerAttribute : Type := mkListenerAttribute {
  at_BackendServerPort : Z; at_Status : string }.

(** ** Requests to the outside *)

Inductive req : Type → Type :=
(* ECS *)
| DescribeDisks (args : DescribeDisksArgs) : req (result (list DiskItemType * PaginationResult))
| CreateDisk (args : CreateDiskArgs) : req (result string)
| DeleteDisk (diskId : string) : req (result unit)
| AttachDisk (args : AttachDiskArgs) : req (result unit)
| DetachDisk (instanceId diskId : string) : req (result unit)
| DescribeInstances (args : DescribeInstancesArgs) :
    req (result (list InstanceAttributesType * PaginationResult))
| DescribeRouteTables (args : DescribeRouteTablesArgs) :
    req (result (list RouteTableSetType * PaginationResult))
| CreateRouteEntry (args : RouteEntryArgs) : req (result unit)
| DeleteRouteEntry (args : RouteEntryArgs) : req (result unit)
| DescribeVSwitches (args : DescribeVSwitchesArgs) :
    req (result (list VSwitchSetType * PaginationResult))
(* SLB *)
| DescribeLoadBalancers (regionId : string) : req (result (list LoadBalancerType))
| DescribeLoadBalancerAttribute (loadBalancerId : string) : req (result LoadBalancerType)
| CreateLoadBalancer (args : CreateLoadBalancerArgs) : req (result string)
| DeleteLoadBalancer (loadBalancerId : string) : req (result unit)
| DescribeLoadBalancerTCPListenerAttribute (loadBalancerId : string) (port : Z) :
    req (result ListenerAttribute)
| DescribeLoadBalancerUDPListenerAttribute (loadBalancerId : string) (port : Z) :
    req (result ListenerAttribute)
| CreateLoadBalancerTCPListener (args : ListenerArgs) : req (result unit)
| CreateLoadBalancerUDPListener (args : ListenerArgs) : req (result unit)
| DeleteLoadBalancerListener (loadBalancerId : string) (port : Z) : req (result unit)
| StartLoadBalancerListener (loadBalancerId : string) (port : Z) : req (result unit)
| AddBackendServers (loadBalancerId : string) (servers : list BackendServerType) : req (result unit)
| RemoveBackendServers (loadBalancerId : string) (servers : list string) : req (result unit)
(* instance metadata *)
| MetaRegion : req (result string)
| MetaInstanceID : req (result string)
| MetaVpcID : req (result string)
| MetaVswitchID : req (result string)
(* the host *)
| StatIsNotExist (dir : string) : req bool
| MkdirAll (dir : string) (mode : Z) : req (result unit)
| FormatAndMount (device dir fstype : string) (flags : list string) : req (result unit)
| Unmount (dir : string) : req (result unit)
(* the process: clock, randomness, standard output *)
| Sleep (seconds : Z) : req unit
| CreateRandomString : req string
| Print (text : string) : req unit
(* Kubernetes *)
| Kube {R : Type} (k : kreq R) : req R.

(** The requests that change the cloud's resources, or the cluster's nodes. *)
Definition mutating {R} (e : req R) : bool :=
  match e with
  | CreateDisk _ | DeleteDisk _ | AttachDisk _ | DetachDisk _ _
  | CreateRouteEntry _ | DeleteRouteEntry _
  | CreateLoadBalancer _ | DeleteLoadBalancer _
  | CreateLoadBalancerTCPListener _ | CreateLoadBalancerUDPListener _
  | DeleteLoadBalancerListener _ _ | StartLoadBalancerListener _ _
  | AddBackendServers _ _ | RemoveBackendServers _ _ => true
  | Kube k =>
      match k with
      | SetNodeCondition _ _ | UpdateServiceStatus _ | CreateVolume _ | DeleteVolume _ => true
      | _ => false
      end
  | _ => false
  end.

Definition ev_mutating (ev : event req) : bool :=
  match ev with Ev e _ => mutating e end.

(** An event that leaves the cloud's resources alone. *)
Definition read_only (ev : event req) : Prop := ev_mutating ev = false.

(** The mutating part of a trace. *)
Definition mutations (t : list (event req)) : list (event req) :=
  base.filter (λ ev, ev_mutating ev = true) t.

Lemma mutations_app t1 t2 : mutations (t1 ++ t2) = mutations t1 ++ mutations t2.
Proof. apply filter_app. Qed.

Lemma read_only_mutations t : Forall read_only t → mutations t = [].
Proof.
  unfold mutations, read_only. induction 1 as [|ev t Hev _ IH]; [done|].
  rewrite filter_cons_False; [done|]. by rewrite Hev.
Qed.

Lemma mutations_read_only_app t t' : Forall read_only t → mutations (t ++ t') = mutations t'.
Proof. intros Ht. by rewrite mutations_app, (read_only_mutations t). Qed.

Lemma mutations_cons_read_only ev t :
  Forall read_only t → ev_mutating ev = true → mutations (ev :: t) = [ev].
Proof.
  intros Ht Hev. unfold mutations. rewrite filter_cons_True by done.
  f_equal. by apply read_only_mutations.
Qed.

(** The number of disk descriptions a trace has. *)
Definition is_poll (ev : event req) : bool :=
  match ev with Ev e _ => match e with DescribeDisks _ => true | _ => false end end.
Definition polls (t : list (event req)) : Z :=
  Z.of_nat (length (base.filter (λ ev, is_poll ev = true) t)).

Lemma polls_cons ev t : polls (ev :: t) = (if is_poll ev then 1 else 0) + polls t.
Proof.
  unfold polls. rewrite filter_cons. destruct (is_poll ev).
  - rewrite decide_True by done. simpl length. lia.
  - by rewrite decide_False by done.
Qed.

(** ** SDK operations *)

Abbreviation go := (M req).

(** The error [common.GetClientErrorFromString] builds, as text. *)
Definition GetClientErrorFromString (str : string) : error :=
  Sprintf "Aliyun API Error: RequestId: %s Status Code: %d Code: %s Message: %s"
    [AStr ""; AInt (-1); AStr "AliyunGoClientFailure"; AStr str].

Definition DefaultWaitForInterval : Z := 5.
Definition DefaultTimeout : Z := 60.

Section sdk.
Context {W : Type} `{!Handler req W}.

(** The polling loop of [WaitForDisk]; [fuel] bounds the rounds. *)
Fixpoint waitForDisk_loop (fuel : nat) (args : DescribeDisksArgs) (status : string)
    (timeout : Z) : go W (result unit) :=
  match fuel with
  | O => out_of_fuel
  | S fuel' =>
      r ← call (DescribeDisks args);
      match r with
      | Err e => mret (Err e)
      | Ok ([], _) => mret (Err (GetClientErrorFromString "Not found"))
      | Ok (disk :: _, _) =>
          if bool_decide (di_Status disk = status) then mret (Ok tt)
          else
            let timeout' := int64 (timeout - DefaultWaitForInterval) in
            if bool_decide (timeout' <= 0)
            then mret (Err (GetClientErrorFromString "Timeout"))
            else _ ← call (Sleep DefaultWaitForInterval);
                 waitForDisk_loop fuel' args status timeout'
      end
  end.

(** [func (client *Client) WaitForDisk(...)]: the timeout shrinks by
    [DefaultWaitForInterval] a round, so as many rounds as the timeout has
    seconds are enough. *)
Definition WaitForDisk (regionId diskId status : string) (timeout : Z) : go W (result unit) :=
  let timeout := if bool_decide (timeout <= 0) then DefaultTimeout else timeout in
  let args := mkDescribeDisksArgs regionId [diskId] "" (mkPagination 0 0) in
  waitForDisk_loop (Z.to_nat timeout) args status timeout.

(** ** [WaitForDisk] ends *)

Lemma waitForDisk_loop_total fuel args status timeout :
  0 < timeout < 2 ^ 63 → timeout ≤ Z.of_nat fuel →
  total (waitForDisk_loop fuel args status timeout).
Proof.
  revert timeout. induction fuel as [|fuel IH]; intros timeout Ht Hf; [lia|]. simpl.
  apply total_bind; [apply total_call|]. intros [[[|disk disks] pr]|e]; [apply total_ret| |apply total_ret].
  case_bool_decide; [apply total_ret|]. case_bool_decide as Hz; [apply total_ret|].
  apply total_bind; [apply total_call|]. intros _.
  unfold DefaultWaitForInterval in *. rewrite int64_id in * by (unfold in_int64; lia).
  apply IH; lia.
Qed.

Lemma WaitForDisk_total regionId diskId status timeout :
  in_int64 timeout → total (WaitForDisk regionId diskId status timeout).
Proof.
  intros Ht. unfold in_int64 in Ht. unfold WaitForDisk. apply waitForDisk_loop_total;
    case_bool_decide; unfold DefaultTimeout; lia.
Qed.

Lemma waitForDisk_loop_polls fuel args status timeout w :
  0 < timeout < 2 ^ 63 →
  wp (waitForDisk_loop fuel args status timeout)
    (λ _ _ t, DefaultWaitForInterval * (polls t - 1) < timeout) w.
Proof.
  revert timeout w. induction fuel as [|fuel IH]; intros timeout w Ht; simpl.
  { rewrite wp_out_of_fuel. unfold polls, DefaultWaitForInterval. simpl. lia. }
  assert (∀ r, DefaultWaitForInterval * (polls [Ev (DescribeDisks args) r] - 1) < timeout) as H1.
  { intros r. unfold polls, DefaultWaitForInterval. simpl. lia. }
  rewrite wp_bind, wp_call. destruct (handle (DescribeDisks args) w) as [[[[|disk disks] pr]|e] w1]; simpl.
  - rewrite wp_ret. apply H1.
  - case_bool_decide; [rewrite wp_ret; apply H1|].
    case_bool_decide as Hz; [rewrite wp_ret; apply H1|].
    rewrite int64_id in * by (unfold in_int64, DefaultWaitForInterval; lia).
    rewrite wp_bind, wp_call. eapply wp_mono; [apply IH; unfold DefaultWaitForInterval in *; lia|].
    intros o w2 t Hp. simpl. rewrite !polls_cons. simpl. unfold DefaultWaitForInterval in *. lia.
  - rewrite wp_ret. apply H1.
Qed.

(** Waiting for a disk only reads. *)
Lemma waitForDisk_loop_read_only fuel args status timeout :
  emits read_only (waitForDisk_loop fuel args status timeout).
Proof.
  revert timeout. induction fuel as [|fuel IH]; intros timeout; simpl; go_struct; done.
Qed.

Lemma WaitForDisk_read_only regionId diskId status timeout :
  emits read_only (WaitForDisk regionId diskId status timeout).
Proof. apply waitForDisk_loop_read_only. Qed.

(** [WaitForDisk] ends: with the default timeout it returns after at most
    twelve descriptions of the disk, and it changes nothing. *)
Theorem WaitForDisk_bounded regionId diskId status (w : W) :
  ∃ r w' t, WaitForDisk regionId diskId status 0 w = (Ret r, w', t) ∧
    Forall read_only t ∧ polls t ≤ 12.
Proof.
  destruct (WaitForDisk_total regionId diskId status 0 ltac:(done) w) as [r Hr].
  pose proof (WaitForDisk_read_only regionId diskId status 0 w) as Ht.
  pose proof (waitForDisk_loop_polls (Z.to_nat DefaultTimeout)
    (mkDescribeDisksArgs regionId [diskId] "" (mkPagination 0 0)) status DefaultTimeout w
    ltac:(unfold DefaultTimeout; lia)) as Hp.
  change (waitForDisk_loop _ _ _ _) with (WaitForDisk regionId diskId status 0) in Hp.
  unfold wp, trace_of, outcome_of in *. destruct (WaitForDisk regionId diskId status 0 w) as [[o w'] t].
  simpl in *. subst o. exists r, w', t. split_and!; [done..|].
  unfold DefaultTimeout, DefaultWaitForInterval in Hp. lia.
Qed.

End sdk.

#[export] Hint Resolve WaitForDisk_read_only : go.
