(* ===== verification/MapUtils.v ===== *)
(** * pkg/util/map_utils.go: string maps and tagged structs

    [MapToStruct], [StructToMap], [MapCopy] and [MapEqual] work by reflection.
    A Go value of type [interface{}] is described by what reflection sees of it:
    whether it is nil, a pointer, a struct with its fields (name, ["k8s"] tag,
    kind, whether it is exported, whether its type is the predeclared type of its
    kind) or a map with its key and element types.  A reflection panic inside
    these functions is recovered into an error; fields or keys written before
    it stay written. *)

From S2P Require Import Prelude GoStd.

(** ** Values and types seen through reflection *)

Inductive Kind : Type := Int | Bool | Float32 | Float64 | Str | Other.

#[export] Instance Kind_eq_dec : EqDecision Kind.
Proof. solve_decision. Defined.

(** Floating-point conversion of package [strconv] and of the verb [%v]: none of
    the program's structs has a float field, so the values are abstract. *)
Class FloatConv : Type := {
  float : Type;
  ParseFloat : Z → string → float + num_error;
  show_float : Z → float → string;
  ParseFloat_show : ∀ bits f, ParseFloat bits (show_float bits f) = inl f
}.

(** Floats known by their text: the conversions do nothing. *)
#[export] Instance text_float : FloatConv | 100 := {|
  float := string;
  ParseFloat _ s := inl s;
  show_float _ f := f;
  ParseFloat_show _ _ := eq_refl
|}.

Section map_utils.
Context `{FloatConv}.

(** A value stored in a field; [VOther] is a value of a kind the code does not
    support, known by its [%v] text. *)
Inductive Value : Type :=
| VInt (z : Z)
| VBool (b : bool)
| VFloat32 (f : float)
| VFloat64 (f : float)
| VStr (s : string)
| VOther (shown : string).

(** A struct field: [f_plain] holds when the field's type is the predeclared type
    of its kind ([string], [int], ...), not a named type over it. *)
Record Field : Type := mkField {
  f_name : string; f_tag : string; f_kind : Kind;
  f_exported : bool; f_plain : bool; f_value : Value }.

Definition set_value (f : Field) (v : Value) : Field :=
  mkField (f_name f) (f_tag f) (f_kind f) (f_exported f) (f_plain f) v.

(** The argument [out] of [MapToStruct] and [in] of [StructToMap]. *)
Inductive Any : Type :=
| AnyNil
| AnyStruct (fs : list Field)
| AnyPtrStruct (fs : list Field)
| AnyPtrOther
| AnyOther.

Inductive ConvError : Type :=
| NilMap
| NotStruct
| UnmatchType (field : string) (e : option num_error)
| Recovered (panic : string).

(** ** MapToStruct *)

(** The conversion [switch] on the field's kind; [None] in the error says that
    the kind is not supported. *)
Definition convert (k : Kind) (s : string) : Value + option num_error :=
  let lift {A} (f : A → Value) (r : A + num_error) : Value + option num_error :=
    match r with inl a => inl (f a) | inr e => inr (Some e) end in
  match k with
  | Int => lift VInt (Atoi s)
  | Bool => lift VBool (ParseBool s)
  | Float32 => lift VFloat32 (ParseFloat 32 s)
  | Float64 => lift VFloat64 (ParseFloat 64 s)
  | Str => inl (VStr s)
  | Other => inr None
  end.

(** The loop over the fields: the fields as they are left, and the error. *)
Fixpoint MapToStruct_fields (m : gmap string string) (keyPrefix : string)
    (fs : list Field) : list Field * option ConvError :=
  match fs with
  | [] => ([], None)
  | f :: fs' =>
      let continue f := let '(rest, e) := MapToStruct_fields m keyPrefix fs' in (f :: rest, e) in
      if bool_decide (f_tag f = "") then continue f
      else match m !! (keyPrefix +:+ f_tag f) with
           | None => continue f
           | Some s =>
               match convert (f_kind f) s with
               | inr e => (fs, Some (UnmatchType (f_name f) e))
               | inl v =>
                   if f_exported f && f_plain f then continue (set_value f v)
                   else (fs, Some (Recovered "reflect.Set"))
               end
           end
  end.

(** [func MapToStruct(in map[string]string, out interface{}, keyPrefix string)]:
    [out] as it is left, and the error. *)
Definition MapToStruct (m : option (gmap string string)) (out : Any) (keyPrefix : string) :
    Any * option ConvError :=
  match m with
  | None => (out, Some NilMap)
  | Some m =>
      match out with
      | AnyNil => (out, Some (Recovered "reflect.TypeOf"))
      | AnyStruct _ | AnyPtrOther | AnyOther => (out, Some NotStruct)
      | AnyPtrStruct fs =>
          let '(fs', e) := MapToStruct_fields m keyPrefix fs in (AnyPtrStruct fs', e)
      end
  end.

(** ** StructToMap *)

(** [fmt.Sprintf("%v", value)]. *)
Definition show_value (v : Value) : string :=
  match v with
  | VInt z => pretty z
  | VBool b => show_bool b
  | VFloat32 f => show_float 32 f
  | VFloat64 f => show_float 64 f
  | VStr s => s
  | VOther s => s
  end.

Fixpoint StructToMap_fields (fs : list Field) (out : gmap string string) (prefix : string) :
    gmap string string * option ConvError :=
  match fs with
  | [] => (out, None)
  | f :: fs' =>
      if bool_decide (f_tag f = "") then StructToMap_fields fs' out prefix
      else if f_exported f
      then StructToMap_fields fs' (<[prefix +:+ f_tag f := show_value (f_value f)]> out) prefix
      else (out, Some (Recovered "reflect.Interface"))
  end.

(** [func StructToMap(in interface{}, out map[string]string, prefix string)]. *)
Definition StructToMap (input : Any) (out : option (gmap string string)) (prefix : string) :
    option (gmap string string) * option ConvError :=
  match out with
  | None => (None, Some NilMap)
  | Some m =>
      match input with
      | AnyStruct fs | AnyPtrStruct fs =>
          let '(m', e) := StructToMap_fields fs m prefix in (Some m', e)
      | AnyNil => (out, Some (Recovered "reflect.TypeOf"))
      | AnyPtrOther | AnyOther => (out, Some NotStruct)
      end
  end.

(** ** MapCopy and MapEqual *)

(** A map type: the kinds and the types of its keys and elements, and its own
    name (which a named map type does not share with [map[K]V]).  The contents of
    a map are string keys and string elements. *)
Record MapType : Type := mkMapType {
  mt_key : Kind; mt_elem : Kind; mt_key_type : string; mt_elem_type : string;
  mt_name : string }.

#[export] Instance MapType_eq_dec : EqDecision MapType.
Proof. solve_decision. Defined.

(** An [interface{}] that may hold a map; [None] contents is a nil map. *)
Inductive AnyMap : Type :=
| MNil
| MNotMap
| MMap (t : MapType) (m : option (gmap string string)).

(** The elements of one map may be stored in the other. *)
Definition assignable (t1 t2 : MapType) : bool :=
  bool_decide (mt_key_type t1 = mt_key_type t2) && bool_decide (mt_elem_type t1 = mt_elem_type t2).

Definition kinds_match (t1 t2 : MapType) : bool :=
  bool_decide (mt_key t1 = mt_key t2) && bool_decide (mt_elem t1 = mt_elem t2).

Inductive CopyError : Type := DstNil | TypesDontMatch | CopyRecovered (panic : string).

(** [func MapCopy(dst interface{}, src interface{})]: [dst] as it is left, and
    the error.  Writing to a nil map, or a key or element of another type, panics
    at the first key and is recovered. *)
Definition MapCopy (dst src : AnyMap) : AnyMap * option CopyError :=
  match src with
  | MNil => (dst, None)
  | _ =>
      match dst with
      | MNil => (dst, Some DstNil)
      | _ =>
          match src, dst with
          | MMap ts ms, MMap td md =>
              if kinds_match ts td then
                let s := default ∅ ms in
                if bool_decide (s = ∅) then (dst, None)
                else match md with
                     | Some d => if assignable ts td then (MMap td (Some (s ∪ d)), None)
                                 else (dst, Some (CopyRecovered "reflect.SetMapIndex"))
                     | None => (dst, Some (CopyRecovered "reflect.SetMapIndex"))
                     end
              else (dst, Some TypesDontMatch)
          | _, _ => (dst, Some TypesDontMatch)
          end
      end
  end.

(** [func MapEqual(dst interface{}, src interface{}) bool]; the type of a nil
    interface has no kind, which panics and is recovered into [false]. *)
Definition MapEqual (dst src : AnyMap) : bool :=
  match src, dst with
  | MMap ts ms, MMap td md =>
      if kinds_match ts td then
        if bool_decide (default ∅ ms = (∅ : gmap string string)) &&
           bool_decide (default ∅ md = (∅ : gmap string string)) then true
        else bool_decide (ts = td) && bool_decide (ms = md)
      else false
  | _, _ => false
  end.

End map_utils.
