(* ===== verification/Provider.v ===== *)
(** * pkg/cloudprovider and the provider object

    [provider.go]'s registry of provider factories, [volume.go]'s flex-volume
    statuses, and [aliyun.go]: the provider's configuration and how
    [NewProvider] builds it from the environment and the metadata service. *)

From S2P Require Import Prelude GoStd Cloud.

(** ** aliyun.go *)

Definition AliyunAnnotationPrefix : string := "aliyun.archon.kubeup.com/".
Definition ProviderName : string := "aliyun".

(** [type NodeNameType string] and its two constants. *)
Definition NodeNameType : Type := string.
Definition NodeNameTypePrivateIP : NodeNameType := "private-ip".
Definition NodeNameTypeHostname : NodeNameType := "hostname".

(** [type AliyunProvider struct]; the three API clients are the handler of the
    requests, [loadbalancer] is never set. *)
Record AliyunProvider : Type := mkProvider {
  accessKey : string; accessKeySecret : string;
  region : string; zone : string; vpcID : string; vrouterID : string;
  vswitch : string; routeTable : string; instance : string;
  hostname : string; nodeNameType : NodeNameType }.

(** The [switch] on ALIYUN_NODE_NAME_TYPE. *)
Definition parse_nodeNameType (s : string) : NodeNameType :=
  if bool_decide (s = NodeNameTypePrivateIP) then NodeNameTypePrivateIP
  else if bool_decide (s = NodeNameTypeHostname) then NodeNameTypeHostname
  else NodeNameTypePrivateIP.

(** The provider before the metadata service is asked.  [env] is [os.Getenv]
    (the empty string for an unset variable), [host] the host name, empty when
    [os.Hostname] fails. *)
Definition provider_from_env (env : string → string) (host : string) : AliyunProvider :=
  mkProvider (env "ALIYUN_ACCESS_KEY") (env "ALIYUN_ACCESS_KEY_SECRET")
    (env "ALIYUN_REGION") (env "ALIYUN_ZONE") (env "ALIYUN_VPC") (env "ALIYUN_ROUTER")
    (env "ALIYUN_VSWITCH") (env "ALIYUN_ROUTE_TABLE") (env "ALIYUN_INSTANCE")
    host (parse_nodeNameType (env "ALIYUN_NODE_NAME_TYPE")).

Definition with_region (p : AliyunProvider) (r : string) : AliyunProvider :=
  mkProvider (accessKey p) (accessKeySecret p) r (zone p) (vpcID p) (vrouterID p)
    (vswitch p) (routeTable p) (instance p) (hostname p) (nodeNameType p).
Definition with_instance (p : AliyunProvider) (i : string) : AliyunProvider :=
  mkProvider (accessKey p) (accessKeySecret p) (region p) (zone p) (vpcID p) (vrouterID p)
    (vswitch p) (routeTable p) i (hostname p) (nodeNameType p).
Definition with_vpcID (p : AliyunProvider) (v : string) : AliyunProvider :=
  mkProvider (accessKey p) (accessKeySecret p) (region p) (zone p) v (vrouterID p)
    (vswitch p) (routeTable p) (instance p) (hostname p) (nodeNameType p).
Definition with_vswitch (p : AliyunProvider) (v : string) : AliyunProvider :=
  mkProvider (accessKey p) (accessKeySecret p) (region p) (zone p) (vpcID p) (vrouterID p)
    v (routeTable p) (instance p) (hostname p) (nodeNameType p).

(** The value of a metadata call whose error is dropped: [""] on error. *)
Definition value_or_empty (r : result string) : string :=
  match r with Ok s => s | Err _ => "" end.
Definition is_err {A} (r : result A) : bool :=
  match r with Ok _ => false | Err _ => true end.

Section provider.
Context {W : Type} `{!Handler req W}.

(** [func NewProvider() cloudprovider.Provider]. *)
Definition NewProvider (env : string → string) (host : string) : go W AliyunProvider :=
  let p := provider_from_env env host in
  '(p, metaFailed) ←
    (if bool_decide (region p = "") then
       r ← call MetaRegion; mret (with_region p (value_or_empty r), is_err r)
     else mret (p, false));
  p ← (if bool_decide (instance p = "") && negb metaFailed then
         r ← call MetaInstanceID; mret (with_instance p (value_or_empty r))
       else mret p);
  p ← (if bool_decide (vpcID p = "") && negb metaFailed then
         r ← call MetaVpcID; mret (with_vpcID p (value_or_empty r))
       else mret p);
  (if bool_decide (vswitch p = "") && negb metaFailed then
     r ← call MetaVswitchID; mret (with_vswitch p (value_or_empty r))
   else mret p).

End provider.

(** ** provider.go: the registry *)

(** [var providers = make(map[string]ProviderFactory)]. *)
Definition RegisterProvider {F : Type} (providers : gmap string F) (name : string) (p : F) :
    gmap string F :=
  <[name := p]> providers.

(** [func GetProvider(name string) (Provider, error)]: the factory registered
    under the name is run. *)
Definition GetProvider {P W : Type} (providers : gmap string (go W P)) (name : string) :
    go W (result P) :=
  match providers !! name with
  | Some p => x ← p; mret (Ok x)
  | None => mret (Err ("No such provider: " +:+ name))
  end.

(** ** volume.go: flex-volume statuses *)

Definition StatusSuccess : string := "Success".
Definition StatusFailure : string := "Failed".
Definition StatusNotSupported : string := "Not supported".

(** [type VolumeError flexvolume.DriverStatus]: the json response of a volume
    operation, also of a successful one. *)
Record VolumeError : Type := mkVolumeError {
  ve_Status : string; ve_Message : string; ve_DevicePath : string;
  ve_VolumeName : string; ve_Attached : bool }.

#[export] Instance VolumeError_eq_dec : EqDecision VolumeError.
Proof. solve_decision. Defined.

(** [func (v VolumeError) Error() string]. *)
Definition VolumeError_Error (v : VolumeError) : string := ve_Message v.

Definition NewVolumeError (msg : string) (args : list fmt_arg) : VolumeError :=
  mkVolumeError StatusFailure (Sprintf msg args) "" "" false.
Definition NewVolumeNotSupported (msg : string) : VolumeError :=
  mkVolumeError StatusNotSupported msg "" "" false.
Definition NewVolumeSuccess : VolumeError := mkVolumeError StatusSuccess "" "" "" false.
Definition VolumeSuccess : VolumeError := NewVolumeSuccess.

Definition set_DevicePath (v : VolumeError) (d : string) : VolumeError :=
  mkVolumeError (ve_Status v) (ve_Message v) d (ve_VolumeName v) (ve_Attached v).
Definition set_VolumeName (v : VolumeError) (n : string) : VolumeError :=
  mkVolumeError (ve_Status v) (ve_Message v) (ve_DevicePath v) n (ve_Attached v).
Definition set_Attached (v : VolumeError) (b : bool) : VolumeError :=
  mkVolumeError (ve_Status v) (ve_Message v) (ve_DevicePath v) (ve_VolumeName v) b.

(** Decoded json data: [VolumeOptions] is [map[string]interface{}]. *)
Inductive json : Type :=
| JNull
| JBool (b : bool)
| JNumber (text : string)
| JString (s : string)
| JArray (l : list json)
| JObject (l : list (string * json)).

(** The type assertions [options[k].(string)] and [options[k].(bool)] with the
    comma-ok form: the zero value when the key is absent or of another type. *)
Definition opt_string (options : gmap string json) (k : string) : string :=
  match options !! k with Some (JString s) => s | _ => "" end.
Definition opt_bool (options : gmap string json) (k : string) : bool :=
  match options !! k with Some (JBool b) => b | _ => false end.
