(* ===== verification/Instances.v ===== *)
(** * utils.go and pkg/util/node.go: finding the instances of nodes *)

From S2P Require Import Prelude GoStd Cloud Provider.

(** The part of a Kubernetes node the sources read. *)
Record NodeAddress : Type := mkNodeAddress { na_Type : string; na_Address : string }.
Record Node : Type := mkNode { n_Name : string; n_Addresses : list NodeAddress }.

Definition NodeInternalIP : string := "InternalIP".

(** [func GetNodePrivateIPs(n *v1.Node) (ips []string)]; [None] is a nil node. *)
Fixpoint private_ips (addrs : list NodeAddress) : list string :=
  match addrs with
  | [] => []
  | a :: addrs' =>
      if bool_decide (na_Type a = NodeInternalIP) then na_Address a :: private_ips addrs'
      else private_ips addrs'
  end.
Definition GetNodePrivateIPs (n : option Node) : list string :=
  match n with None => [] | Some n => private_ips (n_Addresses n) end.

(** ** Predicates on instances *)

(** [func filter(instances, f) (ret)]. *)
Fixpoint filter_instances (instances : list InstanceAttributesType)
    (f : InstanceAttributesType → bool) : list InstanceAttributesType :=
  match instances with
  | [] => []
  | i :: rest => if f i then i :: filter_instances rest f else filter_instances rest f
  end.

Definition byHostname (hostname : string) (i : InstanceAttributesType) : bool :=
  bool_decide (i_HostName i = hostname).

Definition byPrivateIP (ip : string) (i : InstanceAttributesType) : bool :=
  existsb (λ s, bool_decide (s = ip)) (i_PrivateIpAddress i).

Definition byInstanceId (id : string) (i : InstanceAttributesType) : bool :=
  bool_decide (i_InstanceId i = id).

Definition byEmpty (_ : string) (_ : InstanceAttributesType) : bool := false.

(** [func (w *AliyunProvider) authorized() bool]. *)
Definition authorized (p : AliyunProvider) : bool :=
  bool_decide (accessKey p ≠ "") && bool_decide (accessKeySecret p ≠ "").

(** [func (w *AliyunProvider) isLocal(node string) bool]. *)
Definition isLocal (p : AliyunProvider) (node : string) : bool :=
  bool_decide (node = "localhost") || bool_decide (node = hostname p).

(** The texts of the two lookup errors. *)
Definition unable_err (nodeName : string) : error := "Unable to get instance of node:" +:+ nodeName.
Definition multiple_err (nodeName : string) : error :=
  "Multiple instance with the same node name:" +:+ nodeName.

(** The predicate the [switch] of [getInstanceByNodeName] filters with, where
    its default case empties the list; [getInstancesByNodeNames] selects the same
    one, [byEmpty] by default. *)
Definition by_nodeNameType (t : NodeNameType) : string → InstanceAttributesType → bool :=
  if bool_decide (t = NodeNameTypePrivateIP) then byPrivateIP
  else if bool_decide (t = NodeNameTypeHostname) then byHostname
  else byEmpty.

Section instances.
Context {W : Type} `{!Handler req W}.

(** [func (w *AliyunProvider) getInstances()]; the SDK validates the (zero)
    pagination before it sends it. *)
Definition getInstances (p : AliyunProvider) : go W (result (list InstanceAttributesType)) :=
  '(instances, _) ←? call (DescribeInstances
     (mkDescribeInstancesArgs (region p) (vpcID p) (Validate (mkPagination 0 0))));
  mret (Ok instances).

(** [func (p *AliyunProvider) mapInstanceToNodeName(instance) string]: indexing an
    empty address list panics. *)
Definition mapInstanceToNodeName (p : AliyunProvider) (i : InstanceAttributesType) : go W string :=
  if bool_decide (nodeNameType p = NodeNameTypePrivateIP) then
    match i_PrivateIpAddress i with
    | [] => panic "runtime error: index out of range"
    | ip :: _ => mret ip
    end
  else mret (i_HostName i).

(** [func (p *AliyunProvider) getInstanceByNodeName(nodeName string)]. *)
Definition getInstanceByNodeName (p : AliyunProvider) (nodeName : string) :
    go W (result InstanceAttributesType) :=
  instances ←? getInstances p;
  match filter_instances instances (by_nodeNameType (nodeNameType p) nodeName) with
  | [] => mret (Err (unable_err nodeName))
  | [i] => mret (Ok i)
  | _ => mret (Err (multiple_err nodeName))
  end.

(** The loop of [getInstancesByNodeNames]: the variable [instances] is overwritten
    by the filtered list in every round. *)
Fixpoint by_names_loop (by_ : string → InstanceAttributesType → bool)
    (instances : list InstanceAttributesType) (results : list InstanceAttributesType)
    (nodeNames : list string) : result (list InstanceAttributesType) :=
  match nodeNames with
  | [] => Ok results
  | nodeName :: rest =>
      let instances := filter_instances instances (by_ nodeName) in
      match instances with
      | [] => Err (unable_err nodeName)
      | [i] => by_names_loop by_ instances (results ++ [i]) rest
      | _ => Err (multiple_err nodeName)
      end
  end.

(** [func (p *AliyunProvider) getInstancesByNodeNames(nodeNames []string)]. *)
Definition getInstancesByNodeNames (p : AliyunProvider) (nodeNames : list string) :
    go W (result (list InstanceAttributesType)) :=
  instances ←? getInstances p;
  mret (by_names_loop (by_nodeNameType (nodeNameType p)) instances [] nodeNames).

(** [func (p *AliyunProvider) getInstancesByNodes(nodes []*api.Node)]. *)
Definition getInstancesByNodes (p : AliyunProvider) (nodes : list Node) :
    go W (result (list InstanceAttributesType)) :=
  getInstancesByNodeNames p (map n_Name nodes).

End instances.
