(* ===== verification/Volume.v ===== *)
(** * volume.go: flex volumes and the provisioner

    Every operation of the [Volume] interface: [Init], [Attach], [Detach],
    [MountDevice], [UnmountDevice], [WaitForAttach], [GetVolumeName],
    [IsAttached], [Provision], [Delete] and [ProvisionerName], with the disk
    lookups they use. *)

From S2P Require Import Prelude GoStd Kube Cloud MapUtils Provider Instances Quantity.

Definition OptionFSType : string := "kubernetes.io/fsType".
Definition OptionReadWrite : string := "kubernetes.io/readwrite".
Definition APIPrefix : string := "/dev/xvd".
Definition LocalPrefix : string := "/dev/vd".
Definition DefaultFSType : string := "ext4".
Definition DriverName : string := "aliyun/flexv".
Definition ProvisionerName_const : string := "archon.kubeup.com/aliyun".
Definition ReadWriteOnce : string := "ReadWriteOnce".
Definition ResourceStorage : string := "storage".

(** [var MinSizeTable map[ecs.DiskCategory]int]. *)
Definition MinSizeTable : gmap string Z :=
  list_to_map [ (DiskCategoryCloud, 5); (DiskCategoryEphemeral, 5);
                (DiskCategoryEphemeralSSD, 20); (DiskCategoryCloudEfficiency, 20);
                (DiskCategoryCloudSSD, 20) ].

(** ** Device names *)

Definition deviceApi2Local (s : string) : string := Replace s APIPrefix LocalPrefix 1.
Definition deviceLocal2Api (s : string) : string := Replace s LocalPrefix APIPrefix 1.
Definition sameDevice (a b : string) : bool :=
  bool_decide (deviceApi2Local a = deviceApi2Local b).

(** ** Provisioning data *)

(** [type StorageOptions struct] with its ["k8s"] tags. *)
Record StorageOptions : Type := mkStorageOptions { so_FSType : string; so_Category : string }.

Definition StorageOptions_fields `{FloatConv} (o : StorageOptions) : list Field :=
  [ mkField "FSType" "fsType" Str true true (VStr (so_FSType o));
    mkField "Category" "diskCategory" Str true true (VStr (so_Category o)) ].

(** The struct seen by reflection, read back. *)
Definition StorageOptions_of `{FloatConv} (a : Any) (dflt : StorageOptions) : StorageOptions :=
  match a with
  | AnyPtrStruct [f1; f2] =>
      match f_value f1, f_value f2 with
      | VStr x, VStr y => mkStorageOptions x y
      | _, _ => dflt
      end
  | _ => dflt
  end.

(** [pvcontroller.VolumeOptions]: what the provisioner is asked for. *)
Record ProvisionOptions : Type := mkProvisionOptions {
  po_ReclaimPolicy : string; po_PVName : string; po_PVC : PersistentVolumeClaim;
  po_Parameters : option (gmap string string) }.

(** The size [Provision] asks for: at least the category's minimum, 5 for a
    category the table does not list. *)
Definition disk_size (category : string) (size : Z) : Z :=
  let minSize := default 5 (MinSizeTable !! category) in
  if bool_decide (size < minSize) then minSize else size.

Section volume.
Context {W : Type} `{!Handler req W} `{!FloatConv}.

(** [%+v] of a [VolumeOptions] or of a volume source, used in two error texts. *)
Context (show_options : gmap string json → string).
Context (show_pv : PersistentVolume → string) (show_fv : FlexVolumeSource → string).

(** ** Disk lookups *)

(** [func (p *AliyunProvider) getDiskById(diskId string)]. *)
Definition getDiskById (p : AliyunProvider) (diskId : string) : go W (result DiskItemType) :=
  '(disks, _) ←? call (DescribeDisks
     (mkDescribeDisksArgs (region p) [diskId] "" (mkPagination 0 50)));
  match disks with
  | d :: _ => mret (Ok d)
  | [] => mret (Err (Sprintf "DiskId %s is not found" [AStr diskId]))
  end.

(** The paging loop of [getDiskByDevice]; [fuel] bounds the pages read. *)
Fixpoint getDiskByDevice_loop (fuel : nat) (p : AliyunProvider) (instanceId device : string)
    (pg : Pagination) : go W (result DiskItemType) :=
  match fuel with
  | O => out_of_fuel
  | S fuel' =>
      '(disks, pgr) ←? call (DescribeDisks (mkDescribeDisksArgs (region p) [] instanceId pg));
      match find (λ disk, sameDevice (di_Device disk) device) disks with
      | Some disk => mret (Ok disk)
      | None =>
          match NextPage pgr with
          | None => mret (Err (Sprintf "Device %s is not found in provider inventory" [AStr device]))
          | Some pg' => getDiskByDevice_loop fuel' p instanceId device pg'
          end
      end
  end.

(** [func (p *AliyunProvider) getDiskByDevice(instanceId, device string)]. *)
Definition getDiskByDevice (fuel : nat) (p : AliyunProvider) (instanceId device : string) :
    go W (result DiskItemType) :=
  getDiskByDevice_loop fuel p instanceId device (mkPagination 0 50).

(** ** The flex volume operations *)

Definition Init (p : AliyunProvider) : go W VolumeError := mret VolumeSuccess.

(** The instance [Attach] and [Detach] work on: the node's, or the provider's own
    when no node is given. *)
Definition target_instance (p : AliyunProvider) (node : string) : go W (VolumeError + string) :=
  if bool_decide (node ≠ "") then
    r ← getInstanceByNodeName p node;
    match r with
    | Err e => mret (inl (NewVolumeError "Can't not get instanceId for node: %v %v" [AStr node; AStr e]))
    | Ok i => mret (inr (i_InstanceId i))
    end
  else mret (inr (instance p)).

Definition no_instance_error : VolumeError :=
  NewVolumeError "Failed to attach. No ALIYUN_INSTANCE is set and no node is provided." [].

(** The end of [Attach]: attach the (now free) disk, wait for it, report the
    device it got.  The result of [WaitForDisk] is dropped. *)
Definition attach_disk (p : AliyunProvider) (instanceId diskId : string)
    (deleteWithInstance : bool) : go W VolumeError :=
  r ← call (AttachDisk (mkAttachDiskArgs instanceId diskId deleteWithInstance));
  match r with
  | Err e => mret (NewVolumeError e [])
  | Ok _ =>
      _ ← WaitForDisk (region p) diskId DiskStatusInUse 0;
      r ← getDiskById p diskId;
      match r with
      | Err e => mret (NewVolumeError e [])
      | Ok disk => mret (set_DevicePath NewVolumeSuccess (deviceApi2Local (di_Device disk)))
      end
  end.

(** [func (p *AliyunProvider) Attach(options VolumeOptions, node string) error]. *)
Definition Attach (p : AliyunProvider) (options : gmap string json) (node : string) :
    go W VolumeError :=
  t ← target_instance p node;
  match t with
  | inl ve => mret ve
  | inr instanceId =>
      if bool_decide (instanceId = "") then mret no_instance_error
      else
        let diskId := opt_string options "diskId" in
        if bool_decide (diskId = "") then mret (NewVolumeError "diskid is required" [])
        else
          let deleteWithInstance := opt_bool options "deleteWithInstance" in
          r ← getDiskById p diskId;
          match r with
          | Err e => mret (NewVolumeError "Unable to get disk. %v" [AStr e])
          | Ok disk =>
              if bool_decide (di_Status disk = DiskStatusInUse) then
                if bool_decide (di_InstanceId disk = instanceId) then
                  mret (mkVolumeError "Success" "" (deviceApi2Local (di_Device disk)) "" false)
                else
                  r ← call (DetachDisk (di_InstanceId disk) diskId);
                  match r with
                  | Err e => mret (NewVolumeError
                      "Unable to attach disk: need to detach first but failed: %v" [AStr e])
                  | Ok _ =>
                      _ ← WaitForDisk (region p) diskId DiskStatusAvailable 0;
                      attach_disk p instanceId diskId deleteWithInstance
                  end
              else attach_disk p instanceId diskId deleteWithInstance
          end
  end.

(** [func (p *AliyunProvider) Detach(deviceName string, node string) error]. *)
Definition Detach (p : AliyunProvider) (deviceName node : string) : go W VolumeError :=
  t ← target_instance p node;
  match t with
  | inl ve => mret ve
  | inr instanceId =>
      if bool_decide (instanceId = "") then mret no_instance_error
      else
        r ← getDiskById p (path_Base deviceName);
        match r with
        | Err e => mret (NewVolumeError e [])
        | Ok disk =>
            if bool_decide (di_Status disk = DiskStatusDetaching)
               || bool_decide (di_Status disk = DiskStatusAvailable) then mret VolumeSuccess
            else if bool_decide (di_InstanceId disk ≠ instanceId) then mret VolumeSuccess
            else
              r ← call (DetachDisk instanceId (di_DiskId disk));
              match r with
              | Err e => mret (NewVolumeError e [])
              | Ok _ => mret VolumeSuccess
              end
        end
  end.

(** The mount flags [MountDevice] passes on. *)
Definition mount_flags (options : gmap string json) : list string :=
  let flagstr := opt_string options "flags" in
  let readwrite := opt_string options OptionReadWrite in
  (if bool_decide (flagstr ≠ "") then Split flagstr "," else []) ++
  (if bool_decide (readwrite ≠ "") then [readwrite] else []).

(** [func (p *AliyunProvider) MountDevice(dir, device string, options)]. *)
Definition MountDevice (p : AliyunProvider) (dir device : string) (options : gmap string json) :
    go W VolumeError :=
  let fstype := opt_string options OptionFSType in
  let flags := mount_flags options in
  missing ← call (StatIsNotExist dir);
  r ← (if (missing : bool) then call (MkdirAll dir 488) else mret (Ok tt));
  match r with
  | Err e => mret (NewVolumeError e [])
  | Ok _ =>
      r ← call (FormatAndMount device dir fstype flags);
      match r with
      | Err e => mret (NewVolumeError e [])
      | Ok _ => mret VolumeSuccess
      end
  end.

(** [func (p *AliyunProvider) UnmountDevice(dir string) error]. *)
Definition UnmountDevice (p : AliyunProvider) (dir : string) : go W VolumeError :=
  r ← call (Unmount dir);
  match r with
  | Err e => mret (NewVolumeError e [])
  | Ok _ => mret VolumeSuccess
  end.

(** [func (p *AliyunProvider) WaitForAttach(device string, options)]. *)
Definition WaitForAttach (p : AliyunProvider) (device : string) (options : gmap string json) :
    go W VolumeError :=
  if authorized p then
    r ← getDiskById p (opt_string options "diskId");
    match r with
    | Err e => mret (NewVolumeError e [])
    | Ok disk =>
        r ← WaitForDisk (region p) (di_DiskId disk) DiskStatusInUse 0;
        match r with
        | Err e => mret (NewVolumeError e [])
        | Ok _ => mret VolumeSuccess
        end
    end
  else mret (NewVolumeNotSupported "").

(** [func (p *AliyunProvider) GetVolumeName(options VolumeOptions) error]. *)
Definition GetVolumeName (p : AliyunProvider) (options : gmap string json) : go W VolumeError :=
  let diskId := opt_string options "diskId" in
  if bool_decide (diskId = "")
  then mret (NewVolumeError "diskId is required, options: %+v" [AStr (show_options options)])
  else mret (set_VolumeName NewVolumeSuccess diskId).

(** [func (p *AliyunProvider) IsAttached(options VolumeOptions, node string) error]. *)
Definition IsAttached (p : AliyunProvider) (options : gmap string json) (node : string) :
    go W VolumeError :=
  if authorized p then
    let node := if bool_decide (node = "localhost") then hostname p else node in
    r ← getInstanceByNodeName p node;
    match r with
    | Err e => mret (NewVolumeError "Can't not get instanceId for node: %v %v" [AStr node; AStr e])
    | Ok i =>
        let diskId := opt_string options "diskId" in
        if bool_decide (diskId = "") then mret (NewVolumeError "diskid is required" [])
        else
          r ← getDiskById p diskId;
          match r with
          | Err e => mret (NewVolumeError e [])
          | Ok disk =>
              mret (set_Attached NewVolumeSuccess
                (bool_decide (di_InstanceId disk = i_InstanceId i)
                 && bool_decide (di_Status disk = DiskStatusInUse)))
          end
    end
  else mret (NewVolumeNotSupported "Unable to check if a spec is attached without access key").

(** ** The provisioner *)

(** The storage options of a storage class: the errors of [MapToStruct] are
    dropped. *)
Definition storage_options (params : option (gmap string string)) : StorageOptions :=
  let dflt := mkStorageOptions DefaultFSType "" in
  StorageOptions_of (MapToStruct params (AnyPtrStruct (StorageOptions_fields dflt)) "").1 dflt.

(** [func (p *AliyunProvider) Provision(options pvcontroller.VolumeOptions)]. *)
Definition Provision (p : AliyunProvider) (options : ProvisionOptions) :
    go W (result PersistentVolume) :=
  let pvc := po_PVC options in
  if pvc_has_Selector pvc then mret (Err "claim.Spec.Selector is not supported")
  else if negb (existsb (λ mode, bool_decide (mode = ReadWriteOnce)) (pvc_AccessModes pvc))
  then mret (Err "Aliyun disk only supports ReadWriteOnce mounts")
  else
    let category := so_Category (storage_options (po_Parameters options)) in
    if bool_decide (category = "")
    then mret (Err "diskCategory must be specified in storageClass")
    else
      let capacity := default zero_Quantity (pvc_Requests pvc !! ResourceStorage) in
      let size := disk_size category (ScaledValue capacity Giga) in
      r ← call (CreateDisk (mkCreateDiskArgs (region p) (zone p) category (po_PVName options) size));
      match r with
      | Err e => mret (Err (Sprintf "Failed to call Aliyun CreateDisk: %v" [AStr e]))
      | Ok diskId =>
          mret (Ok (mkPV (po_PVName options) (po_ReclaimPolicy options) [ReadWriteOnce]
            {[ ResourceStorage := SetScaled capacity size Giga ]}
            (default "" (pvc_StorageClassName pvc))
            (Some (mkFlexVolume DriverName {[ "diskId" := diskId ]}))))
      end.

(** [func (p *AliyunProvider) Delete(pv *v1.PersistentVolume) error]: [None] is a
    nil error. *)
Definition Delete (p : AliyunProvider) (pv : PersistentVolume) : go W (option error) :=
  match pv_FlexVolume pv with
  | None => mret (Some (Sprintf "No flexvolume is provided: %+v" [AStr (show_pv pv)]))
  | Some fv =>
      let diskId := default "" (fv_Options fv !! "diskId") in
      if bool_decide (diskId = "")
      then mret (Some (Sprintf "No diskId in the flexvolume: %+v" [AStr (show_fv fv)]))
      else
        r ← call (DeleteDisk diskId);
        match r with
        | Err e => mret (Some (Sprintf "Error deleting disk: %v" [AStr e]))
        | Ok _ => mret None
        end
  end.

(** [func (p *AliyunProvider) ProvisionerName() string]. *)
Definition ProvisionerName (p : AliyunProvider) : string := ProvisionerName_const.

End volume.
