(* ===== verification/LoadBalancer.v ===== *)
(** * loadbalancer.go: service load balancers

    The [LoadBalancer] interface of the provider: naming, lookup, creation with
    its retry loop, the listener and backend synchronisation, update and
    deletion. *)

From S2P Require Import Prelude GoStd Cloud MapUtils Provider Instances.

(** ** Kubernetes data *)

Definition ServiceAffinityNone : string := "None".
Definition ProtocolTCP : string := "TCP".
Definition ProtocolUDP : string := "UDP".

(** [api.ServicePort]; ports are [int32]. *)
Record ServicePort : Type := mkServicePort {
  sp_Protocol : string; sp_Port : Z; sp_NodePort : Z }.

#[export] Instance ServicePort_eq_dec : EqDecision ServicePort.
Proof. solve_decision. Defined.

Record Service : Type := mkService {
  svc_UID : string; svc_Annotations : option (gmap string string);
  svc_SessionAffinity : string; svc_Ports : list ServicePort;
  svc_LoadBalancerIP : string }.

(** [api.LoadBalancerStatus]: the ingress addresses. *)
Definition LoadBalancerStatus : Type := list string.

(** ** Options *)

(** [type AliyunLoadBalancerOptions struct]. *)
Record AliyunLoadBalancerOptions : Type := mkLBOptions {
  o_InternetChargeType : string; o_Bandwidth : Z; o_HealthyThreshold : Z;
  o_UnhealthyThreshold : Z; o_HealthCheckConnectTimeout : Z; o_HealthCheckInterval : Z }.

Definition zero_LBOptions : AliyunLoadBalancerOptions := mkLBOptions "" 0 0 0 0 0.

Definition LBOptions_fields `{FloatConv} (o : AliyunLoadBalancerOptions) : list Field :=
  [ mkField "InternetChargeType" "internet-charge-type" Str true true (VStr (o_InternetChargeType o));
    mkField "Bandwidth" "bandwidth" Int true true (VInt (o_Bandwidth o));
    mkField "HealthyThreshold" "healthy-threshold" Int true true (VInt (o_HealthyThreshold o));
    mkField "UnhealthyThreshold" "unhealthy-threshold" Int true true (VInt (o_UnhealthyThreshold o));
    mkField "HealthCheckConnectTimeout" "health-check-connect-timeout" Int true true
      (VInt (o_HealthCheckConnectTimeout o));
    mkField "HealthCheckInterval" "health-check-interval" Int true true
      (VInt (o_HealthCheckInterval o)) ].

(** The struct seen by reflection, read back. *)
Definition LBOptions_of `{FloatConv} (a : Any) : AliyunLoadBalancerOptions :=
  match a with
  | AnyPtrStruct fs =>
      match map f_value fs with
      | [VStr c; VInt b; VInt h; VInt u; VInt t; VInt i] => mkLBOptions c b h u t i
      | _ => zero_LBOptions
      end
  | _ => zero_LBOptions
  end.

(** The options of a service: annotations that do not convert are logged, and the
    fields set before the first of them are kept. *)
Definition service_options `{FloatConv} (service : Service) : AliyunLoadBalancerOptions :=
  match svc_Annotations service with
  | None => zero_LBOptions
  | Some annotations =>
      LBOptions_of (MapToStruct (Some annotations) (AnyPtrStruct (LBOptions_fields zero_LBOptions))
        AliyunAnnotationPrefix).1
  end.

(** ** Names and keys *)

(** [func (p *AliyunProvider) GetLoadBalancerName(service *api.Service) string]. *)
Definition GetLoadBalancerName (service : Service) : string :=
  let ret := "a" +:+ svc_UID service in
  let ret := Replace ret "-" "" (-1) in
  if (32 <? String.length ret)%nat then str_take 32 ret else ret.

(** [fmt.Sprintf(keyFmt, port, strings.ToLower(protocol))] with [keyFmt] ["%d|%s"]. *)
Definition listener_key (port : Z) (protocol : string) : string :=
  Sprintf "%d|%s" [AInt port; AStr (ToLower protocol)].

(** [func lbToStatus(lb *slb.LoadBalancerType) *api.LoadBalancerStatus]. *)
Definition lbToStatus (lb : LoadBalancerType) : LoadBalancerStatus := [lb_Address lb].

(** The first loop of [ensureLBListeners]: the listeners the service asks for, by
    key; ports without a node port are ignored. *)
Fixpoint expected_listeners (ports : list ServicePort) (expected : gmap string ServicePort) :
    gmap string ServicePort :=
  match ports with
  | [] => expected
  | p :: ports' =>
      if bool_decide (sp_NodePort p = 0) then expected_listeners ports' expected
      else expected_listeners ports'
             (<[listener_key (sp_Port p) (sp_Protocol p) := p]> expected)
  end.

(** The arguments of the two listener creations. *)
Definition listener_args (lb : LoadBalancerType) (sp : ServicePort)
    (options : AliyunLoadBalancerOptions) (healthCheckType : string) : ListenerArgs :=
  mkListenerArgs (lb_LoadBalancerId lb) (sp_Port sp) (sp_NodePort sp) (o_Bandwidth options)
    healthCheckType (sp_NodePort sp) (o_HealthyThreshold options)
    (o_UnhealthyThreshold options) (o_HealthCheckConnectTimeout options)
    (o_HealthCheckInterval options).

(** The loops of [ensureLBBackends] that compute the changes: the set of expected
    servers, and the removals with what is left of the set. *)
Definition expected_servers (instances : list InstanceAttributesType) : gmap string bool :=
  foldl (λ m ins, <[i_InstanceId ins := true]> m) ∅ instances.

Fixpoint backend_diff (actual : list BackendServerType) (expected : gmap string bool)
    (removals : list string) : gmap string bool * list string :=
  match actual with
  | [] => (expected, removals)
  | s :: actual' =>
      match expected !! bs_ServerId s with
      | Some _ => backend_diff actual' (delete (bs_ServerId s) expected) removals
      | None => backend_diff actual' expected (removals ++ [bs_ServerId s])
      end
  end.

Section loadbalancer.
Context {W : Type} `{!Handler req W} `{!FloatConv} `{!MapOrder}.

(** ** Lookup *)

(** The loop of [getLoadBalancer] over the described load balancers. *)
Fixpoint find_lb (name : string) (lbs : list LoadBalancerType) :
    go W (result (option LoadBalancerType)) :=
  match lbs with
  | [] => mret (Ok None)
  | lb :: rest =>
      if bool_decide (lb_LoadBalancerName lb = name) then
        lb' ←? call (DescribeLoadBalancerAttribute (lb_LoadBalancerId lb));
        mret (Ok (Some lb'))
      else find_lb name rest
  end.

(** [func (p *AliyunProvider) getLoadBalancer(name string)]: its [bool] result
    says whether the pointer is not nil. *)
Definition getLoadBalancer (p : AliyunProvider) (name : string) :
    go W (result (option LoadBalancerType)) :=
  lbs ←? call (DescribeLoadBalancers (region p));
  find_lb name lbs.

(** [func (p *AliyunProvider) GetLoadBalancer(clusterName, service)]. *)
Definition GetLoadBalancer (p : AliyunProvider) (clusterName : string) (service : Service) :
    go W (option LoadBalancerStatus * bool * option error) :=
  r ← getLoadBalancer p (GetLoadBalancerName service);
  match r with
  | Err e => mret (None, false, Some e)
  | Ok None => mret (None, false, None)
  | Ok (Some lb) => mret (Some (lbToStatus lb), true, None)
  end.

(** ** Listeners *)

(** [func (p *AliyunProvider) getLBListenerAttributes(lb, pp)]: a failed describe
    gives a nil response, which the code then dereferences. *)
Definition getLBListenerAttributes (lb : LoadBalancerType) (pp : ListenerPortAndProtocolType) :
    go W (result (Z * string)) :=
  let read (r : result ListenerAttribute) : go W (result (Z * string)) :=
    match r with
    | Err _ => panic "runtime error: invalid memory address or nil pointer dereference"
    | Ok resp => mret (Ok (int32 (at_BackendServerPort resp), at_Status resp))
    end in
  let proto := ToLower (lp_ListenerProtocol pp) in
  if bool_decide (proto = "tcp") then
    r ← call (DescribeLoadBalancerTCPListenerAttribute (lb_LoadBalancerId lb) (lp_ListenerPort pp));
    read r
  else if bool_decide (proto = "udp") then
    r ← call (DescribeLoadBalancerUDPListenerAttribute (lb_LoadBalancerId lb) (lp_ListenerPort pp));
    read r
  else mret (Err (Sprintf "Error getting listener attributes. Unsupported listener protocol: %s"
         [AStr (lp_ListenerProtocol pp)])).

(** The second loop of [ensureLBListeners]: what is left to create, the ports to
    remove and the stopped ports to start. *)
Fixpoint listener_diff (lb : LoadBalancerType) (actual : list ListenerPortAndProtocolType)
    (expected : gmap string ServicePort) (removals stopped : list Z) :
    go W (result (gmap string ServicePort * list Z * list Z)) :=
  match actual with
  | [] => mret (Ok (expected, removals, stopped))
  | listener :: actual' =>
      let key := listener_key (lp_ListenerPort listener) (lp_ListenerProtocol listener) in
      match expected !! key with
      | None => listener_diff lb actual' expected (removals ++ [lp_ListenerPort listener]) stopped
      | Some sp =>
          '(backendPort, status) ←? getLBListenerAttributes lb listener;
          if bool_decide (backendPort = sp_NodePort sp) then
            listener_diff lb actual' (delete key expected) removals
              (if bool_decide (status = Stopped) then stopped ++ [sp_Port sp] else stopped)
          else listener_diff lb actual' expected (removals ++ [lp_ListenerPort listener]) stopped
      end
  end.

Fixpoint start_listeners (id : string) (ports : list Z) : go W (result unit) :=
  match ports with
  | [] => mret (Ok tt)
  | port :: ports' => _ ←? call (StartLoadBalancerListener id port); start_listeners id ports'
  end.

Fixpoint delete_listeners (id : string) (ports : list Z) : go W (result unit) :=
  match ports with
  | [] => mret (Ok tt)
  | port :: ports' => _ ←? call (DeleteLoadBalancerListener id port); delete_listeners id ports'
  end.

(** Create and start one listener. *)
Definition create_listener (lb : LoadBalancerType) (options : AliyunLoadBalancerOptions)
    (sp : ServicePort) : go W (result unit) :=
  _ ←? (if bool_decide (sp_Protocol sp = ProtocolTCP) then
          call (CreateLoadBalancerTCPListener (listener_args lb sp options TCPHealthCheckType))
        else if bool_decide (sp_Protocol sp = ProtocolUDP) then
          call (CreateLoadBalancerUDPListener (listener_args lb sp options ""))
        else mret (Err (Sprintf "Error creating service listener. Unsupported listener protocol: %s"
               [AStr (sp_Protocol sp)])));
  call (StartLoadBalancerListener (lb_LoadBalancerId lb) (sp_Port sp)).

Fixpoint create_listeners (lb : LoadBalancerType) (options : AliyunLoadBalancerOptions)
    (sps : list (string * ServicePort)) : go W (result unit) :=
  match sps with
  | [] => mret (Ok tt)
  | (_, sp) :: sps' => _ ←? create_listener lb options sp; create_listeners lb options sps'
  end.

(** [func (p *AliyunProvider) ensureLBListeners(lb, ports, options) error]. *)
Definition ensureLBListeners (lb : LoadBalancerType) (ports : list ServicePort)
    (options : AliyunLoadBalancerOptions) : go W (result unit) :=
  let expected := expected_listeners ports ∅ in
  '(expected, removals, stopped) ←?
    listener_diff lb (lb_ListenerPortAndProtocol lb) expected [] [];
  _ ←? start_listeners (lb_LoadBalancerId lb) stopped;
  _ ←? delete_listeners (lb_LoadBalancerId lb) removals;
  create_listeners lb options (range_map expected).

(** ** Backends *)

(** [func (p *AliyunProvider) ensureLBBackends(lb, instances) error]. *)
Definition ensureLBBackends (lb : LoadBalancerType) (instances : list InstanceAttributesType) :
    go W (result unit) :=
  let '(expected, removals) :=
    backend_diff (lb_BackendServer lb) (expected_servers instances) [] in
  let additions := map (λ kv : string * bool, mkBackendServer kv.1 100) (range_map expected) in
  _ ←? (match removals with
        | [] => mret (Ok tt)
        | _ => call (RemoveBackendServers (lb_LoadBalancerId lb) removals)
        end);
  match additions with
  | [] => mret (Ok tt)
  | _ => call (AddBackendServers (lb_LoadBalancerId lb) additions)
  end.

(** ** The interface *)

(** The retry loop after a creation: [retry] rounds of sleeping and looking the
    load balancer up.  The result is the pointer and the variable [err]. *)
Fixpoint wait_created (retry : nat) (p : AliyunProvider) (name : string) (err : option error) :
    go W (option LoadBalancerType * option error) :=
  match retry with
  | O => mret (None, err)
  | S retry' =>
      _ ← call (Sleep 5);
      r ← getLoadBalancer p name;
      match r with
      | Ok (Some lb) => mret (Some lb, None)
      | Ok None => wait_created retry' p name None
      | Err e => wait_created retry' p name (Some e)
      end
  end.

(** The checks at the head of [EnsureLoadBalancer]. *)
Definition check_service (service : Service) : option error :=
  if bool_decide (svc_SessionAffinity service ≠ ServiceAffinityNone) then
    Some (Sprintf "unsupported load balancer affinity: %v" [AStr (svc_SessionAffinity service)])
  else
    match find (λ port, negb (bool_decide (sp_Protocol port = ProtocolTCP)
                              || bool_decide (sp_Protocol port = ProtocolUDP)))
            (svc_Ports service) with
    | Some port => Some (Sprintf "Unsupported server port protocol for Aliyun load balancers: %v"
                     [AStr (sp_Protocol port)])
    | None =>
        if bool_decide (svc_LoadBalancerIP service ≠ "")
        then Some "LoadBalancerIP can't be set for Aliyun load balancers"
        else None
    end.

(** The two synchronisations at the end of [EnsureLoadBalancer]. *)
Definition sync_lb (lb : LoadBalancerType) (service : Service)
    (options : AliyunLoadBalancerOptions) (instances : list InstanceAttributesType) :
    go W (option LoadBalancerStatus * option error) :=
  r ← ensureLBListeners lb (svc_Ports service) options;
  match r with
  | Err e => mret (None, Some e)
  | Ok _ =>
      r ← ensureLBBackends lb instances;
      match r with
      | Err e => mret (None, Some e)
      | Ok _ => mret (Some (lbToStatus lb), None)
      end
  end.

(** [func (p *AliyunProvider) EnsureLoadBalancer(clusterName, service, nodes)]. *)
Definition EnsureLoadBalancer (p : AliyunProvider) (clusterName : string) (service : Service)
    (nodes : list Node) : go W (option LoadBalancerStatus * option error) :=
  let name := GetLoadBalancerName service in
  match check_service service with
  | Some e => mret (None, Some e)
  | None =>
      r ← getInstancesByNodes p nodes;
      match r with
      | Err e => mret (None, Some e)
      | Ok instances =>
          let lbOptions := service_options service in
          r ← getLoadBalancer p name;
          match r with
          | Err e => mret (None, Some e)
          | Ok (Some lb) => sync_lb lb service lbOptions instances
          | Ok None =>
              token ← call CreateRandomString;
              r ← call (CreateLoadBalancer (mkCreateLoadBalancerArgs (region p) name
                     InternetAddressType (o_InternetChargeType lbOptions)
                     (o_Bandwidth lbOptions) token));
              match r with
              | Err e => mret (None, Some e)
              | Ok _ =>
                  '(lb, err) ← wait_created 3 p name None;
                  match lb with
                  | None => mret (None, err)
                  | Some lb => sync_lb lb service lbOptions instances
                  end
              end
          end
      end
  end.

(** [func (p *AliyunProvider) UpdateLoadBalancer(clusterName, service, nodes) error]. *)
Definition UpdateLoadBalancer (p : AliyunProvider) (clusterName : string) (service : Service)
    (nodes : list Node) : go W (result unit) :=
  lb ←? getLoadBalancer p (GetLoadBalancerName service);
  match lb with
  | None => mret (Err "Load balancer is not found")
  | Some lb =>
      _ ←? ensureLBListeners lb (svc_Ports service) (service_options service);
      instances ←? getInstancesByNodes p nodes;
      ensureLBBackends lb instances
  end.

(** [func (p *AliyunProvider) EnsureLoadBalancerDeleted(clusterName, service) error]. *)
Definition EnsureLoadBalancerDeleted (p : AliyunProvider) (clusterName : string)
    (service : Service) : go W (result unit) :=
  lb ←? getLoadBalancer p (GetLoadBalancerName service);
  match lb with
  | None => mret (Ok tt)
  | Some lb => call (DeleteLoadBalancer (lb_LoadBalancerId lb))
  end.

End loadbalancer.
