(* ===== verification/Routes.v ===== *)
(** * routes.go and zones.go: VPC routes and the zone of the cluster *)

From S2P Require Import Prelude GoStd Cloud Provider Instances.

(** [cloudprovider.Route]; the provider leaves [Name] empty. *)
Record Route : Type := mkRoute { r_TargetNode : string; r_DestinationCIDR : string }.

#[export] Instance Route_eq_dec : EqDecision Route.
Proof. solve_decision. Defined.

(** [cloudprovider.Zone]. *)
Record Zone : Type := mkZone { z_FailureDomain : string; z_Region : string }.

Section routes.
Context {W : Type} `{!Handler req W}.

(** The inner loop of [ListRoutes]: entries whose next hop is an instance the
    account has exactly once. *)
Fixpoint list_entries (p : AliyunProvider) (instances : list InstanceAttributesType)
    (entries : list RouteEntrySetType) : go W (list Route) :=
  match entries with
  | [] => mret []
  | r :: entries' =>
      if bool_decide (re_NextHopType r ≠ NextHopIntance) then list_entries p instances entries'
      else match filter_instances instances (byInstanceId (re_InstanceId r)) with
           | [i] =>
               node ← mapInstanceToNodeName p i;
               routes ← list_entries p instances entries';
               mret (mkRoute node (re_DestinationCidrBlock r) :: routes)
           | _ => list_entries p instances entries'
           end
  end.

(** The outer loop of [ListRoutes]. *)
Fixpoint list_tables (p : AliyunProvider) (instances : list InstanceAttributesType)
    (tables : list RouteTableSetType) : go W (list Route) :=
  match tables with
  | [] => mret []
  | t :: tables' =>
      routes ← list_entries p instances (rt_RouteEntry t);
      rest ← list_tables p instances tables';
      mret (routes ++ rest)
  end.

(** [func (w *AliyunProvider) ListRoutes(clusterName string)]. *)
Definition ListRoutes (p : AliyunProvider) (clusterName : string) : go W (result (list Route)) :=
  instances ←? getInstances p;
  r ← call (DescribeRouteTables
         (mkDescribeRouteTablesArgs (vrouterID p) (routeTable p) (Validate (mkPagination 0 10))));
  match r with
  | Err e => mret (Err ("Unable list routes:" +:+ e))
  | Ok (tables, _) =>
      routes ← list_tables p instances tables;
      mret (Ok routes)
  end.

(** [func (w *AliyunProvider) DeleteRoute(clusterName, route) error]. *)
Definition DeleteRoute (p : AliyunProvider) (clusterName : string) (route : Route) :
    go W (result unit) :=
  i ←? getInstanceByNodeName p (r_TargetNode route);
  call (DeleteRouteEntry
    (mkRouteEntryArgs (routeTable p) (r_DestinationCIDR route) (i_InstanceId i))).

(** [func (w *AliyunProvider) CreateRoute(clusterName, nameHint, route) error]. *)
Definition CreateRoute (p : AliyunProvider) (clusterName nameHint : string) (route : Route) :
    go W (result unit) :=
  i ←? getInstanceByNodeName p (r_TargetNode route);
  call (CreateRouteEntry
    (mkRouteEntryArgs (routeTable p) (r_DestinationCIDR route) (i_InstanceId i))).

(** [func (p *AliyunProvider) GetZone() (zone cloudprovider.Zone, err error)]. *)
Definition GetZone (p : AliyunProvider) : go W (result Zone) :=
  r ← call (DescribeVSwitches
         (mkDescribeVSwitchesArgs (vpcID p) (vswitch p) (Validate (mkPagination 0 10))));
  match r with
  | Err e => mret (Err (Sprintf "Unable to get zone: %v" [AStr e]))
  | Ok ([], _) => mret (Err (Sprintf "Unable to get zone: %v" [ANil]))
  | Ok (vs :: _, _) => mret (Ok (mkZone (vs_ZoneId vs) (region p)))
  end.

End routes.
