(* ===== verification/Interfaces.v ===== *)
(** * The provider behind its interfaces

    [pkg/cloudprovider]'s interfaces [Provider] and [Volume] (with the interfaces of
    [k8s.io/kubernetes/pkg/cloudprovider] they include) as records of operations, and
    the accessors of [aliyun.go] that hand the Aliyun provider out as each of them.
    A nil interface value is [None]. *)

From S2P Require Import Prelude GoStd Kube Cloud MapUtils Provider Instances Quantity Volume LoadBalancer Routes.

(** [type Volume interface]. *)
Record VolumeInterface (W : Type) : Type := mkVolumeInterface {
  v_Init : go W VolumeError;
  v_Attach : gmap string json → string → go W VolumeError;
  v_Detach : string → string → go W VolumeError;
  v_MountDevice : string → string → gmap string json → go W VolumeError;
  v_UnmountDevice : string → go W VolumeError;
  v_WaitForAttach : string → gmap string json → go W VolumeError;
  v_GetVolumeName : gmap string json → go W VolumeError;
  v_IsAttached : gmap string json → string → go W VolumeError;
  v_ProvisionerName : string;
  v_Provision : ProvisionOptions → go W (result PersistentVolume);
  v_Delete : PersistentVolume → go W (option error) }.
Arguments v_Init {W} _.
Arguments v_Attach {W} _ _ _.
Arguments v_Detach {W} _ _ _.
Arguments v_MountDevice {W} _ _ _ _.
Arguments v_UnmountDevice {W} _ _.
Arguments v_WaitForAttach {W} _ _ _.
Arguments v_GetVolumeName {W} _ _.
Arguments v_IsAttached {W} _ _ _.
Arguments v_ProvisionerName {W} _.
Arguments v_Provision {W} _ _.
Arguments v_Delete {W} _ _.

(** [origcloudprovider.LoadBalancer], [Routes] and [Zones].  The operations of
    [Routes] are also given as programs of another kind ([RouteController.v]), so
    their kind is a parameter. *)
Record LoadBalancerInterface (W : Type) : Type := mkLoadBalancerInterface {
  l_GetLoadBalancer : string → Service → go W (option LoadBalancerStatus * bool * option error);
  l_EnsureLoadBalancer : string → Service → list Node → go W (option LoadBalancerStatus * option error);
  l_UpdateLoadBalancer : string → Service → list Node → go W (result unit);
  l_EnsureLoadBalancerDeleted : string → Service → go W (result unit) }.
Record RoutesInterface (F : Type → Type) : Type := mkRoutesInterface {
  rs_ListRoutes : string → F (result (list Route));
  rs_CreateRoute : string → string → Route → F (result unit);
  rs_DeleteRoute : string → Route → F (result unit) }.
Arguments mkRoutesInterface {F} _ _ _.
Arguments rs_ListRoutes {F} _ _.
Arguments rs_CreateRoute {F} _ _ _ _.
Arguments rs_DeleteRoute {F} _ _ _.
Record ZonesInterface (W : Type) : Type := mkZonesInterface { zs_GetZone : go W (result Zone) }.
Arguments zs_GetZone {W} _.

(** [type Provider interface]: the cloud provider interface of Kubernetes and
    [Volume].  No code of the program uses instances or clusters: whether they are
    supported is all that is left of them. *)
Record ProviderInterface (W : Type) : Type := mkProviderInterface {
  pi_LoadBalancer : option (LoadBalancerInterface W) * bool;
  pi_Instances : bool;
  pi_Zones : option (ZonesInterface W) * bool;
  pi_Clusters : bool;
  pi_Routes : option (RoutesInterface (go W)) * bool;
  pi_ProviderName : string;
  pi_ScrubDNS : list string → list string → list string * list string;
  pi_Volume : option (VolumeInterface W) * bool }.
Arguments pi_LoadBalancer {W} _.
Arguments pi_Zones {W} _.
Arguments pi_Routes {W} _.
Arguments pi_Volume {W} _.

Section interfaces.
Context {W : Type} `{!Handler req W} `{!FloatConv} `{!MapOrder}.
Context (show_options : gmap string json → string).
Context (show_pv : PersistentVolume → string) (show_fv : FlexVolumeSource → string).

(** [func (p *AliyunProvider) Clusters()] and [Instances()]: nil, unsupported. *)
Definition Clusters (p : AliyunProvider) : bool := false.
Definition Instances (p : AliyunProvider) : bool := false.

(** [func (p *AliyunProvider) Zones()]. *)
Definition Zones (p : AliyunProvider) : option (ZonesInterface W) * bool :=
  (Some (mkZonesInterface W (GetZone p)), true).

(** [func (p *AliyunProvider) ProviderName() string]. *)
Definition ProviderName (p : AliyunProvider) : string := ProviderName.

(** [func (p *AliyunProvider) Routes()]. *)
Definition Routes (p : AliyunProvider) : option (RoutesInterface (go W)) * bool :=
  (Some (mkRoutesInterface (ListRoutes p) (CreateRoute p) (DeleteRoute p)), true).

(** [func (p *AliyunProvider) LoadBalancer()]. *)
Definition LoadBalancer (p : AliyunProvider) : option (LoadBalancerInterface W) * bool :=
  (Some (mkLoadBalancerInterface W (GetLoadBalancer p) (EnsureLoadBalancer p)
           (UpdateLoadBalancer p) (EnsureLoadBalancerDeleted p)), true).

(** [func (p *AliyunProvider) Volume()]. *)
Definition Volume (p : AliyunProvider) : option (VolumeInterface W) * bool :=
  (Some (mkVolumeInterface W (Init p) (Attach p) (Detach p) (MountDevice p) (UnmountDevice p)
           (WaitForAttach p) (GetVolumeName show_options p) (IsAttached p) (ProvisionerName p)
           (Provision p) (Delete show_pv show_fv p)), true).

(** [func (p *AliyunProvider) ScrubDNS(nameservers, searches []string)]: the named
    results are returned as they are, nil. *)
Definition ScrubDNS (p : AliyunProvider) (nameservers searches : list string) :
    list string * list string := ([], []).

(** The Aliyun provider as a [cloudprovider.Provider]. *)
Definition as_Provider (p : AliyunProvider) : ProviderInterface W :=
  mkProviderInterface W (LoadBalancer p) (Instances p) (Zones p) (Clusters p) (Routes p)
    (ProviderName p) (ScrubDNS p) (Volume p).

(** The registry once the imports of the programs have run: [init] of [aliyun.go]
    registers [NewProvider]. *)
Definition providers (env : string → string) (host : string) :
    gmap string (go W (ProviderInterface W)) :=
  RegisterProvider ∅ "aliyun" (p ← NewProvider env host; mret (as_Provider p)).

End interfaces.
