(* ===== verification/Net.v ===== *)
(** * Package net: addresses and CIDR blocks

    [net.ParseCIDR] and [IPNet.Contains], which the controller's start-up and the
    route controller call.  An address is a list of 4 or 16 bytes, a byte a [Z].
    (The parsers are those of Go 1.8: decimal numbers may have leading zeros.) *)

From S2P Require Import Prelude GoStd.

Definition IP : Type := list Z.

(** [type IPNet struct]. *)
Record IPNet : Type := mkIPNet { net_IP : IP; net_Mask : list Z }.

#[export] Instance IPNet_eq_dec : EqDecision IPNet.
Proof. solve_decision. Defined.

Definition IPv4len : nat := 4.
Definition IPv6len : nat := 16.

(** The prefix of an IPv4 address in its 16-byte form. *)
Definition v4InV6Prefix : list Z := replicate 10 0 ++ [255; 255].

(** ** Numbers *)

(** Larger numbers are refused. *)
Definition big : Z := 16777215.

Definition hex_digit_val (c : ascii) : option Z :=
  let n := Z.of_N (N_of_ascii c) in
  if (48 <=? n) && (n <=? 57) then Some (n - 48)
  else if (97 <=? n) && (n <=? 102) then Some (n - 87)
  else if (65 <=? n) && (n <=? 70) then Some (n - 55)
  else None.

(** The scan of [dtoi] and [xtoi]: the number after [n], how many digits were read
    and the rest; [None] when it gets too big. *)
Fixpoint scan_digits (val : ascii → option Z) (base n : Z) (i : nat) (s : list ascii) :
    option (Z * nat * list ascii) :=
  match s with
  | [] => Some (n, i, [])
  | c :: s' =>
      match val c with
      | None => Some (n, i, s)
      | Some d =>
          let n' := n * base + d in
          if bool_decide (n' >= big) then None else scan_digits val base n' (S i) s'
      end
  end.

(** A number at the head of the text: at least one digit. *)
Definition number (val : ascii → option Z) (base : Z) (s : list ascii) :
    option (Z * list ascii) :=
  match scan_digits val base 0 0 s with
  | Some (n, S _, rest) => Some (n, rest)
  | _ => None
  end.
Definition dtoi (s : list ascii) : option (Z * list ascii) := number digit_val 10 s.
Definition xtoi (s : list ascii) : option (Z * list ascii) := number hex_digit_val 16 s.

Arguments dtoi s : simpl never.
Arguments xtoi s : simpl never.

(** ** Addresses *)

(** The loop of [parseIPv4], with [k] numbers still to come: all but the first
    follow a dot. *)
Fixpoint ipv4_numbers (k : nat) (first : bool) (s : list ascii) : option (list Z) :=
  match k with
  | O => match s with [] => Some [] | _ => None end
  | S k' =>
      s ← (if first then match s with [] => None | _ => Some s end
           else match s with c :: s' => if bool_decide (c = "."%char) then Some s' else None | [] => None end);
      '(n, rest) ← dtoi s;
      if bool_decide (n > 255) then None
      else ps ← ipv4_numbers k' false rest; Some (n :: ps)
  end.

(** [func parseIPv4(s string) IP]: the address in 16-byte form. *)
Definition parseIPv4 (s : list ascii) : option IP :=
  ps ← ipv4_numbers IPv4len true s; Some (v4InV6Prefix ++ ps).

(** The end of [parseIPv6]: the bytes read so far, with zeros at the ellipsis. *)
Definition expand_ellipsis (ip : list Z) (ellipsis : option nat) : option IP :=
  if bool_decide (length ip < IPv6len)%nat then
    e ← ellipsis; Some (take e ip ++ replicate (IPv6len - length ip) 0 ++ drop e ip)
  else match ellipsis with Some _ => None | None => Some ip end.

(** The loop of [parseIPv6]: [ip] is what is read so far.  A round adds two bytes,
    so eight rounds fill the address; what is left of the text then is an error. *)
Fixpoint ipv6_groups (rounds : nat) (ip : list Z) (ellipsis : option nat) (s : list ascii) :
    option IP :=
  match rounds with
  | O => match s with [] => expand_ellipsis ip ellipsis | _ => None end
  | S rounds' =>
      '(n, rest) ← xtoi s;
      if bool_decide (n > 65535) then None
      else
        match rest with
        | [] => expand_ellipsis (ip ++ [Z.shiftr n 8; Z.land n 255]) ellipsis
        | c :: rest' =>
            if bool_decide (c = "."%char) then
              if bool_decide (ellipsis = None ∧ length ip ≠ 12%nat) then None
              else if bool_decide (IPv6len < length ip + 4)%nat then None
              else ip4 ← parseIPv4 s; expand_ellipsis (ip ++ drop 12 ip4) ellipsis
            else
              let ip := ip ++ [Z.shiftr n 8; Z.land n 255] in
              if bool_decide (c ≠ ":"%char) then None
              else
                match rest' with
                | [] => None
                | c' :: rest'' =>
                    if bool_decide (c' = ":"%char) then
                      match ellipsis with
                      | Some _ => None
                      | None =>
                          match rest'' with
                          | [] => expand_ellipsis ip (Some (length ip))
                          | _ => ipv6_groups rounds' ip (Some (length ip)) rest''
                          end
                      end
                    else ipv6_groups rounds' ip ellipsis rest'
                end
        end
  end.

(** [func parseIPv6(s string, zoneAllowed bool)], without zones. *)
Definition parseIPv6 (s : list ascii) : option IP :=
  match s with
  | c1 :: c2 :: s' =>
      if bool_decide (c1 = ":"%char ∧ c2 = ":"%char) then
        match s' with
        | [] => Some (replicate IPv6len 0)
        | _ => ipv6_groups 8 [] (Some 0%nat) s'
        end
      else ipv6_groups 8 [] None s
  | _ => ipv6_groups 8 [] None s
  end.

(** [func (ip IP) To4() IP]. *)
Definition To4 (ip : IP) : option IP :=
  if bool_decide (length ip = IPv4len) then Some ip
  else if bool_decide (length ip = IPv6len ∧ take 12 ip = v4InV6Prefix) then Some (drop 12 ip)
  else None.

(** ** Blocks *)

(** [func CIDRMask(ones, bits int) IPMask] for [0 ≤ ones ≤ bits]: byte by byte. *)
Fixpoint CIDRMask (ones : Z) (bytes : nat) : list Z :=
  match bytes with
  | O => []
  | S k =>
      (if bool_decide (8 <= ones) then 255
       else if bool_decide (ones <= 0) then 0
       else 255 - (2 ^ (8 - ones) - 1)) :: CIDRMask (ones - 8) k
  end.

(** The loop of [func (ip IP) Mask(mask IPMask) IP]. *)
Definition and_bytes (ip mask : list Z) : list Z := zip_with Z.land ip mask.

(** [func (ip IP) Mask(mask IPMask) IP], nil on unequal lengths. *)
Definition Mask (ip : IP) (mask : list Z) : option IP :=
  let mask := if bool_decide (length mask = IPv6len ∧ length ip = IPv4len ∧ Forall (eq 255) (take 12 mask))
              then drop 12 mask else mask in
  let ip := if bool_decide (length mask = IPv4len ∧ length ip = IPv6len ∧ take 12 ip = v4InV6Prefix)
            then drop 12 ip else ip in
  if bool_decide (length ip = length mask) then Some (and_bytes ip mask) else None.

(** Cut a text at the first slash. *)
Fixpoint cut_slash (s : list ascii) : option (list ascii * list ascii) :=
  match s with
  | [] => None
  | c :: s' => if bool_decide (c = slash) then Some ([], s')
               else '(a, m) ← cut_slash s'; Some (c :: a, m)
  end.

(** [func ParseCIDR(s string) (IP, *IPNet, error)]: the block.  ([Mask] is never nil
    here: the mask is as long as the address.) *)
Definition ParseCIDR (s : string) : result IPNet :=
  let bad := Err ("invalid CIDR address: " +:+ s) in
  match cut_slash (str_to_list s) with
  | None => bad
  | Some (addr, mask) =>
      let '(iplen, ip) :=
        match parseIPv4 addr with
        | Some ip => (IPv4len, Some ip)
        | None => (IPv6len, parseIPv6 addr)
        end in
      match ip, dtoi mask with
      | Some ip, Some (n, []) =>
          if bool_decide (n > 8 * Z.of_nat iplen) then bad
          else
            let m := CIDRMask n iplen in
            match Mask ip m with
            | Some base => Ok (mkIPNet base m)
            | None => bad
            end
      | _, _ => bad
      end
  end.

(** [func networkNumberAndMask(n *IPNet) (ip IP, m IPMask)]. *)
Definition networkNumberAndMask (n : IPNet) : option (IP * list Z) :=
  ip ← (match To4 (net_IP n) with
        | Some ip => Some ip
        | None => if bool_decide (length (net_IP n) = IPv6len) then Some (net_IP n) else None
        end);
  let m := net_Mask n in
  if bool_decide (length m = IPv4len) then
    if bool_decide (length ip = IPv4len) then Some (ip, m) else None
  else if bool_decide (length m = IPv6len) then
    Some (ip, if bool_decide (length ip = IPv4len) then drop 12 m else m)
  else None.

(** The comparison loop of [Contains]. *)
Fixpoint same_network (nn m ip : list Z) : bool :=
  match nn, m, ip with
  | x :: nn', k :: m', y :: ip' => bool_decide (Z.land x k = Z.land y k) && same_network nn' m' ip'
  | _, _, _ => true
  end.

(** [func (n *IPNet) Contains(ip IP) bool]. *)
Definition Contains (n : IPNet) (ip : IP) : bool :=
  let '(nn, m) := default ([], []) (networkNumberAndMask n) in
  let ip := default ip (To4 ip) in
  bool_decide (length ip = length nn) && same_network nn m ip.

(** ** Examples *)

Example ParseCIDR_v4 : ParseCIDR "172.16.5.9/12" = Ok (mkIPNet [172; 16; 0; 0] [255; 240; 0; 0]).
Proof. vm_compute. reflexivity. Qed.
Example ParseCIDR_v6 :
  ParseCIDR "2001:db8::1:0/33" =
    Ok (mkIPNet [32; 1; 13; 184; 0; 0; 0; 0; 0; 0; 0; 0; 0; 0; 0; 0]
          [255; 255; 255; 255; 128; 0; 0; 0; 0; 0; 0; 0; 0; 0; 0; 0]).
Proof. vm_compute. reflexivity. Qed.
Example ParseCIDR_bad : ParseCIDR "172.16.0/12" = Err "invalid CIDR address: 172.16.0/12".
Proof. vm_compute. reflexivity. Qed.
