(* ===== verification/Conc.v ===== *)
(** * Goroutines

    Programs with goroutines, as trees of requests: a program makes a request,
    starts a goroutine, takes or returns a slot of a rate limiter (a buffered
    channel), or waits for the goroutines it started (a wait group).  A
    configuration steps by one action of one thread, in any order.  The rest of the
    file is a rely-guarantee logic: what a program does on every schedule. *)

From S2P Require Import Prelude.

(** ** Programs *)

Inductive prog (E : Type → Type) (A : Type) : Type :=
| Done (a : A)
| Crash (msg : string)
| Call {R : Type} (e : E R) (k : R → prog E A)
| Go (t : prog E unit) (k : prog E A)
| Acquire (k : prog E A)
| Release (k : prog E A)
| Wait (k : prog E A).
Arguments Done {E A} a.
Arguments Crash {E A} msg.
Arguments Call {E A R} e k.
Arguments Go {E A} t k.
Arguments Acquire {E A} k.
Arguments Release {E A} k.
Arguments Wait {E A} k.

Fixpoint pbind {E : Type → Type} {A B : Type} (p : prog E A) (f : A → prog E B) : prog E B :=
  match p with
  | Done a => f a
  | Crash msg => Crash msg
  | Call e k => Call e (λ r, pbind (k r) f)
  | Go t k => Go t (pbind k f)
  | Acquire k => Acquire (pbind k f)
  | Release k => Release (pbind k f)
  | Wait k => Wait (pbind k f)
  end.

(** Induction along the main program only. *)
Lemma main_ind {E : Type → Type} {A : Type} (P : prog E A → Prop) :
  (∀ a, P (Done a)) → (∀ msg, P (Crash msg)) →
  (∀ R (e : E R) k, (∀ r, P (k r)) → P (Call e k)) →
  (∀ t k, P k → P (Go t k)) → (∀ k, P k → P (Acquire k)) → (∀ k, P k → P (Release k)) →
  (∀ k, P k → P (Wait k)) → ∀ p, P p.
Proof.
  intros H1 H2 H3 H4 H5 H6 H7. fix IH 1. intros [a|msg|R e k|t k|k|k|k].
  - apply H1.
  - apply H2.
  - apply H3. intros r. apply IH.
  - apply H4, IH.
  - apply H5, IH.
  - apply H6, IH.
  - apply H7, IH.
Qed.

#[export] Instance prog_ret E : MRet (prog E) := λ A a, Done a.
#[export] Instance prog_bind E : MBind (prog E) := λ A B f p, pbind p f.

(** One request. *)
Definition pcall {E R} (e : E R) : prog E R := Call e Done.

(** ** Running a program alone *)

(** The sequential computation of a program: a goroutine runs where it is started. *)
Fixpoint run {E : Type → Type} {W : Type} `{Handler E W} {A : Type} (p : prog E A) : M E W A :=
  match p with
  | Done a => mret a
  | Crash msg => panic msg
  | Call e k => r ← call e; run (k r)
  | Go t k => _ ← run t; run k
  | Acquire k | Release k | Wait k => run k
  end.

Lemma M_bind_assoc {E W A B C} (m : M E W A) (f : A → M E W B) (g : B → M E W C) w :
  ((m ≫= f) ≫= g) w = (m ≫= λ a, f a ≫= g) w.
Proof.
  unfold mbind, M_bind. destruct (m w) as [[[a| | |] w1] t1]; [|done..].
  destruct (f a w1) as [[[b| | |] w2] t2]; [|done..].
  destruct (g b w2) as [[o w3] t3]. by rewrite app_assoc.
Qed.

Lemma M_bind_ext {E W A B} (m m' : M E W A) (f f' : A → M E W B) w :
  m w = m' w → (∀ a w', f a w' = f' a w') → (m ≫= f) w = (m' ≫= f') w.
Proof.
  intros Hm Hf. unfold mbind, M_bind. rewrite Hm.
  destruct (m' w) as [[[a| | |] w1] t1]; [|done..]. by rewrite Hf.
Qed.

Lemma run_bind {E W} `{Handler E W} {A B : Type} (p : prog E A) (f : A → prog E B) w :
  run (p ≫= f) w = (run p ≫= λ a, run (f a)) w.
Proof.
  change (p ≫= f) with (pbind p f).
  revert B f w. induction p as [A a|A msg|A R e k IH|A t IHt k IHk|A k IH|A k IH|A k IH]; intros B f w;
    cbn [pbind run].
  - unfold mbind, M_bind, mret, M_ret. by destruct (run (f a) w) as [[o w'] t].
  - done.
  - rewrite M_bind_assoc. by apply M_bind_ext.
  - rewrite M_bind_assoc. by apply M_bind_ext.
  - apply IH.
  - apply IH.
  - apply IH.
Qed.

Lemma run_pcall {E W} `{Handler E W} {R} (e : E R) w : run (pcall e) w = call e w.
Proof. unfold pcall. cbn. unfold mbind, M_bind, call. by destruct (handle e w). Qed.

(** ** Configurations and steps *)

Section steps.
Context {E : Type → Type} {W : Type} `{!Handler E W}.
Context (limit : nat).

(** The main program, the goroutines, the slots taken and the world. *)
Record config (A : Type) : Type := mkConfig {
  c_main : prog E A; c_threads : list (prog E unit); c_held : nat; c_world : W }.
Arguments mkConfig {A} _ _ _ _.
Arguments c_main {A} _.
Arguments c_threads {A} _.
Arguments c_held {A} _.
Arguments c_world {A} _.

(** The next action of a thread: its rest, the slots and the world afterwards, and
    the goroutines it starts.  A thread that wants a slot blocks while none is free;
    waiting is a step of the main program alone. *)
Definition thread_step {A : Type} (p : prog E A) (held : nat) (w : W) :
    option (prog E A * nat * W * list (prog E unit)) :=
  match p with
  | Done _ | Crash _ | Wait _ => None
  | Call e k => let '(r, w') := handle e w in Some (k r, held, w', [])
  | Go t k => Some (k, held, w, [t])
  | Acquire k => if (held <? limit)%nat then Some (k, S held, w, []) else None
  | Release k => Some (k, pred held, w, [])
  end.

Definition is_done {A : Type} (p : prog E A) : Prop := ∃ a, p = Done a.

Inductive step {A : Type} : config A → config A → Prop :=
| step_main c p' held' w' new :
    thread_step (c_main c) (c_held c) (c_world c) = Some (p', held', w', new) →
    step c (mkConfig p' (c_threads c ++ new) held' w')
| step_thread c i t t' held' w' new :
    c_threads c !! i = Some t →
    thread_step t (c_held c) (c_world c) = Some (t', held', w', new) →
    step c (mkConfig (c_main c) (<[i := t']> (c_threads c) ++ new) held' w')
| step_wait c k :
    c_main c = Wait k → Forall is_done (c_threads c) →
    step c (mkConfig k (c_threads c) (c_held c) (c_world c)).

Definition init {A : Type} (p : prog E A) (w : W) : config A := mkConfig p [] 0 w.

(** Every schedule reaches a configuration with [P], and none gets stuck before. *)
Inductive eventually {A : Type} (P : config A → Prop) (c : config A) : Prop :=
| eventually_now : P c → eventually P c
| eventually_step :
    (∃ c', step c c') → (∀ c', step c c' → eventually P c') → eventually P c.

Lemma eventually_mono {A : Type} (P P' : config A → Prop) c :
  (∀ c, P c → P' c) → eventually P c → eventually P' c.
Proof.
  intros HP. induction 1 as [c Hc|c Hs _ IH]; [by apply eventually_now, HP|by apply eventually_step].
Qed.

(** ** What threads do on every schedule *)

(** [R]: what any action of any thread may do to the world. *)
Context (R : relation W) `{!PreOrder R}.

(** A thread without goroutines of its own: from [w], after any interference, its
    requests change the world within [R], it makes at most [n] steps, and ends with
    [Q]; [h] says whether it holds a slot. *)
Fixpoint ok {A : Type} (p : prog E A) : bool → nat → (A → bool → nat → W → Prop) → W → Prop :=
  match p with
  | Done a => λ h n Q w, Q a h n w
  | Call e k => λ h n Q w, ∃ n', n = S n' ∧
      ∀ w0, R w w0 → R w0 (handle e w0).2 ∧ ok (k (handle e w0).1) h n' Q (handle e w0).2
  | Acquire k => λ h n Q w, h = false ∧ ∃ n', n = S n' ∧ ok k true n' Q w
  | Release k => λ h n Q w, h = true ∧ ∃ n', n = S n' ∧ ok k false n' Q w
  | Crash _ | Go _ _ | Wait _ => λ _ _ _ _, False
  end.

Definition stable (Q : W → Prop) : Prop := ∀ w w', Q w → R w w' → Q w'.

(** A goroutine: it ends without a slot, with [Q]. *)
Definition ok_thread (t : prog E unit) (h : bool) (n : nat) (Q : W → Prop) : W → Prop :=
  ok t h n (λ _ h' _ w', h' = false ∧ Q w').

(** The main program: [F] is what the goroutines started so far end with, and may be
    used after a wait. *)
Fixpoint ok_main {A : Type} (p : prog E A) :
    (W → Prop) → (A → (W → Prop) → W → Prop) → W → Prop :=
  match p with
  | Done a => λ F Q w, Q a F w
  | Call e k => λ F Q w,
      ∀ w0, R w w0 → R w0 (handle e w0).2 ∧ ok_main (k (handle e w0).1) F Q (handle e w0).2
  | Go t k => λ F Q w, ∃ n Qt, stable Qt ∧
      ok_thread t false n Qt w ∧ ok_main k (λ w, F w ∧ Qt w) Q w
  | Wait k => λ F Q w, ∀ w0, R w w0 → F w0 → ok_main k F Q w0
  | Crash _ | Acquire _ | Release _ => λ _ _ _, False
  end.

Lemma ok_bind {A B : Type} (p : prog E A) (f : A → prog E B) h n Q w :
  ok (p ≫= f) h n Q w ↔ ok p h n (λ a h' n' w', ok (f a) h' n' Q w') w.
Proof.
  change (p ≫= f) with (pbind p f).
  revert B f h n Q w. induction p as [A a|A msg|A R' e k IH|A t IHt k IHk|A k IH|A k IH|A k IH]; intros B f h n Q w;
    cbn [pbind ok]; try done.
  - split; intros (n' & -> & Hk); exists n'; (split; [done|]); intros w0 Hw0;
      destruct (Hk w0 Hw0) as [HR Hok]; (split; [done|]); by apply IH.
  - split; intros (-> & n' & -> & Hk); (split; [done|]); exists n'; (split; [done|]); by apply IH.
  - split; intros (-> & n' & -> & Hk); (split; [done|]); exists n'; (split; [done|]); by apply IH.
Qed.

Lemma ok_main_bind {A B : Type} (p : prog E A) (f : A → prog E B) F Q w :
  ok_main (p ≫= f) F Q w ↔ ok_main p F (λ a F' w', ok_main (f a) F' Q w') w.
Proof.
  change (p ≫= f) with (pbind p f).
  revert B f F Q w. induction p as [A a|A msg|A R' e k IH|A t IHt k IHk|A k IH|A k IH|A k IH]; intros B f F Q w;
    cbn [pbind ok_main]; try done.
  - split; intros Hk w0 Hw0; destruct (Hk w0 Hw0) as [HR Hok]; (split; [done|]); by apply IH.
  - split; intros (n & Qt & Hst & Ht & Hk); exists n, Qt; split_and!; try done; by apply IHk.
  - split; intros Hk w0 Hw0 HF; apply IH; by apply Hk.
Qed.

Lemma ok_mono {A : Type} (p : prog E A) h n (Q Q' : A → bool → nat → W → Prop) w :
  ok p h n Q w → (∀ a h' n' w', Q a h' n' w' → Q' a h' n' w') → ok p h n Q' w.
Proof.
  intros Hp HQ. revert h n w Hp. induction p as [A a|A msg|A R' e k IH|A t IHt k IHk|A k IH|A k IH|A k IH];
    intros h n w; cbn [ok]; try done.
  - apply HQ.
  - intros (n' & -> & Hk). exists n'. split; [done|]. intros w0 Hw0. destruct (Hk w0 Hw0). split; [done|].
    by eapply IH.
  - intros (-> & n' & -> & Hk). split; [done|]. exists n'. split; [done|]. by eapply IH.
  - intros (-> & n' & -> & Hk). split; [done|]. exists n'. split; [done|]. by eapply IH.
Qed.

(** Interference within [R] does not disturb a thread. *)
Lemma ok_stable {A : Type} (p : prog E A) h n (Q : A → bool → nat → W → Prop) w w' :
  (∀ a h n, stable (Q a h n)) → ok p h n Q w → R w w' → ok p h n Q w'.
Proof.
  intros HQ. revert h n w. induction p as [A a|A msg|A R' e k IH|A t IHt k IHk|A k IH|A k IH|A k IH];
    intros h n w; cbn [ok]; try done.
  - apply HQ.
  - intros (n' & -> & Hk) Hw. exists n'. split; [done|]. intros w0 Hw0. apply Hk. by etrans.
  - intros (-> & n' & -> & Hk) Hw. split; [done|]. exists n'. split; [done|]. by eapply IH.
  - intros (-> & n' & -> & Hk) Hw. split; [done|]. exists n'. split; [done|]. by eapply IH.
Qed.

Lemma ok_thread_stable t h n Q w w' :
  stable Q → ok_thread t h n Q w → R w w' → ok_thread t h n Q w'.
Proof. intros HQ. apply ok_stable. intros a h' _ w1 w2 [? ?] ?. split; [done|]. by eapply HQ. Qed.

Lemma ok_main_stable {A : Type} (p : prog E A) F (Q : A → (W → Prop) → W → Prop) w w' :
  (∀ a F, stable (Q a F)) → ok_main p F Q w → R w w' → ok_main p F Q w'.
Proof.
  intros HQ. revert F w. induction p as [A a|A msg|A R' e k IH|A t IHt k IHk|A k IH|A k IH|A k IH];
    intros F w; cbn [ok_main]; try done.
  - apply HQ.
  - intros Hk Hw w0 Hw0. apply Hk. by etrans.
  - intros (n & Qt & Hst & Ht & Hk) Hw. exists n, Qt. split_and!; try done.
    + by eapply ok_thread_stable.
    + by eapply IHk.
  - intros Hk Hw w0 Hw0. apply Hk. by etrans.
Qed.

(** A program that only makes requests. *)
Fixpoint calls_only {A : Type} (p : prog E A) : Prop :=
  match p with
  | Done _ => True
  | Call e k => ∀ r, calls_only (k r)
  | _ => False
  end.

Lemma calls_only_bind {A B : Type} (p : prog E A) (f : A → prog E B) :
  calls_only p → (∀ a, calls_only (f a)) → calls_only (p ≫= f).
Proof.
  change (p ≫= f) with (pbind p f). intros Hp Hf.
  induction p as [A a|A msg|A R' e k IH|A t IHt k IHk|A k IH|A k IH|A k IH]; cbn [pbind calls_only] in *; try done.
  intros r. by apply IH.
Qed.

Lemma ok_ok_main {A : Type} (p : prog E A) F h n (Q : A → (W → Prop) → W → Prop) w :
  calls_only p → ok p h n (λ a _ _ w', Q a F w') w → ok_main p F Q w.
Proof.
  revert n w. induction p as [A a|A msg|A R' e k IH|A t IHt k IHk|A k IH|A k IH|A k IH];
    intros n w; cbn [calls_only ok ok_main]; try done.
  intros Hc (n' & -> & Hk) w0 Hw0. destruct (Hk w0 Hw0) as [HR Hok]. split; [done|]. by eapply IH.
Qed.

(** ** Soundness *)

(** What is known of one goroutine of a configuration. *)
Record tinfo : Type := mkTinfo { ti_h : bool; ti_n : nat; ti_Q : W → Prop }.

Definition thread_inv (w : W) (t : prog E unit) (i : tinfo) : Prop :=
  stable (ti_Q i) ∧ ok_thread t (ti_h i) (ti_n i) (ti_Q i) w.

Definition slots (us : list tinfo) : nat := sum_list_with (λ i, Nat.b2n (ti_h i)) us.
Definition budget (us : list tinfo) : nat := sum_list_with ti_n us.

(** The invariant of a run whose goroutines have at most [N] steps left. *)
Definition inv {A : Type} (Q : A → W → Prop) (N : nat) (c : config A) : Prop :=
  ∃ us F, Forall2 (thread_inv (c_world c)) (c_threads c) us ∧
    c_held c = slots us ∧ budget us = N ∧
    (∀ w, Forall (λ i, ti_Q i w) us → F w) ∧
    ok_main (c_main c) F (λ a _ w, Q a w) (c_world c).

Lemma threads_stable w w' ts us :
  Forall2 (thread_inv w) ts us → R w w' → Forall2 (thread_inv w') ts us.
Proof.
  intros Hts Hw. eapply Forall2_impl; [exact Hts|]. intros t i [Hst Ht]. split; [done|].
  by eapply ok_thread_stable.
Qed.

Lemma slots_app us1 us2 : slots (us1 ++ us2) = (slots us1 + slots us2)%nat.
Proof. apply sum_list_with_app. Qed.
Lemma budget_app us1 us2 : budget (us1 ++ us2) = (budget us1 + budget us2)%nat.
Proof. apply sum_list_with_app. Qed.

(** A goroutine is done, waits for a slot, or can step. *)
Lemma thread_cases w t u :
  thread_inv w t u →
  (ti_h u = false ∧ is_done t ∧ ti_Q u w) ∨ (ti_h u = false ∧ ∃ k, t = Acquire k) ∨
  (∀ held, is_Some (thread_step t held w)).
Proof.
  intros [_ Hok]. unfold ok_thread in Hok. destruct t; cbn [ok] in Hok; try done.
  - left. destruct Hok. split_and!; [done|by eexists|done].
  - right; right. intros held. simpl. destruct (handle e w). eauto.
  - right; left. destruct Hok as [-> _]. eauto.
  - right; right. intros held. simpl. eauto.
Qed.

(** Done threads, or one that can step, or only free slots. *)
Lemma threads_cases w ts us :
  Forall2 (thread_inv w) ts us →
  Forall is_done ts ∨ (∃ i t, ts !! i = Some t ∧ ∀ held, is_Some (thread_step t held w)) ∨
  (slots us = 0%nat ∧ ∃ i k, ts !! i = Some (Acquire k)).
Proof.
  intros Hts. assert ((slots us = 0%nat ∧ Forall is_done ts) ∨
    (∃ i t, ts !! i = Some t ∧ ∀ held, is_Some (thread_step t held w)) ∨
    (slots us = 0%nat ∧ ∃ i k, ts !! i = Some (Acquire k))) as [[_ ?]|H]; [|by left|by right].
  induction Hts as [|t u ts us Ht Hts IH]; [by left|].
  destruct (thread_cases w t u Ht) as [(Hh & Hd & _)|[(Hh & k & ->)|Hs]].
  - destruct IH as [[Hs Hds]|[(i & t' & Hi & Ht')|(Hs & i & k & Hi)]].
    + left. unfold slots in *. simpl. rewrite Hh. split; [done|by constructor].
    + right; left. by exists (S i), t'.
    + right; right. unfold slots in *. simpl. rewrite Hh. split; [done|]. by exists (S i), k.
  - destruct IH as [[Hs Hds]|[(i & t' & Hi & Ht')|(Hs & i & k' & Hi)]].
    + right; right. unfold slots in *. simpl. rewrite Hh. split; [done|]. by exists 0%nat, k.
    + right; left. by exists (S i), t'.
    + right; right. unfold slots in *. simpl. rewrite Hh. split; [done|]. by exists (S i), k'.
  - right; left. by exists 0%nat, t.
Qed.

(** No configuration of a run is stuck: there are slots, and who holds one goes on. *)
Lemma inv_progress {A : Type} (Q : A → W → Prop) N c :
  (1 ≤ limit)%nat → inv Q N c →
  (∃ a, c_main c = Done a ∧ Forall is_done (c_threads c) ∧ Q a (c_world c)) ∨ ∃ c', step c c'.
Proof.
  intros Hlim (us & F & Hts & Hheld & _ & _ & Hmain).
  assert ((∃ k, c_main c = Wait k) ∨ (∃ a, c_main c = Done a ∧ Q a (c_world c)) ∨
    is_Some (thread_step (c_main c) (c_held c) (c_world c))) as Hcase.
  { destruct (c_main c); cbn [ok_main] in Hmain; try done; simpl; eauto.
    destruct (handle e (c_world c)). eauto. }
  destruct Hcase as [Hw|[Hd|[[[[p' h'] w'] new] Hs]]]; [| |right; eexists; by eapply step_main].
  all: destruct (threads_cases _ _ _ Hts) as [Hds|[(i & t & Hi & Ht)|(H0 & i & k' & Hi)]].
  - right. destruct Hw as [k Hw]. eexists. by eapply step_wait.
  - right. destruct (Ht (c_held c)) as [[[[t' h'] w'] new] Hs]. eexists. by eapply step_thread.
  - right. eexists. eapply step_thread; [exact Hi|]. simpl.
    assert ((c_held c <? limit)%nat = true) as -> by (apply Nat.ltb_lt; lia). done.
  - left. naive_solver.
  - right. destruct (Ht (c_held c)) as [[[[t' h'] w'] new] Hs]. eexists. by eapply step_thread.
  - right. eexists. eapply step_thread; [exact Hi|]. simpl.
    assert ((c_held c <? limit)%nat = true) as -> by (apply Nat.ltb_lt; lia). done.
Qed.

Lemma sum_insert {X} (f : X → nat) (l : list X) i x y :
  l !! i = Some x → (sum_list_with f (<[i := y]> l) + f x = sum_list_with f l + f y)%nat.
Proof.
  revert i. induction l as [|z l IH]; intros [|i]; simpl; [done..| |].
  - intros [= ->]. lia.
  - intros Hi. specialize (IH i Hi). lia.
Qed.

Lemma insert_posts us i u u' w :
  us !! i = Some u → ti_Q u' = ti_Q u →
  Forall (λ u, ti_Q u w) (<[i := u']> us) → Forall (λ u, ti_Q u w) us.
Proof.
  intros Hi HQ Hall. rewrite <- (list_insert_id us i u Hi). rewrite <- (list_insert_insert_eq us i u u').
  apply Forall_insert; [done|]. rewrite <- HQ.
  assert (<[i:=u']> us !! i = Some u') as Hi' by (apply list_lookup_insert_eq; by eapply lookup_lt_Some).
  rewrite Forall_forall in Hall. apply Hall. by eapply list_elem_of_lookup_2.
Qed.

(** A step of a goroutine: what changes of what is known of it. *)
Lemma thread_inv_step w t u h t' h' w' new :
  thread_inv w t u → (ti_h u = true → 1 ≤ h)%nat →
  thread_step t h w = Some (t', h', w', new) →
  new = [] ∧ R w w' ∧ ∃ u', thread_inv w' t' u' ∧ ti_Q u' = ti_Q u ∧ (ti_n u' < ti_n u)%nat ∧
    (h' + Nat.b2n (ti_h u) = h + Nat.b2n (ti_h u'))%nat.
Proof.
  intros [Hst Hok] Hh. unfold ok_thread in Hok. destruct t; cbn [ok] in Hok; try done; simpl.
  - destruct Hok as (n' & Hn & Hk). destruct (Hk w) as [HR Hk']; [done|].
    destruct (handle e w) as [r w1]. simpl in *. intros [= <- <- <- <-]. split; [done|]. split; [done|].
    exists (mkTinfo (ti_h u) n' (ti_Q u)). split_and!; simpl; [by split|done|lia|lia].
  - destruct Hok as (Hf & n' & Hn & Hk). destruct (_ <? _)%nat; [|done]. intros [= <- <- <- <-].
    split; [done|]. split; [done|]. exists (mkTinfo true n' (ti_Q u)). rewrite Hf. split_and!; simpl; [by split|done|lia|lia].
  - destruct Hok as (Hf & n' & Hn & Hk). intros [= <- <- <- <-].
    split; [done|]. split; [done|]. exists (mkTinfo false n' (ti_Q u)). rewrite Hf. specialize (Hh Hf).
    split_and!; simpl; [by split|done|lia|lia].
Qed.

Lemma slot_held us i u : us !! i = Some u → ti_h u = true → (1 ≤ slots us)%nat.
Proof.
  intros Hi Hh. pose proof (sum_insert (λ i, Nat.b2n (ti_h i)) us i u (mkTinfo false 0 (ti_Q u)) Hi) as Hs.
  unfold slots. simpl in Hs. rewrite Hh in Hs. simpl in Hs. lia.
Qed.

Lemma done_posts w ts us :
  Forall2 (thread_inv w) ts us → Forall is_done ts → Forall (λ u, ti_Q u w) us.
Proof.
  induction 1 as [|t u ts us Ht Hts IH]; intros Hds; [done|]. apply Forall_cons in Hds as [[a ->] Hds'].
  constructor; [|by apply IH]. destruct (thread_cases _ _ _ Ht) as [(_ & _ & HQ)|[(_ & k & Hk)|Hs]]; [done|done|].
  by destruct (Hs 0%nat) as [? Hs0].
Qed.

(** A run that has ended well. *)
Definition ended {A : Type} (Q : A → W → Prop) (c : config A) : Prop :=
  ∃ a, c_main c = Done a ∧ Forall is_done (c_threads c) ∧ Q a (c_world c).

Section sound.
Context {A : Type} (Q : A → W → Prop) (HQ : ∀ a, stable (Q a)) (Hlim : (1 ≤ limit)%nat).
Implicit Types (c : config A).

(** A step of a goroutine uses its budget up. *)
Lemma inv_step_thread N c i t t' h' w' new :
  inv Q N c → c_threads c !! i = Some t →
  thread_step t (c_held c) (c_world c) = Some (t', h', w', new) →
  ∃ N', (N' < N)%nat ∧ inv Q N' (mkConfig (c_main c) (<[i := t']> (c_threads c) ++ new) h' w').
Proof.
  intros (us & F & Hts & Hheld & HN & HF & Hmain) Hi Hs.
  destruct (Forall2_lookup_l _ _ _ _ _ Hts Hi) as (u & Hu & Hinv).
  assert (ti_h u = true → 1 ≤ c_held c)%nat as Hh1 by (rewrite Hheld; by eapply slot_held).
  destruct (thread_inv_step _ _ _ _ _ _ _ _ Hinv Hh1 Hs) as (-> & HR & u' & Hinv' & HQu & Hn & Hh).
  pose proof (sum_insert (λ i, Nat.b2n (ti_h i)) us i u u' Hu) as Hslots.
  pose proof (sum_insert ti_n us i u u' Hu) as Hbudget.
  exists (budget (<[i := u']> us)). unfold budget, slots in *. split; [lia|].
  exists (<[i := u']> us), F. rewrite app_nil_r. split_and!; simpl.
  - apply Forall2_insert; [by eapply threads_stable|done].
  - unfold slots. lia.
  - done.
  - intros w Hall. apply HF. by eapply insert_posts.
  - eapply ok_main_stable; [|exact Hmain|done]. intros a _. apply HQ.
Qed.

(** A step of the main program, and the end of a wait. *)
Lemma inv_step_main N c p' h' w' new :
  inv Q N c → thread_step (c_main c) (c_held c) (c_world c) = Some (p', h', w', new) →
  R (c_world c) w' ∧ ∃ N', inv Q N' (mkConfig p' (c_threads c ++ new) h' w').
Proof.
  intros (us & F & Hts & Hheld & HN & HF & Hok) Hs.
  destruct (c_main c) as [a|msg|R' e k|t k|k|k|k]; cbn [ok_main] in Hok; try done.
  - destruct (Hok (c_world c)) as [HR Hk]; [done|]. simpl in Hs. destruct (handle e (c_world c)) as [r w1].
    simplify_eq/=. split; [done|]. exists (budget us), us, F. rewrite app_nil_r.
    split_and!; [by eapply threads_stable|done..].
  - destruct Hok as (n & Qt & Hst & Ht & Hk). simplify_eq/=. split; [done|].
    exists (budget (us ++ [mkTinfo false n Qt])), (us ++ [mkTinfo false n Qt]), (λ w, F w ∧ Qt w).
    rewrite slots_app. simpl. split_and!; [|rewrite Hheld; unfold slots; simpl; lia|done| |done].
    + apply Forall2_app; [done|]. by repeat constructor.
    + intros w. rewrite Forall_app, Forall_singleton. naive_solver.
Qed.

Lemma inv_step_wait N c k :
  inv Q N c → c_main c = Wait k → Forall is_done (c_threads c) →
  inv Q N (mkConfig k (c_threads c) (c_held c) (c_world c)).
Proof.
  intros (us & F & Hts & Hheld & HN & HF & Hok) Hp Hds. rewrite Hp in Hok. cbn [ok_main] in Hok.
  exists us, F. split_and!; [done..|]. apply Hok; [done|]. apply HF. by eapply done_posts.
Qed.

(** The run never leaves the invariant, and changes the world within [R] only. *)
Lemma inv_step N c c' : inv Q N c → step c c' → R (c_world c) (c_world c') ∧ ∃ N', inv Q N' c'.
Proof.
  intros Hinv Hstep. destruct Hstep as [c p' h' w' new Hs|c i t t' h' w' new Hi Hs|c k Hk Hds].
  - by eapply inv_step_main.
  - pose proof Hinv as (us & F & Hts & Hheld & _).
    destruct (Forall2_lookup_l _ _ _ _ _ Hts Hi) as (u & Hu & Ht).
    assert (ti_h u = true → 1 ≤ c_held c)%nat as Hh1 by (rewrite Hheld; by eapply slot_held).
    destruct (thread_inv_step _ _ _ _ _ _ _ _ Ht Hh1 Hs) as (_ & HR & _). split; [done|].
    destruct (inv_step_thread N c i t t' h' w' new Hinv Hi Hs) as (N' & _ & ?). eauto.
  - split; [done|]. exists N. by eapply inv_step_wait.
Qed.

(** Every moment of every schedule is within [R] of the start. *)
Lemma ok_main_always (p : prog E A) w c :
  ok_main p (λ _, True) (λ a _ w, Q a w) w → rtc step (init p w) c → R w (c_world c).
Proof.
  intros Hp Hc. assert (∃ N, inv Q N (init p w)) as [N Hinv].
  { exists 0%nat, [], (λ _, True). split_and!; [constructor|done..]. }
  change w with (c_world (init p w)). clear Hp. revert N Hinv.
  induction Hc as [c|c1 c2 c3 Hs _ IH]; intros N Hinv; [done|].
  destruct (inv_step N c1 c2 Hinv Hs) as [HR [N' Hinv']]. etrans; [exact HR|]. by eapply IH.
Qed.

(** What the main program leads to decides how the run ends. *)
Lemma sound_by_main p :
  (∀ N c p' h' w' new, c_main c = p → inv Q N c →
     thread_step p (c_held c) (c_world c) = Some (p', h', w', new) →
     eventually (ended Q) (mkConfig p' (c_threads c ++ new) h' w')) →
  (∀ N c k, c_main c = p → p = Wait k → inv Q N c → Forall is_done (c_threads c) →
     eventually (ended Q) (mkConfig k (c_threads c) (c_held c) (c_world c))) →
  ∀ N c, c_main c = p → inv Q N c → eventually (ended Q) c.
Proof.
  intros Hmain Hwait N. induction N as [N IH] using lt_wf_ind. intros c Hp Hinv.
  destruct (inv_progress Q N c Hlim Hinv) as [Hdone|Hstep]; [by apply eventually_now|].
  apply eventually_step; [done|]. intros c' Hc'.
  destruct Hc' as [c p' h' w' new Hs|c i t t' h' w' new Hi Hs|c k Hk Hds].
  - rewrite Hp in Hs. by eapply Hmain.
  - destruct (inv_step_thread N c i t t' h' w' new Hinv Hi Hs) as (N' & HN & Hinv').
    by apply (IH N' HN).
  - eapply Hwait; [done| |done|done]. congruence.
Qed.

Lemma sound_main p : ∀ N c, c_main c = p → inv Q N c → eventually (ended Q) c.
Proof.
  induction p as [a|msg|R' e k IH|t k IHk|k IH|k IH|k IH] using main_ind; apply sound_by_main; try done.
  - intros N c p' h' w' new Hp Hinv Hs. rewrite <- Hp in Hs.
    destruct (inv_step_main _ _ _ _ _ _ Hinv Hs) as [_ [N' Hinv']].
    rewrite Hp in Hs. simpl in Hs. destruct (handle e (c_world c)). simplify_eq. by eapply IH.
  - intros N c p' h' w' new Hp Hinv Hs. rewrite <- Hp in Hs.
    destruct (inv_step_main _ _ _ _ _ _ Hinv Hs) as [_ [N' Hinv']].
    rewrite Hp in Hs. simplify_eq/=. by eapply IHk.
  - intros N c p' h' w' new Hp (us & F & _ & _ & _ & _ & Hok). rewrite Hp in Hok. done.
  - intros N c p' h' w' new Hp (us & F & _ & _ & _ & _ & Hok). rewrite Hp in Hok. done.
  - intros N c k' Hp [= <-] Hinv Hds. eapply IH; [done|]. by eapply inv_step_wait.
Qed.

(** A program that is [ok_main] ends on every schedule, with its postcondition. *)
Lemma ok_main_sound (p : prog E A) w :
  ok_main p (λ _, True) (λ a _ w, Q a w) w → eventually (ended Q) (init p w).
Proof.
  intros Hp. apply (sound_main p 0); [done|]. exists [], (λ _, True). split_and!; [constructor|done..].
Qed.

End sound.
End steps.

Arguments mkConfig {E W A} _ _ _ _.
Arguments c_main {E W A} _.
Arguments c_threads {E W A} _.
Arguments c_held {E W A} _.
Arguments c_world {E W A} _.
