(* ===== verification/RouteController.v ===== *)
(** * The route controller of Kubernetes, run on the provider's routes

    [vendor/k8s.io/kubernetes/pkg/controller/route/routecontroller.go], which the
    controller manager starts with the provider's [Routes]: one goroutine per missing
    or wrong route, with retries and a rate limiter.  The provider's operations are
    given again as programs that can be interleaved at every request; run alone they
    are [routes.go]'s operations ([RouteControllerSpec.v]). *)

From S2P Require Import Prelude GoStd Kube Cloud Provider Instances Routes Interfaces Net Conc.

(** [x ←? m; k] for programs. *)
Definition pbind_ok {A B} (m : prog req (result A)) (k : A → prog req (result B)) :
    prog req (result B) :=
  r ← m; match r with Ok a => k a | Err e => mret (Err e) end.

(** ** The provider's operations as programs *)

Definition pgetInstances (p : AliyunProvider) : prog req (result (list InstanceAttributesType)) :=
  pbind_ok (pcall (DescribeInstances
     (mkDescribeInstancesArgs (region p) (vpcID p) (Validate (mkPagination 0 0)))))
    (λ '(instances, _), mret (Ok instances)).

Definition pgetInstanceByNodeName (p : AliyunProvider) (nodeName : string) :
    prog req (result InstanceAttributesType) :=
  pbind_ok (pgetInstances p) (λ instances,
    match filter_instances instances (by_nodeNameType (nodeNameType p) nodeName) with
    | [] => mret (Err (unable_err nodeName))
    | [i] => mret (Ok i)
    | _ => mret (Err (multiple_err nodeName))
    end).

Definition pmapInstanceToNodeName (p : AliyunProvider) (i : InstanceAttributesType) : prog req string :=
  if bool_decide (nodeNameType p = NodeNameTypePrivateIP) then
    match i_PrivateIpAddress i with
    | [] => Crash "runtime error: index out of range"
    | ip :: _ => mret ip
    end
  else mret (i_HostName i).

Fixpoint plist_entries (p : AliyunProvider) (instances : list InstanceAttributesType)
    (entries : list RouteEntrySetType) : prog req (list Route) :=
  match entries with
  | [] => mret []
  | r :: entries' =>
      if bool_decide (re_NextHopType r ≠ NextHopIntance) then plist_entries p instances entries'
      else match filter_instances instances (byInstanceId (re_InstanceId r)) with
           | [i] =>
               node ← pmapInstanceToNodeName p i;
               routes ← plist_entries p instances entries';
               mret (mkRoute node (re_DestinationCidrBlock r) :: routes)
           | _ => plist_entries p instances entries'
           end
  end.

Fixpoint plist_tables (p : AliyunProvider) (instances : list InstanceAttributesType)
    (tables : list RouteTableSetType) : prog req (list Route) :=
  match tables with
  | [] => mret []
  | t :: tables' =>
      rs ← plist_entries p instances (rt_RouteEntry t);
      rest ← plist_tables p instances tables';
      mret (rs ++ rest)
  end.

Definition pListRoutes (p : AliyunProvider) (clusterName : string) : prog req (result (list Route)) :=
  pbind_ok (pgetInstances p) (λ instances,
    r ← pcall (DescribeRouteTables
         (mkDescribeRouteTablesArgs (vrouterID p) (routeTable p) (Validate (mkPagination 0 10))));
    match r with
    | Err e => mret (Err ("Unable list routes:" +:+ e))
    | Ok (tables, _) => rs ← plist_tables p instances tables; mret (Ok rs)
    end).

Definition pCreateRoute (p : AliyunProvider) (clusterName nameHint : string) (route : Route) :
    prog req (result unit) :=
  pbind_ok (pgetInstanceByNodeName p (r_TargetNode route)) (λ i,
    pcall (CreateRouteEntry
      (mkRouteEntryArgs (routeTable p) (r_DestinationCIDR route) (i_InstanceId i)))).

Definition pDeleteRoute (p : AliyunProvider) (clusterName : string) (route : Route) :
    prog req (result unit) :=
  pbind_ok (pgetInstanceByNodeName p (r_TargetNode route)) (λ i,
    pcall (DeleteRouteEntry
      (mkRouteEntryArgs (routeTable p) (r_DestinationCIDR route) (i_InstanceId i)))).

(** ** The controller *)

(** The provider as [cloudprovider.Routes], its operations as programs. *)
Definition aliyun_routes (p : AliyunProvider) : RoutesInterface (prog req) :=
  mkRoutesInterface (pListRoutes p) (pCreateRoute p) (pDeleteRoute p).

(** [type RouteController struct]; the client and the node lister are requests. *)
Record RouteController (F : Type → Type) : Type := mkRouteController {
  rc_routes : RoutesInterface F; rc_clusterName : string; rc_clusterCIDR : IPNet }.
Arguments mkRouteController {F} _ _ _.
Arguments rc_routes {F} _.
Arguments rc_clusterName {F} _.
Arguments rc_clusterCIDR {F} _.

Definition maxConcurrentRouteCreations : nat := 200.
Definition maxRetries : nat := 5.
Definition updateNodeStatusMaxRetries : nat := 3.

Definition NodeNetworkUnavailable : string := "NetworkUnavailable".
Definition ConditionTrue : string := "True".
Definition ConditionFalse : string := "False".

(** [func GetNodeCondition(status *NodeStatus, conditionType)]. *)
Definition GetNodeCondition (node : KNode) (type : string) : option NodeCondition :=
  find (λ c, bool_decide (nc_Type c = type)) (kn_Conditions node).

Definition network_condition (routeCreated : bool) : NodeCondition :=
  if routeCreated
  then mkNodeCondition NodeNetworkUnavailable ConditionFalse "RouteCreated" "RouteController created a route"
  else mkNodeCondition NodeNetworkUnavailable ConditionTrue "NoRouteCreated"
         "RouteController failed to create a route".

(** The loop of [updateNetworkingCondition]: conflicts are tried again. *)
Fixpoint update_condition (tries : nat) (nodeName : string) (routeCreated : bool)
    (err : option api_error) : prog req (option api_error) :=
  match tries with
  | O => mret err
  | S tries' =>
      err ← pcall (Kube (SetNodeCondition nodeName (network_condition routeCreated)));
      match err with
      | None => mret None
      | Some e => if IsConflict e then update_condition tries' nodeName routeCreated (Some e)
                  else mret (Some e)
      end
  end.
Definition updateNetworkingCondition (nodeName : string) (routeCreated : bool) :
    prog req (option api_error) :=
  update_condition updateNodeStatusMaxRetries nodeName routeCreated None.

(** [func (rc *RouteController) isResponsibleForRoute(route) bool]. *)
Definition isResponsibleForRoute {F} (rc : RouteController F) (route : Route) : bool :=
  match ParseCIDR (r_DestinationCIDR route) with
  | Err _ => false
  | Ok cidr =>
      let lastIP := zip_with (λ b m, Z.lor b (Z.lxor m 255)) (net_IP cidr) (net_Mask cidr) in
      Contains (rc_clusterCIDR rc) (net_IP cidr) && Contains (rc_clusterCIDR rc) lastIP
  end.

(** The goroutine that creates a route, with at most [tries] attempts. *)
Fixpoint create_route (tries : nat) (rc : RouteController (prog req)) (nodeName nameHint : string) (route : Route) :
    prog req unit :=
  match tries with
  | O => mret tt
  | S tries' =>
      Acquire (
        err ← rs_CreateRoute (rc_routes rc) (rc_clusterName rc) nameHint route;
        Release (
          _ ← updateNetworkingCondition nodeName (match err with Ok _ => true | Err _ => false end);
          match err with
          | Ok _ => mret tt
          | Err _ => create_route tries' rc nodeName nameHint route
          end))
  end.

(** The goroutine that deletes a route. *)
Definition delete_route (rc : RouteController (prog req)) (route : Route) : prog req unit :=
  _ ← rs_DeleteRoute (rc_routes rc) (rc_clusterName rc) route; mret tt.

(** [routeMap]: the last route of a node wins. *)
Definition route_map (routes : list Route) : gmap string Route :=
  foldl (λ m route, <[r_TargetNode route := route]> m) ∅ routes.

(** The condition is updated when it does not say that the network is available. *)
Definition refresh_condition (node : KNode) : prog req unit :=
  match GetNodeCondition node NodeNetworkUnavailable with
  | Some c => if bool_decide (nc_Status c = ConditionFalse) then mret tt
              else (_ ← updateNetworkingCondition (kn_Name node) true; mret tt)
  | None => _ ← updateNetworkingCondition (kn_Name node) true; mret tt
  end.

(** The first loop of [reconcile]: a goroutine for every node without its route. *)
Fixpoint reconcile_nodes (rc : RouteController (prog req)) (routeMap : gmap string Route) (nodes : list KNode)
    (nodeCIDRs : gmap string string) : prog req (gmap string string) :=
  match nodes with
  | [] => mret nodeCIDRs
  | node :: nodes' =>
      if bool_decide (kn_PodCIDR node = "") then reconcile_nodes rc routeMap nodes' nodeCIDRs
      else
        let nodeName := kn_Name node in
        let cidrs := <[nodeName := kn_PodCIDR node]> nodeCIDRs in
        if bool_decide (r_DestinationCIDR <$> routeMap !! nodeName = Some (kn_PodCIDR node)) then
          _ ← refresh_condition node; reconcile_nodes rc routeMap nodes' cidrs
        else
          Go (create_route maxRetries rc nodeName (kn_UID node) (mkRoute nodeName (kn_PodCIDR node)))
             (reconcile_nodes rc routeMap nodes' cidrs)
  end.

(** The second loop: a goroutine for every route of the cluster that no node has. *)
Fixpoint reconcile_routes (rc : RouteController (prog req)) (nodeCIDRs : gmap string string)
    (routes : list Route) : prog req unit :=
  match routes with
  | [] => mret tt
  | route :: routes' =>
      if isResponsibleForRoute rc route
         && bool_decide (default "" (nodeCIDRs !! r_TargetNode route) ≠ r_DestinationCIDR route)
      then Go (delete_route rc route) (reconcile_routes rc nodeCIDRs routes')
      else reconcile_routes rc nodeCIDRs routes'
  end.

(** [func (rc *RouteController) reconcile(nodes, routes) error]: always nil. *)
Definition reconcile (rc : RouteController (prog req)) (nodes : list KNode) (routes : list Route) :
    prog req (option error) :=
  nodeCIDRs ← reconcile_nodes rc (route_map routes) nodes ∅;
  _ ← reconcile_routes rc nodeCIDRs routes;
  Wait (mret None).

(** [func (rc *RouteController) reconcileNodeRoutes() error]. *)
Definition reconcileNodeRoutes (rc : RouteController (prog req)) : prog req (option error) :=
  r ← rs_ListRoutes (rc_routes rc) (rc_clusterName rc);
  match r with
  | Err e => mret (Some (Sprintf "error listing routes: %v" [AStr e]))
  | Ok routeList =>
      r ← pcall (Kube ListNodes);
      match r with
      | Err e => mret (Some (Sprintf "error listing nodes: %v" [AStr e]))
      | Ok nodes => reconcile rc nodes routeList
      end
  end.
