(* ===== verification/Flags.v ===== *)
(** * Command-line flags

    The flag package the controller reads its options with
    ([vendor/github.com/spf13/pflag]): flag sets, the parser of the command line, and
    the values of string, bool, int and duration flags with the readers of the Go
    library behind them ([strconv.ParseInt] with base 0, [time.ParseDuration]). *)

From Stdlib Require Import Floats.SpecFloat.
From S2P Require Import Prelude GoStd.

(** ** strconv.ParseInt(s, 0, 64) *)

Definition digit_in (base : Z) (c : ascii) : option Z :=
  let n := Z.of_N (N_of_ascii c) in
  let v := if (48 <=? n) && (n <=? 57) then n - 48
           else if (97 <=? n) && (n <=? 122) then n - 97 + 10
           else if (65 <=? n) && (n <=? 90) then n - 65 + 10
           else base in
  if v <? base then Some v else None.

Fixpoint digits_in (base acc : Z) (s : string) : option Z :=
  match s with
  | EmptyString => Some acc
  | String c s' => d ← digit_in base c; digits_in base (acc * base + d) s'
  end.

(** The number after the sign: hexadecimal after [0x], octal after [0]. *)
Definition ParseUint0 (s : string) : option Z :=
  match s with
  | EmptyString => None
  | String "0" (String "x" s') | String "0" (String "X" s') =>
      if bool_decide (s' = "") then None else digits_in 16 0 s'
  | String "0" s' => digits_in 8 0 s'
  | _ => digits_in 10 0 s
  end.

(** The number with its sign; [None] for a syntax or a range error. *)
Definition signed_int (neg : bool) (ds : string) : option Z :=
  un ← ParseUint0 ds;
  let v := if neg then - un else un in
  if bool_decide (in_int64 v) then Some v else None.

Definition ParseInt0 (s : string) : option Z :=
  match s with
  | String "-" s' => signed_int true s'
  | String "+" s' => signed_int false s'
  | _ => signed_int false s
  end.

(** ** float64 *)

Definition float64_of (z : Z) : spec_float := binary_normalize 53 1024 z 0 false.
Definition float64_mul : spec_float → spec_float → spec_float := SFmul 53 1024.
Definition float64_div : spec_float → spec_float → spec_float := SFdiv 53 1024.

(** [int64(x)] of a finite number: truncated. *)
Definition float64_trunc (x : spec_float) : Z :=
  match x with
  | S754_finite s m e =>
      let a := if 0 <=? e then Z.pos m * 2 ^ e else Z.pos m / 2 ^ (- e) in
      int64 (if s then - a else a)
  | _ => 0
  end.

(** ** time.ParseDuration *)

Definition Nanosecond : Z := 1.
Definition Microsecond : Z := 1000.
Definition Millisecond : Z := 1000000.
Definition Second : Z := 1000000000.
Definition Minute : Z := 60 * Second.
Definition Hour : Z := 60 * Minute.

Definition unitMap : list (string * Z) :=
  [("ns", Nanosecond); ("us", Microsecond); ("µs", Microsecond); ("μs", Microsecond);
   ("ms", Millisecond); ("s", Second); ("m", Minute); ("h", Hour)].

Definition unit_of (u : string) : option Z :=
  snd <$> find (λ e : string * Z, bool_decide (e.1 = u)) unitMap.

Definition max_int64 : Z := 2 ^ 63 - 1.

(** [leadingInt]: the number before the first byte that is not a digit. *)
Fixpoint leadingInt (x : Z) (s : string) : option (Z * string) :=
  match s with
  | EmptyString => Some (x, s)
  | String c s' =>
      match digit_val c with
      | None => Some (x, s)
      | Some d =>
          if max_int64 / 10 <? x then None
          else let x' := int64 (x * 10 + d) in
               if x' <? 0 then None else leadingInt x' s'
      end
  end.

(** [leadingFraction]: digits that no longer fit are dropped. *)
Fixpoint leadingFraction (x : Z) (scale : spec_float) (overflow : bool) (s : string) :
    Z * spec_float * string :=
  match s with
  | EmptyString => (x, scale, s)
  | String c s' =>
      match digit_val c with
      | None => (x, scale, s)
      | Some d =>
          if overflow then leadingFraction x scale true s'
          else if max_int64 / 10 <? x then leadingFraction x scale true s'
          else let y := int64 (x * 10 + d) in
               if y <? 0 then leadingFraction x scale true s'
               else leadingFraction y (float64_mul scale (float64_of 10)) false s'
      end
  end.

Definition is_num_byte (c : ascii) : bool :=
  bool_decide (c = "."%char) || bool_decide (is_Some (digit_val c)).

(** The unit: up to the next number. *)
Fixpoint leadingUnit (s : string) : string * string :=
  match s with
  | EmptyString => ("", "")
  | String c s' => if is_num_byte c then ("", s)
                   else let '(u, rest) := leadingUnit s' in (String c u, rest)
  end.

(** One number with its unit: its nanoseconds and the rest. *)
Definition duration_term (s : string) : option (Z * string) :=
  match s with
  | EmptyString => None
  | String c _ =>
      if negb (is_num_byte c) then None else
      '(v, s1) ← leadingInt 0 s;
      let pre := bool_decide (s1 ≠ s) in
      let '(f, scale, s2, post) :=
        match s1 with
        | String "." s1' =>
            let '(f, scale, s2) := leadingFraction 0 (float64_of 1) false s1' in
            (f, scale, s2, bool_decide (s2 ≠ s1'))
        | _ => (0, float64_of 1, s1, false)
        end in
      if negb pre && negb post then None else
      let '(u, s3) := leadingUnit s2 in
      if bool_decide (u = "") then None else
      unit ← unit_of u;
      if max_int64 / unit <? v then None else
      let v := v * unit in
      let v := if 0 <? f
               then int64 (v + float64_trunc (float64_mul (float64_of f) (float64_div (float64_of unit) scale)))
               else v in
      if v <? 0 then None else Some (v, s3)
  end.

(** The sum of the terms. *)
Fixpoint duration_terms (fuel : nat) (d : Z) (s : string) : option Z :=
  match fuel with
  | O => None
  | S fuel' =>
      if bool_decide (s = "") then Some d
      else '(v, s') ← duration_term s;
           let d' := int64 (d + v) in
           if d' <? 0 then None else duration_terms fuel' d' s'
  end.

(** The duration after the sign. *)
Definition signed_duration (neg : bool) (s : string) : option Z :=
  if bool_decide (s = "0") then Some 0
  else if bool_decide (s = "") then None
  else d ← duration_terms (S (String.length s)) 0 s;
       Some (if neg then int64 (- d) else d).

Definition ParseDuration (s : string) : option Z :=
  match s with
  | String "-" s' => signed_duration true s'
  | String "+" s' => signed_duration false s'
  | _ => signed_duration false s
  end.

Example ParseDuration_ex :
  ParseDuration "1h15m30.918s" = Some 4530918000000 ∧ ParseDuration "-1.5h" = Some (-5400000000000) ∧
  ParseDuration "30" = None ∧ ParseDuration "9223372036854775808ns" = None ∧
  ParseDuration "0.3333333333333333333h" = Some 1200000000000.
Proof. vm_compute. done. Qed.

(** ** Flag sets *)

(** [type Flag struct] over the variables [S] that the flags set: [f_Set] is
    [Value.Set], [None] for its error. *)
Record Flag (S : Type) : Type := mkFlag {
  f_Name : string; f_Shorthand : string; f_NoOptDefVal : string;
  f_Set : string → S → option S }.
Arguments mkFlag {S} _ _ _ _.
Arguments f_Name {S} _.
Arguments f_Shorthand {S} _.
Arguments f_NoOptDefVal {S} _.
Arguments f_Set {S} _ _ _.

(** [type FlagSet struct]: the flags by normalized name and by shorthand. *)
Record FlagSet (S : Type) : Type := mkFlagSet {
  fs_formal : gmap string (Flag S);
  fs_shorthands : gmap ascii (Flag S);
  fs_normalize : string → string }.
Arguments mkFlagSet {S} _ _ _.
Arguments fs_formal {S} _.
Arguments fs_shorthands {S} _.
Arguments fs_normalize {S} _ _.

(** Why a command line is refused. *)
Inductive flag_error : Type :=
| BadSyntax (s : string)
| UnknownFlag (name : string)
| UnknownShorthand (c : ascii) (shorthands : string)
| NeedsArgument (s : string)
| InvalidArgument (value origArg : string)
| ErrHelp.

#[export] Instance flag_error_eq_dec : EqDecision flag_error.
Proof. solve_decision. Defined.

Section flagset.
Context {S : Type}.
Implicit Types (fs : FlagSet S) (flag : Flag S) (st : S).

(** [NewFlagSet]. *)
Definition NewFlagSet : FlagSet S := mkFlagSet ∅ ∅ id.

Definition set_Name flag (name : string) : Flag S :=
  mkFlag name (f_Shorthand flag) (f_NoOptDefVal flag) (f_Set flag).

(** [func (f *FlagSet) Lookup(name string) *Flag]. *)
Definition Lookup fs (name : string) : option (Flag S) := fs_formal fs !! fs_normalize fs name.

(** [func (f *FlagSet) AddFlag(flag *Flag)]; an error is the panic it ends in. *)
Definition AddFlag fs flag : result (FlagSet S) :=
  let name := fs_normalize fs (f_Name flag) in
  match fs_formal fs !! name with
  | Some _ => Err ("flag redefined: " +:+ f_Name flag)
  | None =>
      let flag := set_Name flag name in
      let formal := <[name := flag]> (fs_formal fs) in
      match f_Shorthand flag with
      | EmptyString => Ok (mkFlagSet formal (fs_shorthands fs) (fs_normalize fs))
      | String c EmptyString =>
          match fs_shorthands fs !! c with
          | Some _ => Err "shorthand redefinition"
          | None => Ok (mkFlagSet formal (<[c := flag]> (fs_shorthands fs)) (fs_normalize fs))
          end
      | _ => Err "shorthand is more than one character"
      end
  end.

Fixpoint AddFlagList fs (flags : list (Flag S)) : result (FlagSet S) :=
  match flags with
  | [] => Ok fs
  | flag :: flags' => match AddFlag fs flag with Ok fs' => AddFlagList fs' flags' | Err e => Err e end
  end.

(** [func (f *FlagSet) SetNormalizeFunc(n)]: the flags move to their new names. *)
Definition SetNormalizeFunc fs (n : string → string) : FlagSet S :=
  mkFlagSet (map_fold (λ k flag m, <[n k := set_Name flag (n k)]> m) ∅ (fs_formal fs))
    (fs_shorthands fs) n.

(** [func (f *FlagSet) AddGoFlagSet(newSet *goflag.FlagSet)]: the flags that are not
    there yet. *)
Fixpoint AddGoFlagSet fs (flags : list (Flag S)) : result (FlagSet S) :=
  match flags with
  | [] => Ok fs
  | flag :: flags' =>
      match Lookup fs (f_Name flag) with
      | Some _ => AddGoFlagSet fs flags'
      | None => match AddFlag fs flag with Ok fs' => AddGoFlagSet fs' flags' | Err e => Err e end
      end
  end.

(** ** Parsing *)

(** [func (f *FlagSet) setFlag(flag, value, origArg)]. *)
Definition setFlag flag (value origArg : string) st : S + flag_error :=
  match f_Set flag value st with
  | Some st' => inl st'
  | None => inr (InvalidArgument value origArg)
  end.

(** [strings.SplitN(name, "=", 2)]. *)
Fixpoint split_eq (s : string) : string * option string :=
  match s with
  | EmptyString => ("", None)
  | String "=" s' => ("", Some s')
  | String c s' => let '(n, v) := split_eq s' in (String c n, v)
  end.

(** [func (f *FlagSet) parseLongArg(s string, args []string)]; [name] is [s[2:]]. *)
Definition parseLongArg fs (s name : string) (args : list string) st :
    (list string * S) + flag_error :=
  match name with
  | EmptyString | String "-" _ | String "=" _ => inr (BadSyntax s)
  | _ =>
      let '(name, v) := split_eq name in
      match Lookup fs name with
      | None => inr (if bool_decide (name = "help") then ErrHelp else UnknownFlag name)
      | Some flag =>
          let with_value value args :=
            match setFlag flag value s st with inl st' => inl (args, st') | inr e => inr e end in
          match v with
          | Some value => with_value value args
          | None =>
              if bool_decide (f_NoOptDefVal flag ≠ "") then with_value (f_NoOptDefVal flag) args
              else match args with
                   | value :: args' => with_value value args'
                   | [] => inr (NeedsArgument s)
                   end
          end
      end
  end.

(** [func (f *FlagSet) parseSingleShortArg(shorthands string, args []string)] on
    [String c rest]: the shorthands left, the arguments left and the variables. *)
Definition parseSingleShortArg fs (c : ascii) (rest : string) (args : list string) st :
    (string * list string * S) + flag_error :=
  let shorthands := String c rest in
  if String.prefix "test." shorthands then inl ("", [], st)
  else match fs_shorthands fs !! c with
       | None => inr (if bool_decide (c = "h"%char) then ErrHelp else UnknownShorthand c shorthands)
       | Some flag =>
           let with_value value shorts args :=
             match setFlag flag value shorthands st with
             | inl st' => inl (shorts, args, st') | inr e => inr e end in
           match rest with
           | String "=" (String _ _ as value) =>
               with_value value "" args
           | _ =>
               if bool_decide (f_NoOptDefVal flag ≠ "") then with_value (f_NoOptDefVal flag) rest args
               else match rest with
                    | String _ _ => with_value rest "" args
                    | EmptyString =>
                        match args with
                        | value :: args' => with_value value "" args'
                        | [] => inr (NeedsArgument shorthands)
                        end
                    end
           end
       end.

(** [func (f *FlagSet) parseShortArg(s string, args []string)]: every shorthand takes
    its value from the arguments after [s]. *)
Fixpoint parseShortArg (fuel : nat) fs (shorthands : string) (args a : list string) st :
    (list string * S) + flag_error :=
  match fuel with
  | O => inl (a, st)
  | Datatypes.S fuel' =>
      match shorthands with
      | EmptyString => inl (a, st)
      | String c rest =>
          match parseSingleShortArg fs c rest args st with
          | inl (shorts, a, st') => parseShortArg fuel' fs shorts args a st'
          | inr e => inr e
          end
      end
  end.

(** [func (f *FlagSet) parseArgs(args []string)], with interspersed arguments: the
    variables and the arguments that are not flags. *)
Fixpoint parseArgs (fuel : nat) fs (args rest : list string) st : (S * list string) + flag_error :=
  match fuel, args with
  | O, _ | _, [] => inl (st, rest)
  | Datatypes.S fuel', s :: args' =>
      match s with
      | String "-" "" => parseArgs fuel' fs args' (rest ++ [s]) st
      | String "-" (String "-" name) =>
          if bool_decide (name = "") then inl (st, rest ++ args')
          else match parseLongArg fs s name args' st with
               | inl (args'', st') => parseArgs fuel' fs args'' rest st'
               | inr e => inr e
               end
      | String "-" shorthands =>
          match parseShortArg (String.length shorthands) fs shorthands args' args' st with
          | inl (args'', st') => parseArgs fuel' fs args'' rest st'
          | inr e => inr e
          end
      | _ => parseArgs fuel' fs args' (rest ++ [s]) st
      end
  end.

(** [func (f *FlagSet) Parse(arguments []string)]. *)
Definition Parse fs (arguments : list string) st : (S * list string) + flag_error :=
  parseArgs (length arguments) fs arguments [] st.

End flagset.

(** [WordSepNormalizeFunc] of apiserver's flag package. *)
Definition WordSepNormalizeFunc (name : string) : string :=
  if bool_decide ("_"%char ∈ str_to_list name) then Replace name "_" "-" (-1) else name.

(** ** Values *)

(** A flag of a variable: how its text is read, and how the variable is set. *)
Definition var_flag {S T : Type} (read : string → option T) (noOpt : string)
    (set : T → S → S) (name shorthand : string) : Flag S :=
  mkFlag name shorthand noOpt (λ s st, v ← read s; Some (set v st)).

Definition read_bool (s : string) : option bool :=
  match ParseBool s with inl b => Some b | inr _ => None end.

Definition StringVarP {S} (set : string → S → S) (name shorthand : string) : Flag S :=
  var_flag Some "" set name shorthand.
Definition StringVar {S} (set : string → S → S) (name : string) : Flag S := StringVarP set name "".
Definition BoolVar {S} (set : bool → S → S) (name : string) : Flag S :=
  var_flag read_bool "true" set name "".
Definition IntVar {S} (set : Z → S → S) (name : string) : Flag S := var_flag ParseInt0 "" set name "".
Definition DurationVar {S} (set : Z → S → S) (name : string) : Flag S :=
  var_flag ParseDuration "" set name "".
