(* ===== verification/GoFlag.v ===== *)
(** * Go's flag package, and the log flags

    The flex volume command reads its command line with the [flag] package of the Go
    library: a map of flags, a parser that stops at the first argument that is not a
    flag, and [flag.Set].  The flags of [glog] that the command sets itself are those
    of the vendored package; flags of other imported packages are a parameter. *)

From S2P Require Import Prelude GoStd Flags.

(** ** Flag sets *)

(** [type Flag struct] over the variables [S] that the flags set: whether the value
    is a [boolFlag], and its [Set], [None] for an error. *)
Record GoFlag (S : Type) : Type := mkGoFlag {
  gf_Name : string; gf_IsBoolFlag : bool; gf_Set : string → S → option S }.
Arguments mkGoFlag {S} _ _ _.
Arguments gf_Name {S} _.
Arguments gf_IsBoolFlag {S} _.
Arguments gf_Set {S} _ _ _.

Section goflag.
Context {S : Type}.
Implicit Types (formal : gmap string (GoFlag S)) (flag : GoFlag S) (st : S).

(** [func (f *FlagSet) Var(value Value, name string, usage string)]; an error is the
    panic it ends in. *)
Definition go_Var formal flag : result (gmap string (GoFlag S)) :=
  match formal !! gf_Name flag with
  | Some _ => Err ("flag redefined: " +:+ gf_Name flag)
  | None => Ok (<[gf_Name flag := flag]> formal)
  end.

Fixpoint go_Vars formal (flags : list (GoFlag S)) : result (gmap string (GoFlag S)) :=
  match flags with
  | [] => Ok formal
  | flag :: flags' =>
      match go_Var formal flag with Ok formal' => go_Vars formal' flags' | Err e => Err e end
  end.

(** [func (f *FlagSet) Set(name, value string) error]: the variables, and whether
    there was no error. *)
Definition go_Set formal (name value : string) st : S * bool :=
  match formal !! name with
  | None => (st, false)
  | Some flag => match gf_Set flag value st with Some st' => (st', true) | None => (st, false) end
  end.

(** What [parseOne] finds: no flag, with the arguments left; a flag, with the
    arguments left and the variables; an error. *)
Inductive parsed_one : Type :=
| NotSeen (args : list string)
| Seen (args : list string) (st : S)
| Refused (e : flag_error).

(** A flag of [name], with its value when there was an equals sign; [args] are the
    arguments after it. *)
Definition go_parse_flag formal (name : string) (value : option string) (args : list string) st :
    parsed_one :=
  match formal !! name with
  | None => Refused (if bool_decide (name = "help") || bool_decide (name = "h") then ErrHelp
                     else UnknownFlag name)
  | Some flag =>
      let set v args :=
        match gf_Set flag v st with
        | Some st' => Seen args st'
        | None => Refused (InvalidArgument v name)
        end in
      if gf_IsBoolFlag flag then set (default "true" value) args
      else match value, args with
           | Some v, _ => set v args
           | None, v :: args' => set v args'
           | None, [] => Refused (NeedsArgument name)
           end
  end.

(** The text after the dashes of [s]: an equals sign cannot be first in it, so that
    the name is never empty. *)
Definition go_parse_named formal (s name : string) (args : list string) st : parsed_one :=
  match name with
  | EmptyString | String "-" _ | String "=" _ => Refused (BadSyntax s)
  | _ => let '(n, v) := split_eq name in go_parse_flag formal n v args st
  end.

(** [func (f *FlagSet) parseOne() (bool, error)]. *)
Definition go_parseOne formal (args : list string) st : parsed_one :=
  match args with
  | [] => NotSeen []
  | s :: args' =>
      match s with
      | String "-" "" => NotSeen args
      | String "-" (String "-" "") => NotSeen args'
      | String "-" (String "-" name) => go_parse_named formal s name args' st
      | String "-" name => go_parse_named formal s name args' st
      | _ => NotSeen args
      end
  end.

(** [func (f *FlagSet) Parse(arguments []string) error]: the variables and
    [f.Args()]. *)
Fixpoint go_parse_loop (fuel : nat) formal (args : list string) st :
    (S * list string) + flag_error :=
  match fuel with
  | O => inl (st, args)
  | Datatypes.S fuel' =>
      match go_parseOne formal args st with
      | NotSeen args' => inl (st, args')
      | Seen args' st' => go_parse_loop fuel' formal args' st'
      | Refused e => inr e
      end
  end.

Definition go_Parse formal (arguments : list string) st : (S * list string) + flag_error :=
  go_parse_loop (Datatypes.S (length arguments)) formal arguments st.

(** A flag takes at least one argument. *)
Lemma go_parse_named_seen formal s name args st args' st' :
  go_parse_named formal s name args st = Seen args' st' → (length args' ≤ length args)%nat.
Proof.
  assert (∀ n v, go_parse_flag formal n v args st = Seen args' st' →
            (length args' ≤ length args)%nat) as Hf.
  { intros n v. unfold go_parse_flag. destruct (formal !! n) as [flag|]; [|done].
    destruct (gf_IsBoolFlag flag), v, args as [|a args0]; simpl; try done;
      destruct (gf_Set _ _ _); intros [= <- <-]; simpl; lia. }
  unfold go_parse_named. destruct name as [|c name]; [done|].
  destruct (split_eq (String c name)) as [n v]. intros H. apply (Hf n v).
  destruct c as [[] [] [] [] [] [] [] []]; done.
Qed.

Lemma go_parseOne_seen formal args st args' st' :
  go_parseOne formal args st = Seen args' st' → (length args' < length args)%nat.
Proof.
  unfold go_parseOne. destruct args as [|s args]; [done|]. cbn [length]. rewrite Nat.lt_succ_r.
  destruct s as [|c s]; [done|]. destruct (decide (c = "-"%char)) as [->|Hc].
  - destruct s as [|c s]; [done|]. destruct (decide (c = "-"%char)) as [->|Hc].
    + destruct s as [|c s]; [done|]. apply go_parse_named_seen.
    + intros H. eapply (go_parse_named_seen _ _ (String c s)).
      destruct c as [[] [] [] [] [] [] [] []]; done.
  - destruct c as [[] [] [] [] [] [] [] []]; done.
Qed.

(** Fuel above the number of arguments is enough. *)
Lemma go_parse_loop_fuel fuel fuel' formal args st :
  (length args < fuel)%nat → (length args < fuel')%nat →
  go_parse_loop fuel formal args st = go_parse_loop fuel' formal args st.
Proof.
  revert fuel' args st. induction fuel as [|fuel IH]; intros [|fuel'] args st H1 H2; [lia..|].
  simpl. destruct (go_parseOne formal args st) as [| args' st'|] eqn:E; [done| |done].
  pose proof (go_parseOne_seen _ _ _ _ _ E). apply IH; lia.
Qed.

(** The parser by its equation. *)
Lemma go_Parse_unfold formal args st :
  go_Parse formal args st =
  match go_parseOne formal args st with
  | NotSeen args' => inl (st, args')
  | Seen args' st' => go_Parse formal args' st'
  | Refused e => inr e
  end.
Proof.
  unfold go_Parse at 1. simpl. destruct (go_parseOne formal args st) as [| args' st'|] eqn:E; [done| |done].
  pose proof (go_parseOne_seen _ _ _ _ _ E). apply go_parse_loop_fuel; lia.
Qed.

(** An argument that does not start with a dash ends the flags. *)
Definition is_operand (s : string) : bool :=
  match s with String "-" (String _ _) => false | _ => true end.

Lemma go_Parse_operand formal s args st :
  is_operand s = true → go_Parse formal (s :: args) st = inl (st, s :: args).
Proof.
  intros Hs. rewrite go_Parse_unfold. destruct s as [|c [|c' s]]; [done|..].
  - destruct (decide (c = "-"%char)) as [->|]; [done|].
    destruct c as [[] [] [] [] [] [] [] []]; done.
  - destruct (decide (c = "-"%char)) as [->|]; [done|].
    destruct c as [[] [] [] [] [] [] [] []]; done.
Qed.

(** The flags of a set are those that were added. *)
Lemma go_Vars_spec (formal0 : gmap string (GoFlag S)) (flags : list (GoFlag S)) formal :
  go_Vars formal0 flags = Ok formal →
  (∀ f, f ∈ flags → formal !! gf_Name f = Some f) ∧
  ∀ n, n ∉ gf_Name <$> flags → formal !! n = formal0 !! n.
Proof.
  revert formal0. induction flags as [|f flags IH]; intros formal0; simpl.
  { intros [= <-]. split; [by intros f ?%not_elem_of_nil|done]. }
  unfold go_Var. destruct (formal0 !! gf_Name f) as [|] eqn:E; [done|]. intros H.
  assert (gf_Name f ∉ gf_Name <$> flags) as Hnew.
  { revert H. generalize (<[gf_Name f:=f]> formal0) as m, (lookup_insert_eq formal0 (gf_Name f) f). clear.
    induction flags as [|g flags IH]; intros m Hm; [intros _; apply not_elem_of_nil|]. simpl. unfold go_Var.
    destruct (m !! gf_Name g) as [|] eqn:E; [done|]. intros H. rewrite not_elem_of_cons.
    assert (gf_Name f ≠ gf_Name g) by (intros Heq; rewrite <-Heq in E; congruence).
    split; [done|]. eapply IH; [|done]. by rewrite lookup_insert_ne. }
  destruct (IH _ H) as [IH1 IH2]. split.
  - intros g [->|Hg]%elem_of_cons; [|by apply IH1]. rewrite IH2 by done. apply lookup_insert_eq.
  - intros n. rewrite not_elem_of_cons. intros [Hn Hn']. rewrite IH2 by done. by rewrite lookup_insert_ne.
Qed.

Lemma go_Vars_inv (formal0 : gmap string (GoFlag S)) (flags : list (GoFlag S)) formal n f :
  go_Vars formal0 flags = Ok formal → formal !! n = Some f →
  formal0 !! n = Some f ∨ f ∈ flags ∧ gf_Name f = n.
Proof.
  revert formal0. induction flags as [|g flags IH]; intros formal0; simpl.
  { intros [= <-]. by left. }
  unfold go_Var. destruct (formal0 !! gf_Name g) as [|] eqn:E; [done|]. intros H Hf.
  destruct (IH _ H Hf) as [Hin|[Hin Hn]].
  - apply lookup_insert_Some in Hin as [[Hn ->]|[_ Hin]]; [right|by left].
    split; [by apply elem_of_cons; left|done].
  - right. split; [by apply elem_of_cons; right|done].
Qed.

End goflag.
Arguments parsed_one : clear implicits.

(** [flag.BoolVar], [flag.StringVar]. *)
Definition go_BoolVar {S} (set : bool → S → S) (name : string) : GoFlag S :=
  mkGoFlag name true (λ s st, v ← read_bool s; Some (set v st)).
Definition go_StringVar {S} (set : string → S → S) (name : string) : GoFlag S :=
  mkGoFlag name false (λ s st, Some (set s st)).

(** ** The flags of glog *)

(** [loggingT] as far as the flags below set it, and [logDir]. *)
Record Logging : Type := mkLogging {
  lg_toStderr : bool; lg_alsoToStderr : bool; lg_verbosity : Z; lg_stderrThreshold : Z;
  lg_logDir : string }.

Definition infoLog : Z := 0.
Definition warningLog : Z := 1.
Definition errorLog : Z := 2.
Definition fatalLog : Z := 3.

(** [severityName]. *)
Definition severityName : list (string * Z) :=
  [("INFO", infoLog); ("WARNING", warningLog); ("ERROR", errorLog); ("FATAL", fatalLog)].

Definition upper_ascii (c : ascii) : ascii :=
  let n := N_of_ascii c in
  if bool_decide (97 ≤ n ∧ n ≤ 122)%N then ascii_of_N (n - 32) else c.

(** [strings.ToUpper], as far as ASCII letters come out: the letters, and the two
    runes beyond ASCII (U+0131, U+017F) whose upper case is one. *)
Fixpoint ToUpper (s : string) : string :=
  match s with
  | EmptyString => EmptyString
  | String "196"%char (String "177"%char s') => String "I" (ToUpper s')
  | String "197"%char (String "191"%char s') => String "S" (ToUpper s')
  | String c s' => String (upper_ascii c) (ToUpper s')
  end.

(** [func severityByName(s string) (severity, bool)]. *)
Definition severityByName (s : string) : option Z :=
  snd <$> find (λ e : string * Z, bool_decide (e.1 = ToUpper s)) severityName.

Definition read_int32 (s : string) : option Z :=
  match Atoi s with inl v => Some (int32 v) | inr _ => None end.

(** [func (s *severity) Set(value string) error]. *)
Definition severity_Set (value : string) (l : Logging) : option Logging :=
  t ← match severityByName value with Some v => Some v | None => read_int32 value end;
  Some (mkLogging (lg_toStderr l) (lg_alsoToStderr l) (lg_verbosity l) t (lg_logDir l)).

(** [func (l *Level) Set(value string) error]. *)
Definition Level_Set (value : string) (l : Logging) : option Logging :=
  v ← read_int32 value;
  Some (mkLogging (lg_toStderr l) (lg_alsoToStderr l) v (lg_stderrThreshold l) (lg_logDir l)).

(** The flags of glog's [init] and [glog_file.go], less [vmodule] and
    [log_backtrace_at], which no code below names. *)
Definition glog_flags : list (GoFlag Logging) :=
  [go_BoolVar (λ b l, mkLogging b (lg_alsoToStderr l) (lg_verbosity l) (lg_stderrThreshold l) (lg_logDir l))
     "logtostderr";
   go_BoolVar (λ b l, mkLogging (lg_toStderr l) b (lg_verbosity l) (lg_stderrThreshold l) (lg_logDir l))
     "alsologtostderr";
   mkGoFlag "v" false Level_Set;
   mkGoFlag "stderrthreshold" false severity_Set;
   go_StringVar (λ s l, mkLogging (lg_toStderr l) (lg_alsoToStderr l) (lg_verbosity l) (lg_stderrThreshold l) s)
     "log_dir"].

(** The variables before the command line is read. *)
Definition glog_init : Logging := mkLogging false false 0 errorLog "".
