(* ===== verification/Options.v ===== *)
(** * Options of the controller

    [pkg/controller/options.go] with the flags of the vendored packages it binds
    ([leaderelection.BindFlags], [clientcmd.BindOverrideFlags]): the options, their
    defaults, and one flag for each of them. *)

From S2P Require Import Prelude GoStd Kube Flags.

(** [componentconfig.LeaderElectionConfiguration]; durations are nanoseconds. *)
Record LeaderElectionConfiguration : Type := mkLeaderElection {
  le_LeaderElect : bool; le_LeaseDuration : Z; le_RenewDeadline : Z; le_RetryPeriod : Z }.

(** [type Options struct]. *)
Record Options : Type := mkOptions {
  o_Name : string; o_Kubeconfig : string; o_ClusterCIDR : string; o_InCluster : bool;
  o_ProvisionRetry : Z; o_ConcurrentServiceSyncs : Z;
  o_ShutdownGracePeriod : Z; o_RouteReconcilationPeriod : Z;
  o_LeaderElection : LeaderElectionConfiguration; o_Overrides : ConfigOverrides }.

(** ** Assignments to the fields *)

Definition set_ov_ClientCertificate (v : string) (o : ConfigOverrides) : ConfigOverrides :=
  mkOverrides v (ov_ClientKey o) (ov_Token o) (ov_Impersonate o) (ov_Username o) (ov_Password o)
    (ov_Server o) (ov_APIVersion o) (ov_CertificateAuthority o) (ov_InsecureSkipTLSVerify o)
    (ov_Cluster o) (ov_AuthInfo o) (ov_Namespace o) (ov_CurrentContext o) (ov_Timeout o).
Definition set_ov_ClientKey (v : string) (o : ConfigOverrides) : ConfigOverrides :=
  mkOverrides (ov_ClientCertificate o) v (ov_Token o) (ov_Impersonate o) (ov_Username o)
    (ov_Password o) (ov_Server o) (ov_APIVersion o) (ov_CertificateAuthority o)
    (ov_InsecureSkipTLSVerify o) (ov_Cluster o) (ov_AuthInfo o) (ov_Namespace o)
    (ov_CurrentContext o) (ov_Timeout o).
Definition set_ov_Token (v : string) (o : ConfigOverrides) : ConfigOverrides :=
  mkOverrides (ov_ClientCertificate o) (ov_ClientKey o) v (ov_Impersonate o) (ov_Username o)
    (ov_Password o) (ov_Server o) (ov_APIVersion o) (ov_CertificateAuthority o)
    (ov_InsecureSkipTLSVerify o) (ov_Cluster o) (ov_AuthInfo o) (ov_Namespace o)
    (ov_CurrentContext o) (ov_Timeout o).
Definition set_ov_Impersonate (v : string) (o : ConfigOverrides) : ConfigOverrides :=
  mkOverrides (ov_ClientCertificate o) (ov_ClientKey o) (ov_Token o) v (ov_Username o)
    (ov_Password o) (ov_Server o) (ov_APIVersion o) (ov_CertificateAuthority o)
    (ov_InsecureSkipTLSVerify o) (ov_Cluster o) (ov_AuthInfo o) (ov_Namespace o)
    (ov_CurrentContext o) (ov_Timeout o).
Definition set_ov_Username (v : string) (o : ConfigOverrides) : ConfigOverrides :=
  mkOverrides (ov_ClientCertificate o) (ov_ClientKey o) (ov_Token o) (ov_Impersonate o) v
    (ov_Password o) (ov_Server o) (ov_APIVersion o) (ov_CertificateAuthority o)
    (ov_InsecureSkipTLSVerify o) (ov_Cluster o) (ov_AuthInfo o) (ov_Namespace o)
    (ov_CurrentContext o) (ov_Timeout o).
Definition set_ov_Password (v : string) (o : ConfigOverrides) : ConfigOverrides :=
  mkOverrides (ov_ClientCertificate o) (ov_ClientKey o) (ov_Token o) (ov_Impersonate o)
    (ov_Username o) v (ov_Server o) (ov_APIVersion o) (ov_CertificateAuthority o)
    (ov_InsecureSkipTLSVerify o) (ov_Cluster o) (ov_AuthInfo o) (ov_Namespace o)
    (ov_CurrentContext o) (ov_Timeout o).
Definition set_ov_Server (v : string) (o : ConfigOverrides) : ConfigOverrides :=
  mkOverrides (ov_ClientCertificate o) (ov_ClientKey o) (ov_Token o) (ov_Impersonate o)
    (ov_Username o) (ov_Password o) v (ov_APIVersion o) (ov_CertificateAuthority o)
    (ov_InsecureSkipTLSVerify o) (ov_Cluster o) (ov_AuthInfo o) (ov_Namespace o)
    (ov_CurrentContext o) (ov_Timeout o).
Definition set_ov_APIVersion (v : string) (o : ConfigOverrides) : ConfigOverrides :=
  mkOverrides (ov_ClientCertificate o) (ov_ClientKey o) (ov_Token o) (ov_Impersonate o)
    (ov_Username o) (ov_Password o) (ov_Server o) v (ov_CertificateAuthority o)
    (ov_InsecureSkipTLSVerify o) (ov_Cluster o) (ov_AuthInfo o) (ov_Namespace o)
    (ov_CurrentContext o) (ov_Timeout o).
Definition set_ov_CertificateAuthority (v : string) (o : ConfigOverrides) : ConfigOverrides :=
  mkOverrides (ov_ClientCertificate o) (ov_ClientKey o) (ov_Token o) (ov_Impersonate o)
    (ov_Username o) (ov_Password o) (ov_Server o) (ov_APIVersion o) v (ov_InsecureSkipTLSVerify o)
    (ov_Cluster o) (ov_AuthInfo o) (ov_Namespace o) (ov_CurrentContext o) (ov_Timeout o).
Definition set_ov_InsecureSkipTLSVerify (v : bool) (o : ConfigOverrides) : ConfigOverrides :=
  mkOverrides (ov_ClientCertificate o) (ov_ClientKey o) (ov_Token o) (ov_Impersonate o)
    (ov_Username o) (ov_Password o) (ov_Server o) (ov_APIVersion o) (ov_CertificateAuthority o) v
    (ov_Cluster o) (ov_AuthInfo o) (ov_Namespace o) (ov_CurrentContext o) (ov_Timeout o).
Definition set_ov_Cluster (v : string) (o : ConfigOverrides) : ConfigOverrides :=
  mkOverrides (ov_ClientCertificate o) (ov_ClientKey o) (ov_Token o) (ov_Impersonate o)
    (ov_Username o) (ov_Password o) (ov_Server o) (ov_APIVersion o) (ov_CertificateAuthority o)
    (ov_InsecureSkipTLSVerify o) v (ov_AuthInfo o) (ov_Namespace o) (ov_CurrentContext o)
    (ov_Timeout o).
Definition set_ov_AuthInfo (v : string) (o : ConfigOverrides) : ConfigOverrides :=
  mkOverrides (ov_ClientCertificate o) (ov_ClientKey o) (ov_Token o) (ov_Impersonate o)
    (ov_Username o) (ov_Password o) (ov_Server o) (ov_APIVersion o) (ov_CertificateAuthority o)
    (ov_InsecureSkipTLSVerify o) (ov_Cluster o) v (ov_Namespace o) (ov_CurrentContext o)
    (ov_Timeout o).
Definition set_ov_Namespace (v : string) (o : ConfigOverrides) : ConfigOverrides :=
  mkOverrides (ov_ClientCertificate o) (ov_ClientKey o) (ov_Token o) (ov_Impersonate o)
    (ov_Username o) (ov_Password o) (ov_Server o) (ov_APIVersion o) (ov_CertificateAuthority o)
    (ov_InsecureSkipTLSVerify o) (ov_Cluster o) (ov_AuthInfo o) v (ov_CurrentContext o)
    (ov_Timeout o).
Definition set_ov_CurrentContext (v : string) (o : ConfigOverrides) : ConfigOverrides :=
  mkOverrides (ov_ClientCertificate o) (ov_ClientKey o) (ov_Token o) (ov_Impersonate o)
    (ov_Username o) (ov_Password o) (ov_Server o) (ov_APIVersion o) (ov_CertificateAuthority o)
    (ov_InsecureSkipTLSVerify o) (ov_Cluster o) (ov_AuthInfo o) (ov_Namespace o) v (ov_Timeout o).
Definition set_ov_Timeout (v : string) (o : ConfigOverrides) : ConfigOverrides :=
  mkOverrides (ov_ClientCertificate o) (ov_ClientKey o) (ov_Token o) (ov_Impersonate o)
    (ov_Username o) (ov_Password o) (ov_Server o) (ov_APIVersion o) (ov_CertificateAuthority o)
    (ov_InsecureSkipTLSVerify o) (ov_Cluster o) (ov_AuthInfo o) (ov_Namespace o)
    (ov_CurrentContext o) v.

Definition set_le_LeaderElect (v : bool) (l : LeaderElectionConfiguration) : LeaderElectionConfiguration :=
  mkLeaderElection v (le_LeaseDuration l) (le_RenewDeadline l) (le_RetryPeriod l).
Definition set_le_LeaseDuration (v : Z) (l : LeaderElectionConfiguration) : LeaderElectionConfiguration :=
  mkLeaderElection (le_LeaderElect l) v (le_RenewDeadline l) (le_RetryPeriod l).
Definition set_le_RenewDeadline (v : Z) (l : LeaderElectionConfiguration) : LeaderElectionConfiguration :=
  mkLeaderElection (le_LeaderElect l) (le_LeaseDuration l) v (le_RetryPeriod l).
Definition set_le_RetryPeriod (v : Z) (l : LeaderElectionConfiguration) : LeaderElectionConfiguration :=
  mkLeaderElection (le_LeaderElect l) (le_LeaseDuration l) (le_RenewDeadline l) v.

Definition set_o_Name (v : string) (o : Options) : Options :=
  mkOptions v (o_Kubeconfig o) (o_ClusterCIDR o) (o_InCluster o) (o_ProvisionRetry o)
    (o_ConcurrentServiceSyncs o) (o_ShutdownGracePeriod o) (o_RouteReconcilationPeriod o)
    (o_LeaderElection o) (o_Overrides o).
Definition set_o_Kubeconfig (v : string) (o : Options) : Options :=
  mkOptions (o_Name o) v (o_ClusterCIDR o) (o_InCluster o) (o_ProvisionRetry o)
    (o_ConcurrentServiceSyncs o) (o_ShutdownGracePeriod o) (o_RouteReconcilationPeriod o)
    (o_LeaderElection o) (o_Overrides o).
Definition set_o_ClusterCIDR (v : string) (o : Options) : Options :=
  mkOptions (o_Name o) (o_Kubeconfig o) v (o_InCluster o) (o_ProvisionRetry o)
    (o_ConcurrentServiceSyncs o) (o_ShutdownGracePeriod o) (o_RouteReconcilationPeriod o)
    (o_LeaderElection o) (o_Overrides o).
Definition set_o_InCluster (v : bool) (o : Options) : Options :=
  mkOptions (o_Name o) (o_Kubeconfig o) (o_ClusterCIDR o) v (o_ProvisionRetry o)
    (o_ConcurrentServiceSyncs o) (o_ShutdownGracePeriod o) (o_RouteReconcilationPeriod o)
    (o_LeaderElection o) (o_Overrides o).
Definition set_o_ProvisionRetry (v : Z) (o : Options) : Options :=
  mkOptions (o_Name o) (o_Kubeconfig o) (o_ClusterCIDR o) (o_InCluster o) v
    (o_ConcurrentServiceSyncs o) (o_ShutdownGracePeriod o) (o_RouteReconcilationPeriod o)
    (o_LeaderElection o) (o_Overrides o).
Definition set_o_ConcurrentServiceSyncs (v : Z) (o : Options) : Options :=
  mkOptions (o_Name o) (o_Kubeconfig o) (o_ClusterCIDR o) (o_InCluster o) (o_ProvisionRetry o) v
    (o_ShutdownGracePeriod o) (o_RouteReconcilationPeriod o) (o_LeaderElection o) (o_Overrides o).
Definition set_o_ShutdownGracePeriod (v : Z) (o : Options) : Options :=
  mkOptions (o_Name o) (o_Kubeconfig o) (o_ClusterCIDR o) (o_InCluster o) (o_ProvisionRetry o)
    (o_ConcurrentServiceSyncs o) v (o_RouteReconcilationPeriod o) (o_LeaderElection o)
    (o_Overrides o).
Definition set_o_RouteReconcilationPeriod (v : Z) (o : Options) : Options :=
  mkOptions (o_Name o) (o_Kubeconfig o) (o_ClusterCIDR o) (o_InCluster o) (o_ProvisionRetry o)
    (o_ConcurrentServiceSyncs o) (o_ShutdownGracePeriod o) v (o_LeaderElection o) (o_Overrides o).
Definition set_o_LeaderElection (v : LeaderElectionConfiguration) (o : Options) : Options :=
  mkOptions (o_Name o) (o_Kubeconfig o) (o_ClusterCIDR o) (o_InCluster o) (o_ProvisionRetry o)
    (o_ConcurrentServiceSyncs o) (o_ShutdownGracePeriod o) (o_RouteReconcilationPeriod o) v
    (o_Overrides o).
Definition set_o_Overrides (v : ConfigOverrides) (o : Options) : Options :=
  mkOptions (o_Name o) (o_Kubeconfig o) (o_ClusterCIDR o) (o_InCluster o) (o_ProvisionRetry o)
    (o_ConcurrentServiceSyncs o) (o_ShutdownGracePeriod o) (o_RouteReconcilationPeriod o)
    (o_LeaderElection o) v.

(** A field of the leader election, or of the overrides, of the options. *)
Definition in_le {T} (set : T → LeaderElectionConfiguration → LeaderElectionConfiguration)
    (v : T) (o : Options) : Options := set_o_LeaderElection (set v (o_LeaderElection o)) o.
Definition in_ov {T} (set : T → ConfigOverrides → ConfigOverrides)
    (v : T) (o : Options) : Options := set_o_Overrides (set v (o_Overrides o)) o.

(** ** Flags *)

(** What [XxxVar(p, name, value, usage)] does: it sets the variable to its default
    and adds the flag. *)
Record binding : Type := mkBinding { b_default : Options → Options; b_flag : Flag Options }.

Definition bindString (set : string → Options → Options) (name : string) (value : Options → string) : binding :=
  mkBinding (λ o, set (value o) o) (StringVar set name).
Definition bindStringP (set : string → Options → Options) (name shorthand : string)
    (value : Options → string) : binding :=
  mkBinding (λ o, set (value o) o) (StringVarP set name shorthand).
Definition bindBool (set : bool → Options → Options) (name : string) (value : Options → bool) : binding :=
  mkBinding (λ o, set (value o) o) (BoolVar set name).
Definition bindInt (set : Z → Options → Options) (name : string) (value : Options → Z) : binding :=
  mkBinding (λ o, set (value o) o) (IntVar set name).
Definition bindDuration (set : Z → Options → Options) (name : string) (value : Options → Z) : binding :=
  mkBinding (λ o, set (value o) o) (DurationVar set name).

(** [func BindFlags(l *LeaderElectionConfiguration, fs)]. *)
Definition leaderelection_BindFlags : list binding :=
  [bindBool (in_le set_le_LeaderElect) "leader-elect" (λ o, le_LeaderElect (o_LeaderElection o));
   bindDuration (in_le set_le_LeaseDuration) "leader-elect-lease-duration" (λ o, le_LeaseDuration (o_LeaderElection o));
   bindDuration (in_le set_le_RenewDeadline) "leader-elect-renew-deadline" (λ o, le_RenewDeadline (o_LeaderElection o));
   bindDuration (in_le set_le_RetryPeriod) "leader-elect-retry-period" (λ o, le_RetryPeriod (o_LeaderElection o))].

(** [func BindOverrideFlags(overrides, flags, RecommendedConfigOverrideFlags(""))]. *)
Definition clientcmd_BindOverrideFlags : list binding :=
  [bindString (in_ov set_ov_ClientCertificate) "client-certificate" (λ _, "");
   bindString (in_ov set_ov_ClientKey) "client-key" (λ _, "");
   bindString (in_ov set_ov_Token) "token" (λ _, "");
   bindString (in_ov set_ov_Impersonate) "as" (λ _, "");
   bindString (in_ov set_ov_Username) "username" (λ _, "");
   bindString (in_ov set_ov_Password) "password" (λ _, "");
   bindString (in_ov set_ov_Server) "server" (λ _, "");
   bindString (in_ov set_ov_APIVersion) "api-version" (λ _, "");
   bindString (in_ov set_ov_CertificateAuthority) "certificate-authority" (λ _, "");
   bindBool (in_ov set_ov_InsecureSkipTLSVerify) "insecure-skip-tls-verify" (λ _, false);
   bindString (in_ov set_ov_Cluster) "cluster" (λ _, "");
   bindString (in_ov set_ov_AuthInfo) "user" (λ _, "");
   bindStringP (in_ov set_ov_Namespace) "namespace" "n" (λ _, "");
   bindString (in_ov set_ov_CurrentContext) "context" (λ _, "");
   bindString (in_ov set_ov_Timeout) "request-timeout" (λ _, "0")].

(** The flags of [AddFlags]; [id] is the host name, empty when [os.Hostname] fails. *)
Definition option_bindings (id : string) : list binding :=
  [bindString set_o_ClusterCIDR "cluster-cidr" (λ _, "");
   bindString set_o_Name "instance-name" (λ _, id);
   bindBool set_o_InCluster "in-cluster" (λ _, false);
   bindInt set_o_ConcurrentServiceSyncs "concurrent-service-syncs" (λ _, 3);
   bindDuration set_o_ShutdownGracePeriod "shutdown-grace-period" (λ _, 3 * Second);
   bindDuration set_o_RouteReconcilationPeriod "route-reconcilation-period" (λ _, 30 * Second);
   bindString set_o_Kubeconfig "kubeconfig" o_Kubeconfig;
   bindInt set_o_ProvisionRetry "provision-retry" (λ _, 10)]
  ++ leaderelection_BindFlags ++ clientcmd_BindOverrideFlags.

(** The command line also has the flags that the vendored packages add to it for
    variables of their own, [X]. *)
Definition own_flag {X} (f : Flag Options) : Flag (Options * X) :=
  mkFlag (f_Name f) (f_Shorthand f) (f_NoOptDefVal f)
    (λ s '(o, x), o' ← f_Set f s o; Some (o', x)).
Definition foreign_flag {X} (f : Flag X) : Flag (Options * X) :=
  mkFlag (f_Name f) (f_Shorthand f) (f_NoOptDefVal f)
    (λ s '(o, x), x' ← f_Set f s x; Some (o, x')).

(** [func (o *Options) AddFlags(ps *pflag.FlagSet)]; an error is a panic. *)
Definition AddFlags {X} (id : string) (o : Options) (ps : FlagSet (Options * X)) :
    result (FlagSet (Options * X) * Options) :=
  match AddFlagList ps (map (λ b, own_flag (b_flag b)) (option_bindings id)) with
  | Ok ps' => Ok (ps', foldl (λ o b, b_default b o) o (option_bindings id))
  | Err e => Err e
  end.

(** [func DefaultLeaderElectionConfiguration()]. *)
Definition DefaultLeaderElectionConfiguration : LeaderElectionConfiguration :=
  mkLeaderElection false (15 * Second) (10 * Second) (2 * Second).

(** [func NewOptions() *Options]: the rest is zero. *)
Definition NewOptions : Options :=
  mkOptions "" "" "" false 0 0 0 0 DefaultLeaderElectionConfiguration
    (mkOverrides "" "" "" "" "" "" "" "" "" false "" "" "" "" "").
