(* ===== verification/LeaderElection.v ===== *)
(** * Leader election

    The vendored [pkg/client/leaderelection] with its endpoints lock
    ([resourcelock/endpointslock.go]) and the loops of [util/wait] it runs in: one
    attempt on the lease as a program of requests to the API server, and replicas that
    make such attempts on one lock as a timed transition system.

    Times are nanoseconds since the epoch.  The annotation of the lock is represented
    by the record its json text holds: times are written in whole seconds
    ([metav1.Time] is RFC 3339 text). *)

From Stdlib Require Import Floats.SpecFloat.
From S2P Require Import Prelude GoStd Conc Flags Options.

(** ** Configuration *)

(** [JitterFactor], 1.2 as a float64. *)
Definition JitterFactor : spec_float := S754_finite false 5404319552844595 (-52).

(** [time.Duration(JitterFactor*float64(d))]. *)
Definition jittered (d : Z) : Z := float64_trunc (float64_mul JitterFactor (float64_of d)).

(** Whether [NewLeaderElector] accepts the configuration; the lock is never nil. *)
Definition NewLeaderElector (l : LeaderElectionConfiguration) : result unit :=
  if le_LeaseDuration l <=? le_RenewDeadline l then
    Err "leaseDuration must be greater than renewDeadline"
  else if le_RenewDeadline l <=? jittered (le_RetryPeriod l) then
    Err "renewDeadline must be greater than retryPeriod*JitterFactor"
  else Ok tt.

(** ** The record and the lock object *)

(** [time.Time{}]. *)
Definition zero_time : Z := -62135596800 * Second.

Record LeaderElectionRecord : Type := mkRecord {
  HolderIdentity : string; LeaseDurationSeconds : Z; AcquireTime : Z; RenewTime : Z;
  LeaderTransitions : Z }.

#[export] Instance LeaderElectionRecord_eq_dec : EqDecision LeaderElectionRecord.
Proof. solve_decision. Defined.

Definition zero_record : LeaderElectionRecord := mkRecord "" 0 zero_time zero_time 0.

(** The annotation [LeaderElectionRecordAnnotationKey]: absent, not the json of a
    record, or a record. *)
Inductive annotation : Type := NoRecord | Malformed | RecordText (r : LeaderElectionRecord).

(** Whole seconds, as the text of a time has them. *)
Definition truncate (t : Z) : Z := t / Second * Second.

(** [json.Marshal] of a record, [json.Unmarshal] into a zero record. *)
Definition Marshal (r : LeaderElectionRecord) : annotation :=
  RecordText (mkRecord (HolderIdentity r) (LeaseDurationSeconds r) (truncate (AcquireTime r))
                (truncate (RenewTime r)) (LeaderTransitions r)).

(** [v1.Endpoints]: the resource version, [None] for the empty one, and the annotations,
    [None] for a nil map. *)
Record Endpoints : Type := mkEndpoints {
  ep_ResourceVersion : option Z; ep_Annotations : option annotation }.

Definition empty_endpoints : Endpoints := mkEndpoints None None.

Inductive lock_error : Type := NotFound | OtherLockError.

Definition IsNotFound (e : lock_error) : bool := match e with NotFound => true | _ => false end.

(** What an elector asks: the time, and the requests of the endpoints client. *)
Inductive lreq : Type → Type :=
| TimeNow : lreq Z
| GetEndpoints : lreq (Endpoints + lock_error)
| CreateEndpoints (e : Endpoints) : lreq (Endpoints + lock_error)
| UpdateEndpoints (e : Endpoints) : lreq (Endpoints + lock_error).

(** ** endpointslock.go *)

(** [EndpointsLock]'s field [e]; a failed request of the client leaves an empty
    object in it. *)
Definition EndpointsLock : Type := option Endpoints.

(** What [Get] makes of the client's answer. *)
Definition lock_got (r : Endpoints + lock_error) : EndpointsLock * (LeaderElectionRecord + lock_error) :=
  match r with
  | inr err => (Some empty_endpoints, inr err)
  | inl e =>
      let a := default NoRecord (ep_Annotations e) in
      (Some (mkEndpoints (ep_ResourceVersion e) (Some a)),
       match a with
       | NoRecord => inl zero_record
       | Malformed => inr OtherLockError
       | RecordText record => inl record
       end)
  end.

(** [func (el *EndpointsLock) Get()]. *)
Definition lock_Get (el : EndpointsLock) :
    prog lreq (EndpointsLock * (LeaderElectionRecord + lock_error)) :=
  r ← pcall GetEndpoints;
  Done (lock_got r).

(** What the client answers to [Create] and [Update]: the object, or an error. *)
Definition lock_reply (r : Endpoints + lock_error) : EndpointsLock * option lock_error :=
  match r with inl e => (Some e, None) | inr err => (Some empty_endpoints, Some err) end.

(** [func (el *EndpointsLock) Create(ler LeaderElectionRecord) error]. *)
Definition lock_Create (el : EndpointsLock) (ler : LeaderElectionRecord) :
    prog lreq (EndpointsLock * option lock_error) :=
  r ← pcall (CreateEndpoints (mkEndpoints None (Some (Marshal ler))));
  Done (lock_reply r).

(** [func (el *EndpointsLock) Update(ler LeaderElectionRecord) error]: a nil map cannot
    be assigned to. *)
Definition lock_Update (el : EndpointsLock) (ler : LeaderElectionRecord) :
    prog lreq (EndpointsLock * option lock_error) :=
  match el with
  | None => Done (None, Some OtherLockError)
  | Some e =>
      match ep_Annotations e with
      | None => Crash "assignment to entry in nil map"
      | Some _ =>
          r ← pcall (UpdateEndpoints (mkEndpoints (ep_ResourceVersion e) (Some (Marshal ler))));
          Done (lock_reply r)
      end
  end.

(** ** leaderelection.go *)

(** [type LeaderElector struct], with the lock. *)
Record LeaderElector : Type := mkElector {
  observedRecord : LeaderElectionRecord; observedTime : Z; reportedLeader : string;
  le_Lock : EndpointsLock }.

Definition new_elector : LeaderElector := mkElector zero_record zero_time "" None.

Definition observe (le : LeaderElector) (r : LeaderElectionRecord) (t : Z) : LeaderElector :=
  mkElector r t (reportedLeader le) (le_Lock le).
Definition with_Lock (le : LeaderElector) (el : EndpointsLock) : LeaderElector :=
  mkElector (observedRecord le) (observedTime le) (reportedLeader le) el.

Section elector.
Context (config : LeaderElectionConfiguration) (id : string).
Implicit Types (le : LeaderElector).

(** [func (l *LeaderElector) maybeReportTransition()]; there is no [OnNewLeader]. *)
Definition maybeReportTransition le : LeaderElector :=
  if bool_decide (HolderIdentity (observedRecord le) = reportedLeader le) then le
  else mkElector (observedRecord le) (observedTime le) (HolderIdentity (observedRecord le)) (le_Lock le).

(** The record of a first acquisition. *)
Definition leaderElectionRecord (now : Z) : LeaderElectionRecord :=
  mkRecord id (le_LeaseDuration config `quot` Second) now now 0.

(** After the record was sent to the lock: [err] is the lock's error. *)
Definition wrote le (record : LeaderElectionRecord) (reply : EndpointsLock * option lock_error) :
    prog lreq (LeaderElector * bool) :=
  let '(el, err) := reply in
  let le := with_Lock le el in
  match err with
  | Some _ => Done (le, false)
  | None => t ← pcall TimeNow; Done (observe le record t, true)
  end.

(** Step 3: the record corrected before the update. *)
Definition corrected (now : Z) (old : LeaderElectionRecord) : LeaderElectionRecord :=
  let record := leaderElectionRecord now in
  if bool_decide (HolderIdentity old = id)
  then mkRecord id (LeaseDurationSeconds record) (AcquireTime old) now (LeaderTransitions old)
  else mkRecord id (LeaseDurationSeconds record) now now (int64 (LeaderTransitions old + 1)).

(** Steps 2 and 3: the record was obtained. *)
Definition obtained le (now : Z) (old : LeaderElectionRecord) : prog lreq (LeaderElector * bool) :=
  le ← (if bool_decide (observedRecord le ≠ old) then t ← pcall TimeNow; Done (observe le old t)
        else Done le);
  if (now <? observedTime le + le_LeaseDuration config) && bool_decide (HolderIdentity old ≠ id)
  then Done (le, false)
  else
    reply ← lock_Update (le_Lock le) (corrected now old);
    wrote le (corrected now old) reply.

(** Step 1: the answer of the lock. *)
Definition got le (now : Z) (reply : EndpointsLock * (LeaderElectionRecord + lock_error)) :
    prog lreq (LeaderElector * bool) :=
  let '(el, r) := reply in
  let le := with_Lock le el in
  match r with
  | inr err =>
      if negb (IsNotFound err) then Done (le, false)
      else
        reply ← lock_Create (le_Lock le) (leaderElectionRecord now);
        wrote le (leaderElectionRecord now) reply
  | inl old => obtained le now old
  end.

(** [func (le *LeaderElector) tryAcquireOrRenew() bool]. *)
Definition tryAcquireOrRenew le : prog lreq (LeaderElector * bool) :=
  now ← pcall TimeNow;
  reply ← lock_Get (le_Lock le);
  got le now reply.

(** ** One replica

    What it is doing with the lock: nothing, or an attempt that began at [t0] and
    whose current request was sent at [t]; a request is served, then its answer
    arrives. *)
Inductive attempt : Type :=
| Waiting
| Trying (p : prog lreq (LeaderElector * bool)) (t0 t : Z)
| Replied (p : prog lreq (LeaderElector * bool)) (t0 t : Z).

(** Where [Run] is: in [acquire], after an attempt that ended at the time given, or
    before the first one; in [renew], before a [wait.Poll], in a poll that began at [p]
    whose last attempt ended at [e], and in the attempt after its timeout; after
    [renew]; or the process has ended. *)
Inductive role : Type :=
| Candidate (e : option Z)
| Starting (u : Z)
| Polling (p e : Z)
| Final (p : Z)
| Stopping (u : Z)
| Exited.

Record replica : Type := mkReplica { rp_le : LeaderElector; rp_role : role; rp_attempt : attempt }.

Definition leading (r : role) : bool :=
  match r with Candidate _ | Exited => false | _ => true end.

(** Computation takes no time: the clock of the replica answers at once. *)
Definition instant (now : Z) {R} (e : lreq R) : option R :=
  match e with TimeNow => Some now | _ => None end.

Fixpoint settle {A : Type} (now : Z) (p : prog lreq A) : prog lreq A :=
  match p with
  | Call e k => match instant now e with Some r => settle now (k r) | None => p end
  | _ => p
  end.

(** The end of an attempt at [now], in each loop. *)
Definition finish (now : Z) (r : role) (le : LeaderElector) (succeeded : bool) : replica :=
  match r with
  | Candidate _ =>
      mkReplica (maybeReportTransition le)
        (if succeeded then Starting now else Candidate (Some now)) Waiting
  | Polling p _ =>
      if succeeded then mkReplica (maybeReportTransition le) (Starting now) Waiting
      else mkReplica le (Polling p now) Waiting
  | Final _ =>
      mkReplica (maybeReportTransition le) (if succeeded then Starting now else Stopping now) Waiting
  | Starting _ | Stopping _ | Exited => mkReplica le r Waiting
  end.

(** The program goes on at [now]; [skew] is how far the replica's clock is ahead. *)
Definition continue (now skew t0 : Z) (rp : replica) (p : prog lreq (LeaderElector * bool)) : replica :=
  match settle (now + skew) p with
  | Done (le, succeeded) => finish now (rp_role rp) le succeeded
  | Crash _ => mkReplica (rp_le rp) Exited Waiting
  | p' => mkReplica (rp_le rp) (rp_role rp) (Trying p' t0 now)
  end.

(** An attempt begins. *)
Definition begin (now skew : Z) (rp : replica) : replica :=
  continue now skew now rp (tryAcquireOrRenew (rp_le rp)).

End elector.

(** ** The API server *)

(** What may happen to a request: it fails before or after it took effect, or it is
    answered. *)
Inductive get_served (store : option Endpoints) : Endpoints + lock_error → Prop :=
| get_found e : store = Some e → get_served store (inl e)
| get_none : store = None → get_served store (inr NotFound)
| get_fails : get_served store (inr OtherLockError).

Inductive create_served (store : option Endpoints) (e : Endpoints) :
    Endpoints + lock_error → option Endpoints → Prop :=
| create_done v :
    store = None →
    create_served store e (inl (mkEndpoints (Some v) (ep_Annotations e)))
      (Some (mkEndpoints (Some v) (ep_Annotations e)))
| create_lost v :
    store = None → create_served store e (inr OtherLockError) (Some (mkEndpoints (Some v) (ep_Annotations e)))
| create_fails : create_served store e (inr OtherLockError) store.

(** An update of an object takes effect when the object has the version of the lock, or
    none.  The version grows with every change; an update that changes nothing may
    keep it. *)
Definition updates (store : option Endpoints) (e : Endpoints) (v' : Z) : Prop :=
  ∃ e0 v, store = Some e0 ∧ ep_ResourceVersion e0 = Some v ∧
    (ep_ResourceVersion e = Some v ∨ ep_ResourceVersion e = None) ∧
    (v < v' ∨ v = v' ∧ ep_Annotations e = ep_Annotations e0).

Inductive update_served (store : option Endpoints) (e : Endpoints) :
    Endpoints + lock_error → option Endpoints → Prop :=
| update_done v' :
    updates store e v' →
    update_served store e (inl (mkEndpoints (Some v') (ep_Annotations e)))
      (Some (mkEndpoints (Some v') (ep_Annotations e)))
| update_lost v' :
    updates store e v' →
    update_served store e (inr OtherLockError) (Some (mkEndpoints (Some v') (ep_Annotations e)))
| update_fails : update_served store e (inr OtherLockError) store.

Definition serves (store : option Endpoints) {R} (e : lreq R) : R → option Endpoints → Prop :=
  match e with
  | TimeNow => λ _ _, False
  | GetEndpoints => λ ans store', get_served store ans ∧ store' = store
  | CreateEndpoints e => create_served store e
  | UpdateEndpoints e => update_served store e
  end.

(** The request that a program is at is served. *)
Definition served {A} (store : option Endpoints) (p p' : prog lreq A) (store' : option Endpoints) : Prop :=
  match p with
  | Call e k => ∃ ans, serves store e ans store' ∧ p' = k ans
  | _ => False
  end.

(** ** Replicas on one lock *)

Record system : Type := mkSystem {
  sy_now : Z; sy_store : option Endpoints; sy_replicas : gmap string replica }.

Section system.
Context (config : LeaderElectionConfiguration).
(** How far the clock of each replica is ahead, and how long a request or a wake-up of
    a goroutine takes at most. *)
Context (skew : string → Z) (delta : Z).

(** Until when a replica may go on waiting for what it waits for: an answer, a timer
    or the end of the process. *)
Definition deadline (rp : replica) : option Z :=
  match rp_attempt rp with
  | Trying _ _ t | Replied _ _ t => Some (t + delta)
  | Waiting =>
      match rp_role rp with
      | Candidate None | Exited | Final _ => None
      | Candidate (Some e) => Some (e + Z.max 0 (le_RetryPeriod config + jittered (le_RetryPeriod config)) + delta)
      | Starting u | Stopping u => Some (u + delta)
      | Polling p e => Some (Z.max (p + le_RenewDeadline config) e + delta)
      end
  end.

Definition timely (now : Z) (rp : replica) : Prop :=
  ∀ d, deadline rp = Some d → now ≤ d.

(** A step of replica [i] at [now]: the store and the replica before and after. *)
Inductive replica_step (now : Z) (i : string) (store : option Endpoints) :
    replica → replica → option Endpoints → Prop :=
(** [acquire]: the first attempt, and the next after the jittered period. *)
| step_acquire le e :
    (∀ t, e = Some t → t + le_RetryPeriod config ≤ now) →
    replica_step now i store (mkReplica le (Candidate e) Waiting)
      (begin config i now (skew i) (mkReplica le (Candidate e) Waiting)) store
(** [renew]: a new poll; a tick of the poll, at which an attempt begins when no other
    is running (a ticker has a positive period); the closing of the channel at the
    timeout, and the attempt after it. *)
| step_poll le u :
    replica_step now i store (mkReplica le (Starting u) Waiting) (mkReplica le (Polling now now) Waiting) store
| step_tick le p e k :
    0 < le_RetryPeriod config → 0 < k →
    p + k * le_RetryPeriod config ≤ now ≤ p + k * le_RetryPeriod config + delta →
    now ≤ p + le_RenewDeadline config + delta →
    replica_step now i store (mkReplica le (Polling p e) Waiting)
      (begin config i now (skew i) (mkReplica le (Polling p e) Waiting)) store
| step_timeout le p e :
    p + le_RenewDeadline config ≤ now →
    replica_step now i store (mkReplica le (Polling p e) Waiting)
      (begin config i now (skew i) (mkReplica le (Final p) Waiting)) store
(** A request takes effect, and its answer arrives. *)
| step_serve le r p p' t0 t store' :
    served store p p' store' →
    replica_step now i store (mkReplica le r (Trying p t0 t)) (mkReplica le r (Replied p' t0 t)) store'
| step_reply le r p t0 t :
    replica_step now i store (mkReplica le r (Replied p t0 t))
      (continue now (skew i) t0 (mkReplica le r (Replied p t0 t)) p) store
(** The process ends, by itself or from outside, and starts again. *)
| step_exit le u :
    replica_step now i store (mkReplica le (Stopping u) Waiting) (mkReplica le Exited Waiting) store
| step_crash rp :
    replica_step now i store rp (mkReplica (rp_le rp) Exited Waiting) store
| step_restart le :
    replica_step now i store (mkReplica le Exited Waiting) (mkReplica new_elector (Candidate None) Waiting) store.

Inductive system_step (s : system) : system → Prop :=
| step_replica i rp rp' store' :
    sy_replicas s !! i = Some rp →
    replica_step (sy_now s) i (sy_store s) rp rp' store' →
    system_step s (mkSystem (sy_now s) store' (<[i := rp']> (sy_replicas s)))
| step_time d :
    0 < d → map_Forall (λ _ rp, timely (sy_now s + d) rp) (sy_replicas s) →
    system_step s (mkSystem (sy_now s + d) (sy_store s) (sy_replicas s)).

(** A replica that has taken the lease and whose process has not ended. *)
Definition leads (s : system) (i : string) : Prop :=
  ∃ rp, sy_replicas s !! i = Some rp ∧ leading (rp_role rp) = true.

(** The replicas start; the lock may be there from earlier, with a record that is not
    from the future of its holder's clock. *)
Definition starts (s : system) : Prop :=
  map_Forall (λ i rp, i ≠ "" ∧ rp = mkReplica new_elector (Candidate None) Waiting) (sy_replicas s) ∧
  ∀ e, sy_store s = Some e →
    is_Some (ep_ResourceVersion e) ∧
    ∀ r, ep_Annotations e = Some (RecordText r) → RenewTime r - skew (HolderIdentity r) ≤ sy_now s.

End system.
