(* ===== verification/WorkQueue.v ===== *)
(** * Work queues

    The vendored [client-go/util/workqueue]: the queue of keys that workers take
    ([queue.go]) and the entries that wait for their time ([delaying_queue.go]). *)

From S2P Require Import Prelude GoStd.

(** ** queue.go *)

(** [type Type struct]: the keys in order, those that need processing, and those that
    are being processed. *)
Record queue : Type := mkQueue {
  q_queue : list string; q_dirty : gset string; q_processing : gset string; q_shuttingDown : bool }.

Definition NewQueue : queue := mkQueue [] ∅ ∅ false.

(** [func (q *Type) Add(item)]. *)
Definition Add (q : queue) (item : string) : queue :=
  if q_shuttingDown q then q
  else if bool_decide (item ∈ q_dirty q) then q
  else mkQueue (if bool_decide (item ∈ q_processing q) then q_queue q else q_queue q ++ [item])
         ({[item]} ∪ q_dirty q) (q_processing q) false.

(** [func (q *Type) Get()], when it does not block: the key, or [None] for a shutdown. *)
Definition Get (q : queue) : option (option string * queue) :=
  match q_queue q with
  | [] => if q_shuttingDown q then Some (None, q) else None
  | item :: rest =>
      Some (Some item, mkQueue rest (q_dirty q ∖ {[item]}) ({[item]} ∪ q_processing q) (q_shuttingDown q))
  end.

(** [func (q *Type) Done(item)]. *)
Definition QDone (q : queue) (item : string) : queue :=
  mkQueue (if bool_decide (item ∈ q_dirty q) then q_queue q ++ [item] else q_queue q)
    (q_dirty q) (q_processing q ∖ {[item]}) (q_shuttingDown q).

(** [func (q *Type) ShutDown()]. *)
Definition QShutDown (q : queue) : queue := mkQueue (q_queue q) (q_dirty q) (q_processing q) true.

(** ** delaying_queue.go *)

(** [type waitFor struct]; times are nanoseconds. *)
Record waitFor : Type := mkWaitFor { wf_data : string; wf_readyAt : Z }.

#[export] Instance waitFor_eq_dec : EqDecision waitFor.
Proof. solve_decision. Defined.

(** [sort.Search] on entries in order: the place of the first entry with the
    property. *)
Fixpoint search (f : waitFor → bool) (entries : list waitFor) : nat :=
  match entries with
  | [] => 0
  | e :: entries' => if f e then 0 else S (search f entries')
  end.

(** [func findEntryIndex(entries, existingTime, data) int]. *)
Definition findEntryIndex (entries : list waitFor) (existingTime : Z) (data : string) : nat :=
  let index := search (λ e, (existingTime <? wf_readyAt e) || (existingTime =? wf_readyAt e)) entries in
  index + search (λ e, bool_decide (wf_data e = data)) (drop index entries).

(** The end of [insert]: the entry goes before the first later one. *)
Definition place_entry (entries : list waitFor) (known : gmap string Z) (entry : waitFor) :
    list waitFor * gmap string Z :=
  let i := search (λ e, wf_readyAt entry <? wf_readyAt e) entries in
  (take i entries ++ entry :: drop i entries, <[wf_data entry := wf_readyAt entry]> known).

(** [func insert(entries, knownEntries, entry)]: the entries and the times known. *)
Definition insert_entry (entries : list waitFor) (known : gmap string Z) (entry : waitFor) :
    list waitFor * gmap string Z :=
  match known !! wf_data entry with
  | Some t =>
      if t <? wf_readyAt entry then (entries, known)
      else
        let j := findEntryIndex entries t (wf_data entry) in
        place_entry (if (j <? length entries)%nat then take j entries ++ drop (S j) entries else entries)
          known entry
  | None => place_entry entries known entry
  end.

(** [type delayingType struct]. *)
Record delaying : Type := mkDelaying {
  dq_queue : queue; dq_waiting : list waitFor; dq_known : gmap string Z }.

Definition NewDelayingQueue : delaying := mkDelaying NewQueue [] ∅.

Definition on_queue (f : queue → queue) (q : delaying) : delaying :=
  mkDelaying (f (dq_queue q)) (dq_waiting q) (dq_known q).

(** [func (q *delayingType) AddAfter(item, duration)], with what [waitingLoop] does with
    the entry: it is added when it is ready already, or kept. *)
Definition AddAfter (q : delaying) (now : Z) (item : string) (duration : Z) : delaying :=
  if q_shuttingDown (dq_queue q) then q
  else if duration <=? 0 then on_queue (λ q, Add q item) q
  else let '(waiting, known) := insert_entry (dq_waiting q) (dq_known q) (mkWaitFor item (now + duration)) in
       mkDelaying (dq_queue q) waiting known.

(** A round of [waitingLoop]: the entries that are ready are added. *)
Fixpoint ready_entries (now : Z) (waiting : list waitFor) (q : queue) (known : gmap string Z) : delaying :=
  match waiting with
  | [] => mkDelaying q [] known
  | e :: waiting' =>
      if now <? wf_readyAt e then mkDelaying q waiting known
      else ready_entries now waiting' (Add q (wf_data e)) (delete (wf_data e) known)
  end.

Definition waitingLoop (q : delaying) (now : Z) : delaying :=
  if q_shuttingDown (dq_queue q) then mkDelaying (dq_queue q) [] ∅
  else ready_entries now (dq_waiting q) (dq_queue q) (dq_known q).
