(* ===== verification/Services.v ===== *)
(** * The service controller of Kubernetes

    [vendor/k8s.io/kubernetes/pkg/controller/service/servicecontroller.go], which the
    controller manager runs on the provider's load balancers: the cache of services, the
    processing of changed and deleted services with its retries, and the loop that
    follows the nodes.  Events that are recorded for users are left out. *)

From stdpp Require Import sorting.
From S2P Require Import Prelude GoStd Kube Cloud Provider Instances LoadBalancer Interfaces Flags WorkQueue.

(** ** Services and nodes *)

Definition ServiceTypeLoadBalancer : string := "LoadBalancer".

(** The service and the nodes as the provider reads them. *)
Definition as_ServicePort (p : KServicePort) : ServicePort :=
  mkServicePort (ksp_Protocol p) (ksp_Port p) (ksp_NodePort p).
Definition as_Service (s : KService) : Service :=
  mkService (ks_UID s) (ks_Annotations s) (ks_SessionAffinity s) (map as_ServicePort (ks_Ports s))
    (ks_LoadBalancerIP s).
Definition as_Node (n : KNode) : Node :=
  mkNode (kn_Name n) (map (λ a, mkNodeAddress a.1 a.2) (kn_Addresses n)).

(** [func wantsLoadBalancer(service) bool]. *)
Definition wantsLoadBalancer (service : KService) : bool :=
  bool_decide (ks_Type service = ServiceTypeLoadBalancer).

(** [func getPortsForLB(service)]: [None] for mixed protocols; [protocol] is the one seen
    so far. *)
Fixpoint ports_for_lb (wants : bool) (protocol : string) (ports : list KServicePort) :
    option (list KServicePort) :=
  match ports with
  | [] => Some []
  | sp :: ports' =>
      if bool_decide (protocol = "") then cons sp <$> ports_for_lb wants (ksp_Protocol sp) ports'
      else if bool_decide (protocol ≠ ksp_Protocol sp) && wants then None
      else cons sp <$> ports_for_lb wants protocol ports'
  end.
Definition getPortsForLB (service : KService) : option (list KServicePort) :=
  ports_for_lb (wantsLoadBalancer service) "" (ks_Ports service).

(** [func portEqualForLB(x, y) bool]. *)
Definition portEqualForLB (x y : KServicePort) : bool :=
  bool_decide (ksp_Name x = ksp_Name y) && bool_decide (ksp_Protocol x = ksp_Protocol y) &&
  bool_decide (ksp_Port x = ksp_Port y) && bool_decide (ksp_NodePort x = ksp_NodePort y).

(** [func portSlicesEqualForLB(x, y) bool]. *)
Fixpoint portSlicesEqualForLB (x y : list KServicePort) : bool :=
  match x, y with
  | [], [] => true
  | px :: x', py :: y' => portEqualForLB px py && portSlicesEqualForLB x' y'
  | _, _ => false
  end.

(** [func portsEqualForLB(x, y) bool]. *)
Definition portsEqualForLB (x y : KService) : bool :=
  match getPortsForLB x, getPortsForLB y with
  | Some xPorts, Some yPorts => portSlicesEqualForLB xPorts yPorts
  | _, _ => false
  end.

(** [func (s *ServiceController) needsUpdate(oldService, newService) bool]. *)
Definition needsUpdate (oldService newService : KService) : bool :=
  if negb (wantsLoadBalancer oldService) && negb (wantsLoadBalancer newService) then false
  else if bool_decide (wantsLoadBalancer oldService ≠ wantsLoadBalancer newService) then true
  else if wantsLoadBalancer newService
          && bool_decide (ks_LoadBalancerSourceRanges oldService ≠ ks_LoadBalancerSourceRanges newService) then true
  else if negb (portsEqualForLB oldService newService)
          || bool_decide (ks_SessionAffinity oldService ≠ ks_SessionAffinity newService) then true
  else if bool_decide (ks_LoadBalancerIP oldService ≠ ks_LoadBalancerIP newService) then true
  else if bool_decide (ks_ExternalIPs oldService ≠ ks_ExternalIPs newService) then true
  else if bool_decide (ks_Annotations oldService ≠ ks_Annotations newService) then true
  else bool_decide (ks_UID oldService ≠ ks_UID newService).

(** [func includeNodeFromNodeList(node) bool]. *)
Definition includeNodeFromNodeList (node : KNode) : bool := negb (kn_Unschedulable node).

(** [func getNodeConditionPredicate()]: the conditions are looked at up to the first that
    refuses the node. *)
Definition NodeReady : string := "Ready".
Definition ConditionTrue : string := "True".
Definition nodeConditionPredicate (node : KNode) : bool :=
  if kn_Unschedulable node then false
  else match kn_Conditions node with
       | [] => false
       | conds => forallb (λ c, negb (bool_decide (nc_Type c = NodeReady)
                                      && bool_decide (nc_Status c ≠ ConditionTrue))) conds
       end.

(** [func stringSlicesEqual(x, y) bool]: the slices are sorted before they are compared. *)
Definition str_le (a b : string) : Prop := String.leb a b = true.
#[export] Instance str_le_dec : RelDecision str_le.
Proof. intros a b. unfold str_le. apply _. Defined.
Definition sort_Strings (l : list string) : list string := merge_sort str_le l.
Definition stringSlicesEqual (x y : list string) : bool :=
  if bool_decide (length x ≠ length y) then false
  else bool_decide (sort_Strings x = sort_Strings y).

(** [func nodeSlicesEqualForLB(x, y) bool]. *)
Definition nodeSlicesEqualForLB (x y : list KNode) : bool :=
  if bool_decide (length x ≠ length y) then false
  else stringSlicesEqual (map kn_Name x) (map kn_Name y).

(** What the informer hands to the handlers of its events: a service, or the key of a
    service whose deletion was missed. *)
Inductive informed : Type := Object (service : KService) | DeletedFinalStateUnknown (key : string).

(** [cache.MetaNamespaceKeyFunc] of a service. *)
Definition MetaNamespaceKeyFunc (service : KService) : string :=
  if bool_decide (ks_Namespace service ≠ "") then ks_Namespace service +:+ "/" +:+ ks_Name service
  else ks_Name service.

(** [cache.DeletionHandlingMetaNamespaceKeyFunc], [controller.KeyFunc]. *)
Definition KeyFunc (obj : informed) : string :=
  match obj with
  | DeletedFinalStateUnknown key => key
  | Object service => MetaNamespaceKeyFunc service
  end.

(** [cache.SplitMetaNamespaceKey].  The error is only logged: the quotes around the key
    are left out. *)
Definition SplitMetaNamespaceKey (key : string) : result (string * string) :=
  match Split key slash with
  | [name] => Ok ("", name)
  | [namespace; name] => Ok (namespace, name)
  | _ => Err ("unexpected key format: " +:+ key)
  end.

(** ** Retries *)

Definition minRetryDelay : Z := 5 * Second.
Definition maxRetryDelay : Z := 300 * Second.
Definition clientRetryCount : nat := 5.
Definition doNotRetry : Z := 0.

(** [type cachedService struct]. *)
Record cachedService : Type := mkCached { cs_state : option KService; cs_lastRetryDelay : Z }.

(** [func (s *cachedService) nextRetryDelay() time.Duration]: the delay it leaves and
    returns. *)
Definition nextRetryDelay (last : Z) : Z :=
  let d := int64 (last * 2) in
  let d := if d <? minRetryDelay then minRetryDelay else d in
  if maxRetryDelay <? d then maxRetryDelay else d.

(** ** The controller *)

(** The fields of [ServiceController] that change.  An entry of the cache is a pointer
    that the code keeps while it works on the key: an assignment through it changes the
    entry. *)
Record sc_state : Type := mkSC {
  st_knownHosts : list KNode;
  st_servicesToUpdate : list (option KService);
  st_cache : gmap string cachedService;
  st_queue : delaying }.

Definition set_cache (st : sc_state) (c : gmap string cachedService) : sc_state :=
  mkSC (st_knownHosts st) (st_servicesToUpdate st) c (st_queue st).
Definition set_queue (st : sc_state) (q : delaying) : sc_state :=
  mkSC (st_knownHosts st) (st_servicesToUpdate st) (st_cache st) q.

(** [func (s *ServiceController) enqueueService(obj)]. *)
Definition enqueueService (st : sc_state) (obj : informed) : sc_state :=
  set_queue st (on_queue (λ q, Add q (KeyFunc obj)) (st_queue st)).

(** The handlers of the informer's events, from [New]. *)
Definition AddFunc : sc_state → informed → sc_state := enqueueService.
Definition UpdateFunc (st : sc_state) (old cur : KService) : sc_state :=
  if needsUpdate old cur then enqueueService st (Object cur) else st.
Definition DeleteFunc : sc_state → informed → sc_state := enqueueService.

Section services.
Context {W : Type} `{!Handler req W} `{!MapOrder}.
Context (balancer : LoadBalancerInterface W) (clusterName : string).

(** [func (s *ServiceController) persistUpdate(service) error]: [i] attempts are left,
    [err] is the error of the last one. *)
Fixpoint persist (i : nat) (service : KService) (err : option error) : go W (option error) :=
  match i with
  | O => mret err
  | S i' =>
      r ← call (Kube (UpdateServiceStatus service));
      match r with
      | None => mret None
      | Some (NotFoundError _) => mret None
      | Some (Conflict e) =>
          mret (Some (Sprintf "Not persisting update to service '%s/%s' that has been changed since we received it: %v"
                  [AStr (ks_Namespace service); AStr (ks_Name service); AStr e]))
      | Some (OtherError e) => _ ← call (Sleep 5); persist i' service (Some e)
      end
  end.
Definition persistUpdate (service : KService) : go W (option error) := persist clientRetryCount service None.

(** [func (s *ServiceController) createLoadBalancer(service)]. *)
Definition createLoadBalancer (service : KService) : go W (option LoadBalancerStatus * option error) :=
  r ← call (Kube ListNodes);
  match r with
  | Err e => mret (None, Some e)
  | Ok nodes =>
      l_EnsureLoadBalancer W balancer clusterName (as_Service service)
        (map as_Node (base.filter (λ n, includeNodeFromNodeList n = true) nodes))
  end.

(** The end of [createLoadBalancerIfNeeded]: the status is written when it changed.
    [LoadBalancerStatusEqual] dereferences both statuses. *)
Definition write_status (service : KService) (newState : option LoadBalancerStatus) :
    go W (option error * bool) :=
  match newState with
  | None => panic "runtime error: invalid memory address or nil pointer dereference"
  | Some newState =>
      let newState := map (λ ip, mkIngress ip "") newState in
      if bool_decide (ks_Status service ≠ newState) then
        err ← persistUpdate (set_ks_Status service newState);
        match err with
        | Some e =>
            mret (Some (Sprintf "Failed to persist updated status to apiserver, even after retries. Giving up: %v" [AStr e]), false)
        | None => mret (None, false)
        end
      else mret (None, false)
  end.

(** [func (s *ServiceController) createLoadBalancerIfNeeded(key, service) (error, bool)]. *)
Definition createLoadBalancerIfNeeded (key : string) (service : KService) : go W (option error * bool) :=
  if negb (wantsLoadBalancer service) then
    '(_, exists_, err) ← l_GetLoadBalancer W balancer clusterName (as_Service service);
    match err with
    | Some e => mret (Some (Sprintf "Error getting LB for service %s: %v" [AStr key; AStr e]), true)
    | None =>
        if exists_ : bool then
          r ← l_EnsureLoadBalancerDeleted W balancer clusterName (as_Service service);
          match r with
          | Err e => mret (Some e, true)
          | Ok _ => write_status service (Some [])
          end
        else write_status service (Some [])
    end
  else
    '(newState, err) ← createLoadBalancer service;
    match err with
    | Some e => mret (Some (Sprintf "Failed to create load balancer for service %s: %v" [AStr key; AStr e]), true)
    | None => write_status service newState
    end.

(** [func (s *ServiceController) processServiceUpdate(cachedService, service, key)
    (error, time.Duration)], on the entry that [getOrCreate] gives. *)
Definition processServiceUpdate (st : sc_state) (service : KService) (key : string) :
    go W (sc_state * (option error * Z)) :=
  let last := match st_cache st !! key with Some c => cs_lastRetryDelay c | None => 0 end in
  '(err, _) ← createLoadBalancerIfNeeded key service;
  match err with
  | Some e =>
      let d := nextRetryDelay last in
      mret (set_cache st (<[key := mkCached (Some service) d]> (st_cache st)), (Some e, d))
  | None =>
      mret (set_cache st (<[key := mkCached (Some service) 0]> (st_cache st)), (None, doNotRetry))
  end.

(** [func (s *ServiceController) processServiceDeletion(key) (error, time.Duration)]. *)
Definition processServiceDeletion (st : sc_state) (key : string) : go W (sc_state * (option error * Z)) :=
  match st_cache st !! key with
  | None =>
      mret (st, (Some (Sprintf "Service %s not in cache even though the watcher thought it was. Ignoring the deletion."
                         [AStr key]), doNotRetry))
  | Some c =>
      match cs_state c with
      | None => panic "runtime error: invalid memory address or nil pointer dereference"
      | Some service =>
          if negb (wantsLoadBalancer service) then mret (st, (None, doNotRetry))
          else
            r ← l_EnsureLoadBalancerDeleted W balancer clusterName (as_Service service);
            match r with
            | Err e =>
                let d := nextRetryDelay (cs_lastRetryDelay c) in
                mret (set_cache st (<[key := mkCached (Some service) d]> (st_cache st)), (Some e, d))
            | Ok _ => mret (set_cache st (delete key (st_cache st)), (None, doNotRetry))
            end
      end
  end.

(** [func (s *ServiceController) syncService(key string) error]; [now] is the time at
    which a retry is put into the queue. *)
Definition syncService (st : sc_state) (now : Z) (key : string) : go W (sc_state * option error) :=
  match SplitMetaNamespaceKey key with
  | Err e => mret (st, Some e)
  | Ok (namespace, name) =>
      let retry '(st', (err, retryDelay)) :=
        if bool_decide (retryDelay ≠ 0) then
          mret (set_queue st' (AddAfter (st_queue st') now key retryDelay), None)
        else mret (st', None) in
      r ← call (Kube (GetService namespace name));
      match r with
      | inr (NotFoundError _) => x ← processServiceDeletion st key; retry x
      | inr (Conflict e) | inr (OtherError e) =>
          mret (set_queue st (on_queue (λ q, Add q key) (st_queue st)), Some e)
      | inl service => x ← processServiceUpdate st service key; retry x
      end
  end.

(** One round of [worker]: a key is taken, synchronised and marked as done; an error of
    [syncService] is logged. *)
Definition worker_round (st : sc_state) (now : Z) : go W sc_state :=
  match Get (dq_queue (st_queue st)) with
  | None | Some (None, _) => mret st
  | Some (Some key, q) =>
      '(st, _) ← syncService (set_queue st (on_queue (λ _, q) (st_queue st))) now key;
      mret (set_queue st (on_queue (λ q, QDone q key) (st_queue st)))
  end.

(** ** Nodes *)

(** [func (s *ServiceController) lockedUpdateLoadBalancerHosts(service, hosts) error]. *)
Definition lockedUpdateLoadBalancerHosts (service : KService) (hosts : list KNode) : go W (option error) :=
  if negb (wantsLoadBalancer service) then mret None
  else
    r ← l_UpdateLoadBalancer W balancer clusterName (as_Service service) (map as_Node hosts);
    match r with
    | Ok _ => mret None
    | Err e =>
        '(_, exists_, err) ← l_GetLoadBalancer W balancer clusterName (as_Service service);
        match err with
        | Some _ => mret (Some e)
        | None => if exists_ : bool then mret (Some e) else mret None
        end
    end.

(** [func (s *ServiceController) updateLoadBalancerHosts(services, hosts)]: the services
    to retry. *)
Fixpoint updateLoadBalancerHosts (services : list (option KService)) (hosts : list KNode) :
    go W (list (option KService)) :=
  match services with
  | [] => mret []
  | None :: services' => updateLoadBalancerHosts services' hosts
  | Some service :: services' =>
      err ← lockedUpdateLoadBalancerHosts service hosts;
      retry ← updateLoadBalancerHosts services' hosts;
      mret (match err with Some _ => Some service :: retry | None => retry end)
  end.

(** [func (s *serviceCache) allServices()]. *)
Definition allServices (cache : gmap string cachedService) : list (option KService) :=
  cs_state ∘ snd <$> range_map cache.

(** [func (s *ServiceController) nodeSyncLoop()]. *)
Definition nodeSyncLoop (st : sc_state) : go W sc_state :=
  r ← call (Kube ListNodes);
  match r with
  | Err _ => mret st
  | Ok nodes =>
      let newHosts := base.filter (λ n, nodeConditionPredicate n = true) nodes in
      if nodeSlicesEqualForLB newHosts (st_knownHosts st) then
        retry ← updateLoadBalancerHosts (st_servicesToUpdate st) newHosts;
        mret (mkSC (st_knownHosts st) retry (st_cache st) (st_queue st))
      else
        retry ← updateLoadBalancerHosts (allServices (st_cache st)) newHosts;
        mret (mkSC newHosts retry (st_cache st) (st_queue st))
  end.

End services.
