(* ===== verification/Controller.v ===== *)
(** * The controller manager

    [pkg/controller/controller.go] and [cmd/aliyun-controller/main.go]: [NewController]
    with the constructors of the vendored service, route and provision controllers,
    [main] up to the controller it runs, and [Run] as a step relation of its two
    goroutines (the elector and the [run] callback). *)

From S2P Require Import Prelude GoStd Kube Cloud MapUtils Provider Instances Quantity Volume LoadBalancer Routes Interfaces Net Conc RouteController Flags Options.

(** ** Versions: [version.ParseGeneric] of Kubernetes *)

Definition is_space (c : ascii) : bool :=
  bool_decide (c ∈ [" "; "009"; "010"; "012"; "013"]%char).

(** The greedy match of [0-9]+, and of ([.][0-9]+)* after it: the numbers' texts and
    what follows them. *)
Definition is_digit (c : ascii) : bool := bool_decide (is_Some (digit_val c)).
Fixpoint version_fields (fuel : nat) (l : list ascii) : list (list ascii) * list ascii :=
  match fuel with
  | O => ([], l)
  | S fuel' =>
      match l with
      | "."%char :: l' =>
          if bool_decide (take_while is_digit l' = []) then ([], l)
          else let '(fs, rest) := version_fields fuel' (drop_while is_digit l') in
               (take_while is_digit l' :: fs, rest)
      | _ => ([], l)
      end
  end.

(** [strconv.ParseUint(comp, 10, 0)] of digits, in the range of [uint]. *)
Definition ParseUint10 (l : list ascii) : option Z :=
  n ← parse_digits 0 (list_to_str l);
  if bool_decide (n < 2 ^ 64) then Some n else None.

(** [func ParseGeneric(str string)]: the numeric components. *)
Definition ParseGeneric (str : string) : option (list Z) :=
  let l := drop_while is_space (str_to_list str) in
  let l := match l with "v"%char :: l' => l' | _ => l end in
  let first := take_while is_digit l in
  let '(more, extra) := version_fields (length l) (drop_while is_digit l) in
  if bool_decide (first = []) || bool_decide ("010"%char ∈ extra) || bool_decide (more = []) then None
  else if bool_decide (head first = Some "0"%char) && bool_decide (first ≠ ["0"%char]) then None
  else mapM ParseUint10 (first :: more).

(** [func (v *Version) LessThan(other *Version)] of generic versions. *)
Fixpoint LessThan (v other : list Z) : bool :=
  match v, other with
  | [], _ => false
  | c :: v', [] => if bool_decide (c ≠ 0) then false else LessThan v' []
  | c :: v', o :: other' =>
      if o <? c then false else if c <? o then true else LessThan v' other'
  end.

(** ** The controllers *)

(** [service.ServiceController] and [pvcontroller.ProvisionController]: the fields
    that come from the options and the provider. *)
Record ServiceController (W : Type) : Type := mkServiceController {
  sc_balancer : option (LoadBalancerInterface W); sc_zone : Zone; sc_clusterName : string }.

Record ProvisionController (W : Type) : Type := mkProvisionController {
  pvc_resyncPeriod : Z; pvc_provisionerName : string; pvc_provisioner : VolumeInterface W;
  pvc_is1dot4 : bool; pvc_exponentialBackOff : bool; pvc_failedRetryThreshold : Z;
  pvc_leaseDuration : Z; pvc_renewDeadline : Z; pvc_retryPeriod : Z; pvc_termLimit : Z }.

(** [type Controller struct]; the clients and the informers are requests. *)
Record Controller (W : Type) : Type := mkController {
  c_Options : Options;
  c_provider : ProviderInterface W;
  c_sc : ServiceController W;
  c_rc : RouteController (go W);
  c_pvc : option (ProvisionController W);
  c_done : bool }.
Arguments mkServiceController {W} _ _ _.
Arguments mkProvisionController {W} _ _ _ _ _ _ _ _ _ _.
Arguments mkController {W} _ _ _ _ _ _.
Arguments sc_balancer {W} _.
Arguments sc_zone {W} _.
Arguments sc_clusterName {W} _.
Arguments pvc_provisionerName {W} _.
Arguments pvc_provisioner {W} _.
Arguments pvc_is1dot4 {W} _.
Arguments pvc_exponentialBackOff {W} _.
Arguments pvc_leaseDuration {W} _.
Arguments pvc_renewDeadline {W} _.
Arguments pvc_retryPeriod {W} _.
Arguments pvc_failedRetryThreshold {W} _.
Arguments c_Options {W} _.
Arguments c_provider {W} _.
Arguments c_sc {W} _.
Arguments c_rc {W} _.
Arguments c_pvc {W} _.
Arguments c_done {W} _.

Definition ResyncPeriod : Z := 30 * Second.
Definition DefaultTermLimit : Z := 30 * Second.

Section controller.
Context {W : Type} `{!Handler req W} `{!FloatConv} `{!MapOrder}.
Context (show_options : gmap string json → string).
Context (show_pv : PersistentVolume → string) (show_fv : FlexVolumeSource → string).

(** [log.Fatalf] of glog: the process exits with 255. *)
Definition log_Fatalf {A} (msg : string) : go W A := exit 255.

(** [service.New]: what [init] asks of the provider. *)
Definition service_New (p : ProviderInterface W) (clusterName : string) : go W (result (ServiceController W)) :=
  let '(balancer, ok) := pi_LoadBalancer p in
  if negb ok then mret (Err "the cloud provider does not support external load balancers.") else
  let '(zones, ok) := pi_Zones p in
  if negb ok then
    mret (Err "the cloud provider does not support zone enumeration, which is required for creating load balancers.")
  else match zones with
       | None => panic "runtime error: invalid memory address or nil pointer dereference"
       | Some zones =>
           r ← zs_GetZone zones;
           match r with
           | Err e => mret (Err (Sprintf "failed to get zone from cloud provider, will not be able to create load balancers: %v" [AStr e]))
           | Ok zone => mret (Ok (mkServiceController balancer zone clusterName))
           end
       end.

(** [route.New]. *)
Definition route_New (routes : RoutesInterface (go W)) (clusterName : string) (clusterCIDR : IPNet) :
    RouteController (go W) := mkRouteController routes clusterName clusterCIDR.

(** [pvcontroller.NewProvisionController]: a panic when the server's version cannot
    be parsed. *)
Definition NewProvisionController (resyncPeriod : Z) (provisionerName : string)
    (provisioner : VolumeInterface W) (serverGitVersion : string) (exponentialBackOffOnError : bool)
    (failedRetryThreshold leaseDuration renewDeadline retryPeriod termLimit : Z) :
    go W (ProvisionController W) :=
  match ParseGeneric serverGitVersion with
  | None => panic ("illegal version string " +:+ serverGitVersion)
  | Some gitVersion =>
      mret (mkProvisionController resyncPeriod provisionerName provisioner
              (LessThan gitVersion [1; 5; 0]) exponentialBackOffOnError failedRetryThreshold
              leaseDuration renewDeadline retryPeriod termLimit)
  end.

(** The client configuration the options choose. *)
Definition client_config (options : Options) : go W (result RestConfig) :=
  if o_InCluster options then call (Kube InClusterConfig)
  else if bool_decide (o_Kubeconfig options ≠ "") then
    call (Kube (BuildConfigFromFlags (ov_Server (o_Overrides options)) (o_Kubeconfig options)))
  else call (Kube (ClientConfig (o_Overrides options))).

(** The provision controller, when the provider has volumes. *)
Definition new_pvc (options : Options) (p : ProviderInterface W) : go W (option (ProvisionController W)) :=
  let '(volume, ok) := pi_Volume p in
  if negb ok then mret None else
  r ← call (Kube ServerVersion);
  match r with
  | Err _ => log_Fatalf "Error getting server version: %v"
  | Ok serverVersion =>
      match volume with
      | None => panic "runtime error: invalid memory address or nil pointer dereference"
      | Some volume =>
          let ldConfig := o_LeaderElection options in
          pvc ← NewProvisionController ResyncPeriod (v_ProvisionerName volume) volume serverVersion
                  false (o_ProvisionRetry options) (le_LeaseDuration ldConfig)
                  (le_RenewDeadline ldConfig) (le_RetryPeriod ldConfig) DefaultTermLimit;
          mret (Some pvc)
      end
  end.

(** [func NewController(options)]: the controller, or an error. *)
Definition NewController (env : string → string) (host : string) (options : Options) :
    go W (result (Controller W)) :=
  p ←? GetProvider (providers show_options show_pv show_fv env host) "aliyun";
  clientConfig ← client_config options;
  match clientConfig with
  | Err _ => log_Fatalf "Unable to create config: %+v"
  | Ok clientConfig =>
      k8s ← call (Kube (KubernetesForConfig clientConfig));
      match k8s with
      | Err _ => log_Fatalf "Invalid api configuration: %+v"
      | Ok _ =>
          sc ← service_New p (ov_Cluster (o_Overrides options));
          match sc with
          | Err _ => log_Fatalf "Can't initialize service controller: %v"
          | Ok sc =>
              match (pi_Routes p).1 with
              | None => log_Fatalf "Provider doesn't support routes"
              | Some routes =>
                  match ParseCIDR (o_ClusterCIDR options) with
                  | Err _ => log_Fatalf "Invalid cidr"
                  | Ok clusterCIDR =>
                      let rc := route_New routes (ov_Cluster (o_Overrides options)) clusterCIDR in
                      clientk8s ← call (Kube (ClientKubernetesForConfig clientConfig));
                      match clientk8s with
                      | Err _ => log_Fatalf "Invalid api configuration: %+v"
                      | Ok _ =>
                          pvc ← new_pvc options p;
                          mret (Ok (mkController options p sc rc pvc false))
                      end
                  end
              end
          end
      end
  end.

(** ** main.go *)

(** The flags of [main]'s own flag set, which is never parsed: they keep their
    defaults, [profiling] false and [test] false. *)
Record MainFlags : Type := mkMainFlags {
  mf_profile : bool; mf_address : string; mf_port : Z; mf_test : bool }.
Definition main_flags : MainFlags := mkMainFlags false "localhost" 9801 false.

(** How [main] ends, apart from exits and panics: it returns from the dry run, or it
    runs the controller, beside the profiling server or without it. *)
Inductive main_end : Type := Returned | Runs (c : Controller W) (profiling : bool).

(** The flags of the command line when it is parsed: [options.AddFlags] adds to those
    that imported packages have defined, [pflags], and [flag.InitFlags] sets the
    normalization and adds those of Go's own flag package, [goflags]; an error is a
    panic. *)
Definition command_line {X} (host : string) (pflags goflags : list (Flag X)) :
    result (FlagSet (Options * X) * Options) :=
  match AddFlagList NewFlagSet (map foreign_flag pflags) with
  | Err e => Err e
  | Ok cmdline =>
      match AddFlags host NewOptions cmdline with
      | Err e => Err e
      | Ok (ps, options) =>
          match AddGoFlagSet (SetNormalizeFunc ps WordSepNormalizeFunc) (map foreign_flag goflags) with
          | Err e => Err e
          | Ok ps => Ok (ps, options)
          end
      end
  end.

(** [func main()]; [x] are the variables of the imported packages' flags, [args] is
    [os.Args[1:]]. *)
Definition main {X} (env : string → string) (host : string) (pflags goflags : list (Flag X)) (x : X)
    (args : list string) : go W main_end :=
  match command_line host pflags goflags with
  | Err e => panic e
  | Ok (ps, options) =>
      match Parse ps args (options, x) with
      | inr _ => exit 2
      | inl ((options, _), _) =>
          if mf_test main_flags then mret Returned
          else
            r ← NewController env host options;
            match r with
            | Err e => panic e
            | Ok c => mret (Runs c (mf_profile main_flags))
            end
      end
  end.

End controller.
