(* ===== verification/GoRoutineMap.v ===== *)
(** * Named goroutines

    The vendored [kubernetes/pkg/util/goroutinemap]: at most one goroutine of a name runs
    at a time; with exponential backoff, a name that failed is refused for a while. *)

From S2P Require Import Prelude GoStd Flags.

(** ** exponential_backoff.go *)

Definition initialDurationBeforeRetry : Z := 500 * Millisecond.
Definition maxDurationBeforeRetry : Z := 2 * Minute.

(** [type ExponentialBackoff struct]; times and durations are nanoseconds. *)
Record ExponentialBackoff : Type := mkBackoff {
  lastError : option error; lastErrorTime : Z; durationBeforeRetry : Z }.

(** The zero value; the zero time is January 1 of the year 1. *)
Definition zero_backoff : ExponentialBackoff := mkBackoff None (-62135596800 * Second) 0.

(** [func (expBackoff *ExponentialBackoff) SafeToRetry(operationName) error] at [now]:
    whether it returns nil. *)
Definition SafeToRetry (b : ExponentialBackoff) (now : Z) : bool :=
  negb (now - lastErrorTime b <=? durationBeforeRetry b).

(** [func (expBackoff *ExponentialBackoff) Update(err *error)] at [now]. *)
Definition Update (b : ExponentialBackoff) (err : error) (now : Z) : ExponentialBackoff :=
  let d :=
    if durationBeforeRetry b =? 0 then initialDurationBeforeRetry
    else
      let d := int64 (2 * durationBeforeRetry b) in
      if maxDurationBeforeRetry <? d then maxDurationBeforeRetry else d in
  mkBackoff (Some err) now d.

(** ** goroutinemap.go *)

(** [type operation struct]. *)
Record operation : Type := mkOperation { operationPending : bool; expBackoff : ExponentialBackoff }.

(** The field [operations] of [goRoutineMap]. *)
Abbreviation operations := (gmap string operation) (only parsing).

Inductive grm_error : Type := AlreadyExistsError | ExponentialBackoffError.

(** [func (grm *goRoutineMap) Run(operationName, operationFunc) error] at [now]: the
    goroutine is started when there is no error. *)
Definition grm_Run (ops : operations) (now : Z) (name : string) : operations * option grm_error :=
  let start b := (<[name := mkOperation true b]> ops, None) in
  match ops !! name with
  | Some op =>
      if operationPending op then (ops, Some AlreadyExistsError)
      else if negb (SafeToRetry (expBackoff op) now) then (ops, Some ExponentialBackoffError)
      else start (expBackoff op)
  | None => start zero_backoff
  end.

(** [func (grm *goRoutineMap) operationComplete(operationName, err)] at [now]; [exp] is
    [exponentialBackOffOnError]. *)
Definition operationComplete (exp : bool) (ops : operations) (now : Z) (name : string)
    (err : option error) : operations :=
  match err with
  | Some e =>
      if exp then
        let b := from_option expBackoff zero_backoff (ops !! name) in
        <[name := mkOperation false (Update b e now)]> ops
      else delete name ops
  | None => delete name ops
  end.

(** [func (grm *goRoutineMap) IsOperationPending(operationName) bool]. *)
Definition IsOperationPending (ops : operations) (name : string) : bool :=
  match ops !! name with Some op => operationPending op | None => false end.

(** ** The goroutines of a map *)

(** What happens to a map: [Run] is called, and a goroutine ends. *)
Inductive grm_event : Type :=
| Started (now : Z) (name : string)
| Ended (now : Z) (name : string) (err : option error).

(** The operations, and the names of the goroutines that run. *)
Definition grm_step (exp : bool) (s : operations * list string) (e : grm_event) :
    option (operations * list string) :=
  let '(ops, running) := s in
  match e with
  | Started now name =>
      match grm_Run ops now name with
      | (ops', None) => Some (ops', name :: running)
      | (ops', Some _) => Some (ops', running)
      end
  | Ended now name err =>
      if bool_decide (name ∈ running)
      then Some (operationComplete exp ops now name err, list_difference running [name])
      else None
  end.

Fixpoint grm_run (exp : bool) (s : operations * list string) (evs : list grm_event) :
    option (operations * list string) :=
  match evs with
  | [] => Some s
  | e :: evs' => s' ← grm_step exp s e; grm_run exp s' evs'
  end.

(** The operations that are pending are those whose goroutine runs, once each; without
    backoff there are no others. *)
Record grm_inv (exp : bool) (ops : operations) (running : list string) : Prop := {
  gi_once : NoDup running;
  gi_pending : ∀ name, name ∈ running ↔ IsOperationPending ops name = true;
  gi_noexp : exp = false → ∀ name op, ops !! name = Some op → operationPending op = true }.

Lemma IsOperationPending_insert ops name op name' :
  IsOperationPending (<[name := op]> ops) name' =
  if decide (name = name') then operationPending op else IsOperationPending ops name'.
Proof. unfold IsOperationPending. rewrite lookup_insert. by case_decide. Qed.

Lemma IsOperationPending_delete ops name name' :
  IsOperationPending (delete name ops) name' =
  if decide (name = name') then false else IsOperationPending ops name'.
Proof. unfold IsOperationPending. rewrite lookup_delete. by case_decide. Qed.

Lemma grm_inv_init exp : grm_inv exp ∅ [].
Proof.
  split; [constructor|..].
  - intros name. unfold IsOperationPending. rewrite lookup_empty. split; [by intros []%elem_of_nil|done].
  - intros _ name op. by rewrite lookup_empty.
Qed.

Lemma grm_inv_start exp ops running now name ops' :
  grm_inv exp ops running → grm_Run ops now name = (ops', None) → grm_inv exp ops' (name :: running).
Proof.
  intros [H1 H2 H3] Hr. unfold grm_Run in Hr.
  assert (IsOperationPending ops name = false ∧ ∃ b, ops' = <[name := mkOperation true b]> ops) as [Hp [b ->]].
  { unfold IsOperationPending. destruct (ops !! name) as [op|]; [|injection Hr as <-; eauto].
    destruct (operationPending op); [done|]. destruct (negb _); [done|]. injection Hr as <-. eauto. }
  split.
  - constructor; [|done]. rewrite H2, Hp. done.
  - intros name'. rewrite elem_of_cons, IsOperationPending_insert, H2. case_decide as E; [subst; naive_solver|].
    naive_solver.
  - intros He name' op'. rewrite lookup_insert. case_decide; [by intros [= <-]|by apply H3].
Qed.

Lemma grm_inv_refused exp ops running now name ops' e :
  grm_inv exp ops running → grm_Run ops now name = (ops', Some e) → grm_inv exp ops' running.
Proof.
  intros Hi Hr. unfold grm_Run in Hr. destruct (ops !! name) as [op|]; [|done].
  destruct (operationPending op); [by injection Hr as <- <-|].
  destruct (negb _); [by injection Hr as <- <-|done].
Qed.

Lemma grm_inv_end exp ops running now name err :
  grm_inv exp ops running →
  grm_inv exp (operationComplete exp ops now name err) (list_difference running [name]).
Proof.
  intros [H1 H2 H3].
  assert (grm_inv exp (delete name ops) (list_difference running [name])) as Hd.
  { split.
    - by apply NoDup_list_difference.
    - intros name'. rewrite list_elem_of_difference, IsOperationPending_delete, H2, list_elem_of_singleton.
      case_decide; naive_solver.
    - intros He name' op'. rewrite lookup_delete. case_decide; [done|by apply H3]. }
  unfold operationComplete. destruct err as [e|]; [|done]. destruct exp; [|done].
  destruct Hd as [D1 D2 _]. split; [done| |done].
  intros name'. rewrite D2, IsOperationPending_delete, IsOperationPending_insert. by case_decide.
Qed.

Lemma grm_inv_run exp s evs s' :
  grm_inv exp s.1 s.2 → grm_run exp s evs = Some s' → grm_inv exp s'.1 s'.2.
Proof.
  revert s. induction evs as [|e evs IH]; intros [ops running] Hi Hr; [by injection Hr as <-|].
  cbn [grm_run] in Hr. destruct (grm_step exp (ops, running) e) as [s1|] eqn:Hs; [|done].
  eapply IH; [|exact Hr]. clear Hr IH.
  destruct e as [now name|now name err]; simpl in Hs.
  - destruct (grm_Run ops now name) as [ops' [e|]] eqn:Hrun; injection Hs as <-; simpl.
    + by eapply grm_inv_refused.
    + by eapply grm_inv_start.
  - case_bool_decide; [|done]. injection Hs as <-. by apply grm_inv_end.
Qed.

(** Named goroutines: after any calls of [Run] and ends of goroutines, at most one
    goroutine of each name runs; while it runs the name is refused; and without
    backoff, as the controller sets it, a name is accepted as soon as its goroutine has
    ended, however it ended. *)
Theorem operations_exclusive exp evs ops running name now :
  grm_run exp (∅, []) evs = Some (ops, running) →
  NoDup running ∧
  (name ∈ running → grm_Run ops now name = (ops, Some AlreadyExistsError)) ∧
  (exp = false → name ∉ running → (grm_Run ops now name).2 = None).
Proof.
  intros Hr. pose proof (grm_inv_run exp (∅, []) evs _ (grm_inv_init exp) Hr) as [H1 H2 H3]. simpl in *.
  split_and!; [done|..].
  - intros Hn. apply H2 in Hn. unfold IsOperationPending, grm_Run in *. destruct (ops !! name) as [op|]; [|done].
    by rewrite Hn.
  - intros He Hn. unfold grm_Run. destruct (ops !! name) as [op|] eqn:Ho; [|done].
    destruct Hn. apply H2. unfold IsOperationPending. rewrite Ho. by eapply H3.
Qed.

Module GrmWitness.

Definition evs : list grm_event :=
  [Started 0 "a"; Started 1 "b"; Started 2 "a"; Ended 3 "b" (Some "failed")].

Lemma operations_exclusive_witness :
  let ops := {["a" := mkOperation true zero_backoff]} in
  NoDup ["a"] ∧
  ("a" ∈ ["a"] → grm_Run ops 4 "a" = (ops, Some AlreadyExistsError)) ∧
  (false = false → "a" ∉ ["a"] → (grm_Run ops 4 "a").2 = None).
Proof. apply (operations_exclusive false evs {["a" := mkOperation true zero_backoff]} ["a"] "a" 4). reflexivity. Defined.

End GrmWitness.
