(* ===== verification/Provisioner.v ===== *)
(** * The provision controller

    The vendored [external-storage/lib/controller/controller.go]: which claims get a
    volume and which volumes are deleted, the two operations that do it on the
    provider's disks, and the controller as a machine of events, named goroutines and
    the electors of claims.  What an elector of a claim observes, and when it starts and
    stops to lead, is left to its environment. *)

From S2P Require Import Prelude GoStd Quantity Kube Cloud Provider Volume Interfaces Flags Options LeaderElection GoRoutineMap Controller.

Definition annClass : string := "volume.beta.kubernetes.io/storage-class".
Definition annDynamicallyProvisioned : string := "pv.kubernetes.io/provisioned-by".
Definition createProvisionedPVRetryCount : nat := 5.
Definition LeaderElectionRecordAnnotationKey : string := "control-plane.alpha.kubernetes.io/leader".
Definition VolumeReleased : string := "Released".
Definition VolumeFailed : string := "Failed".
Definition PersistentVolumeReclaimDelete : string := "Delete".

(** ** References *)

(** [gvk.GroupVersion().String()] of the kind of an object with the given
    [apiVersion], from [schema.FromAPIVersionAndKind]. *)
Definition group_version (apiVersion : string) : string :=
  match Split apiVersion slash with
  | [version] => version
  | [group; version] =>
      if bool_decide (group = "") then version else group +:+ "/" +:+ version
  | _ => ""
  end.

Section references.
(** The path of a URL ([net/url]). *)
Context (url_path : string → result string).

(** [v1.GetReference(api.Scheme, claim)]; the scheme knows the kind of claims. *)
Definition GetReference (claim : KClaim) : result ObjectReference :=
  let kind := if bool_decide (cl_Kind claim = "") then "PersistentVolumeClaim" else cl_Kind claim in
  let reference version :=
    Ok (mkReference kind version (cl_Namespace claim) (cl_Name claim) (cl_UID claim) (cl_ResourceVersion claim)) in
  let version := group_version (cl_APIVersion claim) in
  if bool_decide (version ≠ "") then reference version
  else if bool_decide (cl_SelfLink claim = "") then Err "selfLink was empty, can't make reference"
  else
    match url_path (cl_SelfLink claim) with
    | Err e => Err e
    | Ok path =>
        match Split path slash with
        | _ :: _ :: version :: _ => reference version
        | _ => Err (Sprintf "unexpected self link format: '%v'; got version '%v'" [AStr (cl_SelfLink claim); AStr version])
        end
    end.

End references.

(** ** Claims and volumes *)

(** [obj.Annotations[ann]]. *)
Definition get_annotation (annotations : option (gmap string string)) (ann : string) : option string :=
  default ∅ annotations !! ann.

(** [func setAnnotation(obj, ann, value)]. *)
Definition setAnnotation (annotations : option (gmap string string)) (ann value : string) :
    option (gmap string string) := Some (<[ann := value]> (default ∅ annotations)).

(** [func getClaimClass(claim) string]. *)
Definition getClaimClass (claim : KClaim) : string :=
  match get_annotation (cl_Annotations claim) annClass with
  | Some class => class
  | None => default "" (pvc_StorageClassName (cl_Spec claim))
  end.

(** [func claimToClaimKey(claim) string]. *)
Definition claimToClaimKey (claim : KClaim) : string := cl_Namespace claim +:+ "/" +:+ cl_Name claim.

(** [func (ctrl *ProvisionController) getProvisionedVolumeNameForClaim(claim) string]. *)
Definition getProvisionedVolumeNameForClaim (claim : KClaim) : string := "pvc-" +:+ cl_UID claim.

(** [func (ctrl *ProvisionController) removeRecord(claim)]. *)
Definition removeRecord (claim : KClaim) : KClaim :=
  mkKClaim (cl_Kind claim) (cl_APIVersion claim) (cl_SelfLink claim) (cl_Namespace claim) (cl_Name claim)
    (cl_UID claim) "" (setAnnotation (cl_Annotations claim) LeaderElectionRecordAnnotationKey "")
    (cl_VolumeName claim) (cl_Spec claim) (cl_Rest claim).

(** [func (ctrl *ProvisionController) isOnlyRecordUpdate(oldClaim, newClaim)]. *)
Definition isOnlyRecordUpdate (oldClaim newClaim : KClaim) : bool :=
  bool_decide (removeRecord oldClaim = removeRecord newClaim).

(** ** The controller *)

(** Where [lockProvisionClaimOperation] is: before its elector is made, in [acquire], and
    after it has begun to lead. *)
Inductive lock_phase : Type := LockNew | LockAcquiring | LockLeading.

(** An operation that was scheduled. *)
Inductive task : Type :=
| ProvisionTask (claim : KClaim)
| LockTask (claim : KClaim) (phase : lock_phase)
| DeleteTask (volume : KVolume).

(** What the controller changes: of the electors by the UID of their claim, what
    [IsLeader] answers; the failures in a row by UID; the map of operations. *)
Record prov_state : Type := mkProv {
  pr_electors : gmap string bool; pr_failed : gmap string Z; pr_ops : operations }.

Definition NewProv : prov_state := mkProv ∅ ∅ ∅.

Section provisioner.
Context {W : Type} `{!Handler req W}.
Context (url_path : string → result string) (ctrl : ProvisionController W).

(** [func (ctrl *ProvisionController) getStorageClass(name)].  Its errors are only
    logged: the quotes around names are left out. *)
Definition getStorageClass (name : string) : go W (result StorageClass) :=
  r ← call (Kube (GetClass name));
  match r with
  | None => mret (Err (Sprintf "StorageClass %v not found" [AStr name]))
  | Some storageClass =>
      if bool_decide (sto_Provisioner storageClass ≠ pvc_provisionerName ctrl)
      then mret (Err (Sprintf "Unknown provisioner %v requested in storage class %v"
                        [AStr (sto_Provisioner storageClass); AStr name]))
      else mret (Ok storageClass)
  end.

(** [func (ctrl *ProvisionController) shouldProvision(claim) bool]. *)
Definition shouldProvision (st : prov_state) (claim : KClaim) : go W bool :=
  if bool_decide (cl_VolumeName claim ≠ "") then mret false
  else if from_option (λ n, pvc_failedRetryThreshold ctrl <=? n) false (pr_failed st !! cl_UID claim) then mret false
  else
    match get_annotation (cl_Annotations claim) annDynamicallyProvisioned with
    | Some provisioner => mret (bool_decide (provisioner = pvc_provisionerName ctrl))
    | None =>
        r ← getStorageClass (getClaimClass claim);
        match r with Err _ => mret false | Ok _ => mret true end
    end.

(** [func (ctrl *ProvisionController) shouldDelete(volume) bool]. *)
Definition shouldDelete (volume : KVolume) : bool :=
  let phase := kv_Phase volume in
  (bool_decide (phase = VolumeReleased) || pvc_is1dot4 ctrl && bool_decide (phase = VolumeFailed))
  && bool_decide (pv_ReclaimPolicy (kv_PV volume) = PersistentVolumeReclaimDelete)
  && bool_decide (get_annotation (kv_Annotations volume) annDynamicallyProvisioned = Some (pvc_provisionerName ctrl)).

(** [func (ctrl *ProvisionController) updateStats(claim, err)]. *)
Definition updateStats (st : prov_state) (claim : KClaim) (err : option error) : prov_state :=
  let uid := cl_UID claim in
  let failed :=
    match err with
    | Some _ => <[uid := from_option (λ n, int64 (n + 1)) 1 (pr_failed st !! uid)]> (pr_failed st)
    | None => delete uid (pr_failed st)
    end in
  mkProv (pr_electors st) failed (pr_ops st).

(** The loop that saves a volume: [i] attempts are left, [err] is the error of the last
    one. *)
Fixpoint save_volume (i : nat) (volume : KVolume) (err : option api_error) : go W (option api_error) :=
  match i with
  | O => mret err
  | S i' =>
      r ← call (Kube (CreateVolume volume));
      match r with
      | None => mret None
      | Some e => _ ← call (Sleep 10); save_volume i' volume (Some e)
      end
  end.

(** The loop that deletes the storage of a volume that could not be saved. *)
Fixpoint clean_volume (i : nat) (pv : PersistentVolume) (err : option error) : go W (option error) :=
  match i with
  | O => mret err
  | S i' =>
      r ← v_Delete (pvc_provisioner ctrl) pv;
      match r with
      | None => mret None
      | Some e => _ ← call (Sleep 10); clean_volume i' pv (Some e)
      end
  end.

(** The volume that is saved for a claim. *)
Definition claimed_volume (pv : PersistentVolume) (claimClass : string) (claimRef : ObjectReference) : KVolume :=
  mkKVolume pv ""
    (setAnnotation (setAnnotation None annDynamicallyProvisioned (pvc_provisionerName ctrl)) annClass claimClass)
    (Some claimRef) "".

(** [func (ctrl *ProvisionController) provisionClaimOperation(claim) error]. *)
Definition provisionClaimOperation (claim : KClaim) : go W (option error) :=
  let claimClass := getClaimClass claim in
  let pvName := getProvisionedVolumeNameForClaim claim in
  r ← call (Kube (GetVolume pvName));
  match r with
  | inl _ => mret None
  | inr _ =>
      match GetReference url_path claim with
      | Err _ => mret None
      | Ok claimRef =>
          r ← getStorageClass claimClass;
          match r with
          | Err _ => mret None
          | Ok storageClass =>
              r ← v_Provision (pvc_provisioner ctrl)
                    (mkProvisionOptions PersistentVolumeReclaimDelete pvName (cl_Spec claim)
                       (sto_Parameters storageClass));
              match r with
              | Err e => mret (Some e)
              | Ok pv =>
                  err ← save_volume createProvisionedPVRetryCount (claimed_volume pv claimClass claimRef) None;
                  match err with
                  | Some _ => _ ← clean_volume createProvisionedPVRetryCount pv None; mret None
                  | None => mret None
                  end
              end
          end
      end
  end.

(** [func (ctrl *ProvisionController) deleteVolumeOperation(volume) error].  The
    provider has no [IgnoredError]. *)
Definition deleteVolumeOperation (volume : KVolume) : go W (option error) :=
  r ← call (Kube (GetVolume (pv_Name (kv_PV volume))));
  match r with
  | inr _ => mret None
  | inl newVolume =>
      if negb (shouldDelete newVolume) then mret None
      else
        err ← v_Delete (pvc_provisioner ctrl) (kv_PV volume);
        match err with
        | Some e => mret (Some e)
        | None => _ ← call (Kube (DeleteVolume (pv_Name (kv_PV volume)))); mret None
        end
  end.

(** ** Events *)

(** [func (ctrl *ProvisionController) scheduleOperation(operationName, operation)] at
    [now]: the task, when its goroutine is started. *)
Definition scheduleOperation (st : prov_state) (now : Z) (name : string) (t : task) :
    prov_state * option (string * task) :=
  match grm_Run (pr_ops st) now name with
  | (ops, None) => (mkProv (pr_electors st) (pr_failed st) ops, Some (name, t))
  | (ops, Some _) => (mkProv (pr_electors st) (pr_failed st) ops, None)
  end.

Definition provision_name (claim : KClaim) : string :=
  "provision-" +:+ claimToClaimKey claim +:+ "[" +:+ cl_UID claim +:+ "]".
Definition lock_name (claim : KClaim) : string := "lock-" +:+ provision_name claim.
Definition delete_name (volume : KVolume) : string :=
  "delete-" +:+ pv_Name (kv_PV volume) +:+ "[" +:+ kv_UID volume +:+ "]".

(** [func (ctrl *ProvisionController) addClaim(obj)]. *)
Definition addClaim (st : prov_state) (now : Z) (claim : KClaim) : go W (prov_state * option (string * task)) :=
  b ← shouldProvision st claim;
  if negb b then mret (st, None)
  else if default false (pr_electors st !! cl_UID claim)
  then mret (scheduleOperation st now (provision_name claim) (ProvisionTask claim))
  else mret (scheduleOperation st now (lock_name claim) (LockTask claim LockNew)).

(** [func (ctrl *ProvisionController) updateClaim(oldObj, newObj)]. *)
Definition updateClaim (st : prov_state) (now : Z) (oldClaim newClaim : KClaim) :
    go W (prov_state * option (string * task)) :=
  if bool_decide (oldClaim = newClaim) then addClaim st now newClaim
  else if isOnlyRecordUpdate oldClaim newClaim then mret (st, None)
  else addClaim st now newClaim.

(** [func (ctrl *ProvisionController) updateVolume(oldObj, newObj)]. *)
Definition updateVolume (st : prov_state) (now : Z) (volume : KVolume) : prov_state * option (string * task) :=
  if shouldDelete volume then scheduleOperation st now (delete_name volume) (DeleteTask volume) else (st, None).

(** ** Goroutines *)

(** The error with which a goroutine ends; a panic is recovered
    ([runtime.RecoverFromPanic]). *)
Definition ended {A} (o : outcome A) (err : A → option error) : option error :=
  match o with Ret a => err a | Panic msg => Some msg | Exit _ | OutOfFuel => None end.

(** The controller with the goroutines of its operations, and the callbacks of electors
    that began to lead, which have not run yet. *)
Record prov_system : Type := mkProvSystem {
  py_state : prov_state;
  py_running : list (string * task);
  py_callbacks : list KClaim;
  py_world : W }.

Definition with_scheduled (s : prov_system) (r : prov_state * option (string * task)) (w : W) : prov_system :=
  mkProvSystem r.1 (option_list r.2 ++ py_running s) (py_callbacks s) w.

(** The goroutine at [i] ends with [err]. *)
Definition finished (s : prov_system) (st : prov_state) (now : Z) (i : nat) (name : string)
    (err : option error) (w : W) : prov_system :=
  mkProvSystem
    (mkProv (pr_electors st) (pr_failed st)
       (operationComplete (pvc_exponentialBackOff ctrl) (pr_ops st) now name err))
    (delete i (py_running s)) (py_callbacks s) w.

Definition set_electors (st : prov_state) (m : gmap string bool) : prov_state := mkProv m (pr_failed st) (pr_ops st).

(** The lock operation at [i] moves on. *)
Definition in_phase (s : prov_system) (i : nat) (name : string) (claim : KClaim) (phase : lock_phase)
    (st : prov_state) (callbacks : list KClaim) : prov_system :=
  mkProvSystem st (<[i := (name, LockTask claim phase)]> (py_running s)) (callbacks ++ py_callbacks s) (py_world s).

(** The check of the durations of a claim's elector ([leaderelection.NewLeaderElector]
    of the library is that of Kubernetes). *)
Definition claim_lease : result unit :=
  NewLeaderElector (mkLeaderElection true (pvc_leaseDuration ctrl) (pvc_renewDeadline ctrl) (pvc_retryPeriod ctrl)).

(** A step: an event of the informers, a goroutine that runs its operation, or the
    elector of a claim. *)
Inductive prov_step (s : prov_system) : prov_system → Prop :=
| step_addClaim now claim r w' t :
    addClaim (py_state s) now claim (py_world s) = (Ret r, w', t) →
    prov_step s (with_scheduled s r w')
| step_updateClaim now oldClaim newClaim r w' t :
    updateClaim (py_state s) now oldClaim newClaim (py_world s) = (Ret r, w', t) →
    prov_step s (with_scheduled s r w')
| step_updateVolume now volume :
    prov_step s (with_scheduled s (updateVolume (py_state s) now volume) (py_world s))
(** [provisionClaimOperation], then [updateStats] unless it panicked. *)
| step_provision_task now i name claim o w' t :
    py_running s !! i = Some (name, ProvisionTask claim) →
    provisionClaimOperation claim (py_world s) = (o, w', t) →
    prov_step s (finished s (match o with Ret err => updateStats (py_state s) claim err | _ => py_state s end)
                   now i name (ended o id) w')
| step_delete_task now i name volume o w' t :
    py_running s !! i = Some (name, DeleteTask volume) →
    deleteVolumeOperation volume (py_world s) = (o, w', t) →
    prov_step s (finished s (py_state s) now i name (ended o id) w')
(** [lockProvisionClaimOperation]: the elector is made, or its durations are refused; it
    begins to lead; the operation ends and drops it.  [IsLeader] answers what the
    elector has observed. *)
| step_lock i name claim :
    py_running s !! i = Some (name, LockTask claim LockNew) → claim_lease = Ok tt →
    prov_step s (in_phase s i name claim LockAcquiring
                   (set_electors (py_state s) (<[cl_UID claim := false]> (pr_electors (py_state s)))) [])
| step_lock_refused now i name claim e :
    py_running s !! i = Some (name, LockTask claim LockNew) → claim_lease = Err e →
    prov_step s (finished s (py_state s) now i name None (py_world s))
| step_observe uid b :
    is_Some (pr_electors (py_state s) !! uid) →
    prov_step s (mkProvSystem (set_electors (py_state s) (<[uid := b]> (pr_electors (py_state s))))
                   (py_running s) (py_callbacks s) (py_world s))
| step_lead i name claim :
    py_running s !! i = Some (name, LockTask claim LockAcquiring) →
    prov_step s (in_phase s i name claim LockLeading (py_state s) [claim])
| step_callback now j claim :
    py_callbacks s !! j = Some claim →
    prov_step s
      (with_scheduled
         (mkProvSystem (py_state s) (py_running s) (delete j (py_callbacks s)) (py_world s))
         (scheduleOperation (py_state s) now (provision_name claim) (ProvisionTask claim)) (py_world s))
| step_unlock now i name claim phase :
    py_running s !! i = Some (name, LockTask claim phase) → phase ≠ LockNew →
    prov_step s (finished s (set_electors (py_state s) (delete (cl_UID claim) (pr_electors (py_state s))))
                   now i name None (py_world s)).

End provisioner.
