(* ===== verification/ControllerRun.v ===== *)
(** * Running the controller

    [func (c *Controller) Run() error] as a state machine: the goroutine of the
    leader elector ([leaderelection.RunOrDie], whose attempts to take and to renew
    the lease succeed or fail as the lock decides), the goroutine of the [run]
    callback, and the clock.  Without leader election [run] has a nil channel. *)

From S2P Require Import Prelude GoStd Cloud Provider Interfaces RouteController Flags Options LeaderElection Controller.

(** ** States *)

(** What [run] starts: the service controller with its workers, the route controller
    with its period, the provision controller, and the informers. *)
Inductive worker : Type :=
| ServiceRun (concurrentServiceSyncs : Z)
| RouteRun (period : Z)
| ProvisionRun
| InformersStart.

(** Where the elector is: in [acquire], before it starts [run], in [renew], before
    [close(stop)], before and in [OnStoppedLeading]; or there is no elector. *)
Inductive elector : Type :=
| NoElector | Acquire | StartLeading | Renew | CloseStop | StoppedLeading | Sleeping (until : Z).

(** Where [run] is: not started, at one of its four starts, or in its [select]. *)
Inductive runner : Type :=
| NotLeading | StartServices | StartRoutes | StartProvision | StartInformers | WaitDone.

Record run_state : Type := mkRun {
  r_elector : elector; r_runner : runner;
  r_stop : bool;                (** the stop channel is closed *)
  r_done : bool;                (** [c.done] *)
  r_workers : list worker;
  r_clock : Z;
  r_exit : option Z }.

Definition set_elector (s : run_state) (e : elector) : run_state :=
  mkRun e (r_runner s) (r_stop s) (r_done s) (r_workers s) (r_clock s) (r_exit s).
Definition start_worker (s : run_state) (w : worker) (r : runner) : run_state :=
  mkRun (r_elector s) r (r_stop s) (r_done s) (r_workers s ++ [w]) (r_clock s) (r_exit s).
Definition with_exit (s : run_state) (code : Z) : run_state :=
  mkRun (r_elector s) (r_runner s) (r_stop s) (r_done s) (r_workers s) (r_clock s) (Some code).

Section run.
Context {W : Type}.
Implicit Types (c : Controller W) (s : run_state).

(** The start of [Run]: a configuration the elector refuses is a panic. *)
Definition Run c : run_state :=
  let l := o_LeaderElection (c_Options c) in
  if negb (le_LeaderElect l) then mkRun NoElector StartServices false (c_done c) [] 0 None
  else match NewLeaderElector l with
       | Err _ => mkRun NoElector NotLeading false (c_done c) [] 0 (Some 2)
       | Ok _ => mkRun Acquire NotLeading false (c_done c) [] 0 None
       end.

(** The next action of the elector; [ok] says whether the attempt on the lease it is
    at succeeds.  [log.Fatalf] exits with 255. *)
Definition elector_step c (ok : bool) s : option run_state :=
  match r_elector s with
  | NoElector => None
  | Acquire => Some (if ok then set_elector s StartLeading else s)
  | StartLeading =>
      Some (mkRun Renew StartServices (r_stop s) (r_done s) (r_workers s) (r_clock s) (r_exit s))
  | Renew => Some (if ok then s else set_elector s CloseStop)
  | CloseStop =>
      Some (mkRun StoppedLeading (r_runner s) true (r_done s) (r_workers s) (r_clock s) (r_exit s))
  | StoppedLeading =>
      Some (mkRun (Sleeping (r_clock s + o_ShutdownGracePeriod (c_Options c))) (r_runner s) (r_stop s)
              true (r_workers s) (r_clock s) (r_exit s))
  | Sleeping until => if until <=? r_clock s then Some (with_exit s 255) else None
  end.

(** The next action of [run]; a nil channel is never closed. *)
Definition runner_step c s : option run_state :=
  match r_runner s with
  | NotLeading => None
  | StartServices => Some (start_worker s (ServiceRun (o_ConcurrentServiceSyncs (c_Options c))) StartRoutes)
  | StartRoutes => Some (start_worker s (RouteRun (o_RouteReconcilationPeriod (c_Options c))) StartProvision)
  | StartProvision => Some (start_worker s ProvisionRun StartInformers)
  | StartInformers => Some (start_worker s InformersStart WaitDone)
  | WaitDone => if r_stop s then Some (with_exit s 255) else None
  end.

(** [c.pvc.Run] of a nil controller dereferences it. *)
Definition provision_step c s : option run_state :=
  match c_pvc c with
  | None => if existsb (λ w, match w with ProvisionRun => true | _ => false end) (r_workers s)
            then Some (with_exit s 2) else None
  | Some _ => None
  end.

Inductive run_step c s : run_state → Prop :=
| step_elector ok s' : r_exit s = None → elector_step c ok s = Some s' → run_step c s s'
| step_runner s' : r_exit s = None → runner_step c s = Some s' → run_step c s s'
| step_provision s' : r_exit s = None → provision_step c s = Some s' → run_step c s s'
| step_clock d : r_exit s = None → 0 < d →
    run_step c s (mkRun (r_elector s) (r_runner s) (r_stop s) (r_done s) (r_workers s) (r_clock s + d) None).

End run.
