(* ===== verification/SLB.v ===== *)
(** * What the load balancer service promises

    The state of an SLB account as the provider can observe it, and the laws of
    an account that answers every well-formed request ([SLB]): what each request
    of [loadbalancer.go] reads or changes.  The client's theorems in
    [LBSync.v] are proved against this interface; [SimCloud.v] has an
    implementation. *)

From S2P Require Import Prelude GoStd Cloud.

(** A listener: protocol (in any letter case), backend port, status. *)
Record Listener : Type := mkListener { l_proto : string; l_backend : Z; l_status : string }.

(** A load balancer: its listeners by port (the service identifies a listener of
    a load balancer by its port) and its backend servers with their weights. *)
Record LBState : Type := mkLBState {
  s_name : string; s_address : string;
  s_listeners : gmap Z Listener; s_servers : gmap string Z }.

Definition set_listeners (st : LBState) (ls : gmap Z Listener) : LBState :=
  mkLBState (s_name st) (s_address st) ls (s_servers st).
Definition set_servers (st : LBState) (ss : gmap string Z) : LBState :=
  mkLBState (s_name st) (s_address st) (s_listeners st) ss.
Definition set_running (l : Listener) : Listener := mkListener (l_proto l) (l_backend l) Running.

(** [lb] is a faithful description of the state: every listener and every server
    exactly once. *)
Record describes (id : string) (st : LBState) (lb : LoadBalancerType) : Prop := {
  desc_id : lb_LoadBalancerId lb = id;
  desc_name : lb_LoadBalancerName lb = s_name st;
  desc_address : lb_Address lb = s_address st;
  desc_ports : NoDup (lp_ListenerPort <$> lb_ListenerPortAndProtocol lb);
  desc_listener : ∀ x, x ∈ lb_ListenerPortAndProtocol lb →
    ∃ l, s_listeners st !! lp_ListenerPort x = Some l ∧ ToLower (lp_ListenerProtocol x) = ToLower (l_proto l);
  desc_all_listeners : ∀ port, is_Some (s_listeners st !! port) →
    port ∈ lp_ListenerPort <$> lb_ListenerPortAndProtocol lb;
  desc_servers : NoDup (bs_ServerId <$> lb_BackendServer lb);
  desc_all_servers : ∀ s, s ∈ bs_ServerId <$> lb_BackendServer lb ↔ is_Some (s_servers st !! s)
}.

(** [lbs] names every load balancer of the account, each of them once. *)
Record lists (m : gmap string LBState) (lbs : list LoadBalancerType) : Prop := {
  lists_ids : NoDup (lb_LoadBalancerId <$> lbs);
  lists_sound : ∀ lb, lb ∈ lbs →
    ∃ st, m !! lb_LoadBalancerId lb = Some st ∧ lb_LoadBalancerName lb = s_name st;
  lists_complete : ∀ id, is_Some (m !! id) → id ∈ lb_LoadBalancerId <$> lbs
}.

(** Servers added with their weights, and servers removed. *)
Definition add_servers (servers : list BackendServerType) (m : gmap string Z) : gmap string Z :=
  foldr (λ s m, <[bs_ServerId s := bs_Weight s]> m) m servers.
Definition remove_servers (servers : list string) (m : gmap string Z) : gmap string Z :=
  foldr (λ s m, delete s m) m servers.

(** A request that is answered without error and leaves the account in state [m]. *)
Definition accepts {W R} `{Handler req W} (slb : W → gmap string LBState)
    (e : req (result R)) (w : W) (P : R → Prop) (m : gmap string LBState) : Prop :=
  ∃ r w', handle e w = (Ok r, w') ∧ P r ∧ slb w' = m.

(** The requests to the load balancer service. *)
Definition slb_request {R} (e : req R) : bool :=
  match e with
  | DescribeLoadBalancers _ | DescribeLoadBalancerAttribute _
  | CreateLoadBalancer _ | DeleteLoadBalancer _
  | DescribeLoadBalancerTCPListenerAttribute _ _ | DescribeLoadBalancerUDPListenerAttribute _ _
  | CreateLoadBalancerTCPListener _ | CreateLoadBalancerUDPListener _
  | DeleteLoadBalancerListener _ _ | StartLoadBalancerListener _ _
  | AddBackendServers _ _ | RemoveBackendServers _ _ => true
  | _ => false
  end.

(** The laws of an SLB account (of one region) in which well-formed requests
    succeed and nobody else changes the account meanwhile. *)
Class SLB (W : Type) `{Handler req W} : Type := {
  slb : W → gmap string LBState;
  slb_list : ∀ w region,
    accepts slb (DescribeLoadBalancers region) w (lists (slb w)) (slb w);
  slb_describe : ∀ w id st, slb w !! id = Some st →
    accepts slb (DescribeLoadBalancerAttribute id) w (describes id st) (slb w);
  slb_tcp : ∀ w id st port l, slb w !! id = Some st → s_listeners st !! port = Some l →
    ToLower (l_proto l) = "tcp" →
    accepts slb (DescribeLoadBalancerTCPListenerAttribute id port) w
      (λ a, a = mkListenerAttribute (l_backend l) (l_status l)) (slb w);
  slb_udp : ∀ w id st port l, slb w !! id = Some st → s_listeners st !! port = Some l →
    ToLower (l_proto l) = "udp" →
    accepts slb (DescribeLoadBalancerUDPListenerAttribute id port) w
      (λ a, a = mkListenerAttribute (l_backend l) (l_status l)) (slb w);
  slb_start : ∀ w id st port l, slb w !! id = Some st → s_listeners st !! port = Some l →
    accepts slb (StartLoadBalancerListener id port) w (λ _, True)
      (<[id := set_listeners st (<[port := set_running l]> (s_listeners st))]> (slb w));
  slb_delete_listener : ∀ w id st port l, slb w !! id = Some st →
    s_listeners st !! port = Some l →
    accepts slb (DeleteLoadBalancerListener id port) w (λ _, True)
      (<[id := set_listeners st (delete port (s_listeners st))]> (slb w));
  slb_create_tcp : ∀ w st args, slb w !! la_LoadBalancerId args = Some st →
    s_listeners st !! la_ListenerPort args = None →
    accepts slb (CreateLoadBalancerTCPListener args) w (λ _, True)
      (<[la_LoadBalancerId args := set_listeners st (<[la_ListenerPort args :=
           mkListener "tcp" (la_BackendServerPort args) Stopped]> (s_listeners st))]> (slb w));
  slb_create_udp : ∀ w st args, slb w !! la_LoadBalancerId args = Some st →
    s_listeners st !! la_ListenerPort args = None →
    accepts slb (CreateLoadBalancerUDPListener args) w (λ _, True)
      (<[la_LoadBalancerId args := set_listeners st (<[la_ListenerPort args :=
           mkListener "udp" (la_BackendServerPort args) Stopped]> (s_listeners st))]> (slb w));
  slb_add : ∀ w id st servers, slb w !! id = Some st →
    (∀ s, s ∈ bs_ServerId <$> servers → s_servers st !! s = None) →
    accepts slb (AddBackendServers id servers) w (λ _, True)
      (<[id := set_servers st (add_servers servers (s_servers st))]> (slb w));
  slb_remove : ∀ w id st servers, slb w !! id = Some st →
    accepts slb (RemoveBackendServers id servers) w (λ _, True)
      (<[id := set_servers st (remove_servers servers (s_servers st))]> (slb w));
  slb_delete : ∀ w id st, slb w !! id = Some st →
    accepts slb (DeleteLoadBalancer id) w (λ _, True) (delete id (slb w));
  slb_create : ∀ w args, ∃ id address w',
    handle (CreateLoadBalancer args) w = (Ok id, w') ∧ slb w !! id = None ∧
    slb w' = <[id := mkLBState (cl_LoadBalancerName args) address ∅ ∅]> (slb w);
  slb_sleep : ∀ w n, slb (handle (Sleep n) w).2 = slb w;
  slb_random : ∀ w, slb (handle CreateRandomString w).2 = slb w;
  slb_apart : ∀ R (e : req R) w args, slb_request e = true →
    (handle (DescribeInstances args) (handle e w).2).1 = (handle (DescribeInstances args) w).1;
  slb_instances : ∀ w args, slb (handle (DescribeInstances args) w).2 = slb w
}.

(** Run a request the account accepts. *)
Lemma wp_accepts {W R} `{Handler req W} (view : W → gmap string LBState) (e : req (result R)) w P m Q :
  accepts view e w P m →
  (∀ r w', P r → view w' = m → Q (Ret (Ok r)) w' [Ev e (Ok r)]) →
  wp (call e) Q w.
Proof.
  intros (r & w' & Hh & HP & Hm) HQ. rewrite wp_call, Hh. by apply HQ.
Qed.

(** Sequencing after a [result]: only the success continues. *)
Lemma wp_bind_ok {E W A B} (m : M E W (result A)) (k : A → M E W (result B)) Q w :
  wp m (returns (λ r w1 t1, match r with
    | Ok a => wp (k a) (λ o w2 t2, Q o w2 (t1 ++ t2)) w1
    | Err e => Q (Ret (Err e)) w1 (t1 ++ [])
    end)) w → wp (bind_ok m k) Q w.
Proof.
  intros Hm. unfold bind_ok. rewrite wp_bind. eapply wp_mono; [exact Hm|].
  intros [[a|e]| | |] w1 t1 HQ; simpl in HQ; done.
Qed.

Lemma lookup_add_servers servers m weight s :
  (∀ x, x ∈ servers → bs_Weight x = weight) →
  add_servers servers m !! s =
    if bool_decide (s ∈ bs_ServerId <$> servers) then Some weight else m !! s.
Proof.
  induction servers as [|x servers IH]; intros Hw; [done|].
  rewrite fmap_cons, if_elem_cons. simpl.
  rewrite lookup_insert, IH by (intros; apply Hw; by right).
  by rewrite (Hw x) by left.
Qed.

Lemma lookup_remove_servers servers m s :
  remove_servers servers m !! s = if bool_decide (s ∈ servers) then None else m !! s.
Proof.
  induction servers as [|x servers IH]; [done|].
  rewrite if_elem_cons. simpl. by rewrite lookup_delete, IH.
Qed.
