(* ===== verification/ECS.v ===== *)
(** * What the disk service promises

    The state of an ECS account's disks as the provider can observe it, and the
    laws of an account that answers every well-formed request ([ECS]).  Attaching
    and detaching take effect after a while: a disk has a [lag], the number of
    descriptions that still show it in transit.  The client's theorems in
    [VolumeSpec.v] are proved against this interface; [SimCloud.v] has an
    implementation. *)

From S2P Require Import Prelude GoStd Cloud.

(** A disk: who holds it and under which device name, [None] for a free disk, and
    for how many more descriptions it is still on its way there. *)
Record disk_state : Type := mkDisk { holder : option (string * string); lag : nat }.

Definition free_disk : disk_state := mkDisk None 0.
Definition held (i dev : string) : disk_state := mkDisk (Some (i, dev)) 0.
Definition settle (s : disk_state) : disk_state := mkDisk (holder s) (pred (lag s)).

(** The description of a disk. *)
Definition disk_item (id : string) (s : disk_state) : DiskItemType :=
  match holder s, lag s with
  | Some (i, dev), O => mkDiskItem id DiskStatusInUse i dev
  | Some (i, dev), S _ => mkDiskItem id DiskStatusAttaching i ""
  | None, O => mkDiskItem id DiskStatusAvailable "" ""
  | None, S _ => mkDiskItem id DiskStatusDetaching "" ""
  end.

(** A disk settles within the 60 seconds [WaitForDisk] polls by default, every 5
    seconds: 12 descriptions, the last of which shows the disk settled. *)
Definition max_lag : nat := 11.

(** The laws of a disk service (of one region) in which well-formed requests
    succeed and nobody else changes the account meanwhile. *)
Class ECS (W : Type) `{Handler req W} : Type := {
  ecs : W → gmap string disk_state;
  ecs_describe : ∀ w args id s, ecs w !! id = Some s → dd_DiskIds args = [id] →
    ∃ rest pr w', handle (DescribeDisks args) w = (Ok (disk_item id s :: rest, pr), w') ∧
      ecs w' = settle <$> ecs w;
  ecs_attach : ∀ w args, ecs w !! ad_DiskId args = Some free_disk →
    ∃ dev n w', handle (AttachDisk args) w = (Ok tt, w') ∧ (n ≤ max_lag)%nat ∧
      ecs w' = <[ad_DiskId args := mkDisk (Some (ad_InstanceId args, dev)) n]> (ecs w);
  ecs_detach : ∀ w i dev id, ecs w !! id = Some (held i dev) →
    ∃ n w', handle (DetachDisk i id) w = (Ok tt, w') ∧ (n ≤ max_lag)%nat ∧
      ecs w' = <[id := mkDisk None n]> (ecs w);
  ecs_create : ∀ w args, ∃ id w', handle (CreateDisk args) w = (Ok id, w') ∧
    id ≠ "" ∧ ecs w !! id = None ∧ ecs w' = <[id := free_disk]> (ecs w);
  ecs_delete : ∀ w id, ecs w !! id = Some free_disk →
    ∃ w', handle (DeleteDisk id) w = (Ok tt, w') ∧ ecs w' = delete id (ecs w);
  ecs_instances : ∀ w args, ecs (handle (DescribeInstances args) w).2 = ecs w;
  ecs_sleep : ∀ w n, ecs (handle (Sleep n) w).2 = ecs w
}.

(** Settled disks stay as they are while time passes. *)
Lemma lookup_settle_iter n (m : gmap string disk_state) id s :
  m !! id = Some s → Nat.iter n (fmap settle) m !! id = Some (mkDisk (holder s) (lag s - n)).
Proof.
  intros Hm. induction n as [|n IH]; simpl.
  - rewrite Hm. f_equal. destruct s; simpl. f_equal. lia.
  - rewrite lookup_fmap, IH. simpl. unfold settle. simpl. do 2 f_equal. lia.
Qed.

Lemma lookup_settle_iter_None n (m : gmap string disk_state) id :
  m !! id = None → Nat.iter n (fmap settle) m !! id = None.
Proof. intros Hm. induction n as [|n IH]; simpl; [done|]. by rewrite lookup_fmap, IH. Qed.

(** The disks of an account other than [id] hold as before, up to their lag. *)
Definition same_holders (id : string) (m m' : gmap string disk_state) : Prop :=
  ∀ id', id' ≠ id → holder <$> m' !! id' = holder <$> m !! id'.

#[export] Instance same_holders_preorder id : PreOrder (same_holders id).
Proof.
  split; [by intros m id' _|]. intros m1 m2 m3 H12 H23 id' Hid. by rewrite H23, H12.
Qed.

Lemma same_holders_insert id s m : same_holders id m (<[id := s]> m).
Proof. intros id' Hid. by rewrite lookup_insert_ne by done. Qed.

Lemma same_holders_settle id m : same_holders id m (settle <$> m).
Proof. intros id' Hid. rewrite lookup_fmap. by destruct (m !! id'). Qed.

Lemma same_holders_settle_iter id n m : same_holders id m (Nat.iter n (fmap settle) m).
Proof.
  induction n as [|n IH]; simpl; [done|]. etrans; [exact IH|apply same_holders_settle].
Qed.
