(* ===== verification/SimCloud.v ===== *)
(** * An in-memory cloud

    A handler of the program's requests that keeps the account in finite maps.
    It implements the interfaces the theorems assume of the services ([SLB] here,
    [ECS] and [VPC] in the files that state them), so that those
    hypotheses can hold, and it runs the examples. *)

From S2P Require Import Prelude GoStd Kube Cloud SLB ECS.

Record cloud : Type := mkCloud {
  c_disks : gmap string disk_state;
  c_instances : list InstanceAttributesType;
  c_routes : gmap string (list RouteEntrySetType);
  c_lbs : gmap string LBState;
  c_vswitches : list VSwitchSetType;
  c_lag : nat }.

Definition set_disks (w : cloud) (d : gmap string disk_state) : cloud :=
  mkCloud d (c_instances w) (c_routes w) (c_lbs w) (c_vswitches w) (c_lag w).
Definition set_routes (w : cloud) (r : gmap string (list RouteEntrySetType)) : cloud :=
  mkCloud (c_disks w) (c_instances w) r (c_lbs w) (c_vswitches w) (c_lag w).
Definition set_lbs (w : cloud) (l : gmap string LBState) : cloud :=
  mkCloud (c_disks w) (c_instances w) (c_routes w) l (c_vswitches w) (c_lag w).
Definition one_page {A} (l : list A) : list A * PaginationResult :=
  (l, mkPaginationResult (Z.of_nat (length l)) 1 (Z.of_nat (length l))).

(** The full description of a load balancer. *)
Definition describe_lb (id : string) (st : LBState) : LoadBalancerType :=
  mkLoadBalancer id (s_name st) (s_address st)
    (map (λ kv : Z * Listener, mkListenerPP kv.1 (l_proto kv.2)) (map_to_list (s_listeners st)))
    (map (λ kv : string * Z, mkBackendServer kv.1 kv.2) (map_to_list (s_servers st))).

(** Change the load balancer [id], if it exists. *)
Definition on_lb {R} (w : cloud) (id : string) (f : LBState → result R * LBState) : result R * cloud :=
  match c_lbs w !! id with
  | None => (Err "InvalidLoadBalancerId.NotFound", w)
  | Some st => let '(r, st') := f st in (r, set_lbs w (<[id := st']> (c_lbs w)))
  end.

(** Change the listener [port] of the load balancer [id], if both exist. *)
Definition on_listener {R} (w : cloud) (id : string) (port : Z)
    (f : Listener → result R * option Listener) : result R * cloud :=
  on_lb w id (λ st,
    match s_listeners st !! port with
    | None => (Err "InvalidParameter", st)
    | Some l =>
        let '(r, ol) := f l in
        (r, set_listeners st (partial_alter (λ _, ol) port (s_listeners st)))
    end).

Definition read_listener (w : cloud) (id : string) (port : Z) (proto : string) :
    result ListenerAttribute * cloud :=
  on_listener w id port (λ l,
    (if bool_decide (ToLower (l_proto l) = proto)
     then Ok (mkListenerAttribute (l_backend l) (l_status l))
     else Err "InvalidParameter", Some l)).

Definition create_in (w : cloud) (proto : string) (a : ListenerArgs) : result unit * cloud :=
  on_lb w (la_LoadBalancerId a) (λ st,
    match s_listeners st !! la_ListenerPort a with
    | Some _ => (Err "ListenerAlreadyExists", st)
    | None => (Ok tt, set_listeners st (<[la_ListenerPort a :=
                mkListener proto (la_BackendServerPort a) Stopped]> (s_listeners st)))
    end).

(** Attach and detach take effect after [c_lag] descriptions, [max_lag] at most. *)
Definition attach_in (w : cloud) (a : AttachDiskArgs) : result unit * cloud :=
  match c_disks w !! ad_DiskId a with
  | Some (mkDisk None O) =>
      (Ok tt, set_disks w (<[ad_DiskId a :=
         mkDisk (Some (ad_InstanceId a, "/dev/xvdb")) (c_lag w `min` max_lag)]> (c_disks w)))
  | Some _ => (Err "IncorrectDiskStatus", w)
  | None => (Err "InvalidDiskId.NotFound", w)
  end.

Definition detach_in (w : cloud) (instanceId diskId : string) : result unit * cloud :=
  match c_disks w !! diskId with
  | Some (mkDisk (Some (i, _)) O) =>
      if bool_decide (i = instanceId) then
        (Ok tt, set_disks w (<[diskId := mkDisk None (c_lag w `min` max_lag)]> (c_disks w)))
      else (Err "IncorrectDiskStatus", w)
  | Some _ => (Err "IncorrectDiskStatus", w)
  | None => (Err "InvalidDiskId.NotFound", w)
  end.

Definition describe_disks_in (w : cloud) (a : DescribeDisksArgs) : list DiskItemType :=
  match dd_DiskIds a with
  | [] => base.filter (λ d, di_InstanceId d = dd_InstanceId a)
            (map (λ kv : string * disk_state, disk_item kv.1 kv.2) (map_to_list (c_disks w)))
  | ids => omap (λ id, disk_item id <$> c_disks w !! id) ids
  end.

(** The name of a new resource: longer than every name in use. *)
Fixpoint long_name (n : nat) : string :=
  match n with O => "r-" | S n' => String "0" (long_name n') end.
Definition fresh_name {A} (m : gmap string A) : string :=
  long_name (max_list (String.length <$> (map_to_list m).*1)).

Lemma long_name_length n : String.length (long_name n) = (n + 2)%nat.
Proof. induction n as [|n IH]; simpl; lia. Qed.

Lemma fresh_name_fresh {A} (m : gmap string A) : m !! fresh_name m = None.
Proof.
  destruct (m !! fresh_name m) as [s|] eqn:Hm; [|done].
  apply elem_of_map_to_list, (list_elem_of_fmap_2 fst), (list_elem_of_fmap_2 String.length) in Hm.
  apply max_list_elem_of_le in Hm. simpl in Hm. unfold fresh_name in Hm at 1.
  rewrite long_name_length in Hm. lia.
Qed.

Lemma fresh_name_not_empty {A} (m : gmap string A) : fresh_name m ≠ "".
Proof. unfold fresh_name. by destruct (max_list _). Qed.

(** A Kubernetes API server with the given nodes, reached through a kubeconfig. *)
Definition sim_kube (nodes : list KNode) {R} (k : kreq R) : R :=
  match k in kreq R return R with
  | InClusterConfig => Err "unable to load in-cluster configuration"
  | BuildConfigFromFlags _ path => Ok path
  | ClientConfig o => Ok (ov_Server o)
  | KubernetesForConfig _ => Ok tt
  | ClientKubernetesForConfig _ => Ok tt
  | ServerVersion => Ok "v1.6.0"
  | ListNodes => Ok nodes
  | SetNodeCondition _ _ => None
  | GetService _ name => inr (NotFoundError name)
  | UpdateServiceStatus service => Some (NotFoundError (ks_Name service))
  | GetClass _ => None
  | GetVolume name => inr (NotFoundError name)
  | CreateVolume _ => None
  | DeleteVolume name => Some (NotFoundError name)
  end.

#[export] Instance sim_handler : Handler req cloud := λ R e w,
  match e in req R return R * cloud with
  | DescribeDisks a => (Ok (one_page (describe_disks_in w a)), set_disks w (settle <$> c_disks w))
  | CreateDisk a =>
      let id := fresh_name (c_disks w) in
      (Ok id, set_disks w (<[id := free_disk]> (c_disks w)))
  | DeleteDisk id =>
      match c_disks w !! id with
      | Some (mkDisk None O) => (Ok tt, set_disks w (delete id (c_disks w)))
      | Some _ => (Err "IncorrectDiskStatus", w)
      | None => (Err "InvalidDiskId.NotFound", w)
      end
  | AttachDisk a => attach_in w a
  | DetachDisk i d => detach_in w i d
  | DescribeInstances _ => (Ok (one_page (c_instances w)), w)
  | DescribeRouteTables a =>
      (Ok (one_page [mkRouteTable (drt_VRouterId a) (drt_RouteTableId a)
                       (default [] (c_routes w !! drt_RouteTableId a))]), w)
  | CreateRouteEntry a =>
      let es := default [] (c_routes w !! rea_RouteTableId a) in
      if existsb (λ r, bool_decide (re_DestinationCidrBlock r = rea_DestinationCidrBlock a)) es
      then (Err "InvalidCIDRBlock.Duplicate", w)
      else (Ok tt, set_routes w (<[rea_RouteTableId a :=
              es ++ [mkRouteEntry (rea_DestinationCidrBlock a) NextHopIntance (rea_NextHopId a)]]>
              (c_routes w)))
  | DeleteRouteEntry a =>
      let es := default [] (c_routes w !! rea_RouteTableId a) in
      (Ok tt, set_routes w (<[rea_RouteTableId a :=
         base.filter (λ r, ¬ (re_DestinationCidrBlock r = rea_DestinationCidrBlock a ∧
                              re_InstanceId r = rea_NextHopId a)) es]> (c_routes w)))
  | DescribeVSwitches _ => (Ok (one_page (c_vswitches w)), w)
  | DescribeLoadBalancers _ =>
      (Ok (map (λ kv : string * LBState, describe_lb kv.1 kv.2) (map_to_list (c_lbs w))), w)
  | DescribeLoadBalancerAttribute id =>
      (match c_lbs w !! id with
       | Some st => Ok (describe_lb id st)
       | None => Err "InvalidLoadBalancerId.NotFound"
       end, w)
  | CreateLoadBalancer a =>
      let id := fresh_name (c_lbs w) in
      (Ok id, (set_lbs w (<[id := mkLBState (cl_LoadBalancerName a) "10.0.0.1" ∅ ∅]> (c_lbs w))))
  | DeleteLoadBalancer id =>
      match c_lbs w !! id with
      | Some _ => (Ok tt, set_lbs w (delete id (c_lbs w)))
      | None => (Err "InvalidLoadBalancerId.NotFound", w)
      end
  | DescribeLoadBalancerTCPListenerAttribute id port => read_listener w id port "tcp"
  | DescribeLoadBalancerUDPListenerAttribute id port => read_listener w id port "udp"
  | CreateLoadBalancerTCPListener a => create_in w "tcp" a
  | CreateLoadBalancerUDPListener a => create_in w "udp" a
  | DeleteLoadBalancerListener id port => on_listener w id port (λ _, (Ok tt, None))
  | StartLoadBalancerListener id port => on_listener w id port (λ l, (Ok tt, Some (set_running l)))
  | AddBackendServers id ss =>
      on_lb w id (λ st, (Ok tt, set_servers st (add_servers ss (s_servers st))))
  | RemoveBackendServers id ss =>
      on_lb w id (λ st, (Ok tt, set_servers st (remove_servers ss (s_servers st))))
  | MetaRegion => (Ok "cn-hangzhou", w)
  | MetaInstanceID => (Ok "i-1", w)
  | MetaVpcID => (Ok "vpc-1", w)
  | MetaVswitchID => (Ok "vsw-1", w)
  | StatIsNotExist _ => (true, w)
  | MkdirAll _ _ => (Ok tt, w)
  | FormatAndMount _ _ _ _ => (Ok tt, w)
  | Unmount _ => (Ok tt, w)
  | Sleep _ => (tt, w)
  | CreateRandomString => ("token", w)
  | Print _ => (tt, w)
  | Kube k => (sim_kube [] k, w)
  end.

(** ** The load balancer laws *)

Lemma describe_lb_ok id st : describes id st (describe_lb id st).
Proof.
  unfold describe_lb. split; simpl; try done.
  - rewrite <- list_fmap_compose. apply NoDup_fst_map_to_list.
  - intros x ([port l] & -> & Hl%elem_of_map_to_list)%list_elem_of_fmap. by exists l.
  - intros port [l Hl]. rewrite <- list_fmap_compose. apply list_elem_of_fmap.
    exists (port, l). split; [done|]. by apply elem_of_map_to_list.
  - rewrite <- list_fmap_compose. apply NoDup_fst_map_to_list.
  - intros s. rewrite <- list_fmap_compose, list_elem_of_fmap. split.
    + intros ([k b] & -> & Hk%elem_of_map_to_list). eauto.
    + intros [b Hb]. exists (s, b). split; [done|]. by apply elem_of_map_to_list.
Qed.

Lemma sim_lists w :
  lists (c_lbs w) (map (λ kv : string * LBState, describe_lb kv.1 kv.2) (map_to_list (c_lbs w))).
Proof.
  split.
  - rewrite <- list_fmap_compose. apply NoDup_fst_map_to_list.
  - intros lb ([id st] & -> & Hid%elem_of_map_to_list)%list_elem_of_fmap. by exists st.
  - intros id [st Hst]. rewrite <- list_fmap_compose. apply list_elem_of_fmap.
    exists (id, st). split; [done|]. by apply elem_of_map_to_list.
Qed.

Lemma on_lb_ok {R} w id st (f : LBState → result R * LBState) :
  c_lbs w !! id = Some st →
  on_lb w id f = ((f st).1, set_lbs w (<[id := (f st).2]> (c_lbs w))).
Proof. intros Hst. unfold on_lb. rewrite Hst. by destruct (f st). Qed.

Lemma on_listener_ok {R} w id st port l (f : Listener → result R * option Listener) :
  c_lbs w !! id = Some st → s_listeners st !! port = Some l →
  on_listener w id port f = ((f l).1, set_lbs w (<[id :=
    set_listeners st (partial_alter (λ _, (f l).2) port (s_listeners st))]> (c_lbs w))).
Proof. intros Hst Hl. unfold on_listener. erewrite on_lb_ok by done. rewrite Hl. by destruct (f l). Qed.

Lemma read_listener_ok w id st port l proto :
  c_lbs w !! id = Some st → s_listeners st !! port = Some l → ToLower (l_proto l) = proto →
  ∃ w', read_listener w id port proto = (Ok (mkListenerAttribute (l_backend l) (l_status l)), w') ∧
    c_lbs w' = c_lbs w.
Proof.
  intros Hst Hl Hp. unfold read_listener. erewrite on_listener_ok by done. simpl.
  rewrite bool_decide_true by done. eexists. split; [done|]. simpl.
  apply insert_id. rewrite Hst. f_equal.
  change (partial_alter (λ _ : option Listener, Some l) port ?m) with (<[port := l]> m).
  rewrite insert_id by done. by destruct st.
Qed.

Lemma create_in_ok w st a proto :
  c_lbs w !! la_LoadBalancerId a = Some st → s_listeners st !! la_ListenerPort a = None →
  create_in w proto a = (Ok tt, set_lbs w (<[la_LoadBalancerId a := set_listeners st
    (<[la_ListenerPort a := mkListener proto (la_BackendServerPort a) Stopped]>
       (s_listeners st))]> (c_lbs w))).
Proof. intros Hst Hl. unfold create_in. erewrite on_lb_ok by done. by rewrite Hl. Qed.

(** Load balancer requests leave the instances alone. *)
Lemma on_lb_instances {R} w id (f : LBState → result R * LBState) :
  c_instances (on_lb w id f).2 = c_instances w.
Proof. unfold on_lb. destruct (c_lbs w !! id) as [st|]; [|done]. by destruct (f st). Qed.

Lemma sim_apart R (e : req R) (w : cloud) args :
  slb_request e = true →
  (handle (DescribeInstances args) (handle e w).2).1 = (handle (DescribeInstances args) w).1.
Proof.
  intros He. assert (c_instances (handle e w).2 = c_instances w) as Hc.
  { destruct e; try done; unfold handle; simpl;
      rewrite ?on_lb_instances; try done; [by destruct (_ !! _)|..]; apply on_lb_instances. }
  unfold handle in *; simpl in *. by rewrite Hc.
Qed.

#[export, refine] Instance sim_slb : SLB cloud := {| slb := c_lbs |}.
Proof.
  - intros w region. exists (map (λ kv : string * LBState, describe_lb kv.1 kv.2) (map_to_list (c_lbs w))), w.
    split; [done|]. split; [apply sim_lists|done].
  - intros w id st Hst. exists (describe_lb id st), w. split; [|split; [apply describe_lb_ok|done]].
    unfold handle, sim_handler. by rewrite Hst.
  - intros w id st port l Hst Hl Hp. destruct (read_listener_ok w id st port l "tcp") as (w' & ? & ?); [done..|].
    eexists _, w'. by split_and!.
  - intros w id st port l Hst Hl Hp. destruct (read_listener_ok w id st port l "udp") as (w' & ? & ?); [done..|].
    eexists _, w'. by split_and!.
  - intros w id st port l Hst Hl. eexists _, _.
    split; [unfold handle, sim_handler; by erewrite on_listener_ok|done].
  - intros w id st port l Hst Hl. eexists _, _.
    split; [unfold handle, sim_handler; by erewrite on_listener_ok|done].
  - intros w st a Hst Hl. eexists _, _.
    split; [unfold handle, sim_handler; by erewrite create_in_ok|done].
  - intros w st a Hst Hl. eexists _, _.
    split; [unfold handle, sim_handler; by erewrite create_in_ok|done].
  - intros w id st ss Hst _. eexists _, _.
    split; [unfold handle, sim_handler; by erewrite on_lb_ok|done].
  - intros w id st ss Hst. eexists _, _.
    split; [unfold handle, sim_handler; by erewrite on_lb_ok|done].
  - intros w id st Hst. eexists _, _.
    split; [unfold handle, sim_handler; by rewrite Hst|done].
  - intros w args. eexists _, _, _. split; [done|]. split; [apply fresh_name_fresh|done].
  - done.
  - done.
  - apply sim_apart.
  - done.
Defined.

(** ** The disk laws *)

#[export, refine] Instance sim_ecs : ECS cloud := {| ecs := c_disks |}.
Proof.
  - intros w args id s Hs Hids. eexists _, _, _. split.
    + unfold handle, sim_handler, describe_disks_in, one_page. rewrite Hids. simpl. rewrite Hs. reflexivity.
    + done.
  - intros w args Hs. eexists _, _, _. split; [unfold handle, sim_handler, attach_in; rewrite Hs; reflexivity|].
    split; [apply Nat.le_min_r|done].
  - intros w i dev id Hs. eexists _, _. split.
    + unfold handle, sim_handler, detach_in. rewrite Hs. simpl. rewrite bool_decide_true by done. reflexivity.
    + split; [apply Nat.le_min_r|done].
  - intros w args. eexists _, _. split; [done|]. split_and!; [apply fresh_name_not_empty|apply fresh_name_fresh|done].
  - intros w id Hs. eexists _. split; [unfold handle, sim_handler; rewrite Hs; reflexivity|done].
  - done.
  - done.
Defined.
