(* ===== verification/InstancesSpec.v ===== *)
(** * Theorems about node names and instances

    [getInstanceByNodeName] finds the one instance of a name, it inverts
    [mapInstanceToNodeName], and what [getInstancesByNodeNames] can answer. *)

From S2P Require Import Prelude GoStd Cloud Provider Instances SimCloud.

(** ** The specification *)

(** The instance has the node name, under the provider's naming scheme. *)
Definition named (p : AliyunProvider) (nodeName : string) (i : InstanceAttributesType) : Prop :=
  if bool_decide (nodeNameType p = NodeNameTypePrivateIP) then nodeName ∈ i_PrivateIpAddress i
  else nodeNameType p = NodeNameTypeHostname ∧ i_HostName i = nodeName.

(** [i] is the one instance of the list that has the name. *)
Definition only_named (p : AliyunProvider) (nodeName : string)
    (insts : list InstanceAttributesType) (i : InstanceAttributesType) : Prop :=
  ∃ l1 l2, insts = l1 ++ i :: l2 ∧ named p nodeName i ∧
    (∀ j, j ∈ l1 ++ l2 → ¬ named p nodeName j).

(** The query [getInstances] sends, and what the compute service answers to it. *)
Definition instances_query (p : AliyunProvider) : DescribeInstancesArgs :=
  mkDescribeInstancesArgs (region p) (vpcID p) (mkPagination 0 0).
Definition reported_instances {W} `{Handler req W} (p : AliyunProvider) (w : W) :
    result (list InstanceAttributesType * PaginationResult) :=
  (handle (DescribeInstances (instances_query p)) w).1.

(** No two instances share an address (or a host name, as the scheme goes). *)
Definition distinct_names (p : AliyunProvider) (insts : list InstanceAttributesType) : Prop :=
  if bool_decide (nodeNameType p = NodeNameTypePrivateIP)
  then NoDup (insts ≫= i_PrivateIpAddress)
  else nodeNameType p = NodeNameTypeHostname ∧ NoDup (i_HostName <$> insts).

(** ** The predicates and the filter *)

Lemma by_nodeNameType_named p nodeName i :
  by_nodeNameType (nodeNameType p) nodeName i = true ↔ named p nodeName i.
Proof.
  unfold by_nodeNameType, named. case_bool_decide as Hip.
  - unfold byPrivateIP. rewrite existsb_exists. setoid_rewrite bool_decide_eq_true.
    setoid_rewrite <- list_elem_of_In. split; [by intros (s & ? & ->)|eauto].
  - case_bool_decide as Hh.
    + unfold byHostname. rewrite bool_decide_eq_true. tauto.
    + unfold byEmpty. split; [done|tauto].
Qed.

Lemma filter_instances_nil insts f :
  filter_instances insts f = [] ↔ ∀ i, i ∈ insts → f i ≠ true.
Proof.
  induction insts as [|i insts IH]; simpl.
  - split; [intros _ j Hj; by apply elem_of_nil in Hj|done].
  - setoid_rewrite elem_of_cons. destruct (f i) eqn:Hf.
    + split; [done|]. intros H. by destruct (H i); [left|].
    + rewrite IH. split; [|by eauto]. intros H j [->|Hj]; [by rewrite Hf|auto].
Qed.

Lemma filter_instances_elem insts f i :
  i ∈ filter_instances insts f ↔ i ∈ insts ∧ f i = true.
Proof.
  induction insts as [|j insts IH]; simpl; [rewrite elem_of_nil; tauto|].
  destruct (f j) eqn:Hj; rewrite ?elem_of_cons, IH; split.
  - intros [->|[]]; auto.
  - intros [[->|] ?]; auto.
  - intros []; auto.
  - intros [[->|] ?]; [congruence|auto].
Qed.

Lemma filter_instances_one insts f i :
  filter_instances insts f = [i] ↔
    ∃ l1 l2, insts = l1 ++ i :: l2 ∧ f i = true ∧ ∀ j, j ∈ l1 ++ l2 → f j ≠ true.
Proof.
  split.
  - induction insts as [|j insts IH]; simpl; [done|]. destruct (f j) eqn:Hj.
    + intros [= -> Hnil]. exists [], insts. split_and!; [done..|]. by apply filter_instances_nil.
    + intros (l1 & l2 & -> & ? & Hno)%IH. exists (j :: l1), l2. split_and!; [done..|].
      intros k. simpl. rewrite elem_of_cons. intros [->|Hk]; [by rewrite Hj|auto].
  - intros (l1 & l2 & -> & Hi & Hno). induction l1 as [|j l1 IH]; simpl.
    + rewrite Hi. f_equal. by apply filter_instances_nil.
    + destruct (f j) eqn:Hj; [by destruct (Hno j); [left|]|].
      apply IH. intros k Hk. apply Hno. by right.
Qed.

Lemma filter_one_only_named p nodeName insts i :
  filter_instances insts (by_nodeNameType (nodeNameType p) nodeName) = [i] ↔
  only_named p nodeName insts i.
Proof.
  rewrite filter_instances_one. unfold only_named. setoid_rewrite by_nodeNameType_named.
  done.
Qed.

(** Filtering again with a predicate all elements satisfy changes nothing. *)
Lemma filter_instances_singleton i f : filter_instances [i] f = [i] ↔ f i = true.
Proof. simpl. by destruct (f i). Qed.

(** ** Looking up one node *)

Section lookup.
Context {W : Type} `{!Handler req W}.

Lemma getInstances_run p w :
  getInstances p w =
    (Ret match reported_instances p w with Ok (insts, _) => Ok insts | Err e => Err e end,
     (handle (DescribeInstances (instances_query p)) w).2,
     [Ev (DescribeInstances (instances_query p)) (reported_instances p w)]).
Proof.
  unfold getInstances, bind_ok, mbind, M_bind, call, reported_instances.
  change (mkDescribeInstancesArgs _ _ _) with (instances_query p).
  by destruct (handle (DescribeInstances (instances_query p)) w) as [[[insts pr]|e] w'].
Qed.

(** One lookup: what it answers, as a function of what is reported. *)
Definition lookup_one (p : AliyunProvider) (nodeName : string)
    (insts : list InstanceAttributesType) : result InstanceAttributesType :=
  match filter_instances insts (by_nodeNameType (nodeNameType p) nodeName) with
  | [] => Err (unable_err nodeName)
  | [i] => Ok i
  | _ => Err (multiple_err nodeName)
  end.

Lemma getInstanceByNodeName_run p nodeName w :
  getInstanceByNodeName p nodeName w =
    (Ret match reported_instances p w with
         | Ok (insts, _) => lookup_one p nodeName insts
         | Err e => Err e
         end,
     (handle (DescribeInstances (instances_query p)) w).2,
     [Ev (DescribeInstances (instances_query p)) (reported_instances p w)]).
Proof.
  unfold getInstanceByNodeName, bind_ok, mbind, M_bind. rewrite getInstances_run.
  destruct (reported_instances p w) as [[insts pr]|e]; [|done]. unfold lookup_one.
  by destruct (filter_instances insts _) as [|i [|]].
Qed.

Lemma lookup_one_ok p nodeName insts i :
  lookup_one p nodeName insts = Ok i ↔ only_named p nodeName insts i.
Proof.
  rewrite <- filter_one_only_named. unfold lookup_one.
  destruct (filter_instances _ _) as [|j [|]]; (split; [congruence || done|]); congruence.
Qed.

(** With distinct names, an instance that has a name is the only one. *)
Lemma distinct_only_named p nodeName insts i :
  distinct_names p insts → i ∈ insts → named p nodeName i → only_named p nodeName insts i.
Proof.
  intros Hd (l1 & l2 & ->)%list_elem_of_split Hi. exists l1, l2. split_and!; [done..|].
  intros j Hj Hn. unfold distinct_names, named in *. case_bool_decide.
  - rewrite bind_app, bind_cons in Hd.
    apply NoDup_app in Hd as (_ & H1 & (_ & H2 & _)%NoDup_app).
    rewrite elem_of_app in Hj. destruct Hj as [Hj|Hj].
    + destruct (H1 nodeName); [|rewrite elem_of_app; by left].
      apply list_elem_of_bind. eauto.
    + apply (H2 nodeName); [done|]. apply list_elem_of_bind. eauto.
  - destruct Hi as [_ Hi], Hn as [_ Hn], Hd as [_ Hd].
    rewrite fmap_app, fmap_cons in Hd.
    apply NoDup_app in Hd as (_ & H1 & [H2 _]%NoDup_cons).
    rewrite elem_of_app in Hj. destruct Hj as [Hj|Hj].
    + destruct (H1 nodeName); [rewrite <- Hn; by apply list_elem_of_fmap_2|].
      rewrite elem_of_cons. by left.
    + apply H2. rewrite Hi, <- Hn. by apply list_elem_of_fmap_2.
Qed.

(** ** Looking up several nodes *)

Lemma by_names_loop_one by_ i results nodeNames :
  by_names_loop by_ [i] results nodeNames =
  match find (λ n, negb (by_ n i)) nodeNames with
  | Some n => Err (unable_err n)
  | None => Ok (results ++ replicate (length nodeNames) i)
  end.
Proof.
  revert results. induction nodeNames as [|n ns IH]; intros results; simpl.
  - by rewrite app_nil_r.
  - destruct (by_ n i); simpl; [|done]. rewrite IH.
    by destruct (find _ ns); simpl; rewrite <- ?app_assoc.
Qed.

Lemma by_names_loop_ok by_ insts n ns results :
  by_names_loop by_ insts [] (n :: ns) = Ok results →
  ∃ i, filter_instances insts (by_ n) = [i] ∧ results = replicate (length (n :: ns)) i ∧
    ∀ m, m ∈ n :: ns → by_ m i = true.
Proof.
  simpl. destruct (filter_instances insts (by_ n)) as [|i [|]] eqn:Hf; [done| |done].
  rewrite by_names_loop_one. destruct (find _ ns) as [m|] eqn:Hm; [done|]. intros [= <-].
  exists i. split_and!; [done..|]. intros m. rewrite elem_of_cons. intros [->|Hin].
  - apply filter_instances_one in Hf as (l1 & l2 & _ & Hi & _). done.
  - eapply find_none in Hm; [|by apply list_elem_of_In]. by apply negb_false_iff in Hm.
Qed.

Lemma getInstancesByNodeNames_run p nodeNames w :
  getInstancesByNodeNames p nodeNames w =
    (Ret match reported_instances p w with
         | Ok (insts, _) => by_names_loop (by_nodeNameType (nodeNameType p)) insts [] nodeNames
         | Err e => Err e
         end,
     (handle (DescribeInstances (instances_query p)) w).2,
     [Ev (DescribeInstances (instances_query p)) (reported_instances p w)]).
Proof.
  unfold getInstancesByNodeNames, bind_ok, mbind, M_bind. rewrite getInstances_run.
  by destruct (reported_instances p w) as [[insts pr]|e].
Qed.

(** ** Theorems *)

(** C35: [getInstanceByNodeName] answers an instance exactly when it is the one
    instance the compute service reports under that name; no instance and several
    instances of the name are errors.  It sends one read request. *)
Theorem getInstanceByNodeName_correct p nodeName w insts pr :
  reported_instances p w = Ok (insts, pr) →
  ∃ r w', getInstanceByNodeName p nodeName w =
      (Ret r, w', [Ev (DescribeInstances (instances_query p)) (Ok (insts, pr))]) ∧
    ∀ i, r = Ok i ↔ only_named p nodeName insts i.
Proof.
  intros Hr. rewrite getInstanceByNodeName_run, Hr. eexists _, _.
  split; [done|]. intros i. apply lookup_one_ok.
Qed.

(** Node names invert.  When no two instances share a name, the node name the
    provider gives to a reported instance leads back to that instance. *)
Theorem node_name_roundtrip p i w insts pr :
  reported_instances p w = Ok (insts, pr) →
  distinct_names p insts → i ∈ insts → i_PrivateIpAddress i ≠ [] →
  ∃ nodeName, mapInstanceToNodeName p i w = (Ret nodeName, w, []) ∧
    outcome_of (getInstanceByNodeName p nodeName) w = Ret (Ok i).
Proof.
  intros Hr Hd Hi Hip. unfold mapInstanceToNodeName, outcome_of.
  setoid_rewrite getInstanceByNodeName_run. rewrite Hr.
  assert (∀ n, named p n i → lookup_one p n insts = Ok i) as Hn.
  { intros n Hn. apply lookup_one_ok. by apply distinct_only_named. }
  unfold named, distinct_names in *. case_bool_decide.
  - destruct (i_PrivateIpAddress i) as [|ip ips]; [done|]. exists ip. split; [done|].
    simpl. rewrite Hn; [done|by left].
  - exists (i_HostName i). split; [done|]. simpl. rewrite Hn; [done|]. by destruct Hd.
Qed.

(** C36: what [getInstancesByNodeNames] can answer.  Its loop overwrites the list it
    searches with the match of the first name, so a successful answer repeats one
    instance, which has every one of the names; with host names, two different
    names are always an error. *)
Theorem getInstancesByNodeNames_one_machine p nodeNames w results :
  outcome_of (getInstancesByNodeNames p nodeNames) w = Ret (Ok results) →
  nodeNames ≠ [] →
  ∃ i insts pr, reported_instances p w = Ok (insts, pr) ∧
    results = replicate (length nodeNames) i ∧
    i ∈ insts ∧ (∀ n, n ∈ nodeNames → named p n i) ∧
    (nodeNameType p = NodeNameTypeHostname → ∀ n, n ∈ nodeNames → n = i_HostName i).
Proof.
  unfold outcome_of. rewrite getInstancesByNodeNames_run. simpl.
  destruct (reported_instances p w) as [[insts pr]|e]; [|done].
  destruct nodeNames as [|n ns]; [done|]. intros [= Hok] _.
  apply by_names_loop_ok in Hok as (i & Hf & -> & Hall).
  exists i, insts, pr. split_and!; [done..| | |].
  - apply (filter_instances_elem _ (by_nodeNameType (nodeNameType p) n)). rewrite Hf. by left.
  - intros m Hm. by apply by_nodeNameType_named, Hall.
  - intros Ht m Hm. apply Hall, by_nodeNameType_named in Hm. unfold named in Hm.
    rewrite bool_decide_false in Hm by (by rewrite Ht). by destruct Hm.
Qed.

End lookup.

(** ** Witnesses *)

Module Witness.

Definition i1 : InstanceAttributesType := mkInstance "i-1" "node-1" ["10.0.0.1"; "10.0.0.2"].
Definition i2 : InstanceAttributesType := mkInstance "i-2" "node-2" ["10.0.0.3"].

(** An account with two instances. *)
Definition w0 : cloud := mkCloud ∅ [i1; i2] ∅ ∅ [] 2.

Definition provider (t : NodeNameType) : AliyunProvider :=
  mkProvider "key" "secret" "cn-hangzhou" "cn-hangzhou-a" "vpc-1" "vrt-1" "vsw-1" "rtb-1" "i-1"
    "node-1" t.

Definition two : PaginationResult := mkPaginationResult 2 1 2.

Lemma getInstanceByNodeName_correct_witness :
  ∃ r w', getInstanceByNodeName (provider NodeNameTypeHostname) "node-2" w0 =
      (Ret r, w', [Ev (DescribeInstances (instances_query (provider NodeNameTypeHostname)))
                     (Ok ([i1; i2], two))]) ∧
    ∀ i, r = Ok i ↔ only_named (provider NodeNameTypeHostname) "node-2" [i1; i2] i.
Proof. apply (getInstanceByNodeName_correct _ _ w0 [i1; i2] two). vm_compute. reflexivity. Defined.

Lemma node_name_roundtrip_witness :
  ∃ nodeName, mapInstanceToNodeName (provider NodeNameTypePrivateIP) i2 w0 = (Ret nodeName, w0, []) ∧
    outcome_of (getInstanceByNodeName (provider NodeNameTypePrivateIP) nodeName) w0 = Ret (Ok i2).
Proof.
  apply (node_name_roundtrip _ _ w0 [i1; i2] two); [vm_compute; reflexivity| | |done].
  - vm_compute. apply (bool_decide_unpack _). vm_compute. exact I.
  - right. left.
Defined.

Lemma getInstancesByNodeNames_one_machine_witness :
  ∃ i insts pr, reported_instances (provider NodeNameTypePrivateIP) w0 = Ok (insts, pr) ∧
    [i1; i1] = replicate (length ["10.0.0.1"; "10.0.0.2"]) i ∧
    i ∈ insts ∧
    (∀ n, n ∈ ["10.0.0.1"; "10.0.0.2"] → named (provider NodeNameTypePrivateIP) n i) ∧
    (nodeNameType (provider NodeNameTypePrivateIP) = NodeNameTypeHostname →
      ∀ n, n ∈ ["10.0.0.1"; "10.0.0.2"] → n = i_HostName i).
Proof.
  apply (getInstancesByNodeNames_one_machine (provider NodeNameTypePrivateIP)
    ["10.0.0.1"; "10.0.0.2"] w0 [i1; i1]); [vm_compute; reflexivity|done].
Defined.

End Witness.
