(* ===== verification/MapUtilsSpec.v ===== *)
(** * Theorems about map_utils.go

    [MapToStruct] reads back what [StructToMap] writes; what [MapToStruct] leaves
    behind, errors included; what [MapEqual] and [MapCopy] decide and write. *)

From S2P Require Import Prelude GoStd MapUtils.

Section map_utils_spec.
Context `{FloatConv}.

(** ** Specification *)

(** A value of the kind of its field, within the range of the Go type. *)
Definition value_ok (k : Kind) (v : Value) : Prop :=
  match k, v with
  | Int, VInt z => in_int64 z
  | Bool, VBool _ | Float32, VFloat32 _ | Float64, VFloat64 _ | Str, VStr _ => True
  | _, _ => False
  end.

(** The fields that take part in the conversions. *)
Definition tagged (f : Field) : Prop := f_tag f ≠ "".
#[export] Instance tagged_dec f : Decision (tagged f).
Proof. unfold tagged. apply _. Defined.

(** A struct type the conversions support: exported fields of supported predeclared
    types with distinct tags. *)
Definition fields_ok (fs : list Field) : Prop :=
  Forall (λ f, tagged f → f_exported f = true ∧ f_plain f = true ∧ f_kind f ≠ Other) fs ∧
  NoDup (f_tag <$> base.filter tagged fs).

(** Two values of the same struct type. *)
Definition same_type (fs1 fs2 : list Field) : Prop :=
  Forall2 (λ f1 f2, f_name f1 = f_name f2 ∧ f_tag f1 = f_tag f2 ∧ f_kind f1 = f_kind f2 ∧
    f_exported f1 = f_exported f2 ∧ f_plain f1 = f_plain f2) fs1 fs2.

(** The result of converting [fs] into [out]: the tagged fields of [fs], the others
    of [out]. *)
Definition take_tagged (f_in f_out : Field) : Field :=
  if bool_decide (f_tag f_out = "") then f_out else set_value f_out (f_value f_in).

(** The value the map asks for in a field: [None] when it asks for none, an error
    when it does not convert or cannot be set. *)
Definition asked (m : gmap string string) (prefix : string) (f : Field) :
    option (Value + ConvError) :=
  if bool_decide (f_tag f = "") then None
  else s ← m !! (prefix +:+ f_tag f);
       Some match convert (f_kind f) s with
            | inr e => inr (UnmatchType (f_name f) e)
            | inl v => if f_exported f && f_plain f then inl v else inr (Recovered "reflect.Set")
            end.

Definition asks_error (m : gmap string string) (prefix : string) (f : Field) : option ConvError :=
  match asked m prefix f with Some (inr e) => Some e | _ => None end.

Definition updated (m : gmap string string) (prefix : string) (f : Field) : Field :=
  match asked m prefix f with Some (inl v) => set_value f v | _ => f end.

(** The entries of a map, a nil map having none. *)
Definition entries (m : option (gmap string string)) : gmap string string := default ∅ m.

(** ** Lemmas *)

Lemma show_bool_parse b : ParseBool (show_bool b) = inl b.
Proof. by destruct b. Qed.

Lemma convert_show k v : value_ok k v → convert k (show_value v) = inl v.
Proof.
  destruct k, v; simpl; try done; intros Hv.
  - by rewrite Atoi_pretty.
  - by rewrite show_bool_parse.
  - by rewrite ParseFloat_show.
  - by rewrite ParseFloat_show.
Qed.

Lemma str_app_inj prefix s1 s2 : prefix +:+ s1 = prefix +:+ s2 → s1 = s2.
Proof. induction prefix as [|c p IH]; simpl; [done|]. intros [= Hs]. auto. Qed.

(** What [StructToMap] writes. *)
Lemma StructToMap_fields_spec fs m prefix :
  fields_ok fs →
  ∃ m', StructToMap_fields fs m prefix = (m', None) ∧
    (∀ f, f ∈ fs → tagged f → m' !! (prefix +:+ f_tag f) = Some (show_value (f_value f))) ∧
    (∀ k, (∀ f, f ∈ fs → tagged f → k ≠ prefix +:+ f_tag f) → m' !! k = m !! k).
Proof.
  intros [Hok Hnd]. revert m. induction fs as [|f fs IH]; intros m; simpl.
  { exists m. split_and!; [done| |done]. intros f Hf. by apply elem_of_nil in Hf. }
  apply Forall_cons in Hok as [Hf Hok]. rewrite filter_cons in Hnd.
  unfold tagged at 1 in Hf. case_bool_decide as Ht.
  - rewrite decide_False in Hnd by (unfold tagged; tauto).
    destruct (IH Hok Hnd m) as (m' & Hm & Hset & Hkeep). exists m'. split_and!; [done| |].
    + intros g [->|Hg]%elem_of_cons; [intros Hg; by destruct Hg|auto].
    + intros k Hk. apply Hkeep. intros g Hg. apply Hk. by right.
  - rewrite decide_True in Hnd by done. destruct (Hf Ht) as (-> & _).
    rewrite fmap_cons in Hnd. apply NoDup_cons in Hnd as [Hnew Hnd].
    destruct (IH Hok Hnd (<[prefix +:+ f_tag f := show_value (f_value f)]> m))
      as (m' & Hm & Hset & Hkeep).
    exists m'. split_and!; [done| |].
    + intros g [->|Hg]%elem_of_cons Hgt; [|auto]. rewrite Hkeep.
      * by rewrite lookup_insert_eq.
      * intros h Hh Hht Heq%str_app_inj. apply Hnew. rewrite Heq.
        apply list_elem_of_fmap_2, list_elem_of_filter. done.
    + intros k Hk. rewrite Hkeep by (intros g Hg; apply Hk; by right).
      apply lookup_insert_ne. apply not_eq_sym, Hk; [by left|done].
Qed.

(** One round of the loop of [MapToStruct]. *)
Lemma MapToStruct_fields_cons m prefix f fs :
  MapToStruct_fields m prefix (f :: fs) =
  match asks_error m prefix f with
  | Some e => (f :: fs, Some e)
  | None => (updated m prefix f :: (MapToStruct_fields m prefix fs).1,
             (MapToStruct_fields m prefix fs).2)
  end.
Proof.
  simpl. unfold asks_error, updated, asked.
  destruct (MapToStruct_fields m prefix fs) as [rest e]. simpl.
  case_bool_decide; [done|]. destruct (m !! _) as [s|]; [|done]. simpl.
  destruct (convert (f_kind f) s); [|done]. by destruct (f_exported f && f_plain f).
Qed.

(** The loop of [MapToStruct], as a first error and the updates before it. *)
Lemma MapToStruct_fields_spec m prefix fs :
  MapToStruct_fields m prefix fs =
  match list_find (λ f, is_Some (asks_error m prefix f)) fs with
  | None => (updated m prefix <$> fs, None)
  | Some (i, f) => ((updated m prefix <$> take i fs) ++ drop i fs, asks_error m prefix f)
  end.
Proof.
  induction fs as [|f fs IH]; [done|]. rewrite MapToStruct_fields_cons, IH. simpl.
  destruct (asks_error m prefix f) eqn:He.
  - rewrite decide_True by eauto. simpl. by rewrite He.
  - rewrite decide_False by (by intros []). by destruct (list_find _ fs) as [[i g]|].
Qed.

Lemma asks_error_shown m prefix f_in f_out :
  (tagged f_in → m !! (prefix +:+ f_tag f_in) = Some (show_value (f_value f_in))) →
  (tagged f_in → f_exported f_in = true ∧ f_plain f_in = true ∧ value_ok (f_kind f_in) (f_value f_in)) →
  f_tag f_in = f_tag f_out → f_kind f_in = f_kind f_out →
  f_exported f_in = f_exported f_out → f_plain f_in = f_plain f_out →
  asked m prefix f_out = if bool_decide (f_tag f_out = "") then None else Some (inl (f_value f_in)).
Proof.
  intros Hm Hok Ht Hk He Hp. unfold asked. case_bool_decide as Htag; [done|].
  rewrite <- Ht in *. destruct (Hok Htag) as (He' & Hp' & Hv). rewrite Hm by done. simpl.
  rewrite <- Hk, convert_show by done. by rewrite <- He, <- Hp, He', Hp'.
Qed.

Lemma kinds_match_refl t : kinds_match t t = true.
Proof. unfold kinds_match. by rewrite !bool_decide_true. Qed.

Lemma assignable_refl t : assignable t t = true.
Proof. unfold assignable. by rewrite !bool_decide_true. Qed.

Lemma roundtrip_fields fs out m prefix :
  fields_ok fs → same_type fs out →
  Forall (λ f, tagged f → value_ok (f_kind f) (f_value f)) fs →
  ∃ m', StructToMap (AnyStruct fs) (Some m) prefix = (Some m', None) ∧
    MapToStruct (Some m') (AnyPtrStruct out) prefix =
      (AnyPtrStruct (zip_with take_tagged fs out), None) ∧
    ∀ k, (∀ f, f ∈ fs → tagged f → k ≠ prefix +:+ f_tag f) → m' !! k = m !! k.
Proof.
  intros Hok Hty Hv. destruct (StructToMap_fields_spec fs m prefix Hok) as (m' & Hm' & Hset & Hkeep).
  exists m'. unfold StructToMap, MapToStruct. rewrite Hm'. split_and!; [done| |done].
  assert (MapToStruct_fields m' prefix out = (zip_with take_tagged fs out, None)) as ->; [|done].
  destruct Hok as [Hok _]. clear Hm' Hkeep. rewrite Forall_forall in Hok, Hv.
  induction Hty as [|f1 f2 fs out (_ & Ht & Hk & He & Hp) Hty IH]; [done|].
  rewrite MapToStruct_fields_cons.
  assert (asked m' prefix f2 = if bool_decide (f_tag f2 = "") then None else Some (inl (f_value f1))) as Ha.
  { apply asks_error_shown; [apply Hset; by left| |done..].
    intros Htag. destruct (Hok f1 ltac:(by left) Htag) as (? & ? & _).
    split_and!; [done..|]. by apply Hv; [left|]. }
  unfold asks_error, updated. rewrite Ha.
  rewrite IH; [|intros f Hf; apply Hok; by right|intros f Hf; apply Hv; by right
    |intros f Hf; apply Hset; by right].
  simpl. unfold take_tagged at 2.
  destruct (decide (f_tag f2 = "")); [by rewrite bool_decide_true|by rewrite bool_decide_false].
Qed.

(** ** Theorems *)

(** C38: round trip.  What [StructToMap] writes for a struct of supported fields,
    [MapToStruct] reads back into any struct of that type: no error, the tagged
    fields of the first, the untagged ones unchanged; entries of the map under
    other keys survive. *)
Theorem StructToMap_MapToStruct fs out m prefix :
  fields_ok fs → same_type fs out →
  Forall (λ f, tagged f → value_ok (f_kind f) (f_value f)) fs →
  ∃ m', StructToMap (AnyStruct fs) (Some m) prefix = (Some m', None) ∧
    MapToStruct (Some m') (AnyPtrStruct out) prefix =
      (AnyPtrStruct (zip_with take_tagged fs out), None) ∧
    ∀ k, (∀ f, f ∈ fs → tagged f → k ≠ prefix +:+ f_tag f) → m' !! k = m !! k.
Proof. apply roundtrip_fields. Qed.

(** What [MapToStruct] leaves behind.  Fields are set in order up to the first
    one whose entry does not convert or cannot be set: its error is returned, that
    field and the later ones keep their values; without such a field every tagged
    field that has an entry is set and there is no error. *)
Theorem MapToStruct_first_error m fs prefix :
  MapToStruct (Some m) (AnyPtrStruct fs) prefix =
  match list_find (λ f, is_Some (asks_error m prefix f)) fs with
  | None => (AnyPtrStruct (updated m prefix <$> fs), None)
  | Some (i, f) =>
      (AnyPtrStruct ((updated m prefix <$> take i fs) ++ drop i fs), asks_error m prefix f)
  end.
Proof.
  unfold MapToStruct. rewrite MapToStruct_fields_spec. by destruct (list_find _ fs) as [[i f]|].
Qed.

(** [MapEqual] on maps of one type compares contents, a nil map counting as an
    empty one exactly when the other is empty too; an untyped nil equals nothing. *)
Theorem MapEqual_correct t m1 m2 :
  (MapEqual (MMap t m1) (MMap t m2) = true ↔
     entries m1 = entries m2 ∧ (is_Some m1 ∧ is_Some m2 ∨ entries m1 = ∅)) ∧
  (∀ x, MapEqual MNil x = false ∧ MapEqual x MNil = false).
Proof.
  unfold entries. split.
  - unfold MapEqual. rewrite kinds_match_refl.
    destruct (_ && _) eqn:He.
    + apply andb_prop in He as [H1%bool_decide_eq_true H2%bool_decide_eq_true].
      split; [|done]. intros _. rewrite H1, H2. auto.
    + rewrite andb_true_iff, !bool_decide_eq_true. apply andb_false_iff in He.
      split.
      * intros [_ <-]. split; [done|]. destruct m2; [by eauto|]. destruct He as [He|He]; by apply bool_decide_eq_false in He.
      * intros [Heq [[[x ->] [y ->]]|Hemp]]; simpl in *; [by split; [|congruence]|].
        rewrite <- Heq in He. destruct He as [He|He]; apply bool_decide_eq_false in He; done.
  - intros x. split; [by destruct x|]. by destruct x.
Qed.

(** [MapCopy] of a map into a non-nil map of the same types overwrites the keys
    of the source, keeps the others, and afterwards a second copy changes nothing. *)
Theorem MapCopy_correct t ms md :
  ∃ m', MapCopy (MMap t (Some md)) (MMap t ms) = (MMap t (Some m'), None) ∧
    (∀ k, m' !! k = match entries ms !! k with Some v => Some v | None => md !! k end) ∧
    MapCopy (MMap t (Some m')) (MMap t ms) = (MMap t (Some m'), None).
Proof.
  assert (∀ d, MapCopy (MMap t (Some d)) (MMap t ms) = (MMap t (Some (default ∅ ms ∪ d)), None)) as Hc.
  { intros d. unfold MapCopy. rewrite kinds_match_refl, assignable_refl.
    simpl. case_bool_decide as He; [|done]. by rewrite He, map_empty_union. }
  exists (default ∅ ms ∪ md). split_and!; [apply Hc| |].
  - intros k. unfold entries. rewrite lookup_union. by destruct (default ∅ ms !! k), (md !! k).
  - rewrite Hc. by rewrite map_union_assoc, map_union_idemp.
Qed.

End map_utils_spec.

(** ** Witness *)

Module MapWitness.
#[local] Existing Instance text_float.

Definition fields (z : Z) (b : bool) (s t : string) : list Field :=
  [ mkField "Count" "count" Int true true (VInt z); mkField "On" "on" Bool true true (VBool b);
    mkField "Name" "name" Str true true (VStr s); mkField "internal" "" Str false true (VStr t) ].

Lemma StructToMap_MapToStruct_witness :
  ∃ m', StructToMap (AnyStruct (fields (-42) true "x" "kept out")) (Some {[ "other" := "1" ]}) "p/" =
      (Some m', None) ∧
    MapToStruct (Some m') (AnyPtrStruct (fields 0 false "" "mine")) "p/" =
      (AnyPtrStruct (fields (-42) true "x" "mine"), None) ∧
    ∀ k, (∀ f, f ∈ fields (-42) true "x" "kept out" → tagged f → k ≠ "p/" +:+ f_tag f) →
      m' !! k = ({[ "other" := "1" ]} : gmap string string) !! k.
Proof.
  apply (StructToMap_MapToStruct (fields (-42) true "x" "kept out") (fields 0 false "" "mine")
    {[ "other" := "1" ]} "p/").
  - split; [repeat constructor; done|]. apply (bool_decide_unpack _). vm_compute. exact I.
  - repeat constructor.
  - repeat constructor; simpl; unfold in_int64; lia || done.
Defined.

End MapWitness.
