(* ===== verification/QuantitySpec.v ===== *)
(** * Theorems about scaled values

    [ScaledValue] rounds up: the scaled value of a quantity is the least integer
    that is not below it, for the quantities that fit. *)

From S2P Require Import Prelude GoStd Quantity.

(** ** Specification *)

(** A quantity as [num * 10^exp]. *)
Definition q_num (q : Quantity) : Z :=
  match q_dec q with None => am_value (q_i q) | Some (unscaled, _) => unscaled end.
Definition q_exp (q : Quantity) : Z :=
  match q_dec q with None => am_scale (q_i q) | Some (_, scale) => - scale end.

(** The quantity is at most [z * 10^scale]. *)
Definition at_most (q : Quantity) (scale z : Z) : Prop :=
  q_num q * 10 ^ Z.max 0 (q_exp q - scale) ≤ z * 10 ^ Z.max 0 (scale - q_exp q).

#[export] Instance at_most_dec q scale z : Decision (at_most q scale z).
Proof. unfold at_most. apply _. Defined.

(** Division rounding up. *)
Definition cdiv (a b : Z) : Z := - (- a / b).

(** A non-negative quantity whose value at [scale] fits 64 bits. *)
Definition fits (q : Quantity) (scale : Z) : Prop :=
  0 ≤ q_num q ∧ - 2 ^ 30 ≤ q_exp q ≤ 2 ^ 30 ∧
  match q_dec q with
  | None => q_num q * 10 ^ Z.max 0 (q_exp q - scale) < 2 ^ 63
  | Some _ => q_exp q ≤ scale ∧ cdiv (q_num q) (10 ^ (scale - q_exp q)) < 2 ^ 63
  end.

(** ** Rounding up *)

Lemma pow10_pos n : 0 < 10 ^ n ∨ n < 0.
Proof. destruct (decide (n < 0)); [by right|left]. apply Z.pow_pos_nonneg; lia. Qed.

Lemma cdiv_le a b z : 0 < b → cdiv a b ≤ z ↔ a ≤ z * b.
Proof.
  intros Hb. unfold cdiv. pose proof (Z.div_mod (- a) b ltac:(lia)) as Hdm.
  pose proof (Z.mod_pos_bound (- a) b Hb). split; intros Hz; nia.
Qed.

Lemma cdiv_eq a b : 0 < b → cdiv a b = if bool_decide (a mod b = 0) then a / b else a / b + 1.
Proof.
  intros Hb. unfold cdiv. case_bool_decide as Hm.
  - rewrite Z.div_opp_l_z by lia. lia.
  - rewrite Z.div_opp_l_nz by lia. lia.
Qed.

(** ** The loops *)

Lemma scale_down_loop_spec n base value fraction :
  0 ≤ value < 2 ^ 63 → (fraction = true → value + 1 < 2 ^ 63) →
  (fraction = true ∨ 0 < value → 0 < base) →
  (scale_down_loop n base value fraction).1 =
    if fraction || negb (bool_decide (value mod 10 ^ Z.of_nat n = 0))
    then value / 10 ^ Z.of_nat n + 1 else value / 10 ^ Z.of_nat n.
Proof.
  revert value fraction. induction n as [|n IH]; intros value fraction Hv Hfr Hb.
  - simpl. rewrite Z.mod_1_r, Z.div_1_r, orb_false_r. destruct fraction; [|done].
    rewrite bool_decide_true by (pose proof (Hb (or_introl eq_refl)); lia). simpl.
    rewrite int64_id; [done|]. unfold in_int64. pose proof (Hfr eq_refl). lia.
  - assert (10 ^ Z.of_nat (S n) = 10 * 10 ^ Z.of_nat n) as Hpow
      by (rewrite Nat2Z.inj_succ, Z.pow_succ_r; lia).
    assert (0 < 10 ^ Z.of_nat n) as Hpos by (apply Z.pow_pos_nonneg; lia).
    assert (Z.quot value 10 = value / 10) as Hq by (apply Z.quot_div_nonneg; lia).
    assert (Z.rem value 10 = value mod 10) as Hr by (apply Z.rem_mod_nonneg; lia).
    assert (value / 10 ^ Z.of_nat (S n) = value / 10 / 10 ^ Z.of_nat n) as Hdiv
      by (rewrite Hpow, Z.div_div; lia).
    assert (value mod 10 ^ Z.of_nat (S n) = value mod 10 + 10 * ((value / 10) mod 10 ^ Z.of_nat n)) as Hmod
      by (rewrite Hpow, Z.rem_mul_r; lia).
    pose proof (Z.mod_pos_bound value 10 ltac:(lia)) as Hm10.
    pose proof (Z.div_mod value 10 ltac:(lia)) as Hdm10.
    pose proof (Z.mod_pos_bound (value / 10) _ Hpos) as Hmn.
    assert (fraction || negb (bool_decide (value mod 10 ^ Z.of_nat (S n) = 0)) =
      (fraction || negb (bool_decide (value mod 10 = 0))) ||
      negb (bool_decide ((value / 10) mod 10 ^ Z.of_nat n = 0))) as Hfrac.
    { destruct fraction; [done|]. simpl. repeat case_bool_decide; simpl; try done; lia. }
    rewrite Hfrac, Hdiv. cbn [scale_down_loop]. rewrite Hq, Hr.
    set (fraction' := fraction || negb (bool_decide (value mod 10 = 0))).
    assert (fraction' = true ∨ 0 < value → 0 < base) as Hb'.
    { intros [Hf|?]; [|by apply Hb; right]. apply Hb. unfold fraction' in Hf.
      destruct fraction; [by left|right]. simpl in Hf.
      destruct (decide (value = 0)) as [->|]; [done|lia]. }
    destruct (decide (value / 10 = 0)) as [Hz|Hz];
      [rewrite (bool_decide_true (value / 10 = 0)) by done|rewrite (bool_decide_false (value / 10 = 0)) by done].
    + rewrite Hz, Z.mod_0_l, Z.div_0_l by lia. simpl. rewrite orb_false_r.
      destruct fraction' eqn:Hf; [|done]. rewrite bool_decide_true; [done|].
      pose proof (Hb' (or_introl eq_refl)). lia.
    + apply IH; [lia|lia|]. intros [?|?]; apply Hb'; [by left|right; lia].
Qed.

Lemma negativeScaleInt64_cdiv base scale :
  0 ≤ base < 2 ^ 63 → 0 ≤ scale → (negativeScaleInt64 base scale).1 = cdiv base (10 ^ scale).
Proof.
  intros Hb Hs. unfold negativeScaleInt64. case_bool_decide as H0.
  - subst. simpl. unfold cdiv. rewrite Z.div_1_r. lia.
  - rewrite scale_down_loop_spec by (done || (by intros [|])).
    rewrite Z2Nat.id by lia. rewrite cdiv_eq by (apply Z.pow_pos_nonneg; lia). simpl.
    by case_bool_decide.
Qed.

Lemma int64MultiplyScale_id a b :
  0 ≤ a → 0 < b → a * b < 2 ^ 63 → int64MultiplyScale a b = (a * b, true).
Proof.
  intros Ha Hb Hab. unfold int64MultiplyScale. rewrite int64_id by (unfold in_int64; nia).
  destruct (_ || _); [done|]. rewrite (bool_decide_false (a = mostNegative)) by (unfold mostNegative; lia).
  simpl. rewrite Z.quot_mul by lia. by rewrite bool_decide_true.
Qed.

Lemma scale_up_loop_spec n value :
  0 ≤ value → value * 10 ^ Z.of_nat n < 2 ^ 63 →
  (scale_up_loop n value).1 = value * 10 ^ Z.of_nat n.
Proof.
  revert value. induction n as [|n IH]; intros value Hv Hlt; [simpl; lia|].
  assert (10 ^ Z.of_nat (S n) = 10 * 10 ^ Z.of_nat n) as Hpow
    by (rewrite Nat2Z.inj_succ, Z.pow_succ_r; lia).
  assert (0 < 10 ^ Z.of_nat n) by (apply Z.pow_pos_nonneg; lia).
  rewrite Hpow in *. cbn [scale_up_loop]. rewrite int64MultiplyScale_id by nia.
  rewrite IH by nia. ring.
Qed.

Lemma positiveScaleInt64_mul base scale :
  0 ≤ base → 0 ≤ scale → base * 10 ^ scale < 2 ^ 63 →
  (positiveScaleInt64 base scale).1 = base * 10 ^ scale.
Proof.
  intros Hb Hs Hlt. unfold positiveScaleInt64.
  do 6 (case_bool_decide; [subst scale; simpl; rewrite ?int64MultiplyScale_id by (done || lia); simpl; lia|]).
  rewrite scale_up_loop_spec by (rewrite ?Z2Nat.id; lia). rewrite Z2Nat.id by lia. done.
Qed.

Lemma scaledValue_cdiv unscaled scale newScale :
  0 ≤ unscaled → newScale ≤ scale → cdiv unscaled (10 ^ (scale - newScale)) < 2 ^ 63 →
  scaledValue unscaled scale newScale = cdiv unscaled (10 ^ (scale - newScale)).
Proof.
  intros Hu Hs Hlt. unfold scaledValue. set (dif := scale - newScale) in *.
  assert (0 < 10 ^ dif) as Hpos by (apply Z.pow_pos_nonneg; lia).
  pose proof (Z.div_pos unscaled (10 ^ dif) Hu Hpos) as Hq0.
  case_bool_decide as H0.
  { rewrite H0 in *. simpl in *. unfold cdiv in *. rewrite Z.div_1_r in *.
    rewrite int64_id; [lia|]. unfold in_int64. lia. }
  rewrite bool_decide_false by lia. rewrite cdiv_eq in * by done.
  assert (unscaled / 10 ^ dif < 2 ^ 63) as Hq by (revert Hlt; case_bool_decide; lia).
  destruct (bool_decide (unscaled < maxInt64) && bool_decide (dif < 19)) eqn:Hfast.
  - apply andb_prop in Hfast as [Hm%bool_decide_eq_true Hd%bool_decide_eq_true].
    unfold pow10_int64. rewrite (bool_decide_true (dif <= 18)) by lia.
    rewrite (int64_id unscaled) by (unfold in_int64, maxInt64 in *; lia).
    rewrite Z.quot_div_nonneg, Z.rem_mod_nonneg by lia.
    revert Hlt. case_bool_decide; [done|]. intros. apply int64_id. unfold in_int64. lia.
  - cbv zeta. rewrite (int64_id (unscaled / 10 ^ dif)) by (unfold in_int64; lia).
    destruct (decide (unscaled mod 10 ^ dif = 0)) as [Hm|Hm].
    + by rewrite !bool_decide_true by done.
    + rewrite !bool_decide_false in * by done. apply int64_id. unfold in_int64. lia.
Qed.

(** The theorem, for use below. *)
Lemma ScaledValue_le q z :
  fits q Giga → ScaledValue q Giga ≤ z ↔ at_most q Giga z.
Proof.
  intros (Hn & He & Hfit). unfold ScaledValue, at_most, q_num, q_exp in *. unfold Giga in *.
  destruct (q_dec q) as [[unscaled s]|].
  - destruct Hfit as [Hle Hlt]. rewrite Z.sub_opp_r in Hlt.
    rewrite scaledValue_cdiv by (rewrite ?Z.sub_opp_r; lia || (by rewrite Z.add_comm)).
    rewrite Z.max_l, Z.max_r by lia. rewrite cdiv_le by (apply Z.pow_pos_nonneg; lia).
    rewrite Z.pow_0_r, Z.mul_1_r. replace (9 - - s) with (s - - 9) by lia. done.
  - unfold AsScaledInt64. destruct (q_i q) as [v s]; simpl in *. case_bool_decide as Hs.
    + rewrite Z.max_l in Hfit by lia. rewrite Z.max_l, Z.max_r by lia. simpl.
      rewrite int32_id by (unfold in_int32; lia). rewrite negativeScaleInt64_cdiv by lia.
      rewrite cdiv_le by (apply Z.pow_pos_nonneg; lia). by rewrite Z.pow_0_r, Z.mul_1_r.
    + rewrite Z.max_r in Hfit by lia. rewrite Z.max_r, Z.max_l by lia.
      rewrite int32_id by (unfold in_int32; lia). rewrite positiveScaleInt64_mul by lia.
      by rewrite Z.pow_0_r, Z.mul_1_r.
Qed.

(** ** Theorem *)

(** [ScaledValue] rounds up: for a quantity that fits, the scaled value is at
    most [z] exactly when the quantity is at most [z] units of that scale. *)
Theorem ScaledValue_rounds_up q z :
  fits q Giga → ScaledValue q Giga ≤ z ↔ at_most q Giga z.
Proof. apply ScaledValue_le. Qed.

(** Ten binary gigabytes are eleven decimal ones. *)
Lemma ScaledValue_rounds_up_witness :
  ScaledValue (mkQuantity (mkAmount 10737418240 0) None) Giga ≤ 11 ↔
  at_most (mkQuantity (mkAmount 10737418240 0) None) Giga 11.
Proof.
  apply (ScaledValue_rounds_up (mkQuantity (mkAmount 10737418240 0) None) 11).
  unfold fits, q_num, q_exp. cbn [q_dec q_i am_value am_scale].
  split; [lia|split; [lia|reflexivity]].
Defined.
