(* ===== verification/ProviderSpec.v ===== *)
(** * Theorems about the provider object and the registry *)

From S2P Require Import Prelude GoStd Cloud Provider Instances.

Section provider_spec.
Context {W : Type} `{!Handler req W}.
Implicit Types (w : W).

(** The setting of a variable, or what the metadata service said. *)
Definition setting (value : string) (meta : req (result string)) (t : list (event req)) (v : string) : Prop :=
  if bool_decide (value = "") then ∃ r, Ev meta r ∈ t ∧ v = value_or_empty r
  else v = value ∧ ∀ r, Ev meta r ∉ t.

(** The metadata requests, told apart. *)
Definition meta_tag (ev : event req) : nat :=
  match ev with
  | Ev e _ => match e with
              | MetaRegion => 1 | MetaInstanceID => 2 | MetaVpcID => 3 | MetaVswitchID => 4 | _ => 0
              end
  end.

(** One optional setting: asked for exactly when it is empty. *)
Definition asked_for (value : string) (meta : req (result string)) (t : list (event req)) (v : string) : Prop :=
  (value ≠ "" ∧ v = value ∧ t = []) ∨ (value = "" ∧ ∃ r, v = value_or_empty r ∧ t = [Ev meta r]).

Lemma wp_optional (meta : req (result string)) (get : AliyunProvider → string)
    (set : AliyunProvider → string → AliyunProvider) p Q w :
  set p (get p) = p →
  (∀ w' t v, asked_for (get p) meta t v → Q (Ret (set p v)) w' t) →
  wp (if bool_decide (get p = "") && negb false then
        r ← call meta; mret (set p (value_or_empty r))
      else mret p) Q w.
Proof.
  intros Hset HQ. rewrite andb_true_r. case_bool_decide as Hg.
  - rewrite wp_bind, wp_call. cbn beta iota. rewrite wp_ret. apply HQ. right. eauto.
  - rewrite wp_ret. rewrite <- Hset at 1. apply HQ. by left.
Qed.

(** A setting seen in the whole trace: the other requests are different ones. *)
Lemma asked_for_setting value meta t v t1 t2 k :
  asked_for value meta t v → (∀ r, meta_tag (Ev meta r) = k) →
  Forall (λ ev, meta_tag ev ≠ k) (t1 ++ t2) →
  setting value meta (t1 ++ t ++ t2) v.
Proof.
  intros Ha Hk Hother. rewrite Forall_forall in Hother. unfold setting.
  destruct Ha as [(Hv & -> & ->)|(-> & r & -> & ->)].
  - rewrite bool_decide_false by done. split; [done|]. intros r Hin. simpl in Hin.
    apply Hother in Hin. by rewrite Hk in Hin.
  - rewrite bool_decide_true by done. exists r. split; [|done].
    rewrite !elem_of_app. right. left. by apply list_elem_of_singleton.
Qed.

Lemma asked_for_tags value meta t v k :
  asked_for value meta t v → (∀ r, meta_tag (Ev meta r) = k) →
  Forall (λ ev, meta_tag ev = k) t.
Proof. intros [(_ & _ & ->)|(_ & r & _ & ->)] Hk; by repeat constructor. Qed.

Lemma asked_for_reads value meta t v :
  asked_for value meta t v → (∀ r, read_only (Ev meta r)) → Forall read_only t.
Proof. intros [(_ & _ & ->)|(_ & r & _ & ->)] Hr; by repeat constructor. Qed.

Lemma parse_nodeNameType_known s :
  parse_nodeNameType s = NodeNameTypePrivateIP ∨ parse_nodeNameType s = NodeNameTypeHostname.
Proof. unfold parse_nodeNameType. repeat case_bool_decide; auto. Qed.

(** All four of them. *)
Lemma settings_all vr vi vv vs tr ti tv ts r i v s :
  asked_for vr MetaRegion tr r → asked_for vi MetaInstanceID ti i →
  asked_for vv MetaVpcID tv v → asked_for vs MetaVswitchID ts s →
  let t := tr ++ ti ++ tv ++ ts in
  Forall read_only t ∧ setting vr MetaRegion t r ∧ setting vi MetaInstanceID t i ∧
  setting vv MetaVpcID t v ∧ setting vs MetaVswitchID t s.
Proof.
  intros Hr Hi Hv Hs t.
  pose proof (asked_for_tags _ _ _ _ 1 Hr ltac:(done)) as Tr.
  pose proof (asked_for_tags _ _ _ _ 2 Hi ltac:(done)) as Ti.
  pose proof (asked_for_tags _ _ _ _ 3 Hv ltac:(done)) as Tv.
  pose proof (asked_for_tags _ _ _ _ 4 Hs ltac:(done)) as Ts.
  assert (∀ k k' l, Forall (λ ev, meta_tag ev = k) l → k ≠ k' → Forall (λ ev, meta_tag ev ≠ k') l) as Hne.
  { intros k k' l Hl Hk. eapply Forall_impl; [exact Hl|]. intros ev <-. done. }
  unfold t. split_and!.
  - rewrite !Forall_app. split_and!; by eapply asked_for_reads.
  - apply (asked_for_setting _ _ tr _ [] (ti ++ tv ++ ts) 1); [done..|].
    simpl. rewrite !Forall_app. split_and!; by eapply Hne.
  - apply (asked_for_setting _ _ ti _ tr (tv ++ ts) 2); [done..|].
    rewrite !Forall_app. split_and!; by eapply Hne.
  - replace (tr ++ ti ++ tv ++ ts) with ((tr ++ ti) ++ tv ++ ts) by (by rewrite !app_assoc).
    apply (asked_for_setting _ _ tv _ (tr ++ ti) ts 3); [done..|].
    rewrite !Forall_app. split_and!; by eapply Hne.
  - replace (tr ++ ti ++ tv ++ ts) with ((tr ++ ti ++ tv) ++ ts ++ []) by (by rewrite app_nil_r, !app_assoc).
    apply (asked_for_setting _ _ ts _ (tr ++ ti ++ tv) [] 4); [done..|].
    rewrite !Forall_app. split_and!; [by eapply Hne..|done].
Qed.

(** The three settings after a region that did not fail. *)
Lemma wp_settings p Q w :
  (∀ w' i v s ti tv ts, asked_for (instance p) MetaInstanceID ti i →
     asked_for (vpcID p) MetaVpcID tv v → asked_for (vswitch p) MetaVswitchID ts s →
     Q (Ret (with_vswitch (with_vpcID (with_instance p i) v) s)) w' (ti ++ tv ++ ts)) →
  wp (p ← (if bool_decide (instance p = "") && negb false then
             r ← call MetaInstanceID; mret (with_instance p (value_or_empty r)) else mret p);
      p ← (if bool_decide (vpcID p = "") && negb false then
             r ← call MetaVpcID; mret (with_vpcID p (value_or_empty r)) else mret p);
      (if bool_decide (vswitch p = "") && negb false then
         r ← call MetaVswitchID; mret (with_vswitch p (value_or_empty r)) else mret p)) Q w.
Proof.
  intros HQ. rewrite wp_bind. apply (wp_optional _ instance with_instance); [by destruct p|].
  intros w1 ti i Hi. rewrite wp_bind.
  apply (wp_optional _ vpcID with_vpcID); [by destruct p|]. intros w2 tv v Hv.
  apply (wp_optional _ vswitch with_vswitch); [by destruct p|]. intros w3 ts s Hs. by apply HQ.
Qed.

(** ** Theorems *)

(** [NewProvider] whatever the metadata service answers: it returns after read
    requests only.  Keys, zone, router and route table come from the environment; the
    region, and the instance, VPC and switch, are the environment's when set there
    (and are then not asked for) and the metadata service's otherwise, except that a
    failed region request ends the asking; the naming scheme is one of the two the
    lookups know. *)
Theorem NewProvider_correct env host w :
  ∃ p w' t, NewProvider env host w = (Ret p, w', t) ∧ Forall read_only t ∧
    accessKey p = env "ALIYUN_ACCESS_KEY" ∧ accessKeySecret p = env "ALIYUN_ACCESS_KEY_SECRET" ∧
    zone p = env "ALIYUN_ZONE" ∧ vrouterID p = env "ALIYUN_ROUTER" ∧
    routeTable p = env "ALIYUN_ROUTE_TABLE" ∧ hostname p = host ∧
    (nodeNameType p = NodeNameTypePrivateIP ∨ nodeNameType p = NodeNameTypeHostname) ∧
    setting (env "ALIYUN_REGION") MetaRegion t (region p) ∧
    ((∃ e, env "ALIYUN_REGION" = "" ∧ t = [Ev MetaRegion (Err e)] ∧ instance p = env "ALIYUN_INSTANCE" ∧
        vpcID p = env "ALIYUN_VPC" ∧ vswitch p = env "ALIYUN_VSWITCH") ∨
     (setting (env "ALIYUN_INSTANCE") MetaInstanceID t (instance p) ∧
      setting (env "ALIYUN_VPC") MetaVpcID t (vpcID p) ∧
      setting (env "ALIYUN_VSWITCH") MetaVswitchID t (vswitch p))).
Proof.
  apply wp_returns. unfold NewProvider.
  pose proof (parse_nodeNameType_known (env "ALIYUN_NODE_NAME_TYPE")) as Hnn.
  set (p0 := provider_from_env env host).
  rewrite wp_bind. case_bool_decide as HR.
  - rewrite wp_bind, wp_call. destruct (handle MetaRegion w) as [[r|e] w1]; cbn [fst snd value_or_empty is_err];
      cbn beta iota; rewrite wp_ret; cbn beta iota.
    + apply wp_settings. intros w' i v s ti tv ts Hi Hv Hs. simpl in Hi, Hv, Hs.
      pose proof (settings_all (env "ALIYUN_REGION") (env "ALIYUN_INSTANCE") (env "ALIYUN_VPC")
        (env "ALIYUN_VSWITCH") [Ev MetaRegion (Ok r)] ti tv ts r i v s) as Hall.
      destruct Hall as (? & ? & ? & ? & ?); [right; split; [exact HR|by exists (Ok r)]|done..|].
      simpl. split_and!; try done. right. done.
    + rewrite !andb_false_r. rewrite wp_bind, wp_ret. cbn beta iota. rewrite !andb_false_r.
      rewrite wp_bind, wp_ret. cbn beta iota. rewrite andb_false_r, wp_ret. simpl.
      split_and!; try done; [by repeat constructor| |left; eauto 6].
      unfold setting. rewrite bool_decide_true by done. exists (Err e). split; [left|done].
  - rewrite wp_ret. cbn beta iota.
    apply wp_settings. intros w' i v s ti tv ts Hi Hv Hs. simpl in Hi, Hv, Hs.
    pose proof (settings_all (env "ALIYUN_REGION") (env "ALIYUN_INSTANCE") (env "ALIYUN_VPC")
        (env "ALIYUN_VSWITCH") [] ti tv ts (env "ALIYUN_REGION") i v s) as Hall.
    destruct Hall as (? & ? & ? & ? & ?); [by left|done..|].
    simpl. split_and!; try done. by right.
Qed.

(** The registry.  [GetProvider] runs the factory registered last under the name,
    finds the same factories under other names, and answers an error for a name that
    was never registered. *)
Theorem GetProvider_RegisterProvider {P} (m : gmap string (go W P)) name name' f w :
  GetProvider (RegisterProvider m name f) name w =
    (match outcome_of f w with
     | Ret x => Ret (Ok x) | Panic s => Panic s | Exit c => Exit c | OutOfFuel => OutOfFuel
     end, world_of f w, trace_of f w) ∧
  (name' ≠ name → GetProvider (RegisterProvider m name f) name' = GetProvider m name') ∧
  (name' ≠ name → m !! name' = None →
     GetProvider (RegisterProvider m name f) name' w = (Ret (Err ("No such provider: " +:+ name')), w, [])).
Proof.
  unfold GetProvider, RegisterProvider. rewrite lookup_insert_eq. split_and!.
  - unfold mbind, M_bind, outcome_of, world_of, trace_of. destruct (f w) as [[[] w'] t]; simpl; try done.
    by rewrite app_nil_r.
  - intros Hn. by rewrite lookup_insert_ne.
  - intros Hn Hm. by rewrite lookup_insert_ne, Hm.
Qed.

End provider_spec.
