(* ===== verification/LBSpec.v ===== *)
(** * Load balancers whatever the cloud answers

    Theorems about [loadbalancer.go] that assume nothing of the service: names,
    rejected services, what may be created and deleted, and the ways
    [EnsureLoadBalancer] can go wrong. *)

From S2P Require Import Prelude GoStd Cloud MapUtils MapUtilsSpec Provider Instances InstancesSpec LoadBalancer SimCloud.

(** ** Names *)

(** The bytes of a UID without dashes. *)
Definition undashed (uid : string) : list ascii :=
  base.filter (λ c, c ≠ "-"%char) (str_to_list uid).

Lemma GetLoadBalancerName_bytes service :
  str_to_list (GetLoadBalancerName service) = "a"%char :: take 31 (undashed (svc_UID service)).
Proof.
  unfold GetLoadBalancerName.
  assert (str_to_list (Replace ("a" +:+ svc_UID service) "-" "" (-1)) =
    "a"%char :: undashed (svc_UID service)) as Hr.
  { rewrite Replace_remove. simpl. by rewrite filter_cons_True. }
  destruct (Nat.ltb_spec 32 (String.length (Replace ("a" +:+ svc_UID service) "-" "" (-1)))) as [Hl|Hl].
  - rewrite str_to_list_take, Hr. done.
  - rewrite Hr. rewrite <- str_to_list_length, Hr in Hl. simpl in Hl.
    by rewrite take_ge by lia.
Qed.

(** ** Requests *)

(** Requests that create a load balancer. *)
Definition is_creation (ev : event req) : bool :=
  match ev with Ev e _ => match e with CreateLoadBalancer _ => true | _ => false end end.
Definition creations (t : list (event req)) : list (event req) :=
  base.filter (λ ev, is_creation ev = true) t.
Definition no_creation (ev : event req) : Prop := is_creation ev = false.

Lemma creations_app t1 t2 : creations (t1 ++ t2) = creations t1 ++ creations t2.
Proof. apply filter_app. Qed.

Lemma no_creation_creations t : Forall no_creation t → creations t = [].
Proof.
  unfold creations, no_creation. induction 1 as [|ev t Hev _ IH]; [done|].
  rewrite filter_cons_False; [done|]. by rewrite Hev.
Qed.

(** According to trace [t], no listed load balancer has the name. *)
Definition listed_without (p : AliyunProvider) (name : string) (t : list (event req)) : Prop :=
  ∃ lbs, Ev (DescribeLoadBalancers (region p)) (Ok lbs) ∈ t ∧
    ∀ lb, lb ∈ lbs → lb_LoadBalancerName lb ≠ name.

(** The request for the attributes of a listener. *)
Definition attribute_request (lb : LoadBalancerType) (pp : ListenerPortAndProtocolType) :
    option (req (result ListenerAttribute)) :=
  let proto := ToLower (lp_ListenerProtocol pp) in
  if bool_decide (proto = "tcp")
  then Some (DescribeLoadBalancerTCPListenerAttribute (lb_LoadBalancerId lb) (lp_ListenerPort pp))
  else if bool_decide (proto = "udp")
  then Some (DescribeLoadBalancerUDPListenerAttribute (lb_LoadBalancerId lb) (lp_ListenerPort pp))
  else None.

Section any_cloud.
Context {W : Type} `{!Handler req W} `{!FloatConv} `{!MapOrder}.
Implicit Types (w : W).

(** ** Which operations create nothing *)

Lemma find_lb_emits P name lbs :
  (∀ id r, P (Ev (DescribeLoadBalancerAttribute id) r)) → emits P (find_lb (W:=W) name lbs).
Proof.
  intros HP. induction lbs as [|lb lbs IH]; simpl; [apply emits_ret|].
  case_bool_decide; [|done]. go_struct.
Qed.

Lemma getLoadBalancer_no_creation p name : emits no_creation (getLoadBalancer (W:=W) p name).
Proof. unfold getLoadBalancer. go_struct; [done|]. by apply find_lb_emits. Qed.

Lemma wait_created_no_creation retry p name err :
  emits no_creation (wait_created (W:=W) retry p name err).
Proof.
  revert err. induction retry as [|retry IH]; intros err; simpl; [apply emits_ret|].
  apply emits_bind; [by apply emits_call|intros _].
  apply emits_bind; [apply getLoadBalancer_no_creation|]. intros [[lb|]|e]; auto using emits_ret.
Qed.

Lemma listener_diff_no_creation lb actual expected removals stopped :
  emits no_creation (listener_diff (W:=W) lb actual expected removals stopped).
Proof.
  revert expected removals stopped.
  induction actual as [|x actual IH]; intros expected removals stopped; simpl; [apply emits_ret|].
  destruct (expected !! _); [|apply IH].
  apply emits_bind_ok; [unfold getLBListenerAttributes; go_struct; done|].
  intros [port status]. case_bool_decide; apply IH.
Qed.

Lemma ensureLBListeners_no_creation lb ports options :
  emits no_creation (ensureLBListeners (W:=W) lb ports options).
Proof.
  unfold ensureLBListeners. apply emits_bind_ok; [apply listener_diff_no_creation|].
  intros [[expected removals] stopped].
  apply emits_bind_ok; [|intros _; apply emits_bind_ok; [|intros _]].
  - induction stopped as [|x l IH]; simpl; go_struct; done.
  - induction removals as [|x l IH]; simpl; go_struct; done.
  - induction (range_map expected) as [|[k sp] l IH]; simpl; [apply emits_ret|].
    apply emits_bind_ok; [|done]. unfold create_listener. go_struct; done.
Qed.

Lemma ensureLBBackends_no_creation lb instances :
  emits no_creation (ensureLBBackends (W:=W) lb instances).
Proof. unfold ensureLBBackends. destruct (backend_diff _ _ _). go_struct; done. Qed.

Lemma sync_lb_no_creation lb service options instances :
  emits no_creation (sync_lb (W:=W) lb service options instances).
Proof.
  unfold sync_lb. apply emits_bind; [apply ensureLBListeners_no_creation|].
  intros [[]|]; [|apply emits_ret]. apply emits_bind; [apply ensureLBBackends_no_creation|].
  intros [[]|]; apply emits_ret.
Qed.

(** A step that creates nothing may be run first. *)
Lemma wp_no_creation {A} (m : go W A) Q w :
  emits no_creation m → (∀ o w' t, creations t = [] → Q o w' t) → wp m Q w.
Proof. intros Hm HQ. apply HQ, no_creation_creations, Hm. Qed.

(** ** Lookups *)

Lemma wp_getLoadBalancer_listed p name Q w :
  (∀ r w' t, creations t = [] → Forall read_only t → (r = Ok None → listed_without p name t) →
     Q (Ret r) w' t) →
  wp (getLoadBalancer p name) Q w.
Proof.
  intros HQ. unfold getLoadBalancer, bind_ok. rewrite wp_bind, wp_call.
  destruct (handle (DescribeLoadBalancers (region p)) w) as [[lbs|e] w1]; simpl.
  2:{ rewrite wp_ret. apply HQ; [done|by repeat constructor|done]. }
  set (ev := Ev _ _).
  assert (wp (find_lb name lbs) (returns (λ r w' t, creations t = [] ∧ Forall read_only t ∧
    (r = Ok None → ∀ lb, lb ∈ lbs → lb_LoadBalancerName lb ≠ name))) w1) as Hf.
  { clear HQ ev. induction lbs as [|lb lbs IH]; simpl.
    - rewrite wp_ret. split_and!; [done..|]. intros _ lb []%elem_of_nil.
    - case_bool_decide as Hn.
      + unfold bind_ok. rewrite wp_bind, wp_call.
        destruct (handle (DescribeLoadBalancerAttribute _) w1) as [[lb'|e] w2]; simpl; rewrite wp_ret;
          (split_and!; [done|by repeat constructor|done]).
      + eapply wp_mono; [exact IH|]. intros [r| | |] w' t; simpl; try done.
        intros (? & ? & Hr). split_and!; [done..|]. intros Hnone lb' [->|Hlb]%elem_of_cons; auto. }
  eapply wp_mono; [exact Hf|]. intros [r| | |] w' t; simpl; try done. intros (Hc & Ht & Hr).
  apply HQ; [|by constructor|].
  - change (creations ([ev] ++ t) = []). by rewrite creations_app, Hc.
  - intros Hnone. exists lbs. split; [by left|auto].
Qed.

Lemma wp_getInstancesByNodes_any p nodes Q w :
  (∀ w' t, creations t = [] → Forall read_only t →
     Q (Ret match reported_instances p w with
            | Ok (insts, _) => by_names_loop (by_nodeNameType (nodeNameType p)) insts [] (n_Name <$> nodes)
            | Err e => Err e
            end) w' t) →
  wp (getInstancesByNodes p nodes) Q w.
Proof.
  intros HQ. unfold getInstancesByNodes, wp, outcome_of, world_of, trace_of.
  rewrite getInstancesByNodeNames_run. apply HQ; [done|by repeat constructor].
Qed.

(** Two different host names are never found together. *)
Lemma two_hosts_err p nodes insts n1 n2 :
  nodeNameType p = NodeNameTypeHostname →
  n1 ∈ n_Name <$> nodes → n2 ∈ n_Name <$> nodes → n1 ≠ n2 →
  ∃ e, by_names_loop (by_nodeNameType (nodeNameType p)) insts [] (n_Name <$> nodes) = Err e.
Proof.
  intros Ht H1 H2 Hne. destruct (by_names_loop _ _ _ _) as [results|e] eqn:Hl; [|eauto].
  destruct (n_Name <$> nodes) as [|n ns]; [by apply elem_of_nil in H1|].
  apply by_names_loop_ok in Hl as (i & _ & _ & Hall). destruct Hne.
  apply Hall, by_nodeNameType_named in H1, H2. unfold named in *.
  rewrite bool_decide_false in * by (by rewrite Ht). destruct H1 as [_ <-], H2 as [_ <-]. done.
Qed.

(** ** [EnsureLoadBalancer] *)

(** The services [EnsureLoadBalancer] turns down. *)
Definition unsupported (service : Service) : Prop :=
  svc_SessionAffinity service ≠ ServiceAffinityNone ∨
  (∃ port, port ∈ svc_Ports service ∧ sp_Protocol port ≠ ProtocolTCP ∧ sp_Protocol port ≠ ProtocolUDP) ∨
  svc_LoadBalancerIP service ≠ "".

Lemma check_service_unsupported service :
  (∃ e, check_service service = Some e) ↔ unsupported service.
Proof.
  unfold check_service, unsupported. case_bool_decide as Ha; [naive_solver|].
  destruct (find _ (svc_Ports service)) as [port|] eqn:Hf.
  - split; [|naive_solver]. intros _. right. left. exists port.
    apply find_some in Hf as [Hin%list_elem_of_In Hp].
    apply negb_true_iff, orb_false_iff in Hp as [H1%bool_decide_eq_false H2%bool_decide_eq_false]. done.
  - assert (¬ ∃ port, port ∈ svc_Ports service ∧ sp_Protocol port ≠ ProtocolTCP ∧
      sp_Protocol port ≠ ProtocolUDP) as Hno.
    { intros (port & Hin & H1 & H2). eapply find_none in Hf; [|by apply list_elem_of_In].
      apply negb_false_iff, orb_true_iff in Hf as [Hf%bool_decide_eq_true|Hf%bool_decide_eq_true]; done. }
    case_bool_decide; naive_solver.
Qed.

Lemma wp_EnsureLoadBalancer_creation p clusterName service nodes w :
  wp (EnsureLoadBalancer p clusterName service nodes) (λ o w' t,
    creations t = [] ∨
    ∃ args r, creations t = [Ev (CreateLoadBalancer args) r] ∧
      cl_LoadBalancerName args = GetLoadBalancerName service ∧
      listed_without p (GetLoadBalancerName service) t) w.
Proof.
  unfold EnsureLoadBalancer. destruct (check_service service); [rewrite wp_ret; by left|].
  rewrite wp_bind. apply wp_getInstancesByNodes_any. intros w1 t1 Hc1 _. cbn beta iota.
  set (r1 := match reported_instances p w with Ok _ => _ | Err _ => _ end).
  destruct r1 as [instances|e]; [|rewrite wp_ret, app_nil_r; by left].
  rewrite wp_bind. apply wp_getLoadBalancer_listed. intros r2 w2 t2 Hc2 _ Hl. cbn beta iota.
  destruct r2 as [[lb|]|e]; [| |rewrite wp_ret; left; by rewrite app_nil_r, creations_app, Hc1, Hc2].
  { apply wp_no_creation; [apply sync_lb_no_creation|]. intros o w3 t3 Hc3. left.
    by rewrite !creations_app, Hc1, Hc2, Hc3. }
  specialize (Hl eq_refl). rewrite wp_bind, wp_call. cbn beta iota.
  rewrite wp_bind, wp_call. set (args := mkCreateLoadBalancerArgs _ _ _ _ _ _). cbn beta iota.
  set (w3 := (handle CreateRandomString w2).2).
  assert (∀ t, creations t = [] → ∀ r, (λ t', creations t' = [] ∨
    ∃ args r, creations t' = [Ev (CreateLoadBalancer args) r] ∧
      cl_LoadBalancerName args = GetLoadBalancerName service ∧
      listed_without p (GetLoadBalancerName service) t')
    (t1 ++ t2 ++ [Ev CreateRandomString (handle CreateRandomString w2).1] ++
       [Ev (CreateLoadBalancer args) r] ++ t)) as Hdone.
  { intros t Ht r. right. exists args, r. split_and!; [|done|].
    - by rewrite !creations_app, Hc1, Hc2, Ht.
    - destruct Hl as (lbs & Hin & Hno). exists lbs. split; [|done]. rewrite !elem_of_app. auto. }
  destruct (handle (CreateLoadBalancer args) w3) as [[id|e] w4]; cbn [fst snd]; cbn beta iota;
    [|rewrite wp_ret; by apply Hdone].
  rewrite wp_bind. apply wp_no_creation; [apply wait_created_no_creation|].
  intros [[[lb|] err]| | |] w5 t5 Hc5; try by apply Hdone.
  - apply wp_no_creation; [apply sync_lb_no_creation|]. intros o w6 t6 Hc6.
    apply Hdone. by rewrite creations_app, Hc5, Hc6.
  - rewrite wp_ret, app_nil_r. by apply Hdone.
Qed.

(** ** Theorems *)


(** A service with a session affinity, a protocol or a fixed address the
    provider does not support is turned down before any request is sent. *)
Theorem EnsureLoadBalancer_rejects p clusterName service nodes w :
  unsupported service →
  ∃ e, EnsureLoadBalancer p clusterName service nodes w = (Ret (None, Some e), w, []).
Proof.
  intros [e He]%check_service_unsupported. exists e. unfold EnsureLoadBalancer. by rewrite He.
Qed.

(** C34: whatever the cloud answers, and however the call ends,
    [EnsureLoadBalancer] asks for at most one new load balancer, of the service's
    name, and only after a listing without that name. *)
Theorem EnsureLoadBalancer_creates_once p clusterName service nodes w :
  let t := trace_of (EnsureLoadBalancer p clusterName service nodes) w in
  creations t = [] ∨
  ∃ args r, creations t = [Ev (CreateLoadBalancer args) r] ∧
    cl_LoadBalancerName args = GetLoadBalancerName service ∧
    listed_without p (GetLoadBalancerName service) t.
Proof. exact (wp_EnsureLoadBalancer_creation p clusterName service nodes w). Qed.

(** With host names as node names, a cluster of two differently named nodes
    never gets a load balancer: whatever the cloud answers, the call returns an
    error and changes nothing. *)
Theorem EnsureLoadBalancer_two_hosts_fail p clusterName service nodes w n1 n2 :
  nodeNameType p = NodeNameTypeHostname →
  n1 ∈ n_Name <$> nodes → n2 ∈ n_Name <$> nodes → n1 ≠ n2 →
  ∃ e w' t, EnsureLoadBalancer p clusterName service nodes w = (Ret (None, Some e), w', t) ∧
    mutations t = [].
Proof.
  intros Ht H1 H2 Hne.
  enough (wp (EnsureLoadBalancer p clusterName service nodes)
    (returns (λ r _ t, (∃ e, r = (None, Some e)) ∧ mutations t = [])) w) as Hwp.
  { apply wp_returns in Hwp as (r & w' & t & Hm & [e ->] & Hmut). eauto. }
  unfold EnsureLoadBalancer. destruct (check_service service); [rewrite wp_ret; split; [eauto|done]|].
  rewrite wp_bind. apply wp_getInstancesByNodes_any. intros w1 t1 _ Hro. cbn beta iota.
  destruct (reported_instances p w) as [[insts pr]|e].
  - destruct (two_hosts_err p nodes insts n1 n2 Ht H1 H2 Hne) as [e ->].
    rewrite wp_ret, app_nil_r. simpl. split; [eauto|by apply read_only_mutations].
  - rewrite wp_ret, app_nil_r. simpl. split; [eauto|by apply read_only_mutations].
Qed.

(** When a creation is accepted but the listings never show the load balancer,
    [EnsureLoadBalancer] returns neither a status nor an error. *)
Theorem EnsureLoadBalancer_nil_nil p clusterName service nodes w insts pr instances lbs :
  check_service service = None →
  reported_instances p w = Ok (insts, pr) →
  by_names_loop (by_nodeNameType (nodeNameType p)) insts [] (n_Name <$> nodes) = Ok instances →
  (∀ w', (handle (DescribeLoadBalancers (region p)) w').1 = Ok lbs) →
  (∀ lb, lb ∈ lbs → lb_LoadBalancerName lb ≠ GetLoadBalancerName service) →
  (∀ args w', ∃ id, (handle (CreateLoadBalancer args) w').1 = Ok id) →
  outcome_of (EnsureLoadBalancer p clusterName service nodes) w = Ret (None, None).
Proof.
  intros Hck His Hinst Hlist Hno Hcreate.
  assert (∀ Q w', (∀ w'' t, Q (Ret (Ok None)) w'' t) →
    wp (getLoadBalancer p (GetLoadBalancerName service)) Q w') as Hget.
  { intros Q w' HQ. unfold getLoadBalancer, bind_ok. rewrite wp_bind, wp_call, Hlist. simpl.
    assert (find_lb (W:=W) (GetLoadBalancerName service) lbs = mret (Ok None)) as ->.
    { clear -Hno. induction lbs as [|lb l IH]; [done|]. simpl.
      rewrite bool_decide_false by (apply Hno; by left). apply IH. intros x Hx. apply Hno. by right. }
    rewrite wp_ret. apply HQ. }
  enough (wp (EnsureLoadBalancer p clusterName service nodes) (λ o _ _, o = Ret (None, None)) w) by done.
  unfold EnsureLoadBalancer. rewrite Hck, wp_bind. apply wp_getInstancesByNodes_any.
  rewrite His, Hinst. intros w1 t1 _ _. cbn beta iota.
  rewrite wp_bind. apply Hget. intros w2 t2. cbn beta iota.
  rewrite wp_bind, wp_call. cbn beta iota. rewrite wp_bind, wp_call. cbn beta iota.
  set (args := mkCreateLoadBalancerArgs _ _ _ _ _ _).
  destruct (Hcreate args (handle CreateRandomString w2).2) as [id ->].
  rewrite wp_bind. generalize (handle (CreateLoadBalancer args) (handle CreateRandomString w2).2).2.
  intros w3. unfold wait_created.
  do 3 (rewrite wp_bind, wp_call, wp_bind; apply Hget; intros ? ?; cbn beta iota).
  by rewrite !wp_ret.
Qed.

(** Whatever the cloud answers, [EnsureLoadBalancerDeleted] returns, and it
    deletes at most one load balancer: one the service described when asked about a
    load balancer listed under the service's name. *)
Theorem EnsureLoadBalancerDeleted_safe p clusterName service w :
  ∃ r w' t, EnsureLoadBalancerDeleted p clusterName service w = (Ret r, w', t) ∧
    (mutations t = [] ∨
     ∃ lbs lb lb' r', mutations t = [Ev (DeleteLoadBalancer (lb_LoadBalancerId lb')) r'] ∧
       Ev (DescribeLoadBalancers (region p)) (Ok lbs) ∈ t ∧ lb ∈ lbs ∧
       lb_LoadBalancerName lb = GetLoadBalancerName service ∧
       Ev (DescribeLoadBalancerAttribute (lb_LoadBalancerId lb)) (Ok lb') ∈ t).
Proof.
  apply wp_returns. unfold EnsureLoadBalancerDeleted, getLoadBalancer, bind_ok.
  rewrite !wp_bind, wp_call. set (name := GetLoadBalancerName service).
  destruct (handle (DescribeLoadBalancers (region p)) w) as [[lbs|e] w1]; simpl.
  2:{ rewrite wp_ret. simpl. rewrite wp_ret. by left. }
  set (ev := Ev (DescribeLoadBalancers (region p)) (Ok lbs)).
  apply (wp_mono _ (returns (λ r _ t, Forall read_only t ∧ match r with
    | Ok (Some lb') => ∃ lb, lb ∈ lbs ∧ lb_LoadBalancerName lb = name ∧
        Ev (DescribeLoadBalancerAttribute (lb_LoadBalancerId lb)) (Ok lb') ∈ t
    | _ => True end))).
  { clear ev. induction lbs as [|lb lbs IH]; simpl; [rewrite wp_ret; done|].
    case_bool_decide as Hn.
    - unfold bind_ok. rewrite wp_bind, wp_call.
      destruct (handle (DescribeLoadBalancerAttribute _) w1) as [[lb'|e] w2]; simpl; rewrite wp_ret; simpl;
        (split; [by repeat constructor|]); [|done].
      exists lb. split_and!; [by left|done|]. by left.
    - eapply wp_mono; [exact IH|]. intros [[[lb'|]|e]| | |] w' t; simpl; try done.
      intros [Ht (lb0 & Hin & ? & ?)]. split; [done|]. exists lb0. split_and!; [by right|done..]. }
  intros [[[lb'|]|e]| | |] w2 t; simpl; try done.
  - intros [Ht (lb & Hin & Hname & Hd)]. rewrite wp_call. simpl. right. exists lbs, lb, lb'. eexists.
    split_and!; [|by left|done|done|].
    + rewrite app_comm_cons, mutations_read_only_app by (by constructor). done.
    + right. rewrite elem_of_app. by left.
  - intros [Ht _]. rewrite wp_ret. left. rewrite app_nil_r. apply read_only_mutations. by constructor.
  - intros [Ht _]. rewrite wp_ret. left. rewrite app_nil_r. apply read_only_mutations. by constructor.
Qed.

(** A failed attribute request ends the process: [getLBListenerAttributes]
    reads the missing response. *)
Theorem getLBListenerAttributes_panics lb pp w e w' request :
  attribute_request lb pp = Some request →
  handle request w = (Err e, w') →
  ∃ msg t, getLBListenerAttributes lb pp w = (Panic msg, w', t).
Proof.
  unfold attribute_request, getLBListenerAttributes, mbind, M_bind, call. intros Hr Hh.
  case_bool_decide; [|case_bool_decide; [|done]]; injection Hr as <-; rewrite Hh; eauto.
Qed.

(** Annotations carry options.  The annotations [StructToMap] writes for an
    options value, under the provider's prefix, are read back as that value. *)
Theorem service_options_roundtrip o m service :
  in_int64 (o_Bandwidth o) → in_int64 (o_HealthyThreshold o) → in_int64 (o_UnhealthyThreshold o) →
  in_int64 (o_HealthCheckConnectTimeout o) → in_int64 (o_HealthCheckInterval o) →
  svc_Annotations service =
    (StructToMap (AnyStruct (LBOptions_fields o)) (Some m) AliyunAnnotationPrefix).1 →
  service_options service = o.
Proof.
  intros H1 H2 H3 H4 H5 Hs.
  destruct (roundtrip_fields (LBOptions_fields o) (LBOptions_fields zero_LBOptions) m
    AliyunAnnotationPrefix) as (m' & Hm & Hr & _).
  - split; [by repeat constructor|]. apply (bool_decide_unpack _). reflexivity.
  - by repeat constructor.
  - by repeat (apply Forall_cons; split; [by intros _|]).
  - rewrite Hm in Hs. cbn [fst] in Hs. unfold service_options. rewrite Hs, Hr. by destruct o.
Qed.

End any_cloud.

(** ** Witnesses *)

Module AnyCloudWitness.
#[local] Existing Instance canonical_order.
#[local] Existing Instance text_float.

Definition i1 : InstanceAttributesType := mkInstance "i-1" "node-1" ["10.0.0.1"].
Definition w0 : cloud := mkCloud ∅ [i1] ∅ ∅ [] 0.
Definition provider : AliyunProvider :=
  mkProvider "key" "secret" "cn-hangzhou" "cn-hangzhou-a" "vpc-1" "vrt-1" "vsw-1" "rtb-1" "i-1"
    "node-1" NodeNameTypeHostname.
Definition service (affinity : string) : Service :=
  mkService "1234-abcd" None affinity [mkServicePort "TCP" 80 30080] "".
Definition node1 : Node := mkNode "node-1" [].
Definition node2 : Node := mkNode "node-2" [].

(** A cloud whose listings never show a load balancer. *)
Definition hidden : Handler req cloud := λ R e w,
  match e in req R return R * cloud with
  | DescribeLoadBalancers _ => (Ok [], w)
  | e => sim_handler _ e w
  end.

Lemma EnsureLoadBalancer_rejects_witness :
  ∃ e, EnsureLoadBalancer provider "cluster" (service "ClientIP") [node1] w0 =
    (Ret (None, Some e), w0, []).
Proof.
  apply (EnsureLoadBalancer_rejects provider "cluster" (service "ClientIP") [node1] w0). left. done.
Defined.

Lemma EnsureLoadBalancer_two_hosts_fail_witness :
  ∃ e w' t, EnsureLoadBalancer provider "cluster" (service "None") [node1; node2] w0 =
      (Ret (None, Some e), w', t) ∧ mutations t = [].
Proof.
  apply (EnsureLoadBalancer_two_hosts_fail provider "cluster" (service "None") [node1; node2] w0
    "node-1" "node-2").
  - done.
  - left.
  - right. left.
  - done.
Defined.

Lemma EnsureLoadBalancer_nil_nil_witness :
  outcome_of (EnsureLoadBalancer (Handler0:=hidden) provider "cluster" (service "None") [node1]) w0 =
    Ret (None, None).
Proof.
  apply (EnsureLoadBalancer_nil_nil (Handler0:=hidden) provider "cluster" (service "None") [node1] w0
    [i1] (mkPaginationResult 1 1 1) [i1] []).
  - reflexivity.
  - reflexivity.
  - reflexivity.
  - intros w'. reflexivity.
  - intros lb Hlb. by apply elem_of_nil in Hlb.
  - intros args w'. eexists. reflexivity.
Defined.

Lemma getLBListenerAttributes_panics_witness :
  ∃ msg t, getLBListenerAttributes (mkLoadBalancer "lb-1" "" "" [] []) (mkListenerPP 80 "TCP") w0 =
    (Panic msg, w0, t).
Proof.
  apply (getLBListenerAttributes_panics (mkLoadBalancer "lb-1" "" "" [] []) (mkListenerPP 80 "TCP") w0
    "InvalidLoadBalancerId.NotFound" w0 (DescribeLoadBalancerTCPListenerAttribute "lb-1" 80)).
  - reflexivity.
  - reflexivity.
Defined.

Lemma service_options_roundtrip_witness :
  service_options (mkService "" (StructToMap (AnyStruct (LBOptions_fields
    (mkLBOptions "paybytraffic" 10 3 3 5 2))) (Some ∅) AliyunAnnotationPrefix).1 "None" [] "") =
  mkLBOptions "paybytraffic" 10 3 3 5 2.
Proof.
  apply (service_options_roundtrip (mkLBOptions "paybytraffic" 10 3 3 5 2) ∅); unfold in_int64; simpl; lia || done.
Defined.

End AnyCloudWitness.
