(* ===== verification/LBSync.v ===== *)
(** * Load balancer synchronisation meets the service's promise

    The theorems of [loadbalancer.go] against the laws of [SLB.v]: after
    [ensureLBListeners] the listeners of the load balancer are exactly the ports
    of the service, after [ensureLBBackends] its servers are exactly the given
    instances, whatever they were before. *)

From S2P Require Import Prelude GoStd Cloud MapUtils Provider Instances InstancesSpec LoadBalancer SLB SimCloud.

(** ** The abstract specification *)

(** The ports of a service that get a listener. *)
Definition wanted (ports : list ServicePort) : list ServicePort :=
  base.filter (λ p, sp_NodePort p ≠ 0) ports.

(** Service ports the API server admits and the provider can serve: TCP or UDP,
    node ports of 32 bits, no port number twice. *)
Record ports_ok (ports : list ServicePort) : Prop := {
  po_proto : ∀ p, p ∈ wanted ports → sp_Protocol p = ProtocolTCP ∨ sp_Protocol p = ProtocolUDP;
  po_range : ∀ p, p ∈ wanted ports → in_int32 (sp_NodePort p);
  po_nodup : NoDup (sp_Port <$> wanted ports)
}.

(** Listener [l] serves service port [sp]. *)
Definition serves (l : Listener) (sp : ServicePort) : Prop :=
  ToLower (l_proto l) = ToLower (sp_Protocol sp) ∧ l_backend l = sp_NodePort sp ∧
  l_status l ≠ Stopped.

(** The listeners are exactly those the service asks for. *)
Definition listeners_synced (ls : gmap Z Listener) (ports : list ServicePort) : Prop :=
  (∀ p, p ∈ wanted ports → ∃ l, ls !! sp_Port p = Some l ∧ serves l p) ∧
  (∀ port l, ls !! port = Some l → ∃ p, p ∈ wanted ports ∧ sp_Port p = port).

(** Backend ports of 32 bits: what the code's conversion to [int32] assumes. *)
Definition backends_in_range (ls : gmap Z Listener) : Prop :=
  ∀ port l, ls !! port = Some l → in_int32 (l_backend l).

(** The servers of a load balancer are exactly [ids]: servers that were there keep
    their weight, new ones get weight 100. *)
Definition servers_synced (old new : gmap string Z) (ids : list string) : Prop :=
  ∀ s, new !! s = if bool_decide (s ∈ ids) then Some (default 100 (old !! s)) else None.

(** At most one load balancer of the account has a given name. *)
Definition unique_names (m : gmap string LBState) : Prop :=
  ∀ id1 id2 st1 st2, m !! id1 = Some st1 → m !! id2 = Some st2 →
    s_name st1 = s_name st2 → id1 = id2.

(** ** Keys *)

Lemma listener_key_eq port protocol :
  listener_key port protocol = pretty port +:+ "|" +:+ ToLower protocol.
Proof. unfold listener_key, Sprintf. simpl. by rewrite str_app_nil_r. Qed.

Lemma listener_key_inj port1 proto1 port2 proto2 :
  listener_key port1 proto1 = listener_key port2 proto2 →
  port1 = port2 ∧ ToLower proto1 = ToLower proto2.
Proof.
  rewrite !listener_key_eq. intros Heq%(f_equal str_to_list).
  rewrite !str_to_list_app in Heq. simpl in Heq.
  assert (∀ z : Z, "|"%char ∉ str_to_list (pretty z)) as Hno.
  { intros z Hin. pose proof (pretty_Z_bytes z) as Hb.
    unfold str_Forall in Hb. rewrite Forall_forall in Hb.
    by apply Hb, decimal_byte_digit_or_dash in Hin. }
  apply split_at_sep in Heq as [H1 H2]; [|apply Hno..].
  by apply (inj str_to_list), (inj pretty) in H1; apply (inj str_to_list) in H2.
Qed.

Definition sp_key (sp : ServicePort) : string := listener_key (sp_Port sp) (sp_Protocol sp).
Definition pp_key (x : ListenerPortAndProtocolType) : string :=
  listener_key (lp_ListenerPort x) (lp_ListenerProtocol x).

(** ** The expected listeners *)

Lemma expected_listeners_fold ports m :
  expected_listeners ports m = foldl (λ m p, <[sp_key p := p]> m) m (wanted ports).
Proof.
  revert m. induction ports as [|p ports IH]; intros m; simpl; [done|].
  unfold wanted in *. rewrite filter_cons. by case_bool_decide; case_decide.
Qed.

(** Wanted ports with distinct numbers are the bindings of the map. *)
Lemma lookup_expected ports k sp :
  ports_ok ports →
  expected_listeners ports ∅ !! k = Some sp ↔ sp ∈ wanted ports ∧ k = sp_key sp.
Proof.
  intros Hok. rewrite expected_listeners_fold.
  pose proof (po_nodup _ Hok) as Hnd. clear Hok.
  assert (∀ l (m : gmap string ServicePort), NoDup (sp_Port <$> l) →
    (∀ k' q, m !! k' = Some q → k' = sp_key q ∧ sp_Port q ∉ sp_Port <$> l) →
    foldl (λ m p, <[sp_key p := p]> m) m l !! k = Some sp ↔
      (m !! k = Some sp ∨ (sp ∈ l ∧ k = sp_key sp))) as Hgen.
  { clear Hnd. induction l as [|p l IH]; intros m Hnd Hm; simpl; [set_solver|].
    apply NoDup_cons in Hnd as [Hp Hnd]. rewrite IH; [|done|].
    - rewrite lookup_insert. destruct (decide (sp_key p = k)) as [<-|Hne].
      + rewrite elem_of_cons. split.
        * intros [[= ->]|[Hin Hk]]; [by right; split; [left|]|by right; split; [right|]].
        * intros [Hmk|[[-> |Hin] Hk]]; [|by left|by right].
          apply Hm in Hmk as [Hk Hnin]. apply listener_key_inj in Hk as [Hk _]. set_solver.
      + rewrite elem_of_cons. split.
        * intros [Hmk|[Hin Hk]]; [by left|]. right. tauto.
        * intros [Hmk|[[-> |Hin] Hk]]; [by left|congruence|by right].
    - intros k' q. rewrite lookup_insert. case_decide as Hkq.
      + intros [= ->]. split; [done|]. done.
      + intros Hq%Hm. destruct Hq as [-> Hq]. split; [done|]. set_solver. }
  rewrite Hgen; [|done|]; set_solver.
Qed.

(** ** The diff, as a function of the account's state *)

(** The service port a reported listener is kept for, if any. *)
Definition kept (ls : gmap Z Listener) (expected : gmap string ServicePort)
    (x : ListenerPortAndProtocolType) : option ServicePort :=
  sp ← expected !! pp_key x; l ← ls !! lp_ListenerPort x;
  if bool_decide (int32 (l_backend l) = sp_NodePort sp) then Some sp else None.

Definition kept_list ls expected (actual : list ListenerPortAndProtocolType) :=
  base.filter (λ x, is_Some (kept ls expected x)) actual.
Definition dropped_list ls expected (actual : list ListenerPortAndProtocolType) :=
  base.filter (λ x, kept ls expected x = None) actual.
Definition stopped_in (ls : gmap Z Listener) (port : Z) : Prop :=
  l_status <$> ls !! port = Some Stopped.
#[export] Instance stopped_in_dec ls port : Decision (stopped_in ls port).
Proof. unfold stopped_in. apply _. Defined.
Definition delete_keys {A} (m : gmap string A) (ks : list string) : gmap string A :=
  foldl (λ m k, delete k m) m ks.

Lemma lookup_delete_keys {A} (m : gmap string A) ks k :
  delete_keys m ks !! k = if bool_decide (k ∈ ks) then None else m !! k.
Proof.
  unfold delete_keys. revert m. induction ks as [|k' ks IH]; intros m; simpl.
  { done. }
  rewrite IH, lookup_delete, if_elem_cons.
  by destruct (decide (k' = k)), (bool_decide_reflect (k ∈ ks)).
Qed.

Lemma kept_delete ls expected x k :
  pp_key x ≠ k → kept ls (delete k expected) x = kept ls expected x.
Proof. intros Hne. unfold kept. by rewrite lookup_delete_ne. Qed.

Lemma kept_lists_delete ls expected actual k :
  (∀ x, x ∈ actual → pp_key x ≠ k) →
  kept_list ls (delete k expected) actual = kept_list ls expected actual ∧
  dropped_list ls (delete k expected) actual = dropped_list ls expected actual.
Proof.
  intros Hne. unfold kept_list, dropped_list.
  split; apply filter_ext_elem; intros x Hx; by rewrite kept_delete by auto.
Qed.

Lemma pp_key_ports x y : pp_key x = pp_key y → lp_ListenerPort x = lp_ListenerPort y.
Proof. by intros [? _]%listener_key_inj. Qed.

(** The effect of the three loops on the listeners. *)
Definition start_all (ls : gmap Z Listener) (ports : list Z) : gmap Z Listener :=
  foldl (λ m p, alter set_running p m) ls ports.
Definition delete_all (ls : gmap Z Listener) (ports : list Z) : gmap Z Listener :=
  foldl (λ m p, delete p m) ls ports.
Definition new_listener (sp : ServicePort) : Listener :=
  mkListener (ToLower (sp_Protocol sp)) (sp_NodePort sp) Running.
Definition create_all (ls : gmap Z Listener) (sps : list ServicePort) : gmap Z Listener :=
  foldl (λ m sp, <[sp_Port sp := new_listener sp]> m) ls sps.

Lemma lookup_start_all ls ports p :
  start_all ls ports !! p = (if bool_decide (p ∈ ports) then set_running else id) <$> ls !! p.
Proof.
  unfold start_all. revert ls. induction ports as [|q ports IH]; intros ls; simpl.
  { by destruct (ls !! p). }
  rewrite IH, lookup_alter, if_elem_cons.
  destruct (decide (q = p)), (bool_decide_reflect (p ∈ ports)); subst; by destruct (ls !! p).
Qed.

Lemma lookup_delete_all ls ports p :
  delete_all ls ports !! p = if bool_decide (p ∈ ports) then None else ls !! p.
Proof.
  unfold delete_all. revert ls. induction ports as [|q ports IH]; intros ls; simpl; [done|].
  rewrite IH, lookup_delete, if_elem_cons.
  by destruct (decide (q = p)), (bool_decide_reflect (p ∈ ports)).
Qed.

Lemma lookup_create_all ls sps p :
  p ∉ sp_Port <$> sps → create_all ls sps !! p = ls !! p.
Proof.
  unfold create_all. revert ls. induction sps as [|sp sps IH]; intros ls Hp; simpl; [done|].
  rewrite fmap_cons, not_elem_of_cons in Hp. destruct Hp as [Hne Hp].
  rewrite IH by done. by rewrite lookup_insert_ne by congruence.
Qed.

Lemma lookup_create_all_elem ls sps sp :
  NoDup (sp_Port <$> sps) → sp ∈ sps → create_all ls sps !! sp_Port sp = Some (new_listener sp).
Proof.
  unfold create_all. revert ls. induction sps as [|x sps IH]; intros ls Hnd Hin; simpl.
  { by apply not_elem_of_nil in Hin. }
  rewrite fmap_cons, NoDup_cons in Hnd. destruct Hnd as [Hx Hnd].
  apply elem_of_cons in Hin as [->|Hin]; [|by apply IH].
  etrans; [by apply (lookup_create_all _ sps)|]. by rewrite lookup_insert_eq.
Qed.

Lemma set_listeners_id st : set_listeners st (s_listeners st) = st.
Proof. by destruct st. Qed.

(** ** The final listeners are the service's *)

Section final.
Context (ls : gmap Z Listener) (actual : list ListenerPortAndProtocolType)
  (ports : list ServicePort) (created : list ServicePort).
Context (Hok : ports_ok ports) (Hrange : backends_in_range ls).
Context (Hnodup : NoDup (lp_ListenerPort <$> actual)).
Context (Hlist : ∀ x, x ∈ actual → ∃ l, ls !! lp_ListenerPort x = Some l ∧
  ToLower (lp_ListenerProtocol x) = ToLower (l_proto l)).
Context (Hall : ∀ port, is_Some (ls !! port) → port ∈ lp_ListenerPort <$> actual).
Let expected := expected_listeners ports ∅.
Let keys := pp_key <$> kept_list ls expected actual.
Let removals := lp_ListenerPort <$> dropped_list ls expected actual.
Let stopped := base.filter (stopped_in ls) (lp_ListenerPort <$> kept_list ls expected actual).
Context (Hcreated : ∀ sp, sp ∈ created ↔ ∃ k, delete_keys expected keys !! k = Some sp).

(** What a kept listener looks like. *)
Lemma kept_elem x sp :
  x ∈ actual → kept ls expected x = Some sp →
  sp ∈ wanted ports ∧ pp_key x = sp_key sp ∧ lp_ListenerPort x = sp_Port sp ∧
  ∃ l, ls !! sp_Port sp = Some l ∧ ToLower (l_proto l) = ToLower (sp_Protocol sp) ∧
    l_backend l = sp_NodePort sp.
Proof.
  intros Hx Hk. unfold kept in Hk.
  destruct (expected !! pp_key x) as [sp'|] eqn:Hsp; [|done]. simpl in Hk.
  destruct (Hlist x Hx) as (l & Hl & Hp). rewrite Hl in Hk. simpl in Hk.
  case_bool_decide as Hb; [|done]. injection Hk as ->.
  apply lookup_expected in Hsp as [Hw Hkey]; [|done].
  apply listener_key_inj in Hkey as Hkey'. destruct Hkey' as [Hport Hlow].
  repeat split; [done..|]. exists l. rewrite <- Hport, <- Hlow. repeat split; [done|done|].
  rewrite <- Hb. symmetry. apply int32_id. by eapply Hrange.
Qed.

(** A listener of the account is either kept or removed. *)
Lemma kept_or_removed port l :
  ls !! port = Some l → port ∉ removals →
  ∃ x sp, x ∈ actual ∧ kept ls expected x = Some sp ∧ sp_Port sp = port.
Proof.
  intros Hl Hnr. destruct (proj1 (list_elem_of_fmap _ _ _) (Hall port ltac:(eauto)))
    as (x & -> & Hx).
  destruct (kept ls expected x) as [sp|] eqn:Hk.
  - exists x, sp. repeat split; [done|done|]. by apply (kept_elem x sp) in Hk as (_ & _ & -> & _).
  - destruct Hnr. apply list_elem_of_fmap_2, list_elem_of_filter. done.
Qed.

Lemma kept_not_removed x sp : x ∈ actual → kept ls expected x = Some sp → sp_Port sp ∉ removals.
Proof.
  intros Hx Hk (y & Hport & [Hy Hya]%list_elem_of_filter)%list_elem_of_fmap.
  apply kept_elem in Hk as Hk'; [|done]. destruct Hk' as (_ & _ & Hxp & _).
  assert (y = x) as ->; [|congruence].
  eapply (NoDup_fmap_elem lp_ListenerPort); [done..|]. congruence.
Qed.

(** What is created is wanted and not kept. *)
Lemma created_elem sp :
  sp ∈ created ↔ sp ∈ wanted ports ∧ sp_key sp ∉ keys.
Proof.
  rewrite Hcreated. split.
  - intros [k Hk]. rewrite lookup_delete_keys in Hk. case_bool_decide; [done|].
    apply lookup_expected in Hk as [Hw ->]; done.
  - intros [Hw Hk]. exists (sp_key sp). rewrite lookup_delete_keys, bool_decide_false by done.
    by apply lookup_expected.
Qed.

Lemma created_kept x sp sp' :
  x ∈ actual → kept ls expected x = Some sp → sp' ∈ created → sp_Port sp' ≠ sp_Port sp.
Proof.
  intros Hx Hk Hc Hp. apply created_elem in Hc as [Hw Hnk].
  apply kept_elem in Hk as Hk'; [|done]. destruct Hk' as (Hwsp & Hkey & _).
  assert (sp' = sp) as ->.
  { eapply (NoDup_fmap_elem sp_Port); [by apply po_nodup|done..]. }
  apply Hnk. rewrite <- Hkey. apply list_elem_of_fmap_2, list_elem_of_filter. eauto.
Qed.

(** The ports to create are free once the removals are done. *)
Lemma created_free sp :
  sp ∈ created → delete_all (start_all ls stopped) removals !! sp_Port sp = None.
Proof.
  intros Hc. rewrite lookup_delete_all. case_bool_decide as Hr; [done|].
  rewrite lookup_start_all. destruct (ls !! sp_Port sp) as [l|] eqn:Hl; [|done].
  destruct (kept_or_removed _ _ Hl Hr) as (x & sp' & Hx & Hk & Hp).
  by destruct (created_kept x sp' sp Hx Hk Hc).
Qed.

Lemma final_synced :
  NoDup (sp_Port <$> created) →
  listeners_synced (create_all (delete_all (start_all ls stopped) removals) created) ports.
Proof.
  intros Hnd. split.
  - intros p Hp. destruct (decide (p ∈ created)) as [Hc|Hc].
    { exists (new_listener p). split; [by apply lookup_create_all_elem|].
      split; [apply ToLower_idemp|done]. }
    rewrite created_elem in Hc. assert (sp_key p ∈ keys) as Hkey by (apply dec_stable; tauto).
    apply list_elem_of_fmap in Hkey as (x & Hxk & [[sp Hk] Hx]%list_elem_of_filter).
    apply kept_elem in Hk as Hk'; [|done].
    destruct Hk' as (Hw & Hkey & Hxp & l & Hl & Hpr & Hb).
    assert (p = sp) as ->.
    { eapply (NoDup_fmap_elem sp_Port); [by apply po_nodup|done..|].
      rewrite <- Hxk in Hkey. by apply listener_key_inj in Hkey as [? _]. }
    rewrite lookup_create_all.
    2:{ intros (sp' & Hps & Hsp')%list_elem_of_fmap. by apply (created_kept x sp sp') in Hsp'. }
    rewrite lookup_delete_all, bool_decide_false by (by apply (kept_not_removed x)).
    rewrite lookup_start_all, Hl. simpl. case_bool_decide as Hs; eexists; (split; [done|]).
    + done.
    + repeat split; [done..|]. intros Hst. apply Hs, list_elem_of_filter. split.
      * unfold stopped_in. by rewrite Hl, <- Hst.
      * rewrite <- Hxp. apply list_elem_of_fmap_2, list_elem_of_filter. eauto.
  - intros port l Hl. destruct (decide (port ∈ sp_Port <$> created)) as [Hc|Hc].
    { apply list_elem_of_fmap in Hc as (sp & -> & Hsp). exists sp. split; [|done].
      by apply created_elem. }
    rewrite lookup_create_all in Hl by done. rewrite lookup_delete_all in Hl.
    case_bool_decide as Hr; [done|]. rewrite lookup_start_all in Hl.
    destruct (ls !! port) as [l0|] eqn:Hl0; [|done].
    destruct (kept_or_removed _ _ Hl0 Hr) as (x & sp & Hx & Hk & <-).
    exists sp. split; [|done]. by apply kept_elem in Hk as (? & _).
Qed.
End final.

(** ** The backend diff *)

Lemma lookup_expected_servers instances k :
  expected_servers instances !! k =
    if bool_decide (k ∈ i_InstanceId <$> instances) then Some true else None.
Proof.
  unfold expected_servers.
  assert (∀ m : gmap string bool,
    foldl (λ m ins, <[i_InstanceId ins := true]> m) m instances !! k =
    if bool_decide (k ∈ i_InstanceId <$> instances) then Some true else m !! k) as Hgen.
  { induction instances as [|i instances IH]; intros m; [done|].
    rewrite fmap_cons, if_elem_cons. simpl. rewrite IH, lookup_insert.
    by destruct (decide (i_InstanceId i = k)), (bool_decide_reflect (k ∈ i_InstanceId <$> instances)). }
  by rewrite Hgen.
Qed.

Lemma backend_diff_spec actual expected removals :
  NoDup (bs_ServerId <$> actual) →
  backend_diff actual expected removals =
    (delete_keys expected (bs_ServerId <$> actual),
     removals ++ base.filter (λ s, expected !! s = None) (bs_ServerId <$> actual)).
Proof.
  revert expected removals. induction actual as [|x actual IH]; intros expected removals Hnd; simpl.
  { by rewrite app_nil_r. }
  rewrite fmap_cons, NoDup_cons in Hnd. destruct Hnd as [Hx Hnd].
  rewrite filter_cons. destruct (expected !! bs_ServerId x) eqn:He; rewrite IH by done.
  - rewrite decide_False by done. f_equal. f_equal. apply filter_ext_elem. intros s Hs.
    by rewrite lookup_delete_ne by (by intros <-).
  - rewrite decide_True by done. rewrite <- app_assoc. f_equal.
    unfold delete_keys. simpl. by rewrite delete_id.
Qed.

Section sync.
Context {W : Type} `{!Handler req W} `{!SLB W} `{!MapOrder} `{!FloatConv}.
Implicit Types (w : W) (st : LBState) (lb : LoadBalancerType).

(** ** The steps of [ensureLBListeners] *)

Lemma wp_attributes lb x w st l Q :
  slb w !! lb_LoadBalancerId lb = Some st →
  s_listeners st !! lp_ListenerPort x = Some l →
  ToLower (lp_ListenerProtocol x) = ToLower (l_proto l) →
  ToLower (l_proto l) = "tcp" ∨ ToLower (l_proto l) = "udp" →
  (∀ w' t, slb w' = slb w → Forall read_only t →
     Q (Ret (Ok (int32 (l_backend l), l_status l))) w' t) →
  wp (getLBListenerAttributes lb x) Q w.
Proof.
  intros Hst Hl Hproto Htu HQ. unfold getLBListenerAttributes. rewrite Hproto.
  destruct Htu as [Ht|Hu].
  - rewrite Ht. simpl. rewrite wp_bind.
    eapply wp_accepts; [by eapply slb_tcp|]. intros r w' -> Hw'. rewrite wp_ret.
    apply HQ; [done|]. by repeat constructor.
  - rewrite Hu. simpl. rewrite wp_bind.
    eapply wp_accepts; [by eapply slb_udp|]. intros r w' -> Hw'. rewrite wp_ret.
    apply HQ; [done|]. by repeat constructor.
Qed.

Lemma wp_listener_diff lb st actual expected removals stopped w :
  slb w !! lb_LoadBalancerId lb = Some st →
  NoDup (lp_ListenerPort <$> actual) →
  (∀ x, x ∈ actual → ∃ l, s_listeners st !! lp_ListenerPort x = Some l ∧
     ToLower (lp_ListenerProtocol x) = ToLower (l_proto l)) →
  (∀ k sp, expected !! k = Some sp →
     k = sp_key sp ∧ (sp_Protocol sp = ProtocolTCP ∨ sp_Protocol sp = ProtocolUDP)) →
  let ls := s_listeners st in
  wp (listener_diff lb actual expected removals stopped) (returns (λ r w' t,
    r = Ok (delete_keys expected (pp_key <$> kept_list ls expected actual),
            removals ++ (lp_ListenerPort <$> dropped_list ls expected actual),
            stopped ++ base.filter (stopped_in ls)
              (lp_ListenerPort <$> kept_list ls expected actual)) ∧
    slb w' = slb w ∧ Forall read_only t)) w.
Proof.
  intros Hst Hnd Hact Hexp ls. revert expected removals stopped w Hst Hexp.
  induction actual as [|x actual IH]; intros expected removals stopped w Hst Hexp; simpl.
  { rewrite wp_ret. simpl. by rewrite !app_nil_r. }
  apply NoDup_cons in Hnd as [Hx Hnd].
  destruct (Hact x) as (l & Hl & Hproto); [by left|].
  assert (∀ y, y ∈ actual → pp_key y ≠ pp_key x) as Hkeys.
  { intros y Hy Heq%pp_key_ports. apply Hx. rewrite <- Heq. by apply list_elem_of_fmap_2. }
  fold (pp_key x). unfold kept_list, dropped_list. rewrite !filter_cons.
  fold (kept_list ls expected actual) (dropped_list ls expected actual).
  destruct (expected !! pp_key x) as [sp|] eqn:Hsp.
  - assert (kept ls expected x =
      if bool_decide (int32 (l_backend l) = sp_NodePort sp) then Some sp else None) as ->.
    { unfold kept, ls. rewrite Hsp. simpl. by rewrite Hl. }
    destruct (Hexp _ _ Hsp) as [[Hport Hlow]%listener_key_inj Htu].
    apply wp_bind_ok. eapply wp_attributes; [done|done|done| |].
    { rewrite <- Hproto, Hlow. by destruct Htu as [-> | ->]; [left|right]. }
    intros w' t Hw' Ht. simpl. case_bool_decide as Hb.
    + rewrite decide_True by eauto. rewrite decide_False by done.
      destruct (kept_lists_delete ls expected actual (pp_key x)) as [<- <-]; [done|].
      eapply wp_mono; [apply IH; [done| |by rewrite Hw'|]|].
      { intros; apply Hact; by right. }
      { intros k sp' [_ ?]%lookup_delete_Some. eauto. }
      intros [r| | |] w'' t'' Hr; simpl in *; try done.
      destruct Hr as (-> & Hw'' & Ht''). split; [|split; [congruence|by apply Forall_app]].
      assert (stopped_in ls (lp_ListenerPort x) ↔ l_status l = Stopped) as Hstop.
      { unfold stopped_in, ls. rewrite Hl. simpl. split; congruence. }
      rewrite filter_cons. f_equal. f_equal.
      case_bool_decide; case_decide; try tauto. by rewrite <- app_assoc, Hport.
    + rewrite decide_False by (by intros [? ?]). rewrite decide_True by done.
      eapply wp_mono; [apply IH; [done| |by rewrite Hw'|done]|].
      { intros; apply Hact; by right. }
      intros [r| | |] w'' t'' Hr; simpl in *; try done.
      destruct Hr as (-> & Hw'' & Ht''). rewrite <- app_assoc.
      split; [done|split; [congruence|by apply Forall_app]].
  - assert (kept ls expected x = None) as -> by (unfold kept; by rewrite Hsp).
    rewrite decide_False by (by intros [? ?]). rewrite decide_True by done.
    eapply wp_mono; [apply IH; [done| |done|done]|].
    { intros; apply Hact; by right. }
    intros [r| | |] w'' t'' Hr; simpl in *; try done.
    destruct Hr as (-> & Hw'' & Ht''). by rewrite <- app_assoc.
Qed.

Lemma wp_start_listeners id ports w st :
  slb w !! id = Some st → Forall (λ p, is_Some (s_listeners st !! p)) ports →
  wp (start_listeners id ports) (returns (λ r w' _, r = Ok tt ∧
    slb w' = <[id := set_listeners st (start_all (s_listeners st) ports)]> (slb w))) w.
Proof.
  revert w st. induction ports as [|p ports IH]; intros w st Hst Hp; simpl.
  { rewrite wp_ret. simpl. by rewrite set_listeners_id, insert_id. }
  apply Forall_cons in Hp as [[l Hl] Hp].
  apply wp_bind_ok. eapply wp_accepts; [by eapply slb_start|]. intros [] w1 _ Hw1. simpl.
  assert (alter set_running p (s_listeners st) = <[p := set_running l]> (s_listeners st)) as ->.
  { apply map_eq. intros q. rewrite lookup_alter, lookup_insert.
    case_decide; [subst; by rewrite Hl|done]. }
  eapply wp_mono.
  - apply (IH w1 (set_listeners st (<[p:=set_running l]> (s_listeners st)))).
    + by rewrite Hw1, lookup_insert_eq.
    + eapply Forall_impl; [done|]. intros q Hq. simpl.
      rewrite lookup_insert. case_decide; [done|]. done.
  - intros [r| | |] w2 t Hr; simpl in *; try done. destruct Hr as [-> Hw2]. split; [done|].
    by rewrite Hw2, Hw1, insert_insert_eq.
Qed.

Lemma wp_delete_listeners id ports w st :
  slb w !! id = Some st → NoDup ports → Forall (λ p, is_Some (s_listeners st !! p)) ports →
  wp (delete_listeners id ports) (returns (λ r w' _, r = Ok tt ∧
    slb w' = <[id := set_listeners st (delete_all (s_listeners st) ports)]> (slb w))) w.
Proof.
  revert w st. induction ports as [|p ports IH]; intros w st Hst Hnd Hp; simpl.
  { rewrite wp_ret. simpl. by rewrite set_listeners_id, insert_id. }
  apply Forall_cons in Hp as [[l Hl] Hp]. apply NoDup_cons in Hnd as [Hnin Hnd].
  apply wp_bind_ok. eapply wp_accepts; [by eapply slb_delete_listener|]. intros [] w1 _ Hw1. simpl.
  eapply wp_mono.
  - apply (IH w1 (set_listeners st (delete p (s_listeners st)))); [|done|].
    + by rewrite Hw1, lookup_insert_eq.
    + apply Forall_forall. intros q Hq. rewrite Forall_forall in Hp. simpl.
      rewrite lookup_delete_ne by (by intros ->). by apply Hp.
  - intros [r| | |] w2 t Hr; simpl in *; try done. destruct Hr as [-> Hw2]. split; [done|].
    by rewrite Hw2, Hw1, insert_insert_eq.
Qed.

Lemma wp_create_listener lb options sp w st :
  slb w !! lb_LoadBalancerId lb = Some st →
  sp_Protocol sp = ProtocolTCP ∨ sp_Protocol sp = ProtocolUDP →
  s_listeners st !! sp_Port sp = None →
  wp (create_listener lb options sp) (returns (λ r w' _, r = Ok tt ∧
    slb w' = <[lb_LoadBalancerId lb :=
      set_listeners st (<[sp_Port sp := new_listener sp]> (s_listeners st))]> (slb w))) w.
Proof.
  intros Hst Htu Hfree. unfold create_listener. apply wp_bind_ok.
  set (l0 := mkListener (ToLower (sp_Protocol sp)) (sp_NodePort sp) Stopped).
  set (Q := λ w1, slb w1 = <[lb_LoadBalancerId lb :=
      set_listeners st (<[sp_Port sp := l0]> (s_listeners st))]> (slb w)).
  assert (∀ w1, Q w1 → wp (call (StartLoadBalancerListener (lb_LoadBalancerId lb) (sp_Port sp)))
    (returns (λ r w' _, r = Ok tt ∧ slb w' = <[lb_LoadBalancerId lb :=
      set_listeners st (<[sp_Port sp := new_listener sp]> (s_listeners st))]> (slb w))) w1) as Hstart.
  { intros w1 Hw1. eapply wp_accepts.
    - eapply (slb_start w1 _ (set_listeners st (<[sp_Port sp := l0]> (s_listeners st))) _ l0).
      + by rewrite Hw1, lookup_insert_eq.
      + simpl. by rewrite lookup_insert_eq.
    - intros [] w2 _ Hw2. simpl. split; [done|]. rewrite Hw2, Hw1, insert_insert_eq.
      unfold set_listeners; simpl. by rewrite insert_insert_eq. }
  destruct Htu as [Ht|Hu]; [rewrite bool_decide_true by done|rewrite bool_decide_false by (by rewrite Hu)].
  - eapply wp_accepts; [by eapply (slb_create_tcp w st (listener_args lb sp options _))|].
    intros [] w1 _ Hw1. simpl. apply Hstart. unfold Q, l0. by rewrite Ht.
  - rewrite Hu, bool_decide_true by done.
    eapply wp_accepts; [by eapply (slb_create_udp w st (listener_args lb sp options _))|].
    intros [] w1 _ Hw1. simpl. apply Hstart. unfold Q, l0. by rewrite Hu.
Qed.

Lemma wp_create_listeners lb options sps w st :
  slb w !! lb_LoadBalancerId lb = Some st →
  (∀ sp, sp ∈ sps.*2 → sp_Protocol sp = ProtocolTCP ∨ sp_Protocol sp = ProtocolUDP) →
  NoDup (sp_Port <$> sps.*2) →
  (∀ sp, sp ∈ sps.*2 → s_listeners st !! sp_Port sp = None) →
  wp (create_listeners lb options sps) (returns (λ r w' _, r = Ok tt ∧
    slb w' = <[lb_LoadBalancerId lb :=
      set_listeners st (create_all (s_listeners st) sps.*2)]> (slb w))) w.
Proof.
  revert w st. induction sps as [|[k sp] sps IH]; intros w st Hst Htu Hnd Hfree; simpl.
  { rewrite wp_ret. simpl. by rewrite set_listeners_id, insert_id. }
  rewrite fmap_cons in Hnd. simpl in Hnd. apply NoDup_cons in Hnd as [Hsp Hnd].
  apply wp_bind_ok.
  eapply wp_mono; [apply wp_create_listener; [done|apply Htu; by left|apply Hfree; by left]|].
  intros [r| | |] w1 t1 Hr; simpl in Hr; try done. destruct Hr as [-> Hw1]. simpl.
  eapply wp_mono; [eapply (IH w1); [by rewrite Hw1, lookup_insert_eq| | |]|].
  - intros; apply Htu; by right.
  - done.
  - intros q Hq. simpl. rewrite lookup_insert_ne; [apply Hfree; by right|].
    intros Heq. apply Hsp. rewrite Heq. by apply list_elem_of_fmap_2.
  - intros [r| | |] w2 t Hr; simpl in *; try done. destruct Hr as [-> Hw2]. split; [done|].
    by rewrite Hw2, Hw1, insert_insert_eq.
Qed.

(** The ports left to create, in the order the map is visited. *)
Lemma range_created ports m ks :
  ports_ok ports → m = delete_keys (expected_listeners ports ∅) ks →
  (∀ sp, sp ∈ (range_map m).*2 ↔ ∃ k, m !! k = Some sp) ∧
  (∀ sp, sp ∈ (range_map m).*2 → sp ∈ wanted ports) ∧
  NoDup (sp_Port <$> (range_map m).*2).
Proof.
  intros Hok Hm.
  assert (∀ k sp, (k, sp) ∈ range_map m ↔ m !! k = Some sp) as Hin.
  { intros k sp. by rewrite range_map_perm, elem_of_map_to_list. }
  assert (∀ k sp, m !! k = Some sp → sp ∈ wanted ports ∧ k = sp_key sp) as Hw.
  { intros k sp. rewrite Hm, lookup_delete_keys. case_bool_decide; [done|].
    by apply lookup_expected. }
  repeat split.
  - intros ((k & sp') & -> & Hk)%list_elem_of_fmap. exists k. by apply Hin.
  - intros [k Hk%Hin]. by apply (list_elem_of_fmap_2 snd) in Hk.
  - intros sp ((k & sp') & -> & Hk%Hin)%list_elem_of_fmap. by apply Hw in Hk as [? _].
  - rewrite <- list_fmap_compose. apply NoDup_fmap_2_strong.
    + intros [k1 sp1] [k2 sp2] H1%Hin%Hw H2%Hin%Hw Heq. simpl in Heq.
      destruct H1 as [H1 ->], H2 as [H2 ->].
      assert (sp1 = sp2) as ->; [|done].
      eapply (NoDup_fmap_elem sp_Port); [by apply po_nodup|done..].
    + rewrite range_map_perm. apply NoDup_map_to_list.
Qed.

Lemma wp_ensureLBListeners lb ports options w st :
  slb w !! lb_LoadBalancerId lb = Some st →
  describes (lb_LoadBalancerId lb) st lb →
  ports_ok ports → backends_in_range (s_listeners st) →
  wp (ensureLBListeners lb ports options) (returns (λ r w' _, r = Ok tt ∧
    ∃ ls', listeners_synced ls' ports ∧
      slb w' = <[lb_LoadBalancerId lb := set_listeners st ls']> (slb w))) w.
Proof.
  intros Hst Hdesc Hok Hrange. destruct Hdesc as [_ _ _ Hnd Hlist Hall _ _].
  unfold ensureLBListeners. apply wp_bind_ok.
  eapply wp_mono; [apply (wp_listener_diff lb st); [done..|]|].
  { intros k sp [Hw ->]%lookup_expected; [|done]. split; [done|]. by apply (po_proto _ Hok). }
  intros [r| | |] w1 t1 Hr; simpl in Hr; try done. destruct Hr as (-> & Hw1 & _). simpl.
  set (ls := s_listeners st) in *. set (expected := expected_listeners ports ∅).
  set (actual := lb_ListenerPortAndProtocol lb) in *.
  set (stopped := base.filter (stopped_in ls) _).
  set (removals := lp_ListenerPort <$> dropped_list ls expected actual).
  set (rest := delete_keys expected _).
  destruct (range_created ports rest (pp_key <$> kept_list ls expected actual) Hok eq_refl)
    as (Hcre & Hwant & Hcnd).
  apply wp_bind_ok. eapply wp_mono; [apply (wp_start_listeners _ _ w1 st); [by rewrite Hw1|]|].
  { apply Forall_forall. intros p [_ (x & -> & [_ Hx]%list_elem_of_filter)%list_elem_of_fmap]%list_elem_of_filter.
    destruct (Hlist x Hx) as (l & Hl & _). eauto. }
  intros [r| | |] w2 t2 Hr; simpl in Hr; try done. destruct Hr as [-> Hw2]. simpl.
  apply wp_bind_ok. eapply wp_mono;
    [apply (wp_delete_listeners _ _ w2 (set_listeners st (start_all ls stopped))); [by rewrite Hw2, lookup_insert_eq| |]|].
  { by apply NoDup_fmap_filter. }
  { apply Forall_forall. intros p (x & -> & [_ Hx]%list_elem_of_filter)%list_elem_of_fmap. simpl.
    destruct (Hlist x Hx) as (l & Hl & _). rewrite lookup_start_all. fold ls. rewrite Hl. eauto. }
  intros [r| | |] w3 t3 Hr; simpl in Hr; try done. destruct Hr as [-> Hw3]. simpl.
  eapply wp_mono;
    [apply (wp_create_listeners _ _ _ w3
       (set_listeners st (delete_all (start_all ls stopped) removals)));
       [by rewrite Hw3, lookup_insert_eq| |done|]|].
  { intros sp Hsp. by apply (po_proto _ Hok), Hwant. }
  { intros sp Hsp. simpl. by eapply (created_free ls actual ports). }
  intros [r| | |] w4 t4 Hr; simpl in Hr; try done. destruct Hr as [-> Hw4].
  split; [done|]. eexists. split; [by apply (final_synced ls actual ports)|].
  by rewrite Hw4, Hw3, Hw2, Hw1, !insert_insert_eq.
Qed.

(** ** The backends *)

(** The servers to add: the instances that are not servers yet, with weight 100. *)
Definition additions_of (instances : list InstanceAttributesType) (actual : list string) :
    list BackendServerType :=
  map (λ kv : string * bool, mkBackendServer kv.1 100)
    (range_map (delete_keys (expected_servers instances) actual)).

Lemma additions_elem instances actual s :
  s ∈ bs_ServerId <$> additions_of instances actual ↔
  s ∈ i_InstanceId <$> instances ∧ s ∉ actual.
Proof.
  unfold additions_of. rewrite <- list_fmap_compose.
  set (rest := delete_keys (expected_servers instances) actual).
  transitivity (∃ b, rest !! s = Some b).
  - rewrite list_elem_of_fmap. setoid_rewrite range_map_perm. split.
    + intros ([k b] & -> & Hk%elem_of_map_to_list). eauto.
    + intros [b Hb]. exists (s, b). split; [done|]. by apply elem_of_map_to_list.
  - unfold rest. rewrite lookup_delete_keys, lookup_expected_servers.
    repeat case_bool_decide; naive_solver.
Qed.

Lemma additions_weight instances actual x : x ∈ additions_of instances actual → bs_Weight x = 100.
Proof. by intros (kv & -> & _)%list_elem_of_fmap. Qed.

(** The servers to remove. *)
Definition removals_of (instances : list InstanceAttributesType) (actual : list string) : list string :=
  base.filter (λ s, expected_servers instances !! s = None) actual.

(** Removing them keeps the servers that are instances. *)
Lemma lookup_removed instances actual (ss : gmap string Z) s :
  (∀ s, s ∈ actual ↔ is_Some (ss !! s)) →
  remove_servers (removals_of instances actual) ss !! s =
    if bool_decide (s ∈ i_InstanceId <$> instances) then ss !! s else None.
Proof.
  intros Hall. rewrite lookup_remove_servers.
  assert (s ∈ removals_of instances actual ↔ ¬ (s ∈ i_InstanceId <$> instances) ∧ s ∈ actual) as Hr.
  { unfold removals_of. rewrite list_elem_of_filter, lookup_expected_servers.
    case_bool_decide; naive_solver. }
  destruct (ss !! s) as [weight|] eqn:Hs.
  - assert (s ∈ actual) by (apply Hall; eauto). repeat case_bool_decide; naive_solver.
  - repeat case_bool_decide; done.
Qed.

(** Both changes together. *)
Lemma backends_final instances actual ss :
  (∀ s, s ∈ actual ↔ is_Some (ss !! s)) →
  servers_synced ss (add_servers (additions_of instances actual)
    (remove_servers (removals_of instances actual) ss)) (i_InstanceId <$> instances).
Proof.
  intros Hall s. rewrite (lookup_add_servers _ _ 100) by apply additions_weight.
  rewrite lookup_removed by done.
  pose proof (additions_elem instances actual s) as Hadd. specialize (Hall s).
  destruct (ss !! s) eqn:Hs; repeat case_bool_decide; simpl; naive_solver.
Qed.

(** The first request of [ensureLBBackends]. *)
Lemma wp_remove id removals w st :
  slb w !! id = Some st →
  wp (match removals with
      | [] => mret (Ok tt)
      | _ => call (RemoveBackendServers id removals)
      end)
    (returns (λ r w1 _, r = Ok tt ∧
       slb w1 = <[id := set_servers st (remove_servers removals (s_servers st))]> (slb w))) w.
Proof.
  intros Hst. destruct removals.
  - rewrite wp_ret. simpl. split; [done|]. symmetry. apply insert_id. rewrite Hst. f_equal.
    by destruct st.
  - eapply wp_accepts; [by eapply slb_remove|]. by intros [] w1 _ Hw1.
Qed.

Lemma wp_ensureLBBackends lb instances w st :
  slb w !! lb_LoadBalancerId lb = Some st →
  NoDup (bs_ServerId <$> lb_BackendServer lb) →
  (∀ s, s ∈ bs_ServerId <$> lb_BackendServer lb ↔ is_Some (s_servers st !! s)) →
  wp (ensureLBBackends lb instances) (returns (λ r w' _, r = Ok tt ∧
    ∃ ss', servers_synced (s_servers st) ss' (i_InstanceId <$> instances) ∧
      slb w' = <[lb_LoadBalancerId lb := set_servers st ss']> (slb w))) w.
Proof.
  intros Hst Hnd Hall. unfold ensureLBBackends.
  rewrite backend_diff_spec by done. simpl.
  set (actual := bs_ServerId <$> lb_BackendServer lb) in *.
  pose proof (backends_final instances actual (s_servers st) Hall) as Hsync.
  fold (removals_of instances actual). fold (additions_of instances actual).
  apply wp_bind_ok. eapply wp_mono; [by apply wp_remove|].
  intros [r| | |] w1 t1 Hr; simpl in Hr; try done. destruct Hr as [-> Hw1]. simpl.
  destruct (additions_of instances actual) as [|x xs] eqn:Hadds.
  - rewrite wp_ret. simpl. eauto.
  - rewrite <- Hadds in *. eapply wp_accepts.
    + eapply slb_add; [by rewrite Hw1, lookup_insert_eq|].
      intros s [Hs Hna]%additions_elem. simpl. rewrite lookup_removed by done.
      rewrite bool_decide_true by done.
      destruct (s_servers st !! s) eqn:He; [|done]. destruct Hna. apply Hall. eauto.
    + intros [] w2 _ Hw2. simpl. split; [done|]. eexists. split; [exact Hsync|].
      by rewrite Hw2, Hw1, insert_insert_eq.
Qed.

(** Servers that are already the instances are left alone. *)
Lemma wp_ensureLBBackends_synced lb instances w st :
  NoDup (bs_ServerId <$> lb_BackendServer lb) →
  (∀ s, s ∈ bs_ServerId <$> lb_BackendServer lb ↔ is_Some (s_servers st !! s)) →
  (∀ s, is_Some (s_servers st !! s) ↔ s ∈ i_InstanceId <$> instances) →
  wp (ensureLBBackends lb instances) (returns (λ r w' t, r = Ok tt ∧ t = [] ∧ w' = w)) w.
Proof.
  intros Hnd Hall Hids. unfold ensureLBBackends. rewrite backend_diff_spec by done. simpl.
  set (actual := bs_ServerId <$> lb_BackendServer lb) in *.
  fold (removals_of instances actual). fold (additions_of instances actual).
  assert (removals_of instances actual = []) as ->.
  { apply list_nil_subseteq. intros s [Hs Hin]%list_elem_of_filter.
    rewrite lookup_expected_servers, bool_decide_true in Hs; [done|]. by apply Hids, Hall. }
  assert (additions_of instances actual = []) as ->.
  { destruct (additions_of instances actual) as [|x xs] eqn:Hx; [done|].
    destruct (proj1 (additions_elem instances actual (bs_ServerId x))) as [Hi Hn].
    - rewrite Hx, fmap_cons. by left.
    - destruct Hn. by apply Hall, Hids. }
  apply wp_bind_ok. rewrite wp_ret. simpl. by rewrite wp_ret.
Qed.

(** ** Lookups *)

Lemma wp_find_lb name lbs w :
  (∀ lb, lb ∈ lbs → ∃ st, slb w !! lb_LoadBalancerId lb = Some st ∧
     lb_LoadBalancerName lb = s_name st) →
  wp (find_lb name lbs) (returns (λ r w' t, slb w' = slb w ∧ Forall read_only t ∧
    ((r = Ok None ∧ ∀ lb, lb ∈ lbs → lb_LoadBalancerName lb ≠ name) ∨
     ∃ st lb, r = Ok (Some lb) ∧ slb w !! lb_LoadBalancerId lb = Some st ∧ s_name st = name ∧
       describes (lb_LoadBalancerId lb) st lb))) w.
Proof.
  induction lbs as [|lb lbs IH]; intros Hlbs; simpl.
  { rewrite wp_ret. simpl. split; [done|split; [done|]]. left. split; [done|].
    by intros lb ?%not_elem_of_nil. }
  case_bool_decide as Hname.
  - destruct (Hlbs lb) as (st & Hst & Hn); [by left|].
    apply wp_bind_ok. eapply wp_accepts; [by eapply slb_describe|].
    intros lb' w' Hdesc Hw'. simpl. rewrite wp_ret. simpl.
    pose proof (desc_id _ _ _ Hdesc) as Hid. rewrite Hw'.
    split; [done|split; [by repeat constructor|]]. right. exists st, lb'.
    rewrite Hid. split_and!; [done|done|congruence|done].
  - eapply wp_mono; [apply IH; intros; apply Hlbs; by right|].
    intros [r| | |] w' t Hr; simpl in *; try done.
    destruct Hr as (Hw' & Ht & [[-> Hno]|Hfound]); (split; [done|split; [done|]]); [left|by right].
    split; [done|]. intros lb'. rewrite elem_of_cons. intros [->|?]; [done|by apply Hno].
Qed.

(** [getLoadBalancer] finds the load balancer of the name exactly when the
    account has one, and changes nothing. *)
Lemma wp_getLoadBalancer p name w :
  wp (getLoadBalancer p name) (returns (λ r w' t, slb w' = slb w ∧ Forall read_only t ∧
    ((r = Ok None ∧ ∀ id st, slb w !! id = Some st → s_name st ≠ name) ∨
     ∃ st lb, r = Ok (Some lb) ∧ slb w !! lb_LoadBalancerId lb = Some st ∧ s_name st = name ∧
       describes (lb_LoadBalancerId lb) st lb))) w.
Proof.
  unfold getLoadBalancer. apply wp_bind_ok.
  eapply wp_accepts; [apply slb_list|]. intros lbs w1 [_ Hsound Hcomplete] Hw1. simpl.
  eapply wp_mono; [apply wp_find_lb; rewrite Hw1; exact Hsound|].
  intros [r| | |] w2 t Hr; simpl in *; try done. rewrite Hw1 in Hr.
  destruct Hr as (Hw2 & Ht & Hr). split; [done|split; [by constructor|]].
  destruct Hr as [[-> Hno]|Hfound]; [left|by right]. split; [done|].
  intros id st Hst Hname.
  destruct (proj1 (list_elem_of_fmap _ _ _) (Hcomplete id ltac:(eauto))) as (lb & -> & Hlb).
  destruct (Hsound lb Hlb) as (st' & Hst' & Hn). apply (Hno lb Hlb). congruence.
Qed.

(** ** A synchronised load balancer is left alone *)

(** When the listeners are those of the service, all of them are kept, none is
    stopped, and nothing is left to create. *)
Lemma synced_diff lb ports st :
  describes (lb_LoadBalancerId lb) st lb → ports_ok ports →
  listeners_synced (s_listeners st) ports →
  let actual := lb_ListenerPortAndProtocol lb in
  let expected := expected_listeners ports ∅ in
  dropped_list (s_listeners st) expected actual = [] ∧
  base.filter (stopped_in (s_listeners st))
    (lp_ListenerPort <$> kept_list (s_listeners st) expected actual) = [] ∧
  delete_keys expected (pp_key <$> kept_list (s_listeners st) expected actual) = ∅.
Proof.
  intros [_ _ _ Hnd Hlist Hall _ _] Hok [Hs1 Hs2] actual expected.
  set (ls := s_listeners st) in *.
  assert (∀ x, x ∈ actual → ∃ sp l, sp ∈ wanted ports ∧ pp_key x = sp_key sp ∧
    ls !! lp_ListenerPort x = Some l ∧ l_status l ≠ Stopped ∧ kept ls expected x = Some sp) as Hx.
  { intros x Hx. destruct (Hlist x Hx) as (l & Hl & Hp).
    destruct (Hs2 _ _ Hl) as (sp & Hw & Hport).
    destruct (Hs1 sp Hw) as (l' & Hl' & Hpr & Hb & Hst).
    assert (l' = l) as -> by congruence.
    assert (pp_key x = sp_key sp) as Hkey.
    { unfold pp_key, sp_key. rewrite !listener_key_eq. by rewrite Hport, Hp, Hpr. }
    exists sp, l. split_and!; [done..|]. unfold kept.
    rewrite Hkey, (proj2 (lookup_expected ports _ sp Hok)) by done. simpl. rewrite Hl. simpl.
    rewrite Hb, int32_id by (by apply (po_range _ Hok)). by rewrite bool_decide_true. }
  split_and!.
  - apply elem_of_nil_inv. intros x [Hk Hxa]%list_elem_of_filter.
    destruct (Hx x Hxa) as (sp & l & _ & _ & _ & _ & Hk'). congruence.
  - apply elem_of_nil_inv.
    intros q [Hq (x & -> & [_ Hxa]%list_elem_of_filter)%list_elem_of_fmap]%list_elem_of_filter.
    destruct (Hx x Hxa) as (sp & l & _ & _ & Hl & Hst & _). unfold stopped_in in Hq.
    rewrite Hl in Hq. by injection Hq.
  - apply map_eq. intros k. rewrite lookup_delete_keys, lookup_empty.
    case_bool_decide as Hk; [done|]. destruct (expected !! k) as [sp|] eqn:Hsp; [|done].
    apply lookup_expected in Hsp as [Hw ->]; [|done]. destruct Hk.
    destruct (Hs1 sp Hw) as (l & Hl & Hpr & _).
    destruct (proj1 (list_elem_of_fmap _ _ _) (Hall (sp_Port sp) ltac:(eauto))) as (x & Hp & Hxa).
    destruct (Hx x Hxa) as (sp' & l' & Hw' & Hkey & Hl' & _ & Hk).
    assert (sp' = sp) as ->.
    { eapply (NoDup_fmap_elem sp_Port); [by apply po_nodup|done..|].
      apply listener_key_inj in Hkey as [<- _]. done. }
    rewrite <- Hkey. apply list_elem_of_fmap_2, list_elem_of_filter. eauto.
Qed.

Lemma wp_ensureLBListeners_synced lb ports options w st :
  slb w !! lb_LoadBalancerId lb = Some st →
  describes (lb_LoadBalancerId lb) st lb →
  ports_ok ports → listeners_synced (s_listeners st) ports →
  wp (ensureLBListeners lb ports options)
    (returns (λ r w' t, r = Ok tt ∧ Forall read_only t ∧ slb w' = slb w)) w.
Proof.
  intros Hst Hdesc Hok Hs.
  destruct (synced_diff lb ports st Hdesc Hok Hs) as (Hd & Hstop & Hrest).
  destruct Hdesc as [_ _ _ Hnd Hlist Hall _ _].
  unfold ensureLBListeners. apply wp_bind_ok.
  eapply wp_mono; [apply (wp_listener_diff lb st); [done..|]|].
  { intros k sp [Hw ->]%lookup_expected; [|done]. split; [done|]. by apply (po_proto _ Hok). }
  intros [r| | |] w1 t1 Hr; simpl in Hr; try done. destruct Hr as (-> & Hw1 & Ht). simpl.
  rewrite Hd, Hstop, Hrest. simpl.
  assert (range_map (∅ : gmap string ServicePort) = []) as ->.
  { apply Permutation_nil. symmetry. by rewrite range_map_perm, map_to_list_empty. }
  unfold wp; simpl. split; [done|]. rewrite app_nil_r. done.
Qed.

(** ** [EnsureLoadBalancer] *)

Lemma wp_sync_lb lb service options instances w st :
  slb w !! lb_LoadBalancerId lb = Some st →
  describes (lb_LoadBalancerId lb) st lb →
  ports_ok (svc_Ports service) → backends_in_range (s_listeners st) →
  wp (sync_lb lb service options instances) (returns (λ r w' _,
    r = (Some [s_address st], None) ∧
    ∃ ls' ss', listeners_synced ls' (svc_Ports service) ∧
      servers_synced (s_servers st) ss' (i_InstanceId <$> instances) ∧
      slb w' = <[lb_LoadBalancerId lb := set_servers (set_listeners st ls') ss']> (slb w))) w.
Proof.
  intros Hst Hdesc Hok Hr. unfold sync_lb. rewrite wp_bind.
  eapply wp_mono; [by apply wp_ensureLBListeners|].
  intros [r| | |] w1 t1 Hr1; simpl in Hr1; try done. destruct Hr1 as (-> & ls' & Hls & Hw1).
  rewrite wp_bind. eapply wp_mono; [apply (wp_ensureLBBackends _ _ _ (set_listeners st ls'))|].
  - by rewrite Hw1, lookup_insert_eq.
  - by apply (desc_servers _ _ _ Hdesc).
  - apply (desc_all_servers _ _ _ Hdesc).
  - intros [r| | |] w2 t2 Hr2; simpl in Hr2; try done. destruct Hr2 as (-> & ss' & Hss & Hw2).
    rewrite wp_ret. simpl. unfold lbToStatus. rewrite (desc_address _ _ _ Hdesc). split; [done|].
    exists ls', ss'. split_and!; [done..|]. by rewrite Hw2, Hw1, insert_insert_eq.
Qed.

Lemma wp_getInstancesByNodes p nodes w insts pr :
  reported_instances p w = Ok (insts, pr) →
  wp (getInstancesByNodes p nodes) (returns (λ r w' t, slb w' = slb w ∧ Forall read_only t ∧
    r = by_names_loop (by_nodeNameType (nodeNameType p)) insts [] (n_Name <$> nodes))) w.
Proof.
  intros His. unfold getInstancesByNodes, wp, outcome_of, world_of, trace_of.
  rewrite getInstancesByNodeNames_run, His. simpl.
  split_and!; [apply slb_instances|by repeat constructor|done].
Qed.

(** The part of [EnsureLoadBalancer] before the load balancer is looked up, and
    the synchronisation of one that exists. *)
Lemma wp_EnsureLoadBalancer_existing p clusterName service nodes w id st insts pr instances :
  check_service service = None →
  ports_ok (svc_Ports service) →
  unique_names (slb w) → slb w !! id = Some st → s_name st = GetLoadBalancerName service →
  backends_in_range (s_listeners st) →
  reported_instances p w = Ok (insts, pr) →
  by_names_loop (by_nodeNameType (nodeNameType p)) insts [] (n_Name <$> nodes) = Ok instances →
  wp (EnsureLoadBalancer p clusterName service nodes) (returns (λ r w' _,
    r = (Some [s_address st], None) ∧
    ∃ ls' ss', listeners_synced ls' (svc_Ports service) ∧
      servers_synced (s_servers st) ss' (i_InstanceId <$> instances) ∧
      slb w' = <[id := set_servers (set_listeners st ls') ss']> (slb w))) w.
Proof.
  intros Hck Hok Huniq Hst Hname Hr His Hinst. unfold EnsureLoadBalancer. rewrite Hck, wp_bind.
  eapply wp_mono; [by eapply wp_getInstancesByNodes|].
  intros [r| | |] w1 t1 Hr1; simpl in Hr1; try done. destruct Hr1 as (Hw1 & _ & ->).
  rewrite Hinst, wp_bind. eapply wp_mono; [apply wp_getLoadBalancer|].
  intros [r| | |] w2 t2 Hr2; simpl in Hr2; try done. rewrite Hw1 in Hr2.
  destruct Hr2 as (Hw2 & _ & [[-> Hno]|(st' & lb & -> & Hst' & Hname' & Hdesc)]).
  { by destruct (Hno id st). }
  assert (lb_LoadBalancerId lb = id) as Hid by (eapply Huniq; [done..|congruence]).
  rewrite Hid in *. assert (st' = st) as -> by congruence.
  eapply wp_mono; [apply (wp_sync_lb lb service _ instances w2 st);
    [by rewrite Hid, Hw2|by rewrite Hid|done|done]|].
  intros [r| | |] w3 t3 Hr3; simpl in *; try done. by rewrite Hid, Hw2 in Hr3.
Qed.

(** After the creation, the first lookup finds the load balancer. *)
Lemma wp_wait_created retry p name err w id st :
  unique_names (slb w) → slb w !! id = Some st → s_name st = name →
  wp (wait_created (S retry) p name err) (returns (λ r w' t, slb w' = slb w ∧
    ∃ lb, r = (Some lb, None) ∧ lb_LoadBalancerId lb = id ∧ describes id st lb)) w.
Proof.
  intros Huniq Hst Hname. simpl. rewrite wp_bind, wp_call, wp_bind.
  eapply wp_mono; [apply wp_getLoadBalancer|]. rewrite slb_sleep.
  intros [r| | |] w2 t2 Hr2; simpl in Hr2; try done.
  destruct Hr2 as (Hw2 & _ & [[-> Hno]|(st' & lb & -> & Hst' & Hname' & Hdesc)]).
  { by destruct (Hno id st). }
  rewrite wp_ret. simpl. split; [done|]. exists lb.
  assert (lb_LoadBalancerId lb = id) as Hid by (eapply Huniq; [done..|congruence]).
  rewrite Hid in *. assert (st' = st) as -> by congruence. done.
Qed.

Lemma unique_names_insert m id st :
  unique_names m → (∀ id' st', m !! id' = Some st' → s_name st' ≠ s_name st) →
  unique_names (<[id := st]> m).
Proof.
  intros Huniq Hno id1 id2 st1 st2.
  rewrite !lookup_insert_Some.
  intros [[<- <-]|[_ H1]] [[<- <-]|[_ H2]] Hn; [done| | |by eapply Huniq].
  - by destruct (Hno id2 st2).
  - by destruct (Hno id1 st1).
Qed.

Lemma wp_EnsureLoadBalancer_creates p clusterName service nodes w insts pr instances :
  check_service service = None →
  ports_ok (svc_Ports service) →
  unique_names (slb w) → (∀ id st, slb w !! id = Some st → s_name st ≠ GetLoadBalancerName service) →
  reported_instances p w = Ok (insts, pr) →
  by_names_loop (by_nodeNameType (nodeNameType p)) insts [] (n_Name <$> nodes) = Ok instances →
  wp (EnsureLoadBalancer p clusterName service nodes) (returns (λ r w' _,
    ∃ id address ls' ss', r = (Some [address], None) ∧ slb w !! id = None ∧
      listeners_synced ls' (svc_Ports service) ∧
      servers_synced ∅ ss' (i_InstanceId <$> instances) ∧
      slb w' = <[id := mkLBState (GetLoadBalancerName service) address ls' ss']> (slb w))) w.
Proof.
  intros Hck Hok Huniq Hno His Hinst. unfold EnsureLoadBalancer. rewrite Hck, wp_bind.
  eapply wp_mono; [by eapply wp_getInstancesByNodes|].
  intros [r| | |] w1 t1 Hr1; simpl in Hr1; try done. destruct Hr1 as (Hw1 & _ & ->).
  rewrite Hinst, wp_bind. eapply wp_mono; [apply wp_getLoadBalancer|].
  intros [r| | |] w2 t2 Hr2; simpl in Hr2; try done. rewrite Hw1 in Hr2.
  destruct Hr2 as (Hw2 & _ & [[-> _]|(st' & lb & -> & Hst' & Hname' & Hdesc)]).
  2:{ by destruct (Hno _ _ Hst'). }
  rewrite wp_bind, wp_call, wp_bind, wp_call. simpl. set (args := mkCreateLoadBalancerArgs _ _ _ _ _ _).
  destruct (slb_create (handle CreateRandomString w2).2 args) as (id & address & w3 & Hh & Hid & Hw3).
  rewrite Hh. simpl. rewrite slb_random, Hw2 in Hid, Hw3.
  set (st := mkLBState _ _ _ _) in Hw3.
  assert (unique_names (slb w3)) as Huniq3.
  { rewrite Hw3. by apply unique_names_insert. }
  assert (slb w3 !! id = Some st) as Hst3 by (by rewrite Hw3, lookup_insert_eq).
  rewrite wp_bind. eapply wp_mono; [by apply (wp_wait_created 2 p _ None w3 id st)|].
  intros [r| | |] w4 t4 Hr4; simpl in Hr4; try done.
  destruct Hr4 as (Hw4 & lb & -> & Hlb & Hdesc). subst id.
  eapply wp_mono; [apply (wp_sync_lb lb service _ instances w4 st);
    [by rewrite Hw4|done|done|intros port l Hl; simpl in Hl; by rewrite lookup_empty in Hl]|].
  intros [r| | |] w5 t5 Hr5; simpl in *; try done. destruct Hr5 as (-> & ls' & ss' & Hls & Hss & Hw5).
  exists (lb_LoadBalancerId lb), address, ls', ss'. split_and!; [done..|].
  by rewrite Hw5, Hw4, Hw3, insert_insert_eq.
Qed.

(** On a synchronised load balancer, nothing but reads. *)
Lemma wp_sync_lb_synced lb service options instances w st :
  slb w !! lb_LoadBalancerId lb = Some st →
  describes (lb_LoadBalancerId lb) st lb →
  ports_ok (svc_Ports service) → listeners_synced (s_listeners st) (svc_Ports service) →
  (∀ s, is_Some (s_servers st !! s) ↔ s ∈ i_InstanceId <$> instances) →
  wp (sync_lb lb service options instances) (returns (λ r w' t,
    r = (Some [s_address st], None) ∧ Forall read_only t ∧ slb w' = slb w)) w.
Proof.
  intros Hst Hdesc Hok Hls Hss. unfold sync_lb. rewrite wp_bind.
  eapply wp_mono; [by apply (wp_ensureLBListeners_synced _ _ _ _ st)|].
  intros [r| | |] w1 t1 Hr1; simpl in Hr1; try done. destruct Hr1 as (-> & Ht1 & Hw1).
  rewrite wp_bind. eapply wp_mono; [apply (wp_ensureLBBackends_synced _ _ _ st)|].
  - by apply (desc_servers _ _ _ Hdesc).
  - apply (desc_all_servers _ _ _ Hdesc).
  - done.
  - intros [r| | |] w2 t2 Hr2; simpl in Hr2; try done. destruct Hr2 as (-> & -> & ->).
    rewrite wp_ret. simpl. unfold lbToStatus. rewrite (desc_address _ _ _ Hdesc), app_nil_r. done.
Qed.

Lemma wp_EnsureLoadBalancer_synced p clusterName service nodes w id st insts pr instances :
  check_service service = None →
  ports_ok (svc_Ports service) →
  unique_names (slb w) → slb w !! id = Some st → s_name st = GetLoadBalancerName service →
  listeners_synced (s_listeners st) (svc_Ports service) →
  (∀ s, is_Some (s_servers st !! s) ↔ s ∈ i_InstanceId <$> instances) →
  reported_instances p w = Ok (insts, pr) →
  by_names_loop (by_nodeNameType (nodeNameType p)) insts [] (n_Name <$> nodes) = Ok instances →
  wp (EnsureLoadBalancer p clusterName service nodes) (returns (λ r w' t,
    r = (Some [s_address st], None) ∧ Forall read_only t ∧ slb w' = slb w)) w.
Proof.
  intros Hck Hok Huniq Hst Hname Hls Hss His Hinst. unfold EnsureLoadBalancer. rewrite Hck, wp_bind.
  eapply wp_mono; [by eapply wp_getInstancesByNodes|].
  intros [r| | |] w1 t1 Hr1; simpl in Hr1; try done. destruct Hr1 as (Hw1 & Ht1 & ->).
  rewrite Hinst, wp_bind. eapply wp_mono; [apply wp_getLoadBalancer|].
  intros [r| | |] w2 t2 Hr2; simpl in Hr2; try done. rewrite Hw1 in Hr2.
  destruct Hr2 as (Hw2 & Ht2 & [[-> Hno]|(st' & lb & -> & Hst' & Hname' & Hdesc)]).
  { by destruct (Hno id st). }
  assert (lb_LoadBalancerId lb = id) as Hid by (eapply Huniq; [done..|congruence]).
  rewrite Hid in *. assert (st' = st) as -> by congruence.
  eapply wp_mono; [apply (wp_sync_lb_synced lb service _ instances w2 st);
    [by rewrite Hid, Hw2|by rewrite Hid|done|done|done]|].
  intros [r| | |] w3 t3 Hr3; simpl in *; try done. destruct Hr3 as (-> & Ht3 & Hw3).
  split_and!; [done|by rewrite !Forall_app|congruence].
Qed.

(** The load balancer's operations do not change what the requests to the load
    balancer service leave alone. *)
Section apart.
Context (p : AliyunProvider).
Context (I : W → Prop) (HI : ∀ R (e : req R) w, slb_request e = true → I w → I (handle e w).2).

Lemma call_apart {R} (e : req R) : slb_request e = true → preserves I (call e).
Proof using HI. intros He. apply preserves_call. intros w. by apply HI. Qed.

Lemma getLBListenerAttributes_apart lb pp : preserves I (getLBListenerAttributes lb pp).
Proof using HI. unfold getLBListenerAttributes. go_struct; by apply HI. Qed.

Lemma listener_diff_apart lb actual expected removals stopped :
  preserves I (listener_diff lb actual expected removals stopped).
Proof using HI.
  revert expected removals stopped.
  induction actual as [|x actual IH]; intros expected removals stopped; simpl; [apply preserves_ret|].
  destruct (expected !! _); [|apply IH].
  apply preserves_bind_ok; [apply getLBListenerAttributes_apart|]. intros [port status].
  case_bool_decide; apply IH.
Qed.

Lemma ensureLBListeners_apart lb ports options : preserves I (ensureLBListeners lb ports options).
Proof using HI.
  unfold ensureLBListeners. apply preserves_bind_ok; [apply listener_diff_apart|].
  intros [[expected removals] stopped].
  apply preserves_bind_ok; [|intros _; apply preserves_bind_ok; [|intros _]].
  - induction stopped as [|x l IH]; simpl; [apply preserves_ret|].
    apply preserves_bind_ok; [by apply call_apart|done].
  - induction removals as [|x l IH]; simpl; [apply preserves_ret|].
    apply preserves_bind_ok; [by apply call_apart|done].
  - induction (range_map expected) as [|[k sp] l IH]; simpl; [apply preserves_ret|].
    apply preserves_bind_ok; [|done]. unfold create_listener.
    apply preserves_bind_ok; [|intros _; by apply call_apart].
    repeat case_bool_decide; [by apply call_apart..|apply preserves_ret].
Qed.

Lemma getLoadBalancer_apart name : preserves I (getLoadBalancer p name).
Proof using HI.
  unfold getLoadBalancer. apply preserves_bind_ok; [by apply call_apart|]. intros lbs.
  induction lbs as [|lb lbs IH]; simpl; [apply preserves_ret|]. case_bool_decide; [|done].
  apply preserves_bind_ok; [by apply call_apart|]. intros ?. apply preserves_ret.
Qed.
End apart.

(** What the compute service reports is such a thing. *)
Lemma reported_apart p r R (e : req R) w :
  slb_request e = true → reported_instances p w = r → reported_instances p (handle e w).2 = r.
Proof. unfold reported_instances. intros He <-. by apply slb_apart. Qed.

Lemma wp_UpdateLoadBalancer p clusterName service nodes w insts pr instances :
  ports_ok (svc_Ports service) →
  (∀ id st, slb w !! id = Some st → backends_in_range (s_listeners st)) →
  reported_instances p w = Ok (insts, pr) →
  by_names_loop (by_nodeNameType (nodeNameType p)) insts [] (n_Name <$> nodes) = Ok instances →
  wp (UpdateLoadBalancer p clusterName service nodes) (returns (λ r w' _,
    (r = Err "Load balancer is not found" ∧ slb w' = slb w ∧
       ∀ id st, slb w !! id = Some st → s_name st ≠ GetLoadBalancerName service) ∨
    (r = Ok tt ∧ ∃ id st ls' ss', slb w !! id = Some st ∧ s_name st = GetLoadBalancerName service ∧
      listeners_synced ls' (svc_Ports service) ∧
      servers_synced (s_servers st) ss' (i_InstanceId <$> instances) ∧
      slb w' = <[id := set_servers (set_listeners st ls') ss']> (slb w)))) w.
Proof.
  intros Hok Hr His Hinst. unfold UpdateLoadBalancer. apply wp_bind_ok.
  eapply wp_mono; [eapply wp_preserves; [exact (getLoadBalancer_apart p (λ w, reported_instances p w = Ok (insts, pr)) (reported_apart p _) _)|done|apply wp_getLoadBalancer]|].
  intros [r| | |] w1 t1 [His1 Hr1]; simpl in Hr1; try done.
  destruct Hr1 as (Hw1 & _ & [[-> Hno]|(st & lb & -> & Hst & Hname & Hdesc)]); simpl.
  { rewrite wp_ret. simpl. by left. }
  apply wp_bind_ok. eapply wp_mono.
  { eapply wp_preserves; [exact (ensureLBListeners_apart (λ w, reported_instances p w = Ok (insts, pr)) (reported_apart p _) _ _ _)|exact His1|].
    apply wp_ensureLBListeners; [by rewrite Hw1|done|done|by eapply Hr]. }
  intros [r| | |] w2 t2 [His2 Hr2]; simpl in Hr2; try done. destruct Hr2 as (-> & ls' & Hls & Hw2). simpl.
  apply wp_bind_ok. eapply wp_mono; [eapply wp_getInstancesByNodes; by rewrite His2|].
  intros [r| | |] w3 t3 Hr3; simpl in Hr3; try done. destruct Hr3 as (Hw3 & _ & ->).
  rewrite Hinst. eapply wp_mono; [apply (wp_ensureLBBackends _ _ _ (set_listeners st ls'))|].
  - by rewrite Hw3, Hw2, lookup_insert_eq.
  - by apply (desc_servers _ _ _ Hdesc).
  - apply (desc_all_servers _ _ _ Hdesc).
  - intros [r| | |] w4 t4 Hr4; simpl in Hr4; try done. destruct Hr4 as (-> & ss' & Hss & Hw4).
    right. split; [done|]. exists (lb_LoadBalancerId lb), st, ls', ss'. split_and!; [done..|].
    by rewrite Hw4, Hw3, Hw2, Hw1, insert_insert_eq.
Qed.

Lemma wp_EnsureLoadBalancerDeleted p clusterName service w :
  unique_names (slb w) →
  wp (EnsureLoadBalancerDeleted p clusterName service) (returns (λ r w' _, r = Ok tt ∧
    ∀ id, slb w' !! id =
      match slb w !! id with
      | Some st => if bool_decide (s_name st = GetLoadBalancerName service) then None else Some st
      | None => None
      end)) w.
Proof.
  intros Huniq. unfold EnsureLoadBalancerDeleted. apply wp_bind_ok.
  eapply wp_mono; [apply wp_getLoadBalancer|].
  intros [r| | |] w1 t1 Hr; simpl in Hr; try done.
  destruct Hr as (Hw1 & _ & [[-> Hno]|(st & lb & -> & Hst & Hname & Hdesc)]).
  - simpl. rewrite wp_ret. simpl. split; [done|]. intros id. rewrite Hw1.
    destruct (slb w !! id) as [st|] eqn:Hst; [|done].
    by rewrite bool_decide_false by (by eapply Hno).
  - simpl. eapply wp_accepts; [eapply slb_delete; by rewrite Hw1|].
    intros [] w2 _ Hw2. simpl. split; [done|]. intros id. rewrite Hw2, Hw1, lookup_delete.
    case_decide as Hid; [subst; rewrite Hst; by rewrite bool_decide_true|].
    destruct (slb w !! id) as [st'|] eqn:Hst'; [|done]. rewrite bool_decide_false; [done|].
    intros Hn. apply Hid. eapply Huniq; [done..|congruence].
Qed.

(** ** Theorems *)

(** C1: [ensureLBListeners] converges.  Whatever listeners the load balancer has,
    the call returns without error and leaves exactly the listeners of the
    service's ports: right protocol, right node port, none of them stopped, no
    other listener; nothing else of the account changes. *)
Theorem ensureLBListeners_converges lb ports options w st :
  slb w !! lb_LoadBalancerId lb = Some st →
  describes (lb_LoadBalancerId lb) st lb →
  ports_ok ports → backends_in_range (s_listeners st) →
  ∃ w' t ls', ensureLBListeners lb ports options w = (Ret (Ok tt), w', t) ∧
    listeners_synced ls' ports ∧
    slb w' = <[lb_LoadBalancerId lb := set_listeners st ls']> (slb w).
Proof.
  intros Hst Hdesc Hok Hr.
  destruct (wp_returns _ _ _ (wp_ensureLBListeners lb ports options w st Hst Hdesc Hok Hr))
    as (r & w' & t & Hm & -> & ls' & Hs & Hw'). eauto 8.
Qed.

(** Synchronisation is idempotent.  On a load balancer whose listeners are
    already those of the service, [ensureLBListeners] returns without error after
    read requests only: nothing is started, deleted or created. *)
Theorem ensureLBListeners_idempotent lb ports options w st :
  slb w !! lb_LoadBalancerId lb = Some st →
  describes (lb_LoadBalancerId lb) st lb →
  ports_ok ports → listeners_synced (s_listeners st) ports →
  ∃ w' t, ensureLBListeners lb ports options w = (Ret (Ok tt), w', t) ∧
    mutations t = [] ∧ slb w' = slb w.
Proof.
  intros Hst Hdesc Hok Hs.
  destruct (wp_returns _ _ _ (wp_ensureLBListeners_synced lb ports options w st Hst Hdesc Hok Hs))
    as (r & w' & t & Hm & -> & Ht & Hw').
  exists w', t. split_and!; [done|by apply read_only_mutations|done].
Qed.

(** [ensureLBBackends] converges.  The call returns without error and leaves
    exactly the given instances as servers; servers that stay keep their weight,
    new ones get weight 100. *)
Theorem ensureLBBackends_converges lb instances w st :
  slb w !! lb_LoadBalancerId lb = Some st →
  describes (lb_LoadBalancerId lb) st lb →
  ∃ w' t ss', ensureLBBackends lb instances w = (Ret (Ok tt), w', t) ∧
    servers_synced (s_servers st) ss' (i_InstanceId <$> instances) ∧
    slb w' = <[lb_LoadBalancerId lb := set_servers st ss']> (slb w).
Proof.
  intros Hst [_ _ _ _ _ _ Hnd Hall].
  destruct (wp_returns _ _ _ (wp_ensureLBBackends lb instances w st Hst Hnd Hall))
    as (r & w' & t & Hm & -> & ss' & Hs & Hw'). eauto 8.
Qed.

(** [EnsureLoadBalancer] meets its contract for a service that has its load
    balancer: for a service that passes the checks it returns the load balancer's
    address and no error, the listeners are the service's ports, the servers the
    instances of the nodes, and no other load balancer changes. *)
Theorem EnsureLoadBalancer_syncs p clusterName service nodes w id st insts pr instances :
  check_service service = None →
  ports_ok (svc_Ports service) →
  unique_names (slb w) → slb w !! id = Some st → s_name st = GetLoadBalancerName service →
  backends_in_range (s_listeners st) →
  reported_instances p w = Ok (insts, pr) →
  by_names_loop (by_nodeNameType (nodeNameType p)) insts [] (n_Name <$> nodes) = Ok instances →
  ∃ w' t ls' ss',
    EnsureLoadBalancer p clusterName service nodes w = (Ret (Some [s_address st], None), w', t) ∧
    listeners_synced ls' (svc_Ports service) ∧
    servers_synced (s_servers st) ss' (i_InstanceId <$> instances) ∧
    slb w' = <[id := set_servers (set_listeners st ls') ss']> (slb w).
Proof.
  intros H1 H2 H3 H4 H5 H6 H7 H8.
  destruct (wp_returns _ _ _ (wp_EnsureLoadBalancer_existing p clusterName service nodes w id st
    insts pr instances H1 H2 H3 H4 H5 H6 H7 H8)) as (r & w' & t & Hm & -> & ls' & ss' & ? & ? & ?).
  eauto 10.
Qed.

(** [EnsureLoadBalancerDeleted] removes the service's load balancer, and
    nothing else, when there is one; when there is none it succeeds without
    changing the account. *)
Theorem EnsureLoadBalancerDeleted_deletes p clusterName service w :
  unique_names (slb w) →
  ∃ w' t, EnsureLoadBalancerDeleted p clusterName service w = (Ret (Ok tt), w', t) ∧
    (∀ id, slb w' !! id =
       match slb w !! id with
       | Some st => if bool_decide (s_name st = GetLoadBalancerName service) then None else Some st
       | None => None
       end).
Proof.
  intros Huniq.
  destruct (wp_returns _ _ _ (wp_EnsureLoadBalancerDeleted p clusterName service w Huniq))
    as (r & w' & t & Hm & -> & Hw'). eauto.
Qed.

(** For a service that has no load balancer yet, [EnsureLoadBalancer] creates
    one under the service's name, finds it again, gives it exactly the service's
    listeners and the nodes' instances, and returns its address. *)
Theorem EnsureLoadBalancer_creates p clusterName service nodes w insts pr instances :
  check_service service = None →
  ports_ok (svc_Ports service) →
  unique_names (slb w) → (∀ id st, slb w !! id = Some st → s_name st ≠ GetLoadBalancerName service) →
  reported_instances p w = Ok (insts, pr) →
  by_names_loop (by_nodeNameType (nodeNameType p)) insts [] (n_Name <$> nodes) = Ok instances →
  ∃ w' t id address ls' ss',
    EnsureLoadBalancer p clusterName service nodes w = (Ret (Some [address], None), w', t) ∧
    slb w !! id = None ∧
    listeners_synced ls' (svc_Ports service) ∧
    servers_synced ∅ ss' (i_InstanceId <$> instances) ∧
    slb w' = <[id := mkLBState (GetLoadBalancerName service) address ls' ss']> (slb w).
Proof.
  intros H1 H2 H3 H4 H5 H6.
  destruct (wp_returns _ _ _ (wp_EnsureLoadBalancer_creates p clusterName service nodes w
    insts pr instances H1 H2 H3 H4 H5 H6)) as (r & w' & t & Hm & id & a & ls' & ss' & -> & ? & ? & ? & ?).
  eauto 12.
Qed.

(** A second [EnsureLoadBalancer] changes nothing: on a load balancer that has
    the service's listeners and the nodes' instances it returns the address after
    read requests only. *)
Theorem EnsureLoadBalancer_idempotent p clusterName service nodes w id st insts pr instances :
  check_service service = None →
  ports_ok (svc_Ports service) →
  unique_names (slb w) → slb w !! id = Some st → s_name st = GetLoadBalancerName service →
  listeners_synced (s_listeners st) (svc_Ports service) →
  (∀ s, is_Some (s_servers st !! s) ↔ s ∈ i_InstanceId <$> instances) →
  reported_instances p w = Ok (insts, pr) →
  by_names_loop (by_nodeNameType (nodeNameType p)) insts [] (n_Name <$> nodes) = Ok instances →
  ∃ w' t, EnsureLoadBalancer p clusterName service nodes w = (Ret (Some [s_address st], None), w', t) ∧
    mutations t = [] ∧ slb w' = slb w.
Proof.
  intros H1 H2 H3 H4 H5 H6 H7 H8 H9.
  destruct (wp_returns _ _ _ (wp_EnsureLoadBalancer_synced p clusterName service nodes w id st
    insts pr instances H1 H2 H3 H4 H5 H6 H7 H8 H9)) as (r & w' & t & Hm & -> & ? & ?).
  exists w', t. split_and!; [done|by apply read_only_mutations|done].
Qed.

(** [UpdateLoadBalancer] gives the service's load balancer exactly the
    service's listeners and the nodes' instances; when the account has none of the
    name it is an error that changes nothing. *)
Theorem UpdateLoadBalancer_syncs p clusterName service nodes w insts pr instances :
  ports_ok (svc_Ports service) →
  (∀ id st, slb w !! id = Some st → backends_in_range (s_listeners st)) →
  reported_instances p w = Ok (insts, pr) →
  by_names_loop (by_nodeNameType (nodeNameType p)) insts [] (n_Name <$> nodes) = Ok instances →
  ∃ r w' t, UpdateLoadBalancer p clusterName service nodes w = (Ret r, w', t) ∧
    ((r = Err "Load balancer is not found" ∧ slb w' = slb w ∧
       ∀ id st, slb w !! id = Some st → s_name st ≠ GetLoadBalancerName service) ∨
     (r = Ok tt ∧ ∃ id st ls' ss', slb w !! id = Some st ∧ s_name st = GetLoadBalancerName service ∧
      listeners_synced ls' (svc_Ports service) ∧
      servers_synced (s_servers st) ss' (i_InstanceId <$> instances) ∧
      slb w' = <[id := set_servers (set_listeners st ls') ss']> (slb w))).
Proof.
  intros H1 H2 H3 H4.
  exact (wp_returns _ _ _ (wp_UpdateLoadBalancer p clusterName service nodes w insts pr instances
    H1 H2 H3 H4)).
Qed.

End sync.

(** ** Witnesses: the theorems on the in-memory cloud *)

Module SyncWitness.

#[local] Existing Instance canonical_order.
#[local] Existing Instance text_float.

Definition i1 : InstanceAttributesType := mkInstance "i-1" "node-1" ["10.0.0.1"].
Definition provider : AliyunProvider :=
  mkProvider "key" "secret" "cn-hangzhou" "cn-hangzhou-a" "vpc-1" "vrt-1" "vsw-1" "rtb-1" "i-1"
    "node-1" NodeNameTypeHostname.
Definition ports : list ServicePort :=
  [mkServicePort "TCP" 80 30080; mkServicePort "UDP" 53 30053; mkServicePort "TCP" 22 0].
Definition service : Service := mkService "1234-abcd" None "None" ports "".
Definition nodes : list Node := [mkNode "node-1" []].

(** A load balancer of the service with a stopped listener, one with a wrong
    backend port, a foreign one and a foreign server; and one that is in sync. *)
Definition stale : LBState :=
  mkLBState "a1234abcd" "1.2.3.4"
    {[ 80 := mkListener "TCP" 30080 Stopped; 53 := mkListener "udp" 1 Running;
       8080 := mkListener "tcp" 30081 Running ]}
    {[ "i-9" := 100; "i-1" := 50 ]}.
Definition synced : LBState :=
  mkLBState "a1234abcd" "1.2.3.4"
    {[ 80 := mkListener "tcp" 30080 Running; 53 := mkListener "udp" 30053 Running ]}
    {[ "i-1" := 50 ]}.
Definition other : LBState := mkLBState "other" "1.2.3.5" ∅ ∅.

Definition account (lbs : gmap string LBState) : cloud := mkCloud ∅ [i1] ∅ lbs [] 0.
Definition w_stale : cloud := account {[ "lb-1" := stale; "lb-2" := other ]}.
Definition w_synced : cloud := account {[ "lb-1" := synced; "lb-2" := other ]}.
Definition w_none : cloud := account {[ "lb-2" := other ]}.

Lemma ports_ok_example : ports_ok ports.
Proof.
  assert (wanted ports = [mkServicePort "TCP" 80 30080; mkServicePort "UDP" 53 30053]) as Hw
    by reflexivity.
  split; rewrite Hw.
  - apply Forall_forall, (bool_decide_unpack _). vm_compute. exact I.
  - apply Forall_forall, (bool_decide_unpack _). vm_compute. exact I.
  - apply (bool_decide_unpack _). vm_compute. exact I.
Qed.

(** A decidable property of all bindings of a finite map, by evaluation. *)
Lemma map_forall_eval {K A} `{Countable K} (P : K → A → Prop) `{∀ k a, Decision (P k a)}
    (m : gmap K A) :
  bool_decide (Forall (λ kv, P kv.1 kv.2) (map_to_list m)) = true →
  ∀ k a, m !! k = Some a → P k a.
Proof.
  intros Hm%bool_decide_eq_true k a Hk. rewrite Forall_forall in Hm.
  by apply (Hm (k, a)), elem_of_map_to_list.
Qed.

Lemma stale_in_range : backends_in_range (s_listeners stale).
Proof. refine (map_forall_eval (λ (_ : Z) l, in_int32 (l_backend l)) _ _). vm_compute. reflexivity. Qed.

Lemma unique_by_name m :
  bool_decide (NoDup (s_name <$> (map_to_list m).*2)) = true → unique_names m.
Proof.
  intros Hnd%bool_decide_eq_true id1 id2 st1 st2 H1 H2 Hn.
  rewrite <- list_fmap_compose in Hnd.
  apply elem_of_map_to_list in H1, H2.
  pose proof (NoDup_fmap_elem _ _ _ _ Hnd H1 H2 Hn) as Heq. congruence.
Qed.

Lemma synced_listeners : listeners_synced (s_listeners synced) ports.
Proof.
  assert (wanted ports = [mkServicePort "TCP" 80 30080; mkServicePort "UDP" 53 30053]) as Hw
    by reflexivity.
  split; rewrite Hw.
  - apply Forall_forall. repeat constructor; eexists; (split; [reflexivity|]); by split_and!.
  - intros port l Hl.
    assert (port = 80 ∨ port = 53) as Hp.
    { revert port l Hl. refine (map_forall_eval (λ port (_ : Listener), port = 80 ∨ port = 53) _ _).
      vm_compute. reflexivity. }
    destruct Hp as [-> | ->]; eexists; (split; [|]); [left|reflexivity|right; left|reflexivity].
Qed.

Lemma ensureLBListeners_converges_witness :
  ∃ w' t ls', ensureLBListeners (describe_lb "lb-1" stale) ports zero_LBOptions w_stale =
      (Ret (Ok tt), w', t) ∧
    listeners_synced ls' ports ∧ slb w' = <["lb-1" := set_listeners stale ls']> (slb w_stale).
Proof.
  apply (ensureLBListeners_converges (describe_lb "lb-1" stale) ports zero_LBOptions w_stale stale).
  - reflexivity.
  - apply describe_lb_ok.
  - apply ports_ok_example.
  - apply stale_in_range.
Defined.

Lemma ensureLBListeners_idempotent_witness :
  ∃ w' t, ensureLBListeners (describe_lb "lb-1" synced) ports zero_LBOptions w_synced =
      (Ret (Ok tt), w', t) ∧ mutations t = [] ∧ slb w' = slb w_synced.
Proof.
  apply (ensureLBListeners_idempotent (describe_lb "lb-1" synced) ports zero_LBOptions w_synced synced).
  - reflexivity.
  - apply describe_lb_ok.
  - apply ports_ok_example.
  - apply synced_listeners.
Defined.

Lemma ensureLBBackends_converges_witness :
  ∃ w' t ss', ensureLBBackends (describe_lb "lb-1" stale) [i1] w_stale = (Ret (Ok tt), w', t) ∧
    servers_synced (s_servers stale) ss' ["i-1"] ∧
    slb w' = <["lb-1" := set_servers stale ss']> (slb w_stale).
Proof.
  apply (ensureLBBackends_converges (describe_lb "lb-1" stale) [i1] w_stale stale).
  - reflexivity.
  - apply describe_lb_ok.
Defined.

Lemma EnsureLoadBalancer_syncs_witness :
  ∃ w' t ls' ss',
    EnsureLoadBalancer provider "cluster" service nodes w_stale =
      (Ret (Some ["1.2.3.4"], None), w', t) ∧
    listeners_synced ls' ports ∧ servers_synced (s_servers stale) ss' ["i-1"] ∧
    slb w' = <["lb-1" := set_servers (set_listeners stale ls') ss']> (slb w_stale).
Proof.
  apply (EnsureLoadBalancer_syncs provider "cluster" service nodes w_stale "lb-1" stale [i1]
    (mkPaginationResult 1 1 1) [i1]); try reflexivity.
  - apply ports_ok_example.
  - apply unique_by_name. vm_compute. reflexivity.
  - apply stale_in_range.
Defined.

Lemma EnsureLoadBalancerDeleted_deletes_witness :
  ∃ w' t, EnsureLoadBalancerDeleted provider "cluster" service w_stale = (Ret (Ok tt), w', t) ∧
    (∀ id, slb w' !! id =
       match slb w_stale !! id with
       | Some st => if bool_decide (s_name st = GetLoadBalancerName service) then None else Some st
       | None => None
       end).
Proof.
  apply (EnsureLoadBalancerDeleted_deletes provider "cluster" service w_stale).
  apply unique_by_name. vm_compute. reflexivity.
Defined.

Lemma EnsureLoadBalancer_creates_witness :
  ∃ w' t id address ls' ss',
    EnsureLoadBalancer provider "cluster" service nodes w_none =
      (Ret (Some [address], None), w', t) ∧
    slb w_none !! id = None ∧ listeners_synced ls' ports ∧ servers_synced ∅ ss' ["i-1"] ∧
    slb w' = <[id := mkLBState "a1234abcd" address ls' ss']> (slb w_none).
Proof.
  apply (EnsureLoadBalancer_creates provider "cluster" service nodes w_none [i1]
    (mkPaginationResult 1 1 1) [i1]); try reflexivity.
  - apply ports_ok_example.
  - apply unique_by_name. vm_compute. reflexivity.
  - refine (map_forall_eval (λ (_ : string) st, s_name st ≠ _) _ _). vm_compute. reflexivity.
Defined.

Lemma EnsureLoadBalancer_idempotent_witness :
  ∃ w' t, EnsureLoadBalancer provider "cluster" service nodes w_synced =
      (Ret (Some ["1.2.3.4"], None), w', t) ∧ mutations t = [] ∧ slb w' = slb w_synced.
Proof.
  apply (EnsureLoadBalancer_idempotent provider "cluster" service nodes w_synced "lb-1" synced [i1]
    (mkPaginationResult 1 1 1) [i1]); try reflexivity.
  - apply ports_ok_example.
  - apply unique_by_name. vm_compute. reflexivity.
  - apply synced_listeners.
  - intros s. simpl. rewrite lookup_singleton, list_elem_of_singleton. case_decide; subst; simpl.
    + split; [done|eauto].
    + split; [by intros []|congruence].
Defined.

Lemma UpdateLoadBalancer_syncs_witness :
  ∃ r w' t, UpdateLoadBalancer provider "cluster" service nodes w_stale = (Ret r, w', t) ∧
    ((r = Err "Load balancer is not found" ∧ slb w' = slb w_stale ∧
       ∀ id st, slb w_stale !! id = Some st → s_name st ≠ GetLoadBalancerName service) ∨
     (r = Ok tt ∧ ∃ id st ls' ss', slb w_stale !! id = Some st ∧
      s_name st = GetLoadBalancerName service ∧
      listeners_synced ls' (svc_Ports service) ∧
      servers_synced (s_servers st) ss' ["i-1"] ∧
      slb w' = <[id := set_servers (set_listeners st ls') ss']> (slb w_stale))).
Proof.
  apply (UpdateLoadBalancer_syncs provider "cluster" service nodes w_stale [i1]
    (mkPaginationResult 1 1 1) [i1]); try reflexivity.
  - apply ports_ok_example.
  - intros id st Hst port l Hl.
    assert (map_Forall (λ _ l, in_int32 (l_backend l)) (s_listeners st)) as Hall; [|by eapply Hall].
    revert id st Hst Hl. intros id st Hst _. revert id st Hst.
    refine (map_forall_eval (λ (_ : string) st, map_Forall (λ (_ : Z) l, in_int32 (l_backend l)) (s_listeners st)) _ _).
    vm_compute. reflexivity.
Defined.

End SyncWitness.
