(* ===== verification/VolumeSpec.v ===== *)
(** * Theorems about the volume operations

    Safety of [Attach], [Detach] and [IsAttached] for every behaviour of the
    cloud (what they change, and on what evidence), their correctness against the
    laws of the disk service ([ECS]). *)

From S2P Require Import Prelude GoStd Kube Cloud MapUtils Provider Instances InstancesSpec Quantity Volume ECS SimCloud.

(** ** Evidence *)

Definition disk_query (p : AliyunProvider) (diskId : string) : DescribeDisksArgs :=
  mkDescribeDisksArgs (region p) [diskId] "" (mkPagination 0 50).

(** According to the answers in trace [t], [i] is the one instance whose name is
    [node]. *)
Definition node_instance (p : AliyunProvider) (node : string) (i : InstanceAttributesType)
    (t : list (event req)) : Prop :=
  ∃ insts pr, Ev (DescribeInstances (instances_query p)) (Ok (insts, pr)) ∈ t ∧
    filter_instances insts (by_nodeNameType (nodeNameType p) node) = [i].

(** According to the answers in trace [t], [instanceId] is the instance an
    operation for [node] works on: the only instance of that node name, or the
    provider's own when there is no node name. *)
Definition targets (p : AliyunProvider) (node instanceId : string) (t : list (event req)) : Prop :=
  if bool_decide (node = "") then instanceId = instance p
  else ∃ i, node_instance p node i t ∧ i_InstanceId i = instanceId.

(** According to trace [t], the disk service described disk [diskId] as [disk]. *)
Definition reported_disk (p : AliyunProvider) (diskId : string) (disk : DiskItemType)
    (t : list (event req)) : Prop :=
  ∃ rest pr, Ev (DescribeDisks (disk_query p diskId)) (Ok (disk :: rest, pr)) ∈ t.

(** The answer names the device of a description of the disk in trace [t]. *)
Definition device_evidence (p : AliyunProvider) (diskId : string) (ve : VolumeError)
    (t : list (event req)) : Prop :=
  ∃ disk, reported_disk p diskId disk t ∧
    ve = set_DevicePath NewVolumeSuccess (deviceApi2Local (di_Device disk)).

(** What [Attach] may change and answer, given the described disk: nothing when
    the disk is already there; one attach when it is not in use; a detach from the
    instance that holds it, and the attach only once the detach was accepted.  The
    answer can be a success only when every request was accepted. *)
Inductive attach_plan (instanceId diskId : string) (del : bool) (disk : DiskItemType)
    (ve : VolumeError) : list (event req) → Prop :=
| plan_attached :
    di_Status disk = DiskStatusInUse → di_InstanceId disk = instanceId →
    ve = set_DevicePath NewVolumeSuccess (deviceApi2Local (di_Device disk)) →
    attach_plan instanceId diskId del disk ve []
| plan_attach r :
    di_Status disk ≠ DiskStatusInUse →
    (ve_Status ve = StatusSuccess → r = Ok tt) →
    attach_plan instanceId diskId del disk ve
      [Ev (AttachDisk (mkAttachDiskArgs instanceId diskId del)) r]
| plan_stuck e :
    di_Status disk = DiskStatusInUse → di_InstanceId disk ≠ instanceId →
    ve_Status ve = StatusFailure →
    attach_plan instanceId diskId del disk ve
      [Ev (DetachDisk (di_InstanceId disk) diskId) (Err e)]
| plan_move r :
    di_Status disk = DiskStatusInUse → di_InstanceId disk ≠ instanceId →
    (ve_Status ve = StatusSuccess → r = Ok tt) →
    attach_plan instanceId diskId del disk ve
      [Ev (DetachDisk (di_InstanceId disk) diskId) (Ok tt);
       Ev (AttachDisk (mkAttachDiskArgs instanceId diskId del)) r].

(** What [Detach] may change and answer, given the described disk. *)
Inductive detach_plan (instanceId : string) (disk : DiskItemType) (ve : VolumeError) :
    list (event req) → Prop :=
| plan_gone :
    di_Status disk = DiskStatusDetaching ∨ di_Status disk = DiskStatusAvailable ∨
      di_InstanceId disk ≠ instanceId →
    ve = VolumeSuccess →
    detach_plan instanceId disk ve []
| plan_detach r :
    di_Status disk ≠ DiskStatusDetaching → di_Status disk ≠ DiskStatusAvailable →
    di_InstanceId disk = instanceId →
    (r = Ok tt ∧ ve = VolumeSuccess ∨ (∃ e, r = Err e) ∧ ve_Status ve = StatusFailure) →
    detach_plan instanceId disk ve [Ev (DetachDisk instanceId (di_DiskId disk)) r].

Section evidence.
Context {W : Type} `{!Handler req W}.
Implicit Types (w : W).

(** ** The steps *)

Lemma wp_getDiskById p diskId Q w :
  (∀ e w' t, Forall read_only t → Q (Ret (Err e)) w' t) →
  (∀ disk w' t, Forall read_only t → reported_disk p diskId disk t → Q (Ret (Ok disk)) w' t) →
  wp (getDiskById p diskId) Q w.
Proof.
  intros HErr HOk. unfold getDiskById, bind_ok. rewrite wp_bind, wp_call.
  fold (disk_query p diskId).
  destruct (handle (DescribeDisks (disk_query p diskId)) w) as [[[[|disk disks] pr]|e] w']; simpl;
    rewrite wp_ret; simpl; [apply HErr|apply HOk|apply HErr]; try by repeat constructor.
  exists disks, pr. by apply list_elem_of_singleton.
Qed.

Lemma wp_getInstanceByNodeName p node Q w :
  (∀ e w' t, Forall read_only t → Q (Ret (Err e)) w' t) →
  (∀ i w' t, Forall read_only t → node_instance p node i t → Q (Ret (Ok i)) w' t) →
  wp (getInstanceByNodeName p node) Q w.
Proof.
  intros HErr HOk. unfold getInstanceByNodeName, getInstances, bind_ok.
  change (mkDescribeInstancesArgs _ _ _) with (instances_query p).
  rewrite !wp_bind, wp_call.
  destruct (handle (DescribeInstances (instances_query p)) w) as [[[insts pr]|e] w'] eqn:Hh;
    simpl; rewrite wp_ret; simpl; [|rewrite wp_ret; apply HErr; by repeat constructor].
  destruct (filter_instances insts _) as [|i [|j l]] eqn:Hf; rewrite wp_ret;
    [apply HErr|apply HOk|apply HErr]; try by repeat constructor.
  exists insts, pr. split; [|done]. by apply list_elem_of_singleton.
Qed.

Lemma wp_target_instance p node Q w :
  (∀ ve w' t, Forall read_only t → ve_Status ve = StatusFailure → Q (Ret (inl ve)) w' t) →
  (∀ i w' t, Forall read_only t → targets p node i t → Q (Ret (inr i)) w' t) →
  wp (target_instance p node) Q w.
Proof.
  intros HErr HOk. unfold target_instance. case_bool_decide as Hn.
  - rewrite wp_bind. apply wp_getInstanceByNodeName; intros x w' t Ht; simpl.
    + rewrite wp_ret. apply HErr; [by rewrite app_nil_r|done].
    + intros Htg. rewrite wp_ret, app_nil_r. apply HOk; [done|].
      unfold targets. rewrite bool_decide_false by done. eauto.
  - rewrite wp_ret. apply HOk; [done|]. unfold targets.
    destruct (decide (node = "")); [by rewrite bool_decide_true|tauto].
Qed.

(** Evidence is kept by longer traces. *)
Lemma targets_app p node i t t' : targets p node i t → targets p node i (t ++ t').
Proof.
  unfold targets, node_instance. case_bool_decide; [done|].
  intros (x & (insts & pr & Hin & Hf) & Hx). exists x. split; [|done]. exists insts, pr.
  split; [|done]. rewrite elem_of_app. by left.
Qed.

Lemma reported_disk_app p diskId disk t t' :
  reported_disk p diskId disk t → reported_disk p diskId disk (t ++ t').
Proof. intros (rest & pr & Hin). exists rest, pr. rewrite elem_of_app. by left. Qed.

Lemma reported_disk_app_r p diskId disk t t' :
  reported_disk p diskId disk t' → reported_disk p diskId disk (t ++ t').
Proof. intros (rest & pr & Hin). exists rest, pr. rewrite elem_of_app. by right. Qed.

Lemma node_instance_app p node i t t' : node_instance p node i t → node_instance p node i (t ++ t').
Proof. intros (insts & pr & Hin & ?). exists insts, pr. rewrite elem_of_app. auto. Qed.

(** A computation that always returns and only reads. *)
Lemma wp_reads {A} (m : go W A) Q w :
  total m → emits read_only m → (∀ a w' t, Forall read_only t → Q (Ret a) w' t) → wp m Q w.
Proof.
  intros Hm Hr HQ. destruct (Hm w) as [a Ha]. unfold wp. rewrite Ha. apply HQ, Hr.
Qed.

Lemma wp_wait regionId diskId status Q w :
  (∀ r w' t, Forall read_only t → Q (Ret r) w' t) →
  wp (WaitForDisk regionId diskId status 0) Q w.
Proof.
  apply wp_reads; [by apply WaitForDisk_total|apply WaitForDisk_read_only].
Qed.

(** Attaching a free disk changes one thing. *)
Lemma wp_attach_disk p instanceId diskId del w :
  wp (attach_disk p instanceId diskId del) (returns (λ ve w' t,
    ∃ r, mutations t = [Ev (AttachDisk (mkAttachDiskArgs instanceId diskId del)) r] ∧
      match r with
      | Err e => ve = NewVolumeError e []
      | Ok _ => ve_Status ve = StatusSuccess → device_evidence p diskId ve t
      end)) w.
Proof.
  unfold attach_disk. rewrite wp_bind, wp_call.
  set (e := AttachDisk _). destruct (handle e w) as [[[]|err] w1]; simpl.
  2:{ rewrite wp_ret. simpl. by exists (Err err). }
  rewrite wp_bind. apply wp_wait. intros r w2 t2 Ht2. simpl.
  rewrite wp_bind. apply wp_getDiskById; [intros err w3 t3 Ht3|intros disk w3 t3 Ht3 Hd]; simpl;
    rewrite wp_ret; simpl; exists (Ok tt); rewrite app_nil_r; (split;
      [apply mutations_cons_read_only; [by apply Forall_app|done]|]); [done|].
  intros _. exists disk. split; [|done]. destruct Hd as (rest & pr & Hin). exists rest, pr.
  rewrite elem_of_cons, elem_of_app. auto.
Qed.

Lemma device_evidence_app_r p diskId ve t t' :
  device_evidence p diskId ve t' → device_evidence p diskId ve (t ++ t').
Proof. intros (disk & ? & ?). exists disk. auto using reported_disk_app_r. Qed.

(** From a described disk on: the plan, and the device of a success. *)
Lemma wp_attach_rest p instanceId diskId del disk w :
  wp (if bool_decide (di_Status disk = DiskStatusInUse) then
        if bool_decide (di_InstanceId disk = instanceId) then
          mret (mkVolumeError "Success" "" (deviceApi2Local (di_Device disk)) "" false)
        else
          r ← call (DetachDisk (di_InstanceId disk) diskId);
          match r with
          | Err e => mret (NewVolumeError
              "Unable to attach disk: need to detach first but failed: %v" [AStr e])
          | Ok _ =>
              _ ← WaitForDisk (region p) diskId DiskStatusAvailable 0;
              attach_disk p instanceId diskId del
          end
      else attach_disk p instanceId diskId del) (returns (λ ve w' t,
    attach_plan instanceId diskId del disk ve (mutations t) ∧
    (ve_Status ve = StatusSuccess → mutations t = [] ∨ device_evidence p diskId ve t))) w.
Proof.
  assert (∀ ve r, match r with
      | Err e => ve = NewVolumeError e []
      | Ok _ => True end → ve_Status ve = StatusSuccess → r = Ok tt) as Hr.
  { intros ve [[]|e]; [done|]. by intros ->. }
  case_bool_decide as Hs; [case_bool_decide as Hi|].
  - rewrite wp_ret. split; [by constructor|by left].
  - rewrite wp_bind, wp_call. set (e := DetachDisk _ _).
    destruct (handle e w) as [[[]|err] w1]; simpl.
    2:{ rewrite wp_ret. split; [by constructor|done]. }
    rewrite wp_bind. apply wp_wait. intros r w2 t2 Ht2. simpl.
    eapply wp_mono; [apply wp_attach_disk|]. intros [ve| | |] w3 t3; simpl; try done.
    intros (r3 & Hm & Hve). rewrite app_comm_cons, mutations_app, Hm.
    rewrite mutations_cons_read_only by done. split.
    + constructor; [done..|]. apply Hr. by destruct r3.
    + intros Hsucc. right. destruct r3 as [|e3]; [|by subst ve].
      apply (device_evidence_app_r _ _ _ (_ :: t2)). auto.
  - eapply wp_mono; [apply wp_attach_disk|]. intros [ve| | |] w3 t3; simpl; try done.
    intros (r3 & Hm & Hve). rewrite Hm. split.
    + constructor; [done|]. apply Hr. by destruct r3.
    + intros Hsucc. right. destruct r3 as [|e3]; [|by subst ve]. auto.
Qed.

Lemma wp_Attach p options node w :
  wp (Attach p options node) (returns (λ ve w' t,
    (mutations t = [] ∧ ve_Status ve = StatusFailure) ∨
    ∃ instanceId disk, let diskId := opt_string options "diskId" in
      instanceId ≠ "" ∧ diskId ≠ "" ∧
      targets p node instanceId t ∧ reported_disk p diskId disk t ∧
      attach_plan instanceId diskId (opt_bool options "deleteWithInstance") disk ve (mutations t) ∧
      (ve_Status ve = StatusSuccess → device_evidence p diskId ve t))) w.
Proof.
  unfold Attach. rewrite wp_bind.
  apply wp_target_instance; [intros ve w1 t1 Ht1 Hve|intros instanceId w1 t1 Ht1 Htg]; simpl.
  { rewrite wp_ret. left. by rewrite app_nil_r, read_only_mutations. }
  case_bool_decide; [rewrite wp_ret; left; by rewrite app_nil_r, read_only_mutations|].
  case_bool_decide; [rewrite wp_ret; left; by rewrite app_nil_r, read_only_mutations|].
  rewrite wp_bind. set (diskId := opt_string options "diskId").
  apply wp_getDiskById; [intros err w2 t2 Ht2|intros disk w2 t2 Ht2 Hd]; simpl.
  { rewrite wp_ret. left. by rewrite app_nil_r, mutations_app, !read_only_mutations. }
  eapply wp_mono; [apply wp_attach_rest|]. intros [ve| | |] w3 t3; simpl; try done.
  intros [Hplan Hdev]. right. exists instanceId, disk.
  assert (mutations (t1 ++ t2 ++ t3) = mutations t3) as Hmut.
  { by rewrite !mutations_read_only_app. }
  rewrite Hmut. split_and!; auto using targets_app, reported_disk_app, reported_disk_app_r.
  intros Hs. destruct (Hdev Hs) as [Hnil|?]; [|auto using device_evidence_app_r].
  rewrite Hnil in Hplan. inversion Hplan; subst. exists disk.
  auto using reported_disk_app, reported_disk_app_r.
Qed.

Lemma wp_Detach p deviceName node w :
  wp (Detach p deviceName node) (returns (λ ve w' t,
    (mutations t = [] ∧ ve_Status ve = StatusFailure) ∨
    ∃ instanceId disk,
      instanceId ≠ "" ∧ targets p node instanceId t ∧
      reported_disk p (path_Base deviceName) disk t ∧
      detach_plan instanceId disk ve (mutations t))) w.
Proof.
  unfold Detach. rewrite wp_bind.
  apply wp_target_instance; [intros ve w1 t1 Ht1 Hve|intros instanceId w1 t1 Ht1 Htg]; simpl.
  { rewrite wp_ret. left. by rewrite app_nil_r, read_only_mutations. }
  case_bool_decide; [rewrite wp_ret; left; by rewrite app_nil_r, read_only_mutations|].
  rewrite wp_bind.
  apply wp_getDiskById; [intros err w2 t2 Ht2|intros disk w2 t2 Ht2 Hd]; simpl.
  { rewrite wp_ret. left. by rewrite app_nil_r, mutations_app, !read_only_mutations. }
  eapply (wp_mono _ (returns (λ ve _ t3, detach_plan instanceId disk ve (mutations t3)))); cycle 1.
  { intros [ve| | |] w3 t3; simpl; try done. intros Hplan.
    right. exists instanceId, disk. rewrite !mutations_read_only_app by done.
    split_and!; auto using targets_app, reported_disk_app, reported_disk_app_r. }
  destruct (bool_decide _ || _) eqn:Hb.
  { rewrite wp_ret. constructor; [|done]. apply orb_prop in Hb as [Hb|Hb];
      apply bool_decide_eq_true in Hb; auto. }
  apply orb_false_elim in Hb as [Hb1%bool_decide_eq_false Hb2%bool_decide_eq_false].
  case_bool_decide as Hi; [rewrite wp_ret; constructor; auto|].
  assert (di_InstanceId disk = instanceId).
  { destruct (decide (di_InstanceId disk = instanceId)); tauto. }
  rewrite wp_bind, wp_call. set (e := DetachDisk _ _).
  destruct (handle e w2) as [[[]|err] w3]; simpl; rewrite wp_ret; simpl; constructor; eauto 6.
Qed.

Lemma wp_IsAttached p options node w :
  let node' := if bool_decide (node = "localhost") then hostname p else node in
  wp (IsAttached p options node) (returns (λ ve w' t,
    Forall read_only t ∧
    (ve_Status ve = StatusSuccess →
      ∃ i disk, node_instance p node' i t ∧ reported_disk p (opt_string options "diskId") disk t ∧
        (ve_Attached ve = true ↔ di_InstanceId disk = i_InstanceId i ∧ di_Status disk = DiskStatusInUse)))) w.
Proof.
  intros node'. unfold IsAttached. destruct (authorized p); [|rewrite wp_ret; split; [constructor|done]].
  fold node'. rewrite wp_bind.
  apply wp_getInstanceByNodeName; [intros e w1 t1 Ht1|intros i w1 t1 Ht1 Hi]; simpl.
  { rewrite wp_ret, app_nil_r. done. }
  case_bool_decide; [rewrite wp_ret, app_nil_r; done|].
  rewrite wp_bind. apply wp_getDiskById; [intros err w2 t2 Ht2|intros disk w2 t2 Ht2 Hd]; simpl;
    rewrite wp_ret, app_nil_r; (split; [by apply Forall_app|]); [done|].
  intros _. exists i, disk. split_and!; auto using node_instance_app, reported_disk_app_r.
  simpl. rewrite andb_true_iff, !bool_decide_eq_true. done.
Qed.

End evidence.

(** ** Against the laws of the disk service *)

Section lawful.
Context {W : Type} `{!Handler req W} `{!ECS W}.
Implicit Types (w : W).

(** The instance an operation for [node] works on, in world [w]. *)
Definition resolves (p : AliyunProvider) (node : string) (w : W) (instanceId : string) : Prop :=
  if bool_decide (node = "") then instanceId = instance p
  else ∃ insts pr i, reported_instances p w = Ok (insts, pr) ∧ only_named p node insts i ∧
    i_InstanceId i = instanceId.

Lemma wp_describe args id s Q w :
  ecs w !! id = Some s → dd_DiskIds args = [id] →
  (∀ rest pr w', ecs w' = settle <$> ecs w →
     Q (Ret (Ok (disk_item id s :: rest, pr))) w' [Ev (DescribeDisks args) (Ok (disk_item id s :: rest, pr))]) →
  wp (call (DescribeDisks args)) Q w.
Proof.
  intros Hs Hargs HQ. destruct (ecs_describe w args id s Hs Hargs) as (rest & pr & w' & Hh & Hw').
  rewrite wp_call, Hh. by apply HQ.
Qed.

Lemma wp_getDiskById_lawful p id s Q w :
  ecs w !! id = Some s →
  (∀ w' t, ecs w' = settle <$> ecs w → Q (Ret (Ok (disk_item id s))) w' t) →
  wp (getDiskById p id) Q w.
Proof.
  intros Hs HQ. unfold getDiskById, bind_ok. rewrite wp_bind.
  eapply wp_describe; [exact Hs|done|]. intros rest pr w' Hw'. rewrite wp_ret. by apply HQ.
Qed.

(** The status a disk ends up in. *)
Definition settled_status (s : disk_state) : string :=
  match holder s with Some _ => DiskStatusInUse | None => DiskStatusAvailable end.

Lemma disk_item_status id s :
  di_Status (disk_item id s) = settled_status s ↔ lag s = 0%nat.
Proof. destruct s as [[[i dev]|] []]; simpl; split; done. Qed.

Lemma lookup_settle (m : gmap string disk_state) id s :
  m !! id = Some s → (settle <$> m) !! id = Some (settle s).
Proof. intros Hm. by rewrite lookup_fmap, Hm. Qed.

(** [WaitForDisk] succeeds on a disk that settles in time. *)
Lemma wp_waitForDisk_loop fuel args id s timeout w :
  ecs w !! id = Some s → dd_DiskIds args = [id] →
  5 * (Z.of_nat (lag s) + 1) ≤ timeout < 2 ^ 63 → timeout ≤ Z.of_nat fuel →
  wp (waitForDisk_loop fuel args (settled_status s) timeout)
    (returns (λ r w' _, r = Ok tt ∧ ecs w' = Nat.iter (S (lag s)) (fmap settle) (ecs w))) w.
Proof.
  intros Hs Hargs. revert s timeout w Hs.
  induction fuel as [|fuel IH]; intros s timeout w Hs Ht Hf; [lia|]. simpl waitForDisk_loop.
  rewrite wp_bind. eapply wp_describe; [exact Hs|done|]. intros rest pr w1 Hw1.
  case_bool_decide as Hst; [apply disk_item_status in Hst; rewrite wp_ret; by rewrite Hst|].
  assert (lag s ≠ 0%nat) as Hlag by (by intros ?%(disk_item_status id)).
  unfold DefaultWaitForInterval. rewrite int64_id by (unfold in_int64; lia).
  rewrite bool_decide_false by lia. rewrite wp_bind, wp_call.
  assert (ecs (handle (Sleep 5) w1).2 = settle <$> ecs w) as Hw2 by (by rewrite ecs_sleep, Hw1).
  change (settled_status s) with (settled_status (settle s)).
  eapply wp_mono; [apply IH; [rewrite Hw2; by apply lookup_settle|simpl; lia..]|].
  intros [r| | |] w3 t3 Hr; simpl in Hr; try done. destruct Hr as [-> Hw3]. split; [done|].
  rewrite Hw3, Hw2. destruct (lag s) as [|n]; [done|]. simpl. f_equal.
  change (settle <$> (settle <$> ?m)) with (Nat.iter 1 (fmap settle) (settle <$> m)).
  clear. induction n as [|n IH]; [done|]. simpl in *. by rewrite IH.
Qed.

Lemma wp_WaitForDisk_settles regionId id s w :
  ecs w !! id = Some s → (lag s ≤ max_lag)%nat →
  wp (WaitForDisk regionId id (settled_status s) 0)
    (returns (λ r w' _, r = Ok tt ∧ ecs w' = Nat.iter (S (lag s)) (fmap settle) (ecs w))) w.
Proof.
  intros Hs Hlag. unfold WaitForDisk. rewrite bool_decide_true by done.
  unfold max_lag, DefaultTimeout in *. apply (wp_waitForDisk_loop _ _ id); [done..|lia|lia].
Qed.

Lemma wp_lookup_lawful p node insts pr i Q w :
  reported_instances p w = Ok (insts, pr) → only_named p node insts i →
  (∀ w' t, ecs w' = ecs w → Q (Ret (Ok i)) w' t) →
  wp (getInstanceByNodeName p node) Q w.
Proof.
  intros Hr Hi HQ. unfold wp, outcome_of, world_of, trace_of.
  rewrite getInstanceByNodeName_run, Hr. simpl.
  apply lookup_one_ok in Hi. rewrite Hi. apply HQ, ecs_instances.
Qed.

Lemma wp_target_lawful p node instanceId Q w :
  resolves p node w instanceId →
  (∀ w' t, ecs w' = ecs w → Q (Ret (inr instanceId)) w' t) →
  wp (target_instance p node) Q w.
Proof.
  unfold resolves, target_instance. destruct (decide (node = "")) as [->|Hn].
  - rewrite bool_decide_true, bool_decide_false by tauto. intros -> HQ. rewrite wp_ret. by apply HQ.
  - rewrite bool_decide_false, bool_decide_true by done.
    intros (insts & pr & i & Hr & Hi & <-) HQ. rewrite wp_bind.
    eapply wp_lookup_lawful; [done..|]. intros w' t Hw'. simpl. rewrite wp_ret. by apply HQ.
Qed.

(** Attaching a free disk: it ends up held, and the answer names its device. *)
Lemma wp_attach_disk_lawful p instanceId diskId del w :
  ecs w !! diskId = Some free_disk →
  wp (attach_disk p instanceId diskId del) (returns (λ ve w' _, ∃ dev,
    ve = set_DevicePath NewVolumeSuccess (deviceApi2Local dev) ∧
    ecs w' !! diskId = Some (held instanceId dev) ∧ same_holders diskId (ecs w) (ecs w'))) w.
Proof.
  intros Hfree. unfold attach_disk. rewrite wp_bind, wp_call. set (args := mkAttachDiskArgs _ _ _).
  destruct (ecs_attach w args Hfree) as (dev & n & w1 & Hh & Hn & Hw1). rewrite Hh. simpl.
  set (s := mkDisk (Some (instanceId, dev)) n) in *.
  assert (ecs w1 !! diskId = Some s) as Hs1 by (by rewrite Hw1, lookup_insert_eq).
  rewrite wp_bind. eapply wp_mono; [by apply (wp_WaitForDisk_settles (region p) diskId s)|].
  intros [r| | |] w2 t2 Hr; simpl in Hr; try done. destruct Hr as [-> Hw2].
  assert (ecs w2 !! diskId = Some (held instanceId dev)) as Hs2.
  { change (settle <$> Nat.iter n (fmap settle) (ecs w1)) with (Nat.iter (S n) (fmap settle) (ecs w1)) in Hw2.
    rewrite Hw2, (lookup_settle_iter _ _ _ s Hs1). simpl. unfold held. do 2 f_equal. lia. }
  rewrite wp_bind. eapply wp_getDiskById_lawful; [exact Hs2|]. intros w3 t3 Hw3.
  rewrite wp_ret. simpl. exists dev. split_and!; [done| |].
  - rewrite Hw3. by rewrite (lookup_settle _ _ _ Hs2).
  - rewrite Hw3, Hw2, Hw1. etrans; [apply same_holders_insert|].
    do 2 (etrans; [|apply same_holders_settle]). apply same_holders_settle_iter.
Qed.

(** [Attach] on a settled disk. *)
Lemma wp_Attach_lawful p options node w instanceId h :
  let diskId := opt_string options "diskId" in
  resolves p node w instanceId → instanceId ≠ "" → diskId ≠ "" →
  ecs w !! diskId = Some (mkDisk h 0) →
  wp (Attach p options node) (returns (λ ve w' _, ∃ dev,
    ve = set_DevicePath NewVolumeSuccess (deviceApi2Local dev) ∧
    ecs w' !! diskId = Some (held instanceId dev) ∧ same_holders diskId (ecs w) (ecs w'))) w.
Proof.
  intros diskId Htg Hi Hd Hs. unfold Attach. rewrite wp_bind.
  eapply wp_target_lawful; [exact Htg|]. intros w1 t1 Hw1. rewrite <- Hw1 in *. clear Htg.
  rewrite !bool_decide_false by done. rewrite wp_bind. fold diskId.
  eapply wp_getDiskById_lawful; [exact Hs|]. intros w2 t2 Hw2.
  apply lookup_settle in Hs. rewrite <- Hw2 in Hs.
  assert (same_holders diskId (ecs w1) (ecs w2)) as Hsame by (rewrite Hw2; apply same_holders_settle).
  destruct h as [[i dev]|]; simpl.
  - case_bool_decide as Hin; subst.
    { rewrite wp_ret. exists dev. by split_and!. }
    rewrite wp_bind, wp_call.
    destruct (ecs_detach w2 i dev diskId) as (n & w3 & Hh & Hn & Hw3); [exact Hs|]. rewrite Hh. simpl.
    assert (ecs w3 !! diskId = Some (mkDisk None n)) as Hs3 by (by rewrite Hw3, lookup_insert_eq).
    rewrite wp_bind.
    eapply wp_mono; [by apply (wp_WaitForDisk_settles (region p) diskId (mkDisk None n))|].
    intros [r| | |] w4 t4 Hr; simpl in Hr; try done. destruct Hr as [-> Hw4].
    change (settle <$> Nat.iter n (fmap settle) (ecs w3)) with (Nat.iter (S n) (fmap settle) (ecs w3)) in Hw4.
    eapply wp_mono; [apply wp_attach_disk_lawful|].
    + rewrite Hw4, (lookup_settle_iter _ _ _ _ Hs3). simpl. unfold free_disk. do 2 f_equal. lia.
    + intros [ve| | |] w5 t5 Hr; simpl in Hr; try done. destruct Hr as (dev' & -> & Hs5 & Hsame5).
      exists dev'. split_and!; [done..|]. etrans; [exact Hsame|]. etrans; [|exact Hsame5].
      rewrite Hw4, Hw3. etrans; [apply same_holders_insert|apply same_holders_settle_iter].
  - eapply wp_mono; [by apply wp_attach_disk_lawful|].
    intros [ve| | |] w5 t5 Hr; simpl in Hr; try done. destruct Hr as (dev' & -> & Hs5 & Hsame5).
    exists dev'. split_and!; [done..|]. by etrans.
Qed.

(** [Detach] on a settled disk. *)
Lemma wp_Detach_lawful p deviceName node w instanceId h :
  let diskId := path_Base deviceName in
  resolves p node w instanceId → instanceId ≠ "" →
  ecs w !! diskId = Some (mkDisk h 0) →
  wp (Detach p deviceName node) (returns (λ ve w' _, ve = VolumeSuccess ∧
    (∃ s, ecs w' !! diskId = Some s ∧
      holder s = match h with
                 | Some (i, _) => if bool_decide (i = instanceId) then None else h
                 | None => None
                 end) ∧
    same_holders diskId (ecs w) (ecs w'))) w.
Proof.
  intros diskId Htg Hi Hs. unfold Detach. rewrite wp_bind.
  eapply wp_target_lawful; [exact Htg|]. intros w1 t1 Hw1. rewrite <- Hw1 in *. clear Htg.
  rewrite bool_decide_false by done. rewrite wp_bind. fold diskId.
  eapply wp_getDiskById_lawful; [exact Hs|]. intros w2 t2 Hw2.
  apply lookup_settle in Hs. rewrite <- Hw2 in Hs.
  assert (same_holders diskId (ecs w1) (ecs w2)) as Hsame by (rewrite Hw2; apply same_holders_settle).
  destruct h as [[i dev]|]; simpl; [|rewrite wp_ret; split_and!; [done|by eexists|done]].
  destruct (decide (i = instanceId)) as [->|Hne].
  - rewrite bool_decide_false, bool_decide_true by tauto. rewrite wp_bind, wp_call.
    destruct (ecs_detach w2 instanceId dev diskId Hs) as (n & w3 & Hh & Hn & Hw3). rewrite Hh. simpl.
    rewrite wp_ret. simpl. split_and!; [done| |].
    + rewrite Hw3, lookup_insert_eq. by eexists.
    + rewrite Hw3. etrans; [exact Hsame|apply same_holders_insert].
  - rewrite bool_decide_true, bool_decide_false by done. rewrite wp_ret.
    split_and!; [done|by eexists|done].
Qed.

(** [IsAttached] on any disk. *)
Lemma wp_IsAttached_lawful p options node w insts pr i s :
  let diskId := opt_string options "diskId" in
  authorized p = true → diskId ≠ "" → ecs w !! diskId = Some s →
  reported_instances p w = Ok (insts, pr) →
  only_named p (if bool_decide (node = "localhost") then hostname p else node) insts i →
  wp (IsAttached p options node) (returns (λ ve w' _, ve_Status ve = StatusSuccess ∧
    (ve_Attached ve = true ↔ ∃ dev, s = held (i_InstanceId i) dev))) w.
Proof.
  intros diskId Hauth Hd Hs Hr Hi. unfold IsAttached. rewrite Hauth, wp_bind.
  eapply wp_lookup_lawful; [done..|]. intros w1 t1 Hw1. fold diskId.
  rewrite bool_decide_false by done. rewrite wp_bind. rewrite <- Hw1 in Hs.
  eapply wp_getDiskById_lawful; [exact Hs|]. intros w2 t2 Hw2. simpl. rewrite wp_ret. simpl.
  split; [done|]. rewrite andb_true_iff, !bool_decide_eq_true.
  destruct s as [[[j dev]|] []]; simpl; unfold held; (split; [intros [? ?]|intros [? [=]]]); subst; eauto;
    try done.
Qed.

End lawful.

(** ** Theorems *)

Section theorems.
Context {W : Type} `{!Handler req W}.

(** C12: [Attach] is safe whatever the cloud answers.  It always returns; it changes
    nothing unless it resolved the target instance and read the disk; then it
    detaches the disk only from the instance the service reported to hold it, and
    only when that is another one; it attaches the disk only to the target, at most
    once, and only when the disk was reported not in use or its detach was accepted;
    a success means every request was accepted and carries the device of a
    description of the disk. *)
Theorem Attach_safe p options node (w : W) :
  ∃ ve w' t, Attach p options node w = (Ret ve, w', t) ∧
    ((mutations t = [] ∧ ve_Status ve = StatusFailure) ∨
     ∃ instanceId disk, let diskId := opt_string options "diskId" in
      instanceId ≠ "" ∧ diskId ≠ "" ∧
      targets p node instanceId t ∧ reported_disk p diskId disk t ∧
      attach_plan instanceId diskId (opt_bool options "deleteWithInstance") disk ve (mutations t) ∧
      (ve_Status ve = StatusSuccess → device_evidence p diskId ve t)).
Proof. exact (wp_returns _ _ _ (wp_Attach p options node w)). Qed.


(** [IsAttached] only reads, whatever the cloud answers, and a successful answer
    says attached exactly when the service described the disk as in use by the one
    instance of the node's name. *)
Theorem IsAttached_evidence p options node (w : W) :
  ∃ ve w' t, IsAttached p options node w = (Ret ve, w', t) ∧ Forall read_only t ∧
    (ve_Status ve = StatusSuccess →
      ∃ i disk,
        node_instance p (if bool_decide (node = "localhost") then hostname p else node) i t ∧
        reported_disk p (opt_string options "diskId") disk t ∧
        (ve_Attached ve = true ↔
          di_InstanceId disk = i_InstanceId i ∧ di_Status disk = DiskStatusInUse)).
Proof. exact (wp_returns _ _ _ (wp_IsAttached p options node w)). Qed.

Context `{!ECS W}.

(** C13: [Attach] works: for a settled disk, free or attached to any instance, it
    succeeds, the disk ends up attached to the target instance (moved there if
    another instance had it), the answer names the device it got, and no other
    disk changes hands. *)
Theorem Attach_attaches p options node (w : W) instanceId h :
  let diskId := opt_string options "diskId" in
  resolves p node w instanceId → instanceId ≠ "" → diskId ≠ "" →
  ecs w !! diskId = Some (mkDisk h 0) →
  ∃ w' t dev,
    Attach p options node w =
      (Ret (set_DevicePath NewVolumeSuccess (deviceApi2Local dev)), w', t) ∧
    ecs w' !! diskId = Some (held instanceId dev) ∧ same_holders diskId (ecs w) (ecs w').
Proof.
  intros diskId H1 H2 H3 H4.
  destruct (wp_returns _ _ _ (wp_Attach_lawful p options node w instanceId h H1 H2 H3 H4))
    as (ve & w' & t & Hm & dev & -> & ? & ?). eauto 6.
Qed.

(** [Detach] works: for a settled disk it succeeds; the target instance no longer
    holds the disk; a disk of another instance stays there; no other disk changes
    hands. *)
Theorem Detach_detaches p deviceName node (w : W) instanceId h :
  let diskId := path_Base deviceName in
  resolves p node w instanceId → instanceId ≠ "" →
  ecs w !! diskId = Some (mkDisk h 0) →
  ∃ w' t s, Detach p deviceName node w = (Ret VolumeSuccess, w', t) ∧
    ecs w' !! diskId = Some s ∧
    holder s = match h with
               | Some (i, _) => if bool_decide (i = instanceId) then None else h
               | None => None
               end ∧
    same_holders diskId (ecs w) (ecs w').
Proof.
  intros diskId H1 H2 H3.
  destruct (wp_returns _ _ _ (wp_Detach_lawful p deviceName node w instanceId h H1 H2 H3))
    as (ve & w' & t & Hm & -> & (s & ? & ?) & ?). eauto 7.
Qed.

(** [IsAttached] tells the truth: with an access key it succeeds, and says
    attached exactly when the disk is held by the node's instance. *)
Theorem IsAttached_correct p options node (w : W) insts pr i s :
  let diskId := opt_string options "diskId" in
  authorized p = true → diskId ≠ "" → ecs w !! diskId = Some s →
  reported_instances p w = Ok (insts, pr) →
  only_named p (if bool_decide (node = "localhost") then hostname p else node) insts i →
  ∃ ve w' t, IsAttached p options node w = (Ret ve, w', t) ∧ ve_Status ve = StatusSuccess ∧
    (ve_Attached ve = true ↔ ∃ dev, s = held (i_InstanceId i) dev).
Proof.
  intros diskId H1 H2 H3 H4 H5.
  exact (wp_returns _ _ _ (wp_IsAttached_lawful p options node w insts pr i s H1 H2 H3 H4 H5)).
Qed.

End theorems.

(** ** Witnesses: the theorems on the in-memory cloud *)

Module VolumeWitness.

Definition i1 : InstanceAttributesType := mkInstance "i-1" "node-1" ["10.0.0.1"].
Definition i2 : InstanceAttributesType := mkInstance "i-2" "node-2" ["10.0.0.2"].
Definition provider : AliyunProvider :=
  mkProvider "key" "secret" "cn-hangzhou" "cn-hangzhou-a" "vpc-1" "vrt-1" "vsw-1" "rtb-1" "i-1"
    "node-1" NodeNameTypeHostname.
Definition options : gmap string json := {[ "diskId" := JString "d-1" ]}.

(** A disk on instance [i-2] that takes eleven descriptions to move. *)
Definition w0 : cloud :=
  mkCloud {[ "d-1" := held "i-2" "/dev/xvdb"; "d-2" := free_disk ]} [i1; i2] ∅ ∅ [] 11.

Lemma node1_only : only_named provider "node-1" [i1; i2] i1.
Proof. apply filter_one_only_named. reflexivity. Qed.

Lemma Attach_attaches_witness :
  ∃ w' t dev,
    Attach provider options "node-1" w0 =
      (Ret (set_DevicePath NewVolumeSuccess (deviceApi2Local dev)), w', t) ∧
    ecs w' !! "d-1" = Some (held "i-1" dev) ∧ same_holders "d-1" (ecs w0) (ecs w').
Proof.
  apply (Attach_attaches provider options "node-1" w0 "i-1" (Some ("i-2", "/dev/xvdb"))).
  - exists [i1; i2], (mkPaginationResult 2 1 2), i1. split_and!; [reflexivity|apply node1_only|done].
  - done.
  - done.
  - reflexivity.
Defined.

Lemma Detach_detaches_witness :
  ∃ w' t s, Detach provider "/mounts/d-1" "node-2" w0 = (Ret VolumeSuccess, w', t) ∧
    ecs w' !! "d-1" = Some s ∧ holder s = None ∧ same_holders "d-1" (ecs w0) (ecs w').
Proof.
  apply (Detach_detaches provider "/mounts/d-1" "node-2" w0 "i-2" (Some ("i-2", "/dev/xvdb"))).
  - exists [i1; i2], (mkPaginationResult 2 1 2), i2. split_and!; [reflexivity| |done].
    apply filter_one_only_named. reflexivity.
  - done.
  - reflexivity.
Defined.

Lemma IsAttached_correct_witness :
  ∃ ve w' t, IsAttached provider options "localhost" w0 = (Ret ve, w', t) ∧
    ve_Status ve = StatusSuccess ∧
    (ve_Attached ve = true ↔ ∃ dev, held "i-2" "/dev/xvdb" = held "i-1" dev).
Proof.
  apply (IsAttached_correct provider options "localhost" w0 [i1; i2] (mkPaginationResult 2 1 2) i1).
  - reflexivity.
  - done.
  - reflexivity.
  - reflexivity.
  - apply node1_only.
Defined.

End VolumeWitness.
