(* ===== verification/ProvisionSpec.v ===== *)
(** * Theorems about the provisioner

    Which claims [Provision] accepts, the size of the disk it asks for, and that
    [Delete] undoes it. *)

From S2P Require Import Prelude GoStd Kube Cloud MapUtils Provider Instances Quantity QuantitySpec Volume ECS SimCloud.

(** ** Specification *)

(** The disk category of a storage class. *)
Definition category_of (params : option (gmap string string)) : string :=
  default "" (params ≫= (λ m, m !! "diskCategory")).

(** The least size of a category: the table's, 5 for other categories. *)
Definition min_size (category : string) : Z := default 5 (MinSizeTable !! category).

(** The claims [Provision] turns down. *)
Definition refused (options : ProvisionOptions) : Prop :=
  pvc_has_Selector (po_PVC options) = true ∨
  ReadWriteOnce ∉ pvc_AccessModes (po_PVC options) ∨
  category_of (po_Parameters options) = "".

(** The capacity a claim asks for. *)
Definition requested (options : ProvisionOptions) : Quantity :=
  default zero_Quantity (pvc_Requests (po_PVC options) !! ResourceStorage).

(** The persistent volume of a new disk of [size] gigabytes. *)
Definition new_volume (options : ProvisionOptions) (diskId : string) (size : Z) : PersistentVolume :=
  mkPV (po_PVName options) (po_ReclaimPolicy options) [ReadWriteOnce]
    {[ ResourceStorage := mkQuantity (mkAmount size Giga) None ]}
    (default "" (pvc_StorageClassName (po_PVC options)))
    (Some (mkFlexVolume DriverName {[ "diskId" := diskId ]})).

(** [size] is the least size, in gigabytes, that is not below the request nor below
    the category's minimum. *)
Definition least_size (options : ProvisionOptions) (size : Z) : Prop :=
  ∀ z, size ≤ z ↔ at_most (requested options) Giga z ∧ min_size (category_of (po_Parameters options)) ≤ z.

(** ** Lemmas *)

Section provision.
Context {W : Type} `{!Handler req W} `{!FloatConv}.
Context (show_pv : PersistentVolume → string) (show_fv : FlexVolumeSource → string).
Implicit Types (w : W).

Lemma storage_options_category params :
  so_Category (storage_options params) = category_of params.
Proof.
  destruct params as [m|]; [|done]. unfold storage_options, category_of, MapToStruct. simpl.
  change ("" +:+ "fsType") with "fsType". change ("" +:+ "diskCategory") with "diskCategory".
  by destruct (m !! "fsType"), (m !! "diskCategory").
Qed.

Lemma disk_size_least options :
  fits (requested options) Giga →
  least_size options (disk_size (category_of (po_Parameters options)) (ScaledValue (requested options) Giga)).
Proof.
  intros Hf z. rewrite <- ScaledValue_le by done. unfold disk_size.
  fold (min_size (category_of (po_Parameters options))). case_bool_decide; lia.
Qed.

Lemma refused_dec options :
  refused options ↔
  pvc_has_Selector (po_PVC options) = true ∨
  existsb (λ mode, bool_decide (mode = ReadWriteOnce)) (pvc_AccessModes (po_PVC options)) = false ∨
  category_of (po_Parameters options) = "".
Proof.
  unfold refused. rewrite <- not_true_iff_false, existsb_exists.
  setoid_rewrite bool_decide_eq_true. setoid_rewrite <- list_elem_of_In.
  assert (ReadWriteOnce ∈ pvc_AccessModes (po_PVC options) ↔
    ∃ x, x ∈ pvc_AccessModes (po_PVC options) ∧ x = ReadWriteOnce) as ->; [|done].
  split; [eauto|by intros (x & ? & ->)].
Qed.

Lemma Provision_run p options w :
  let size := disk_size (category_of (po_Parameters options)) (ScaledValue (requested options) Giga) in
  let args := mkCreateDiskArgs (region p) (zone p) (category_of (po_Parameters options))
                (po_PVName options) size in
  (refused options ∧ ∃ e, Provision p options w = (Ret (Err e), w, [])) ∨
  (¬ refused options ∧ Provision p options w =
    (Ret match (handle (CreateDisk args) w).1 with
         | Err e => Err (Sprintf "Failed to call Aliyun CreateDisk: %v" [AStr e])
         | Ok diskId => Ok (new_volume options diskId size)
         end, (handle (CreateDisk args) w).2, [Ev (CreateDisk args) (handle (CreateDisk args) w).1])).
Proof.
  intros size args. rewrite refused_dec. unfold Provision.
  destruct (pvc_has_Selector (po_PVC options)); [left; eauto|].
  destruct (existsb _ _); simpl; [|left; eauto].
  rewrite storage_options_category. case_bool_decide; [left; eauto|].
  right. split; [naive_solver|]. fold (requested options). fold size. fold args.
  unfold mbind, M_bind, call. by destruct (handle (CreateDisk args) w) as [[diskId|e] w'].
Qed.

(** ** Theorems *)

(** C30: [Provision].  A refused claim is an error without any request.  For any other
    claim whose capacity fits, one disk is requested, of the storage class's
    category and of the least size that is not below the request nor below the
    category's minimum; an accepted request gives a volume of that disk and that
    capacity, a failed one an error. *)
Theorem Provision_correct p options w :
  fits (requested options) Giga →
  (refused options ∧ ∃ e, Provision p options w = (Ret (Err e), w, [])) ∨
  (¬ refused options ∧ ∃ size r w',
    least_size options size ∧
    let args := mkCreateDiskArgs (region p) (zone p) (category_of (po_Parameters options))
                  (po_PVName options) size in
    match r with
    | Ok diskId => Provision p options w =
        (Ret (Ok (new_volume options diskId size)), w', [Ev (CreateDisk args) (Ok diskId)])
    | Err e => ∃ e', Provision p options w = (Ret (Err e'), w', [Ev (CreateDisk args) (Err e)])
    end).
Proof.
  intros Hf. pose proof (disk_size_least options Hf) as Hl.
  destruct (Provision_run p options w) as [?|[Hn Hrun]]; [by left|right]. split; [done|].
  set (size := disk_size _ _) in *. set (args := mkCreateDiskArgs _ _ _ _ _) in *.
  exists size, (handle (CreateDisk args) w).1, (handle (CreateDisk args) w).2. split; [exact Hl|].
  cbv zeta. fold args. rewrite Hrun.
  destruct (handle (CreateDisk args) w) as [[diskId|e] w']; simpl; [done|eauto].
Qed.

(** [Delete] undoes [Provision]: against the laws of the disk service, a
    provisioned volume is a new free disk, and deleting it succeeds and leaves the
    account's disks as they were. *)
Theorem Provision_Delete_roundtrip `{!ECS W} p options w :
  ¬ refused options →
  ∃ pv w1 t1 w2 t2 diskId,
    Provision p options w = (Ret (Ok pv), w1, t1) ∧
    ecs w !! diskId = None ∧ ecs w1 = <[diskId := free_disk]> (ecs w) ∧
    Delete show_pv show_fv p pv w1 = (Ret None, w2, t2) ∧ ecs w2 = ecs w.
Proof.
  intros Hn. destruct (Provision_run p options w) as [[? _]|[_ Hrun]]; [done|].
  set (size := disk_size _ _) in *. set (args := mkCreateDiskArgs _ _ _ _ _) in *.
  destruct (ecs_create w args) as (diskId & w1 & Hh & Hid & Hnew & Hw1). rewrite Hh in Hrun. simpl in Hrun.
  destruct (ecs_delete w1 diskId) as (w2 & Hh2 & Hw2); [by rewrite Hw1, lookup_insert_eq|].
  eexists _, w1, _, w2, _, diskId. split; [exact Hrun|]. split_and!; [done|done| |].
  - unfold Delete, new_volume. cbn [pv_FlexVolume fv_Options]. rewrite lookup_singleton_eq. simpl.
    rewrite bool_decide_false by done. unfold mbind, M_bind, call. by rewrite Hh2.
  - by rewrite Hw2, Hw1, delete_insert_id.
Qed.

End provision.

(** ** Witnesses *)

Module ProvisionWitness.
#[local] Existing Instance text_float.

Definition provider : AliyunProvider :=
  mkProvider "key" "secret" "cn-hangzhou" "cn-hangzhou-a" "vpc-1" "vrt-1" "vsw-1" "rtb-1" "i-1"
    "node-1" NodeNameTypeHostname.
Definition w0 : cloud := mkCloud {[ "d-1" := free_disk ]} [] ∅ ∅ [] 0.
(** A claim for 30 binary gigabytes of SSD. *)
Definition options : ProvisionOptions :=
  mkProvisionOptions "Delete" "pv-1"
    (mkPVC false [ReadWriteOnce] {[ ResourceStorage := mkQuantity (mkAmount 32212254720 0) None ]} None)
    (Some {[ "diskCategory" := "cloud_ssd" ]}).

Lemma not_refused : ¬ refused options.
Proof. intros [H|[H|H]]; [done| |done]. apply H. left. Qed.

Lemma Provision_correct_witness :
  (refused options ∧ ∃ e, Provision provider options w0 = (Ret (Err e), w0, [])) ∨
  (¬ refused options ∧ ∃ size r w',
    least_size options size ∧
    let args := mkCreateDiskArgs "cn-hangzhou" "cn-hangzhou-a" "cloud_ssd" "pv-1" size in
    match r with
    | Ok diskId => Provision provider options w0 =
        (Ret (Ok (new_volume options diskId size)), w', [Ev (CreateDisk args) (Ok diskId)])
    | Err e => ∃ e', Provision provider options w0 = (Ret (Err e'), w', [Ev (CreateDisk args) (Err e)])
    end).
Proof.
  apply (Provision_correct provider options w0). unfold fits, q_num, q_exp.
  split; [done|split; [done|reflexivity]].
Defined.

Lemma Provision_Delete_roundtrip_witness :
  ∃ pv w1 t1 w2 t2 diskId,
    Provision provider options w0 = (Ret (Ok pv), w1, t1) ∧
    ecs w0 !! diskId = None ∧ ecs w1 = <[diskId := free_disk]> (ecs w0) ∧
    Delete (λ _, "") (λ _, "") provider pv w1 = (Ret None, w2, t2) ∧ ecs w2 = ecs w0.
Proof.
  apply (Provision_Delete_roundtrip (λ _, "") (λ _, "") provider options w0). apply not_refused.
Defined.

End ProvisionWitness.
