(* ===== verification/ProvisionerSpec.v ===== *)
(** * Theorems about the provision controller

    What the two operations ask for whatever the cloud and the API server answer, and
    what they leave when the disks obey [ECS] and the API server [VolumeAPI]: its
    requests may fail at any time, without effect. *)

From S2P Require Import Prelude GoStd Quantity QuantitySpec Kube Cloud MapUtils Provider Instances Volume Interfaces Flags Options LeaderElection GoRoutineMap Controller Provisioner ECS ProvisionSpec.

(** The disk of a volume. *)
Definition kv_disk (v : KVolume) : option string :=
  pv_FlexVolume (kv_PV v) ≫= λ fv, fv_Options fv !! "diskId".

Section any_cloud.
Context {W : Type} `{!Handler req W} `{!FloatConv}.
Context (show_options : gmap string json → string).
Context (show_pv : PersistentVolume → string) (show_fv : FlexVolumeSource → string).
Context (url_path : string → result string).
Context (p : AliyunProvider) (ctrl : ProvisionController W).
Context (Hctrl : Some (pvc_provisioner ctrl) = (Interfaces.Volume show_options show_pv show_fv p).1).
Implicit Types (w : W) (claim : KClaim).

Lemma ctrl_Provision options : v_Provision (pvc_provisioner ctrl) options = Provision p options.
Proof using Hctrl. by injection Hctrl as ->. Qed.
Lemma ctrl_Delete pv : v_Delete (pvc_provisioner ctrl) pv = Delete show_pv show_fv p pv.
Proof using Hctrl. by injection Hctrl as ->. Qed.

(** The controller that [NewController] makes is one of the provider's disks, without
    backoff, and gives up after the number of failures of the options. *)
Lemma new_pvc_made options w pvc w' t :
  new_pvc options (as_Provider show_options show_pv show_fv p) w = (Ret (Some pvc), w', t) →
  Some (pvc_provisioner pvc) = (Interfaces.Volume show_options show_pv show_fv p).1 ∧
  pvc_provisionerName pvc = Volume.ProvisionerName p ∧
  pvc_exponentialBackOff pvc = false ∧ pvc_failedRetryThreshold pvc = o_ProvisionRetry options.
Proof.
  unfold new_pvc. simpl. unfold mbind at 1, M_bind at 1, call.
  destruct (handle (Kube ServerVersion) w) as [[v|e] w1]; [|done].
  unfold NewProvisionController, mbind, M_bind. destruct (ParseGeneric v); [|done]. by intros [= <- _ _].
Qed.

(** What is asked of the provisioner for a claim of a class. *)
Definition claim_options claim (class : StorageClass) : ProvisionOptions :=
  mkProvisionOptions PersistentVolumeReclaimDelete (getProvisionedVolumeNameForClaim claim) (cl_Spec claim)
    (sto_Parameters class).

Definition disk_args claim (class : StorageClass) : CreateDiskArgs :=
  let options := claim_options claim class in
  mkCreateDiskArgs (region p) (zone p) (category_of (po_Parameters options)) (po_PVName options)
    (disk_size (category_of (po_Parameters options)) (ScaledValue (requested options) Giga)).

(** The volume of a disk for a claim. *)
Definition volume_for claim (class : StorageClass) (ref : ObjectReference) (diskId : string) : KVolume :=
  claimed_volume ctrl (new_volume (claim_options claim class) diskId (cd_Size (disk_args claim class)))
    (getClaimClass claim) ref.

(** ** The loops *)

(** Attempts to save a volume, and to delete a disk, that failed. *)
Definition not_saved (volume : KVolume) (errs : list api_error) : list (event req) :=
  (λ e, Ev (Kube (CreateVolume volume)) (Some e)) <$> errs.
Definition not_deleted (diskId : string) (errs : list error) : list (event req) :=
  (λ e, Ev (DeleteDisk diskId) (Err e)) <$> errs.

(** The loop that saves a volume ends with the first success, or with the last error. *)
Lemma save_volume_run i volume err w :
  ∃ r errs w' t, save_volume i volume err w = (Ret r, w', t) ∧
    ((length errs < i)%nat ∧ r = None ∧
       mutations t = not_saved volume errs ++ [Ev (Kube (CreateVolume volume)) None] ∨
     length errs = i ∧ r = from_option Some err (last errs) ∧ mutations t = not_saved volume errs).
Proof.
  revert err w. induction i as [|i IH]; intros err w.
  { exists err, [], w, []. split; [done|]. right. done. }
  cbn [save_volume]. unfold mbind, M_bind, call.
  destruct (handle (Kube (CreateVolume volume)) w) as [[e|] w1].
  2:{ exists None, [], w1, [Ev (Kube (CreateVolume volume)) None]. split; [done|]. left. split; [simpl; lia|done]. }
  destruct (handle (Sleep 10) w1) as [u w2].
  destruct (IH (Some e) w2) as (r & errs & w' & t & -> & Hs). exists r, (e :: errs), w'. eexists. split; [done|].
  destruct Hs as [(Hl & -> & Ht)|(Hl & -> & Ht)]; [left|right].
  - split; [simpl; lia|]. split; [done|]. change (mutations _) with (Ev (Kube (CreateVolume volume)) (Some e) :: mutations t).
    by rewrite Ht.
  - split; [simpl; lia|]. split; [by rewrite last_cons; destruct (last errs)|].
    change (mutations _) with (Ev (Kube (CreateVolume volume)) (Some e) :: mutations t). by rewrite Ht.
Qed.

(** [Delete] of a provisioned volume makes one request, when the disk has a name. *)
Lemma Delete_run options diskId size w :
  ∃ r w' t, Delete show_pv show_fv p (new_volume options diskId size) w = (Ret r, w', t) ∧
    (diskId = "" ∧ is_Some r ∧ w' = w ∧ t = [] ∨
     diskId ≠ "" ∧ ∃ a, handle (DeleteDisk diskId) w = (a, w') ∧ t = [Ev (DeleteDisk diskId) a] ∧
       (r = None ↔ ∃ u, a = Ok u)).
Proof.
  unfold Delete, new_volume. cbn [pv_FlexVolume fv_Options]. rewrite lookup_singleton_eq. simpl.
  case_bool_decide as Hd.
  - eexists _, w, []. split; [done|]. left. by split_and!.
  - unfold mbind, M_bind, call. destruct (handle (DeleteDisk diskId) w) as [[u|e] w'] eqn:Hh.
    + eexists _, w', _. split; [done|]. right. split; [done|]. exists (Ok u). split_and!; [done|done|split; eauto].
    + eexists _, w', _. split; [done|]. right. split; [done|]. exists (Err e). split_and!; [done|done|].
      split; [done|by intros [? ?]].
Qed.

(** The loop that deletes the disk of a volume. *)
Lemma clean_volume_run i options diskId size err w :
  ∃ r errs w' t, clean_volume ctrl i (new_volume options diskId size) err w = (Ret r, w', t) ∧
    (length errs ≤ i)%nat ∧
    (mutations t = not_deleted diskId errs ∨
     (length errs < i)%nat ∧ mutations t = not_deleted diskId errs ++ [Ev (DeleteDisk diskId) (Ok tt)]).
Proof using Hctrl.
  revert err w. induction i as [|i IH]; intros err w.
  { exists err, [], w, []. split; [done|]. split; [done|]. by left. }
  cbn [clean_volume]. rewrite ctrl_Delete. destruct (Delete_run options diskId size w) as (r & w1 & t1 & Hd & Hr).
  unfold mbind at 1, M_bind at 1. rewrite Hd. destruct r as [e|].
  2:{ exists None, [], w1, (t1 ++ []). split; [done|]. split; [simpl; lia|]. right. split; [simpl; lia|].
      destruct Hr as [(_ & [? ?] & _)|(_ & a & _ & -> & Ha)]; [done|]. destruct (proj1 Ha eq_refl) as [[] ->]. done. }
  unfold mbind, M_bind, call. destruct (handle (Sleep 10) w1) as [u w2].
  destruct (IH (Some e) w2) as (r & errs & w' & t & -> & Hl & Hs).
  assert (∃ errs0, (length errs0 ≤ 1)%nat ∧ mutations t1 = not_deleted diskId errs0) as (errs0 & Hl0 & Ht1).
  { destruct Hr as [(_ & _ & _ & ->)|(_ & [[]|e'] & _ & -> & Ha)]; [exists []; split; [simpl; lia|done]| |exists [e']; split; [simpl; lia|done]].
    assert (Some e = None) by (apply Ha; eauto). done. }
  exists r, (errs0 ++ errs), w'. eexists. split; [done|].
  assert (mutations (t1 ++ [Ev (Sleep 10) u] ++ t) = mutations t1 ++ mutations t) as Hm by (by rewrite mutations_app).
  rewrite length_app. split; [lia|]. destruct Hs as [Ht|[Hl' Ht]]; [left|right; split; [lia|]].
  all: unfold not_deleted; rewrite Hm, Ht1, Ht, fmap_app, <-?app_assoc; done.
Qed.

(** ** What an operation may ask for *)

(** The changes that provisioning asks for: at most one disk, named after the claim; then
    the volume of that disk, until it is saved; and only when no attempt to save it
    succeeded the deletion of that disk, until it is deleted. *)
Inductive provisioning claim : list (event req) → Prop :=
| asks_nothing : provisioning claim []
| asks_disk class e : provisioning claim [Ev (CreateDisk (disk_args claim class)) (Err e)]
| asks_volume class ref diskId errs :
    (length errs < createProvisionedPVRetryCount)%nat →
    GetReference url_path claim = Ok ref →
    provisioning claim
      (Ev (CreateDisk (disk_args claim class)) (Ok diskId) ::
       not_saved (volume_for claim class ref diskId) errs ++
       [Ev (Kube (CreateVolume (volume_for claim class ref diskId))) None])
| asks_back class ref diskId errs errs' deleted :
    length errs = createProvisionedPVRetryCount →
    GetReference url_path claim = Ok ref →
    (length errs' + length deleted ≤ createProvisionedPVRetryCount)%nat →
    deleted = [] ∨ deleted = [Ev (DeleteDisk diskId) (Ok tt)] →
    provisioning claim
      (Ev (CreateDisk (disk_args claim class)) (Ok diskId) ::
       not_saved (volume_for claim class ref diskId) errs ++ not_deleted diskId errs' ++ deleted).

Lemma getStorageClass_run name w :
  ∃ r w' t, getStorageClass ctrl name w = (Ret r, w', t) ∧ Forall read_only t ∧
    w' = (handle (Kube (GetClass name)) w).2 ∧
    match r with
    | Ok class => (handle (Kube (GetClass name)) w).1 = Some class ∧ sto_Provisioner class = pvc_provisionerName ctrl
    | Err _ => True
    end.
Proof.
  unfold getStorageClass, mbind, M_bind, call. destruct (handle (Kube (GetClass name)) w) as [[class|] w'].
  - case_bool_decide as Hp; (eexists _, w', _; split; [done|]); (split; [by repeat constructor|]);
      (split; [done|]); done.
  - eexists _, w', _. split; [done|]. split; [by repeat constructor|]. done.
Qed.

(** After a disk was created: the volume is saved, or the disk is asked back. *)
Lemma saving_run claim class ref diskId w :
  GetReference url_path claim = Ok ref →
  let pv := new_volume (claim_options claim class) diskId (cd_Size (disk_args claim class)) in
  ∃ w' t,
    (err ← save_volume createProvisionedPVRetryCount (claimed_volume ctrl pv (getClaimClass claim) ref) None;
     match err with
     | Some _ => _ ← clean_volume ctrl createProvisionedPVRetryCount pv None; mret None
     | None => mret None
     end) w = (Ret (None : option error), w', t) ∧
    provisioning claim (Ev (CreateDisk (disk_args claim class)) (Ok diskId) :: mutations t).
Proof using Hctrl.
  intros Href pv. unfold mbind at 1, M_bind at 1.
  destruct (save_volume_run createProvisionedPVRetryCount (claimed_volume ctrl pv (getClaimClass claim) ref) None w)
    as (r & errs & w1 & t1 & -> & [(Hl & -> & Ht)|(Hl & -> & Ht)]).
  - exists w1. eexists. split; [done|]. rewrite app_nil_r, Ht. by apply asks_volume.
  - destruct (last errs) as [e|] eqn:He; [|by apply last_None in He as ->]. cbn [from_option].
    unfold mbind, M_bind, pv.
    destruct (clean_volume_run createProvisionedPVRetryCount (claim_options claim class) diskId
      (cd_Size (disk_args claim class)) None w1) as (r & errs' & w2 & t2 & -> & Hl' & Hr).
    exists w2. eexists. split; [done|]. rewrite app_nil_r, mutations_app, Ht. fold (volume_for claim class ref diskId).
    destruct Hr as [->|[Hl2 ->]].
    + rewrite <-(app_nil_r (not_deleted _ _)). apply asks_back; [done..| |by left]. simpl. lia.
    + apply asks_back; [done..| |by right]. simpl. lia.
Qed.

(** C21: what provisioning a claim asks for, whatever the provider's cloud and the API
    server answer: it ends; it asks for at most one disk, named after the claim, and
    only when the API server did not show a volume of that name; it saves a volume of
    that disk which refers to the claim, at most five times and not again after a
    success; and it deletes that disk, and no other, only after five attempts to save
    the volume failed. *)
Theorem provisionClaim_safe claim w :
  ∃ err w' t, provisionClaimOperation url_path ctrl claim w = (Ret err, w', t) ∧
    provisioning claim (mutations t) ∧
    (mutations t ≠ [] → ∃ e, Ev (Kube (GetVolume (getProvisionedVolumeNameForClaim claim))) (inr e) ∈ t).
Proof using Hctrl.
  unfold provisionClaimOperation. set (n := getProvisionedVolumeNameForClaim claim).
  unfold mbind at 1, M_bind at 1, call at 1.
  destruct (handle (Kube (GetVolume n)) w) as [[v|e] w1].
  { eexists _, w1, _. split; [done|]. split; [constructor|]. by intros []. }
  destruct (GetReference url_path claim) as [ref|e'] eqn:Href.
  2:{ eexists _, w1, _. split; [done|]. split; [constructor|]. by intros []. }
  unfold mbind at 1, M_bind at 1.
  destruct (getStorageClass_run (getClaimClass claim) w1) as (r & w2 & t2 & -> & Ht2%read_only_mutations & _ & _).
  destruct r as [class|e'].
  2:{ eexists _, w2, _. split; [done|]. rewrite app_nil_r. change (mutations _) with (mutations t2). rewrite Ht2.
      split; [constructor|]. by intros []. }
  rewrite ctrl_Provision. change (mkProvisionOptions _ _ _ _) with (claim_options claim class). unfold mbind at 1, M_bind at 1.
  assert (∀ t', mutations ([Ev (Kube (GetVolume n)) (inr e)] ++ t2 ++ t') = mutations t') as Hm.
  { intros t'. rewrite !mutations_app, Ht2. done. }
  assert (∀ t', ∃ e0, Ev (Kube (GetVolume n)) (inr e0) ∈ [Ev (Kube (GetVolume n)) (inr e)] ++ t') as Hget.
  { intros t'. exists e. left. }
  destruct (Provision_run p (claim_options claim class) w2) as [[_ [e' ->]]|[_ ->]].
  { eexists _, w2, _. split; [done|]. rewrite Hm. split; [constructor|]. by intros []. }
  fold (disk_args claim class). destruct (handle (CreateDisk (disk_args claim class)) w2) as [[diskId|e'] w3]; cbn [fst snd].
  2:{ eexists _, w3, _. split; [done|]. rewrite Hm. split; [by apply (asks_disk _ class)|]. intros _. apply Hget. }
  change (disk_size _ _) with (cd_Size (disk_args claim class)).
  destruct (saving_run claim class ref diskId w3 Href) as (w4 & t4 & -> & Hp).
  eexists _, w4, _. split; [done|]. rewrite Hm. split; [exact Hp|]. intros _. apply Hget.
Qed.

(** The volumes that may be deleted: released by their claim (or failed, before version
    1.5), with the reclaim policy to delete, and made by the provisioner. *)
Lemma shouldDelete_iff volume :
  shouldDelete ctrl volume = true ↔
  (kv_Phase volume = VolumeReleased ∨ pvc_is1dot4 ctrl = true ∧ kv_Phase volume = VolumeFailed) ∧
  pv_ReclaimPolicy (kv_PV volume) = PersistentVolumeReclaimDelete ∧
  get_annotation (kv_Annotations volume) annDynamicallyProvisioned = Some (pvc_provisionerName ctrl).
Proof.
  unfold shouldDelete. rewrite !andb_true_iff, orb_true_iff, andb_true_iff, !bool_decide_eq_true. tauto.
Qed.

(** C22: what deleting a volume asks for, whatever the cloud and the API server answer: it
    ends; it deletes the volume's disk, once, and only when the API server shows a
    volume of that name which is released, to be deleted and made by this provisioner;
    and it deletes the volume only when the disk is gone. *)
Theorem deleteVolume_safe volume w :
  let n := pv_Name (kv_PV volume) in
  ∃ err w' t, deleteVolumeOperation ctrl volume w = (Ret err, w', t) ∧
    (mutations t = [] ∨
     ∃ current diskId, Ev (Kube (GetVolume n)) (inl current) ∈ t ∧
       (kv_Phase current = VolumeReleased ∨ pvc_is1dot4 ctrl = true ∧ kv_Phase current = VolumeFailed) ∧
       pv_ReclaimPolicy (kv_PV current) = PersistentVolumeReclaimDelete ∧
       get_annotation (kv_Annotations current) annDynamicallyProvisioned = Some (pvc_provisionerName ctrl) ∧
       kv_disk volume = Some diskId ∧
       ((∃ e, mutations t = [Ev (DeleteDisk diskId) (Err e)]) ∨
        ∃ r, mutations t = [Ev (DeleteDisk diskId) (Ok tt); Ev (Kube (DeleteVolume n)) r])).
Proof using Hctrl.
  intros n. unfold deleteVolumeOperation. fold n. unfold mbind at 1, M_bind at 1, call at 1.
  destruct (handle (Kube (GetVolume n)) w) as [[current|e] w1]; [|by eexists _, w1, _; split; [|left]].
  destruct (shouldDelete ctrl current) eqn:Hd; [|by eexists _, w1, _; split; [|left]].
  apply shouldDelete_iff in Hd as (Hph & Hpol & Hann). cbn [negb]. rewrite ctrl_Delete.
  unfold Delete, kv_disk, mbind, M_bind, call. destruct (pv_FlexVolume (kv_PV volume)) as [fv|]; [|by eexists _, w1, _; split; [|left]].
  simpl. destruct (fv_Options fv !! "diskId") as [diskId|]; simpl; [|by eexists _, w1, _; split; [|left]].
  case_bool_decide as Hid; [by eexists _, w1, _; split; [|left]|].
  destruct (handle (DeleteDisk diskId) w1) as [[[]|e] w2].
  - destruct (handle (Kube (DeleteVolume n)) w2) as [r w3] eqn:Hr. eexists _, w3, _. split; [cbn; by rewrite Hr|]. right.
    exists current, diskId. split; [left|]. split_and!; [done..|]. right. by exists r.
  - eexists _, w2, _. split; [done|]. right. exists current, diskId. split; [left|]. split_and!; [done..|]. left. by exists e.
Qed.

(** ** Giving up *)

(** The controller's state after operations of a claim that ended so. *)
Definition after_ends claim (errs : list (option error)) (st : prov_state) : prov_state :=
  foldl (λ st err, updateStats st claim err) st errs.

Lemma failed_after claim errs st n :
  Forall is_Some errs → (0 ≤ n)%Z → n + Z.of_nat (length errs) < 2 ^ 63 →
  from_option id 0 (pr_failed st !! cl_UID claim) = n →
  from_option id 0 (pr_failed (after_ends claim errs st) !! cl_UID claim) = n + Z.of_nat (length errs).
Proof.
  intros Hs. revert st n. induction Hs as [|err errs [e ->] Hs IH]; intros st n Hn Hmax Hst; simpl in *; [lia|].
  rewrite (IH _ (n + 1)); [lia|lia|lia|]. simpl. rewrite lookup_insert_eq. simpl.
  destruct (pr_failed st !! cl_UID claim) as [k|]; simpl in *; subst; [|done].
  unfold id. apply int64_id. unfold in_int64. lia.
Qed.

(** Provisioning is given up: after as many failures in a row as the option says, an
    event of the claim starts nothing and asks nothing, whatever it reports. *)
Theorem provisioning_gives_up claim st now errs w :
  (0 < pvc_failedRetryThreshold ctrl) →
  pr_failed st !! cl_UID claim = None → Forall is_Some errs →
  pvc_failedRetryThreshold ctrl ≤ Z.of_nat (length errs) < 2 ^ 63 →
  let st' := after_ends claim errs st in
  ∀ claim', cl_UID claim' = cl_UID claim → addClaim ctrl st' now claim' w = (Ret (st', None), w, []).
Proof.
  intros Hpos Hst Hs Hlen st' claim' Huid.
  assert (from_option id 0 (pr_failed st' !! cl_UID claim) = 0 + Z.of_nat (length errs)) as Hf.
  { apply failed_after; [done|lia|lia|by rewrite Hst]. }
  unfold addClaim, shouldProvision. rewrite Huid. destruct (pr_failed st' !! cl_UID claim) as [k|]; simpl in Hf; [|lia].
  unfold id in Hf. case_bool_decide; [done|]. simpl. destruct (Z.leb_spec (pvc_failedRetryThreshold ctrl) k); [done|lia].
Qed.

End any_cloud.
