(* ===== verification/ProvisionerSync.v ===== *)
(** * The provision controller against the laws of its services

    The disks obey [ECS]; requests to the API server may fail at any time, but then have
    no effect ([VolumeAPI]).  Provisioning is all or nothing, a volume's life leaves no
    trace, and in every run of the controller each disk it made has its volume. *)

From S2P Require Import Prelude GoStd Quantity QuantitySpec Kube Cloud MapUtils Provider Instances Volume Interfaces Flags Options LeaderElection GoRoutineMap Controller Provisioner ECS ProvisionSpec ProvisionerSpec.

Definition set_kv_UID (v : KVolume) (uid : string) : KVolume :=
  mkKVolume (kv_PV v) uid (kv_Annotations v) (kv_ClaimRef v) (kv_Phase v).
Definition set_kv_Phase (v : KVolume) (phase : string) : KVolume :=
  mkKVolume (kv_PV v) (kv_UID v) (kv_Annotations v) (kv_ClaimRef v) phase.

Definition kv_Name (v : KVolume) : string := pv_Name (kv_PV v).

(** The requests by which the operations reach the disks, and the time they wait. *)
Definition disk_request {R} (e : req R) : bool :=
  match e with CreateDisk _ | DeleteDisk _ | Sleep _ => true | _ => false end.

(** The volumes of an API server, beside the disks: a request takes effect or fails
    without effect. *)
Class VolumeAPI (W : Type) `{!Handler req W} `{!ECS W} : Type := {
  pvs : W → gmap string KVolume;
  va_get : ∀ w n, ∃ r w', handle (Kube (GetVolume n)) w = (r, w') ∧ pvs w' = pvs w ∧
    ∀ v, r = inl v → pvs w !! n = Some v;
  va_create : ∀ w v, ∃ r w', handle (Kube (CreateVolume v)) w = (r, w') ∧
    match r with
    | None => ∃ uid, pvs w !! kv_Name v = None ∧ pvs w' = <[kv_Name v := set_kv_UID v uid]> (pvs w)
    | Some _ => pvs w' = pvs w
    end;
  va_delete : ∀ w n, ∃ r w', handle (Kube (DeleteVolume n)) w = (r, w') ∧
    match r with None => pvs w' = delete n (pvs w) | Some _ => pvs w' = pvs w end;
  va_class : ∀ w n, pvs (handle (Kube (GetClass n)) w).2 = pvs w;
  va_disks : ∀ R (e : req R) w, disk_request e = true → pvs (handle e w).2 = pvs w;
  va_ecs : ∀ R (k : kreq R) w, ecs (handle (Kube k) w).2 = ecs w;
  va_delete_disk : ∀ w id, ∃ r w', handle (DeleteDisk id) w = (r, w') ∧
    match r with Ok _ => ecs w' = delete id (ecs w) | Err _ => ecs w' = ecs w end }.

(** An API server that serves: what is there is shown, what is not there can be saved,
    and what is there can be deleted. *)
Class Serving (W : Type) `{VolumeAPI W} : Prop := {
  serving_get : ∀ w n v, pvs w !! n = Some v → (handle (Kube (GetVolume n)) w).1 = inl v;
  serving_create : ∀ w v, pvs w !! kv_Name v = None → (handle (Kube (CreateVolume v)) w).1 = None;
  serving_delete : ∀ w n, is_Some (pvs w !! n) → (handle (Kube (DeleteVolume n)) w).1 = None }.

Section sync.
Context {W : Type} `{!Handler req W} `{!FloatConv} `{!ECS W} `{!VolumeAPI W}.
Context (show_options : gmap string json → string).
Context (show_pv : PersistentVolume → string) (show_fv : FlexVolumeSource → string).
Context (url_path : string → result string).
Context (p : AliyunProvider) (ctrl : ProvisionController W).
Context (Hctrl : Some (pvc_provisioner ctrl) = (Interfaces.Volume show_options show_pv show_fv p).1).
Implicit Types (w : W) (claim : KClaim).

(** The volumes and the disks of a world. *)
Definition storage w : gmap string KVolume * gmap string disk_state := (pvs w, ecs w).

Lemma storage_eq w w' : storage w' = storage w ↔ pvs w' = pvs w ∧ ecs w' = ecs w.
Proof. unfold storage. split; [by intros [= -> ->]|by intros [-> ->]]. Qed.

Lemma storage_sleep w n : storage (handle (Sleep n) w).2 = storage w.
Proof. apply storage_eq. split; [by apply va_disks|apply ecs_sleep]. Qed.

Lemma storage_class w n : storage (handle (Kube (GetClass n)) w).2 = storage w.
Proof. apply storage_eq. split; [apply va_class|apply va_ecs]. Qed.

Lemma storage_get w n r w' : handle (Kube (GetVolume n)) w = (r, w') → storage w' = storage w.
Proof.
  intros Hh. destruct (va_get w n) as (r' & w1 & Hh' & Hp & _). rewrite Hh in Hh'. simplify_eq.
  apply storage_eq. split; [done|]. change w1 with (r', w1).2. rewrite <-Hh. apply va_ecs.
Qed.

(** ** The operations *)

(** A save succeeds once, or the loop leaves everything as it was. *)
Lemma save_volume_storage i volume err w :
  ∃ r w' t, save_volume i volume err w = (Ret r, w', t) ∧ ecs w' = ecs w ∧
    match r with
    | None => err = None ∧ i = O ∨
        ∃ uid, pvs w !! kv_Name volume = None ∧ pvs w' = <[kv_Name volume := set_kv_UID volume uid]> (pvs w)
    | Some _ => storage w' = storage w
    end.
Proof.
  revert err w. induction i as [|i IH]; intros err w.
  { exists err, w, []. split; [done|]. split; [done|]. destruct err; [done|by left]. }
  cbn [save_volume]. unfold mbind, M_bind, call.
  destruct (va_create w volume) as (r & w1 & Hh & Hr). rewrite Hh.
  assert (ecs w1 = ecs w) as He1 by (change w1 with (r, w1).2; rewrite <-Hh; apply va_ecs).
  destruct r as [e|].
  2:{ eexists _, w1, _. split; [done|]. split; [done|]. by right. }
  destruct (handle (Sleep 10) w1) as [u w2] eqn:Hs.
  pose proof (storage_sleep w1 10) as Hs2. rewrite Hs in Hs2. apply storage_eq in Hs2 as [Hp2 He2]. cbn [snd] in *.
  assert (pvs w2 = pvs w ∧ ecs w2 = ecs w) as [Hp He] by (split; congruence).
  destruct (IH (Some e) w2) as (r & w' & t & -> & He' & Hr'). eexists _, w', _. split; [done|]. split; [congruence|].
  destruct r as [e'|]; [rewrite Hr'; by apply storage_eq|].
  right. destruct Hr' as [[? _]|[uid Hu]]; [done|]. rewrite Hp in Hu. eauto.
Qed.

(** [Delete] deletes the disk of the volume, or nothing. *)
Lemma Delete_storage v w :
  ∃ r w' t, Delete show_pv show_fv p (kv_PV v) w = (Ret r, w', t) ∧ pvs w' = pvs w ∧
    match r with
    | None => ∃ id, kv_disk v = Some id ∧ ecs w' = delete id (ecs w)
    | Some _ => ecs w' = ecs w
    end.
Proof.
  unfold Delete, kv_disk. destruct (pv_FlexVolume (kv_PV v)) as [fv|]; [|by eexists _, w, _].
  simpl. case_bool_decide as Hid; [by eexists _, w, _|].
  unfold mbind, M_bind, call. set (id := default "" _) in *.
  destruct (va_delete_disk w id) as (r & w' & Hh & Hr). rewrite Hh.
  assert (pvs w' = pvs w) as Hp by (change w' with (r, w').2; rewrite <-Hh; by apply va_disks).
  destruct r as [u|e]; (eexists _, w', _; split; [done|]; split; [done|]); [|done].
  exists id. split; [|done]. unfold id in *. by destruct (fv_Options fv !! "diskId").
Qed.

(** The first attempt to delete a free disk succeeds. *)
Lemma clean_volume_storage i options diskId size err w :
  (0 < i)%nat → diskId ≠ "" → ecs w !! diskId = Some free_disk →
  ∃ w' t, clean_volume ctrl i (new_volume options diskId size) err w = (Ret None, w', t) ∧
    pvs w' = pvs w ∧ ecs w' = delete diskId (ecs w).
Proof using Hctrl.
  intros Hi Hid Hfree. destruct i as [|i]; [lia|]. cbn [clean_volume].
  rewrite (ctrl_Delete show_options show_pv show_fv p ctrl Hctrl).
  unfold Delete, new_volume. cbn [pv_FlexVolume fv_Options]. rewrite lookup_singleton_eq. simpl.
  rewrite bool_decide_false by done. destruct (ecs_delete w diskId Hfree) as (w' & Hh & He).
  unfold mbind, M_bind, call. rewrite Hh. eexists _, _. split; [done|].
  split; [|done]. change w' with (Ok tt : result unit, w').2. rewrite <-Hh. by apply va_disks.
Qed.

(** What provisioning leaves: everything as it was, or a new disk with its volume. *)
Definition provisioned claim w w' : Prop :=
  ∃ class ref id uid,
    let n := getProvisionedVolumeNameForClaim claim in
    GetReference url_path claim = Ok ref ∧ sto_Provisioner class = pvc_provisionerName ctrl ∧
    pvs w !! n = None ∧ ecs w !! id = None ∧
    ecs w' = <[id := free_disk]> (ecs w) ∧
    pvs w' = <[n := set_kv_UID (volume_for p ctrl claim class ref id) uid]> (pvs w).

(** After a disk was created. *)
Lemma saving_storage claim class ref diskId w0 w :
  GetReference url_path claim = Ok ref → sto_Provisioner class = pvc_provisionerName ctrl → diskId ≠ "" →
  pvs w = pvs w0 → ecs w0 !! diskId = None → ecs w = <[diskId := free_disk]> (ecs w0) →
  let pv := new_volume (claim_options claim class) diskId (cd_Size (disk_args p claim class)) in
  ∃ w' t,
    (err ← save_volume createProvisionedPVRetryCount (claimed_volume ctrl pv (getClaimClass claim) ref) None;
     match err with
     | Some _ => _ ← clean_volume ctrl createProvisionedPVRetryCount pv None; mret None
     | None => mret None
     end) w = (Ret (None : option error), w', t) ∧
    (storage w' = storage w0 ∨ provisioned claim w0 w').
Proof using Hctrl.
  intros Href Hcl Hid Hp Hnew He pv. unfold mbind at 1, M_bind at 1.
  destruct (save_volume_storage createProvisionedPVRetryCount (claimed_volume ctrl pv (getClaimClass claim) ref) None w)
    as (r & w1 & t1 & -> & He1 & Hr). destruct r as [e|].
  - apply storage_eq in Hr as [Hp1 _]. unfold mbind, M_bind, pv.
    destruct (clean_volume_storage createProvisionedPVRetryCount (claim_options claim class) diskId
      (cd_Size (disk_args p claim class)) None w1) as (w2 & t2 & -> & Hp2 & He2);
      [unfold createProvisionedPVRetryCount; lia|done|by rewrite He1, He, lookup_insert_eq|].
    exists w2. eexists. split; [done|]. left. apply storage_eq. split; [congruence|].
    by rewrite He2, He1, He, delete_insert_id.
  - destruct Hr as [[_ ?]|(uid & Hn & Hp1)]; [done|]. exists w1. eexists. split; [done|]. right.
    exists class, ref, diskId, uid. rewrite <-Hp. split_and!; [done|done|exact Hn|done|congruence|exact Hp1].
Qed.

(** Provisioning is all or nothing. *)
Lemma provision_storage claim w :
  ∃ err w' t, provisionClaimOperation url_path ctrl claim w = (Ret err, w', t) ∧
    (storage w' = storage w ∨ err = None ∧ provisioned claim w w').
Proof using Hctrl.
  unfold provisionClaimOperation. set (n := getProvisionedVolumeNameForClaim claim).
  unfold mbind at 1, M_bind at 1, call at 1.
  destruct (handle (Kube (GetVolume n)) w) as [r w1] eqn:Hg. pose proof (storage_get _ _ _ _ Hg) as Hs1.
  destruct r as [v|e]; [by eexists _, w1, _; split; [|left]|].
  destruct (GetReference url_path claim) as [ref|e'] eqn:Href; [|by eexists _, w1, _; split; [|left]].
  unfold mbind at 1, M_bind at 1.
  destruct (getStorageClass_run ctrl (getClaimClass claim) w1) as (r & w2 & t2 & -> & _ & Hw2 & Hcl).
  assert (storage w2 = storage w) as Hs2 by (rewrite Hw2, storage_class; done). clear Hw2.
  destruct r as [class|e']; [|by eexists _, w2, _; split; [|left]].
  rewrite (ctrl_Provision show_options show_pv show_fv p ctrl Hctrl).
  change (mkProvisionOptions _ _ _ _) with (claim_options claim class).
  unfold mbind at 1, M_bind at 1.
  destruct (Provision_run p (claim_options claim class) w2) as [[_ [e' ->]]|[_ ->]]; [by eexists _, w2, _; split; [|left]|].
  fold (disk_args p claim class). destruct (ecs_create w2 (disk_args p claim class)) as (id & w3 & Hh & Hid & Hnew & He3).
  assert (pvs w3 = pvs w2) as Hp3 by (change w3 with (Ok id : result string, w3).2; rewrite <-Hh; by apply va_disks).
  apply storage_eq in Hs2 as [Hp2 He2]. rewrite Hh. cbn [fst snd].
  change (disk_size _ _) with (cd_Size (disk_args p claim class)).
  destruct (saving_storage claim class ref id w w3 Href (proj2 Hcl) Hid) as (w4 & t4 & -> & Hr); [congruence..|].
  eexists _, w4, _. split; [done|]. destruct Hr; [by left|by right].
Qed.


(** Deleting leaves everything as it was, or takes the disk, and after it the volume. *)
Lemma delete_storage v w :
  ∃ err w' t, deleteVolumeOperation ctrl v w = (Ret err, w', t) ∧
    (storage w' = storage w ∨
     ∃ id v0, kv_disk v = Some id ∧ pvs w !! kv_Name v = Some v0 ∧ ecs w' = delete id (ecs w) ∧
       (pvs w' = pvs w ∨ pvs w' = delete (kv_Name v) (pvs w))).
Proof using Hctrl.
  unfold deleteVolumeOperation. fold (kv_Name v). unfold mbind at 1, M_bind at 1, call at 1.
  destruct (va_get w (kv_Name v)) as (r & w1 & Hg & _ & Hin). pose proof (storage_get _ _ _ _ Hg) as Hs1.
  rewrite Hg. destruct r as [v0|e]; [|by eexists _, w1, _; split; [|left]].
  destruct (shouldDelete ctrl v0); [|by eexists _, w1, _; split; [|left]]. cbn [negb].
  rewrite (ctrl_Delete show_options show_pv show_fv p ctrl Hctrl).
  destruct (Delete_storage v w1) as (r & w2 & t2 & Hd & Hp2 & Hr). apply storage_eq in Hs1 as [Hp1 He1].
  unfold mbind at 1, M_bind at 1. rewrite Hd. destruct r as [e|].
  { eexists _, w2, _. split; [done|]. left. apply storage_eq. split; congruence. }
  destruct Hr as (id & Hid & He2). destruct (va_delete w2 (kv_Name v)) as (r & w3 & Hh & Hr).
  assert (ecs w3 = ecs w2) as He3 by (change w3 with (r, w3).2; rewrite <-Hh; apply va_ecs).
  unfold mbind, M_bind, call. rewrite Hh. eexists _, w3, _. split; [done|]. right. exists id, v0.
  split_and!; [done|by apply Hin|congruence|]. destruct r; [left|right]; congruence.
Qed.

Section serving.
Context `{!Serving W}.

(** The volume of a claim is saved at the first attempt. *)
Lemma save_volume_serving i volume err w :
  (0 < i)%nat → pvs w !! kv_Name volume = None →
  ∃ w' t uid, save_volume i volume err w = (Ret None, w', t) ∧
    ecs w' = ecs w ∧ pvs w' = <[kv_Name volume := set_kv_UID volume uid]> (pvs w).
Proof.
  intros Hi Hn. destruct i as [|i]; [lia|]. cbn [save_volume]. unfold mbind, M_bind, call.
  destruct (va_create w volume) as (r & w1 & Hh & Hr). pose proof (serving_create w volume Hn) as Hs.
  rewrite Hh in Hs. simpl in Hs. subst r. destruct Hr as (uid & _ & Hp). rewrite Hh.
  eexists w1, _, uid. split; [done|]. split; [|done]. change w1 with (None : option api_error, w1).2.
  rewrite <-Hh. apply va_ecs.
Qed.

(** A claim of a class of the provisioner that is not turned down gets its volume. *)
Lemma provision_serving claim class ref w :
  GetReference url_path claim = Ok ref →
  (handle (Kube (GetClass (getClaimClass claim)))
     (handle (Kube (GetVolume (getProvisionedVolumeNameForClaim claim))) w).2).1 = Some class →
  sto_Provisioner class = pvc_provisionerName ctrl → ¬ refused (claim_options claim class) →
  pvs w !! getProvisionedVolumeNameForClaim claim = None →
  ∃ w' t id uid, provisionClaimOperation url_path ctrl claim w = (Ret None, w', t) ∧
    id ≠ "" ∧ ecs w !! id = None ∧ ecs w' = <[id := free_disk]> (ecs w) ∧
    pvs w' = <[getProvisionedVolumeNameForClaim claim := set_kv_UID (volume_for p ctrl claim class ref id) uid]> (pvs w).
Proof using Hctrl Serving0.
  intros Href Hclass Hcl Hok Hnone. unfold provisionClaimOperation. set (n := getProvisionedVolumeNameForClaim claim) in *.
  unfold mbind at 1, M_bind at 1, call at 1.
  destruct (va_get w n) as (r & w1 & Hg & Hp1 & Hin). pose proof (storage_get _ _ _ _ Hg) as Hs1. rewrite Hg.
  destruct r as [v|e]; [by rewrite (Hin v eq_refl) in Hnone|]. rewrite Href.
  unfold mbind at 1, M_bind at 1.
  assert (getStorageClass ctrl (getClaimClass claim) w1 =
    (Ret (Ok class), (handle (Kube (GetClass (getClaimClass claim))) w1).2,
     [Ev (Kube (GetClass (getClaimClass claim))) (Some class)])) as Hget.
  { pose proof Hclass as Hc. rewrite Hg in Hc. cbn [snd] in Hc. unfold getStorageClass, mbind, M_bind, call.
    destruct (handle (Kube (GetClass (getClaimClass claim))) w1) as [r w2]. simpl in Hc. subst r.
    rewrite bool_decide_false by (intros []; done). done. }
  rewrite Hget. set (w2 := (handle (Kube (GetClass (getClaimClass claim))) w1).2).
  assert (storage w2 = storage w) as Hs2 by (unfold w2; rewrite storage_class; done).
  rewrite (ctrl_Provision show_options show_pv show_fv p ctrl Hctrl).
  change (mkProvisionOptions _ _ _ _) with (claim_options claim class).
  unfold mbind at 1, M_bind at 1.
  destruct (Provision_run p (claim_options claim class) w2) as [[? _]|[_ ->]]; [done|].
  fold (disk_args p claim class). destruct (ecs_create w2 (disk_args p claim class)) as (id & w3 & Hh & Hid & Hnew & He3).
  assert (pvs w3 = pvs w2) as Hp3 by (change w3 with (Ok id : result string, w3).2; rewrite <-Hh; by apply va_disks).
  apply storage_eq in Hs2 as [Hp2 He2]. rewrite Hh. cbn [fst snd].
  change (disk_size _ _) with (cd_Size (disk_args p claim class)). fold (volume_for p ctrl claim class ref id).
  unfold mbind at 1, M_bind at 1.
  destruct (save_volume_serving createProvisionedPVRetryCount (volume_for p ctrl claim class ref id) None w3)
    as (w4 & t4 & uid & -> & He4 & Hp4); [unfold createProvisionedPVRetryCount; lia|by rewrite Hp3, Hp2|].
  eexists w4, _, id, uid. split; [done|]. split_and!; [done|congruence|congruence|]. by rewrite Hp4, Hp3, Hp2.
Qed.

(** C11: the life of a claim's volume, while the API server serves: provisioning gives the
    claim a volume with a new disk; provisioning it again changes nothing; and once the
    volume is released, deleting it leaves the volumes and the disks as they were
    before the claim. *)
Theorem claim_lifecycle claim class ref w :
  GetReference url_path claim = Ok ref →
  (handle (Kube (GetClass (getClaimClass claim)))
     (handle (Kube (GetVolume (getProvisionedVolumeNameForClaim claim))) w).2).1 = Some class →
  sto_Provisioner class = pvc_provisionerName ctrl → ¬ refused (claim_options claim class) →
  pvs w !! getProvisionedVolumeNameForClaim claim = None →
  let n := getProvisionedVolumeNameForClaim claim in
  ∃ w1 t1 id v, provisionClaimOperation url_path ctrl claim w = (Ret None, w1, t1) ∧
    ecs w !! id = None ∧ ecs w1 = <[id := free_disk]> (ecs w) ∧ pvs w1 = <[n := v]> (pvs w) ∧
    kv_disk v = Some id ∧ kv_ClaimRef v = Some ref ∧
    (∃ w2 t2, provisionClaimOperation url_path ctrl claim w1 = (Ret None, w2, t2) ∧
       pvs w2 = pvs w1 ∧ ecs w2 = ecs w1) ∧
    ∀ w3, ecs w3 = ecs w1 → pvs w3 = <[n := set_kv_Phase v VolumeReleased]> (pvs w1) →
      ∃ w4 t4, deleteVolumeOperation ctrl (set_kv_Phase v VolumeReleased) w3 = (Ret None, w4, t4) ∧
        ecs w4 = ecs w ∧ pvs w4 = pvs w.
Proof using Hctrl Serving0.
  intros Href Hclass Hcl Hok Hnone n.
  destruct (provision_serving claim class ref w Href Hclass Hcl Hok Hnone) as (w1 & t1 & id & uid & Hrun & Hid & Hnew & He & Hp).
  fold n in Hp, Hnone. set (v := set_kv_UID (volume_for p ctrl claim class ref id) uid) in *.
  exists w1, t1, id, v. split_and!; [done..| |].
  - unfold provisionClaimOperation. fold n. unfold mbind at 1, M_bind at 1, call at 1.
    destruct (handle (Kube (GetVolume n)) w1) as [r w2] eqn:Hg.
    assert (r = inl v) as -> by (change r with (r, w2).1; rewrite <-Hg; apply serving_get; by rewrite Hp, lookup_insert_eq).
    eexists w2, _. split; [done|]. by apply storage_eq, (storage_get _ _ _ _ Hg).
  - intros w3 He3 Hp3. set (v' := set_kv_Phase v VolumeReleased) in *.
    unfold deleteVolumeOperation. change (pv_Name (kv_PV v')) with n. unfold mbind at 1, M_bind at 1, call at 1.
    destruct (handle (Kube (GetVolume n)) w3) as [r w4] eqn:Hg.
    assert (r = inl v') as -> by (change r with (r, w4).1; rewrite <-Hg; apply serving_get; by rewrite Hp3, lookup_insert_eq).
    apply storage_get, storage_eq in Hg as [Hp4 He4].
    assert (shouldDelete ctrl v' = true) as -> by (apply shouldDelete_iff; split_and!; [by left|done|done]). cbn [negb].
    rewrite (ctrl_Delete show_options show_pv show_fv p ctrl Hctrl).
    change (kv_PV v') with (new_volume (claim_options claim class) id (cd_Size (disk_args p claim class))).
    unfold Delete, new_volume. cbn [pv_FlexVolume fv_Options]. rewrite lookup_singleton_eq. simpl.
    rewrite bool_decide_false by done.
    destruct (ecs_delete w4 id) as (w5 & Hd & He5); [by rewrite He4, He3, He, lookup_insert_eq|].
    assert (pvs w5 = pvs w4) as Hp5 by (change w5 with (Ok tt : result unit, w5).2; rewrite <-Hd; by apply va_disks).
    destruct (va_delete w5 n) as (r & w6 & Hh & Hr).
    assert (r = None) as ->.
    { change r with (r, w6).1. rewrite <-Hh. apply serving_delete. rewrite Hp5, Hp4, Hp3, lookup_insert_eq. by eexists. }
    unfold mbind, M_bind, call. rewrite Hd. cbn. rewrite Hh. eexists w6, _. split; [done|]. split.
    + assert (ecs w6 = ecs w5) as -> by (change w6 with (None : option api_error, w6).2; rewrite <-Hh; apply va_ecs).
      by rewrite He5, He4, He3, He, delete_insert_id.
    + by rewrite Hr, Hp5, Hp4, Hp3, Hp, insert_insert_eq, delete_insert_id.
Qed.

End serving.

End sync.
