(* ===== verification/ProvisionerRuns.v ===== *)
(** * Runs of the provision controller

    Invariants of the controller as a machine of events and goroutines: the operations of
    a claim do not overlap, and the disks it makes have their volumes. *)

From S2P Require Import Prelude GoStd Quantity QuantitySpec Kube Cloud MapUtils Provider Instances Volume Interfaces Flags Options LeaderElection GoRoutineMap Controller Provisioner ECS ProvisionSpec ProvisionerSpec ProvisionerSync.

(** ** Goroutines *)

Lemma grm_inv_perm exp ops l l' : l ≡ₚ l' → grm_inv exp ops l → grm_inv exp ops l'.
Proof. intros Hl [H1 H2 H3]. split; [by rewrite <-Hl|intros name; by rewrite <-Hl|done]. Qed.

(** The goroutine at a place ends. *)
Lemma grm_inv_end_at exp ops running now i name err :
  grm_inv exp ops running → running !! i = Some name →
  grm_inv exp (operationComplete exp ops now name err) (delete i running).
Proof.
  intros Hi Hn. eapply grm_inv_perm; [|by apply grm_inv_end]. destruct Hi as [Hnd _ _].
  assert (running ≡ₚ name :: delete i running) as Hp by (by apply delete_Permutation).
  assert (NoDup (name :: delete i running)) as Hnd' by (by rewrite <-Hp).
  apply NoDup_Permutation; [by apply NoDup_list_difference|by inv Hnd'|].
  intros x. rewrite list_elem_of_difference, list_elem_of_singleton. rewrite Hp at 1. rewrite elem_of_cons.
  inv Hnd'. naive_solver.
Qed.

(** The name under which a task is scheduled. *)
Definition task_name (t : task) : string :=
  match t with
  | ProvisionTask claim => provision_name claim
  | LockTask claim _ => lock_name claim
  | DeleteTask volume => delete_name volume
  end.

Section runs.
Context {W : Type} `{!Handler req W}.
Context (url_path : string → result string) (ctrl : ProvisionController W).
Implicit Types (s : prov_system (W:=W)).

(** The controller as it is made: nothing runs. *)
Definition fresh (w : W) : prov_system := mkProvSystem NewProv [] [] w.

Record running_inv s : Prop := {
  ri_grm : grm_inv (pvc_exponentialBackOff ctrl) (pr_ops (py_state s)) (py_running s).*1;
  ri_names : Forall (λ nt, nt.1 = task_name nt.2) (py_running s) }.

Lemma running_scheduled s st now t w callbacks :
  pr_ops st = pr_ops (py_state s) → running_inv s →
  running_inv (with_scheduled (mkProvSystem (py_state s) (py_running s) callbacks w)
                 (scheduleOperation st now (task_name t) t) w).
Proof.
  intros Hops [H1 H2]. unfold scheduleOperation. rewrite Hops.
  destruct (grm_Run (pr_ops (py_state s)) now (task_name t)) as [ops [e|]] eqn:Hr; split; simpl.
  - by eapply grm_inv_refused.
  - done.
  - by eapply grm_inv_start.
  - by constructor.
Qed.

Lemma running_finished s st now i name t err w :
  pr_ops st = pr_ops (py_state s) → py_running s !! i = Some (name, t) →
  running_inv s → running_inv (finished ctrl s st now i name err w).
Proof.
  intros Hops Hi [H1 H2]. split; simpl.
  - rewrite Hops, list_fmap_delete. apply grm_inv_end_at; [done|]. by rewrite list_lookup_fmap, Hi.
  - by apply Forall_delete.
Qed.

Lemma running_event s r w' : 
  (r = (py_state s, None) ∨ ∃ now t, r = scheduleOperation (py_state s) now (task_name t) t) →
  running_inv s → running_inv (with_scheduled s r w').
Proof.
  intros [->|(now & t & ->)] Hs; [by destruct Hs; split|].
  pose proof (running_scheduled s (py_state s) now t w' (py_callbacks s) eq_refl Hs) as H. exact H.
Qed.

Lemma addClaim_schedules st now claim w r w' t :
  addClaim ctrl st now claim w = (Ret r, w', t) →
  r = (st, None) ∨ ∃ now t, r = scheduleOperation st now (task_name t) t.
Proof.
  unfold addClaim, mbind at 1, M_bind at 1. destruct (shouldProvision ctrl st claim w) as [[[b| | |] w1] t1]; try done.
  destruct b; [|intros [= <- _ _]; by left]. simpl. intros Ha. right. destruct (default false _).
  - exists now, (ProvisionTask claim). by injection Ha as <- _ _.
  - exists now, (LockTask claim LockNew). by injection Ha as <- _ _.
Qed.

(** An update is dropped, or treated as an addition. *)
Lemma updateClaim_cases st now oldClaim newClaim w r w' t :
  updateClaim ctrl st now oldClaim newClaim w = (Ret r, w', t) →
  (r = (st, None) ∧ w' = w) ∨ addClaim ctrl st now newClaim w = (Ret r, w', t).
Proof.
  unfold updateClaim. case_bool_decide; [by right|]. destruct (isOnlyRecordUpdate _ _); [|by right].
  intros [= <- <- _]. by left.
Qed.

Lemma running_in_phase s i name claim phase phase' st callbacks :
  pr_ops st = pr_ops (py_state s) → py_running s !! i = Some (name, LockTask claim phase) →
  running_inv s → running_inv (in_phase s i name claim phase' st callbacks).
Proof.
  intros Hops Hi [H1 H2]. pose proof (Forall_lookup_1 _ _ _ _ H2 Hi) as Hn. split; simpl.
  - rewrite Hops, list_fmap_insert. simpl. rewrite list_insert_id; [done|]. by rewrite list_lookup_fmap, Hi.
  - apply Forall_insert; [done|exact Hn].
Qed.

Lemma running_step s s' : prov_step url_path ctrl s s' → running_inv s → running_inv s'.
Proof.
  intros Hstep Hs. destruct Hstep.
  - eapply running_event, Hs. by eapply addClaim_schedules.
  - eapply running_event, Hs. apply updateClaim_cases in H as [[-> _]|H]; [by left|by eapply addClaim_schedules].
  - apply running_event, Hs. unfold updateVolume. case_match; [right|by left]. by exists now, (DeleteTask volume).
  - eapply running_finished, Hs; [|done]. by destruct o.
  - by eapply running_finished.
  - by eapply running_in_phase.
  - by eapply running_finished.
  - destruct Hs. by split.
  - by eapply running_in_phase.
  - by apply (running_scheduled s (py_state s) now (ProvisionTask claim)).
  - by eapply running_finished.
Qed.

Lemma running_reachable w s : rtc (prov_step url_path ctrl) (fresh w) s → running_inv s.
Proof.
  intros Hs. assert (running_inv (fresh w)) as H0 by (split; [apply grm_inv_init|constructor]).
  revert H0. induction Hs as [s|s1 s2 s3 H1 _ IH]; [done|]. intros H0. apply IH. by eapply running_step.
Qed.

(** C23: the operations of a claim do not overlap: in every run of the controller, with any
    events, electors that lead and callbacks that run late, at most one operation that
    provisions a claim is running. *)
Theorem one_provision_per_claim w s i j n n' c c' :
  rtc (prov_step url_path ctrl) (fresh w) s →
  py_running s !! i = Some (n, ProvisionTask c) → py_running s !! j = Some (n', ProvisionTask c') →
  cl_Namespace c = cl_Namespace c' → cl_Name c = cl_Name c' → cl_UID c = cl_UID c' → i = j.
Proof.
  intros [Hg Hn]%running_reachable Hi Hj H1 H2 H3. rewrite Forall_lookup in Hn.
  pose proof (Hn _ _ Hi) as Hni. pose proof (Hn _ _ Hj) as Hnj. simpl in *.
  eapply NoDup_lookup; [apply (gi_once _ _ _ Hg)|by rewrite list_lookup_fmap, Hi|].
  rewrite list_lookup_fmap, Hj. simpl. f_equal. rewrite Hni, Hnj. unfold provision_name, claimToClaimKey. congruence.
Qed.

End runs.

(** ** Disks and their volumes *)

Section disks.
Context {W : Type} `{!Handler req W} `{!FloatConv} `{!ECS W} `{!VolumeAPI W}.
Context (show_options : gmap string json → string).
Context (show_pv : PersistentVolume → string) (show_fv : FlexVolumeSource → string).
Context (url_path : string → result string).
Context (p : AliyunProvider) (ctrl : ProvisionController W).
Context (Hctrl : Some (pvc_provisioner ctrl) = (Interfaces.Volume show_options show_pv show_fv p).1).
(** The disks that others make. *)
Context (foreign : gset string).
Implicit Types (w : W) (s : prov_system (W:=W)).

(** The tasks that delete a volume have it as it is: the source of a volume never
    changes, and its name is not used again. *)
Definition current s : Prop :=
  ∀ i name v v', py_running s !! i = Some (name, DeleteTask v) →
    pvs (py_world s) !! kv_Name v = Some v' → kv_disk v' = kv_disk v.

(** What others do meanwhile: to disks anything but making one that is not counted as
    theirs; volumes may be added and change, but keep their disk and stay. *)
Record others w w' : Prop := {
  ot_disks : dom (ecs w') ⊆ dom (ecs w) ∪ foreign;
  ot_volumes : ∀ n v, pvs w !! n = Some v → ∃ v', pvs w' !! n = Some v' ∧ kv_disk v' = kv_disk v }.

Inductive cluster_step s : prov_system → Prop :=
| by_controller s' : current s → prov_step url_path ctrl s s' → cluster_step s s'
| by_others w' : others (py_world s) w' →
    cluster_step s (mkProvSystem (py_state s) (py_running s) (py_callbacks s) w').

(** Every disk is one of [old], or of others, or has its volume. *)
Definition owned (old : gset string) w : Prop :=
  ∀ id, id ∈ dom (ecs w) → id ∈ old ∨ id ∈ foreign ∨ ∃ n v, pvs w !! n = Some v ∧ kv_disk v = Some id.

Lemma owned_storage old w w' : storage w' = storage w → owned old w → owned old w'.
Proof. intros [Hp He]%storage_eq Ho id. rewrite He, Hp. apply Ho. Qed.

Lemma owned_others old w w' : others w w' → owned old w → owned old w'.
Proof.
  intros [Hd Hv] Ho id Hid. apply Hd, elem_of_union in Hid as [Hid|Hid]; [|by auto].
  destruct (Ho id Hid) as [?|[?|(n & v & Hn & Hk)]]; [by auto..|]. destruct (Hv n v Hn) as (v' & Hn' & Hk').
  right; right. exists n, v'. split; [done|congruence].
Qed.

(** A new disk comes with its volume. *)
Lemma owned_provisioned old claim w w' :
  provisioned url_path p ctrl claim w w' → owned old w → owned old w'.
Proof.
  intros (class & ref & id & uid & _ & _ & Hn & _ & He & Hp) Ho id' Hid'. rewrite He, dom_insert in Hid'.
  rewrite Hp. apply elem_of_union in Hid' as [->%elem_of_singleton|Hid'].
  - right; right. eexists _, _. split; [apply lookup_insert_eq|done].
  - destruct (Ho id' Hid') as [?|[?|(n & v & Hv & Hk)]]; [by auto..|]. right; right. exists n, v. split; [|done].
    rewrite lookup_insert_ne; [done|]. intros <-. by rewrite Hn in Hv.
Qed.

(** A volume goes after its disk. *)
Lemma owned_deleted old v v0 id w w' :
  kv_disk v = Some id → pvs w !! kv_Name v = Some v0 → kv_disk v0 = kv_disk v →
  ecs w' = delete id (ecs w) → pvs w' = pvs w ∨ pvs w' = delete (kv_Name v) (pvs w) →
  owned old w → owned old w'.
Proof.
  intros Hid Hv0 Hd He Hp Ho id' Hid'. rewrite He, dom_delete, elem_of_difference, elem_of_singleton in Hid'.
  destruct Hid' as [Hid' Hne]. destruct (Ho id' Hid') as [?|[?|(n & u & Hu & Hk)]]; [by auto..|].
  right; right. exists n, u. split; [|done]. destruct Hp as [->| ->]; [done|].
  rewrite lookup_delete_ne; [done|]. intros <-. congruence.
Qed.

Lemma shouldProvision_storage st claim w : storage (world_of (shouldProvision ctrl st claim) w) = storage w.
Proof.
  assert (preserves (λ w', storage w' = storage w) (shouldProvision ctrl st claim)) as Hp; [|by apply Hp].
  unfold shouldProvision, getStorageClass. repeat case_match; try apply preserves_ret.
  apply preserves_bind; [apply preserves_bind|].
  - apply preserves_call. intros w' <-. apply storage_class.
  - intros [class|]; [case_match|]; apply preserves_ret.
  - intros []; apply preserves_ret.
Qed.

Lemma addClaim_storage st now claim w r w' t :
  addClaim ctrl st now claim w = (Ret r, w', t) → storage w' = storage w.
Proof.
  intros Ha. pose proof (shouldProvision_storage st claim w) as Hs. unfold addClaim, mbind, M_bind, world_of in *.
  destruct (shouldProvision ctrl st claim w) as [[[b| | |] w1] t1]; try done. simpl in Hs. rewrite <-Hs.
  destruct b; [|by injection Ha as _ <- _]. simpl in Ha. destruct (default false _); by injection Ha as _ <- _.
Qed.

Lemma owned_step old s s' : cluster_step s s' → owned old (py_world s) → owned old (py_world s').
Proof using Hctrl.
  intros [s2 Hcur Hstep|w' Hot] Ho; [|by eapply owned_others].
  destruct Hstep; simpl; try exact Ho.
  - eapply owned_storage, Ho. by eapply addClaim_storage.
  - match goal with Hu : updateClaim _ _ _ _ _ _ = _ |- _ => apply updateClaim_cases in Hu as [[_ ->]|Hu] end; [done|].
    eapply owned_storage, Ho. by eapply addClaim_storage.
  - destruct (provision_storage show_options show_pv show_fv url_path p ctrl Hctrl claim (py_world s))
      as (err & w1 & t1 & Hrun & Hr).
    match goal with Hop : _ = (o, w', t) |- _ => rewrite Hop in Hrun; injection Hrun as -> -> -> end.
    destruct Hr as [Hr|[_ Hr]]; [by eapply owned_storage|by eapply owned_provisioned].
  - destruct (delete_storage show_options show_pv show_fv p ctrl Hctrl volume (py_world s))
      as (err & w1 & t1 & Hrun & Hr).
    match goal with Hop : _ = (o, w', t) |- _ => rewrite Hop in Hrun; injection Hrun as -> -> -> end.
    destruct Hr as [Hr|(id & v0 & Hid & Hv0 & He & Hp)]; [by eapply owned_storage|].
    eapply owned_deleted; [done|done|by eapply Hcur|done|done|done].
Qed.


End disks.
