(* ===== verification/SimVolumes.v ===== *)
(** * An in-memory cluster with claims

    The in-memory account of [SimCloud] beside an API server with storage classes and
    volumes: an implementation of the laws that the theorems about the provision
    controller use, the examples on which they are run, and an API server that loses
    answers. *)

From S2P Require Import Prelude GoStd Quantity QuantitySpec Kube Cloud MapUtils Provider Instances Volume Interfaces Flags Options LeaderElection GoRoutineMap Controller Provisioner ECS SimCloud ProvisionSpec ProvisionerSpec ProvisionerSync ProvisionerRuns.

Record vcluster : Type := mkVCluster {
  vc_cloud : cloud; vc_classes : gmap string StorageClass; vc_pvs : gmap string KVolume }.

Definition set_pvs (w : vcluster) (m : gmap string KVolume) : vcluster := mkVCluster (vc_cloud w) (vc_classes w) m.

(** What the API server answers; [lost] says whether the answer to a save is lost. *)
Definition vcluster_kube (lost : bool) {R} (k : kreq R) (w : vcluster) : R * vcluster :=
  match k in kreq R return R * vcluster with
  | GetClass name => (vc_classes w !! name, w)
  | GetVolume name => (match vc_pvs w !! name with Some v => inl v | None => inr (NotFoundError name) end, w)
  | CreateVolume v =>
      match vc_pvs w !! kv_Name v with
      | Some _ => (Some (OtherError "persistentvolumes already exists"), w)
      | None => (if lost then Some (OtherError "request timed out") else None,
                 set_pvs w (<[kv_Name v := set_kv_UID v "uid"]> (vc_pvs w)))
      end
  | DeleteVolume name =>
      match vc_pvs w !! name with
      | Some _ => (None, set_pvs w (delete name (vc_pvs w)))
      | None => (Some (NotFoundError name), w)
      end
  | k => (sim_kube [] k, w)
  end.

Definition vcluster_handles (lost : bool) : Handler req vcluster := λ R e w,
  let '(r, c) := handle e (vc_cloud w) in
  match e in req R return R → R * vcluster with
  | Kube k => λ _, vcluster_kube lost k w
  | _ => λ r, (r, mkVCluster c (vc_classes w) (vc_pvs w))
  end r.

#[export] Instance vcluster_handler : Handler req vcluster := vcluster_handles false.

Definition to_kube {R} (e : req R) : bool := match e with Kube _ => true | _ => false end.

Lemma vcluster_cloud {R} (e : req R) (w : vcluster) :
  to_kube e = false →
  handle e w = ((handle e (vc_cloud w)).1, mkVCluster (handle e (vc_cloud w)).2 (vc_classes w) (vc_pvs w)).
Proof.
  intros He. change (handle e w) with (vcluster_handles false R e w). unfold vcluster_handles.
  destruct (handle e (vc_cloud w)) as [r c]. by destruct e.
Qed.

Lemma vcluster_to_kube {R} (k : kreq R) (w : vcluster) : handle (Kube k) w = vcluster_kube false k w.
Proof.
  change (handle (Kube k) w) with (vcluster_handles false R (Kube k) w). unfold vcluster_handles.
  by destruct (handle (Kube k) (vc_cloud w)).
Qed.

#[export, refine] Instance vcluster_ecs : ECS vcluster := {| ecs := ecs ∘ vc_cloud |}.
Proof.
  - intros w args id s Hs Hids. destruct (ecs_describe (vc_cloud w) args id s Hs Hids) as (rest & pr & c & Hh & He).
    eexists rest, pr, _. rewrite vcluster_cloud, Hh by done. by split.
  - intros w args Hs. destruct (ecs_attach (vc_cloud w) args Hs) as (dev & n & c & Hh & Hn & He).
    eexists dev, n, _. rewrite vcluster_cloud, Hh by done. by split.
  - intros w i dev id Hs. destruct (ecs_detach (vc_cloud w) i dev id Hs) as (n & c & Hh & Hn & He).
    eexists n, _. rewrite vcluster_cloud, Hh by done. by split.
  - intros w args. destruct (ecs_create (vc_cloud w) args) as (id & c & Hh & Hid & Hn & He).
    eexists id, _. rewrite vcluster_cloud, Hh by done. by split.
  - intros w id Hs. destruct (ecs_delete (vc_cloud w) id Hs) as (c & Hh & He).
    eexists _. rewrite vcluster_cloud, Hh by done. by split.
  - intros w args. by rewrite vcluster_cloud.
  - intros w n. by rewrite vcluster_cloud.
Defined.

#[export, refine] Instance vcluster_api : VolumeAPI vcluster := {| pvs := vc_pvs |}.
Proof.
  - intros w n. rewrite vcluster_to_kube. simpl. destruct (vc_pvs w !! n) as [v|]; eexists _, _; split; try done.
    split; [done|]. by intros v' [= ->].
  - intros w v. rewrite vcluster_to_kube. simpl. destruct (vc_pvs w !! kv_Name v) as [v'|]; eexists _, _; split; try done.
    by exists "uid".
  - intros w n. rewrite vcluster_to_kube. simpl. destruct (vc_pvs w !! n) as [v|]; by eexists _, _.
  - intros w n. by rewrite vcluster_to_kube.
  - intros R e w He. rewrite vcluster_cloud; [done|]. by destruct e.
  - intros R k w. rewrite vcluster_to_kube. destruct k; simpl; try done; by case_match.
  - intros w id. rewrite vcluster_cloud by done.
    assert (∀ c : cloud, match (handle (DeleteDisk id) c).1 with
      | Ok _ => c_disks (handle (DeleteDisk id) c).2 = delete id (c_disks c)
      | Err _ => c_disks (handle (DeleteDisk id) c).2 = c_disks c end) as Hc.
    { intros c. unfold handle, sim_handler. by destruct (c_disks c !! id) as [[[] []]|]. }
    specialize (Hc (vc_cloud w)). destruct (handle (DeleteDisk id) (vc_cloud w)) as [[u|e] c]; by eexists _, _.
Defined.

#[export] Instance vcluster_serving : Serving vcluster.
Proof.
  split.
  - intros w n v Hv. rewrite vcluster_to_kube. simpl in *. by rewrite Hv.
  - intros w v Hv. rewrite vcluster_to_kube. simpl in *. by rewrite Hv.
  - intros w n [v Hv]. rewrite vcluster_to_kube. simpl in *. by rewrite Hv.
Qed.

(** ** Examples and witnesses *)

Module VolumeRuns.
#[local] Existing Instance text_float.

Definition provider : AliyunProvider :=
  mkProvider "key" "secret" "cn-hangzhou" "cn-hangzhou-a" "vpc-1" "vrt-1" "vsw-1" "rtb-1" "i-1"
    "node-1" NodeNameTypeHostname.
Definition disks (H : Handler req vcluster) : VolumeInterface vcluster :=
  mkVolumeInterface vcluster (Init provider) (Attach provider) (Detach provider) (MountDevice provider)
    (UnmountDevice provider) (WaitForAttach provider) (GetVolumeName (λ _, "") provider) (IsAttached provider)
    (ProvisionerName provider) (Provision provider) (Delete (λ _, "") (λ _, "") provider).
Definition made (H : Handler req vcluster) : ProvisionController vcluster :=
  mkProvisionController (30 * Second) "archon.kubeup.com/aliyun" (disks H) false false 3
    (15 * Second) (10 * Second) (2 * Second) (30 * Second).
Definition ctrl : ProvisionController vcluster := made vcluster_handler.

Lemma ctrl_made :
  Some (pvc_provisioner ctrl) = (Interfaces.Volume (λ _, "") (λ _, "") (λ _, "") provider).1.
Proof. reflexivity. Qed.

(** A claim for 30 binary gigabytes of the class [fast]. *)
Definition spec : PersistentVolumeClaim :=
  mkPVC false [ReadWriteOnce] {[ ResourceStorage := mkQuantity (mkAmount 32212254720 0) None ]} (Some "fast").
Definition claim : KClaim :=
  mkKClaim "" "" "/api/v1/namespaces/default/persistentvolumeclaims/data" "default" "data" "1234" "7" None "" spec "".
Definition fast : StorageClass :=
  mkStorageClass "fast" "archon.kubeup.com/aliyun" (Some {[ "diskCategory" := "cloud_ssd" ]}).
Definition ref : ObjectReference := mkReference "PersistentVolumeClaim" "v1" "default" "data" "1234" "7".
Definition w0 : vcluster := mkVCluster (mkCloud {[ "d-1" := free_disk ]} [] ∅ ∅ [] 0) {[ "fast" := fast ]} ∅.

(** A reference through the self link, whose path it is. *)
Lemma claim_reference : GetReference Ok claim = Ok ref.
Proof. reflexivity. Qed.

Lemma claim_not_refused : ¬ refused (claim_options claim fast).
Proof. intros [H|[H|H]]; [done| |done]. apply H. left. Qed.

Definition after {A} (r : outcome A * vcluster * list (event req)) : vcluster := r.1.2.
Definition w1 : vcluster := after (provisionClaimOperation Ok ctrl claim w0).
Definition data : KVolume := default (mkKVolume (mkPV "" "" [] ∅ "" None) "" None None "") (vc_pvs w1 !! "pvc-1234").
Definition released : vcluster := set_pvs w1 {[ "pvc-1234" := set_kv_Phase data VolumeReleased ]}.

Definition released_data : KVolume := set_kv_Phase data VolumeReleased.

Lemma provisionClaim_safe_witness :
  ∃ err w' t, provisionClaimOperation Ok ctrl claim w0 = (Ret err, w', t) ∧
    provisioning Ok provider ctrl claim (mutations t) ∧
    (mutations t ≠ [] → ∃ e, Ev (Kube (GetVolume "pvc-1234")) (inr e) ∈ t).
Proof.
  apply (provisionClaim_safe (λ _, "") (λ _, "") (λ _, "") Ok provider ctrl ctrl_made claim w0).
Defined.

Lemma deleteVolume_safe_witness :
  ∃ err w' t, deleteVolumeOperation ctrl released_data released = (Ret err, w', t) ∧
    (mutations t = [] ∨
     ∃ current diskId, Ev (Kube (GetVolume "pvc-1234")) (inl current) ∈ t ∧
       (kv_Phase current = VolumeReleased ∨ pvc_is1dot4 ctrl = true ∧ kv_Phase current = VolumeFailed) ∧
       pv_ReclaimPolicy (kv_PV current) = PersistentVolumeReclaimDelete ∧
       get_annotation (kv_Annotations current) annDynamicallyProvisioned = Some (pvc_provisionerName ctrl) ∧
       kv_disk released_data = Some diskId ∧
       ((∃ e, mutations t = [Ev (DeleteDisk diskId) (Err e)]) ∨
        ∃ r, mutations t = [Ev (DeleteDisk diskId) (Ok tt); Ev (Kube (DeleteVolume "pvc-1234")) r])).
Proof.
  apply (deleteVolume_safe (λ _, "") (λ _, "") (λ _, "") provider ctrl ctrl_made released_data released).
Defined.

Lemma provisioning_gives_up_witness :
  let st' := after_ends claim [Some "a"; Some "b"; Some "c"] NewProv in
  addClaim ctrl st' 0 claim w0 = (Ret (st', None), w0, []).
Proof.
  intros st'. apply (provisioning_gives_up ctrl claim NewProv 0 [Some "a"; Some "b"; Some "c"] w0).
  - reflexivity.
  - reflexivity.
  - by repeat constructor.
  - split; [discriminate|reflexivity].
  - reflexivity.
Defined.


Lemma claim_lifecycle_witness :
  ∃ w1 t1 id v, provisionClaimOperation Ok ctrl claim w0 = (Ret None, w1, t1) ∧
    ecs w0 !! id = None ∧ ecs w1 = <[id := free_disk]> (ecs w0) ∧ pvs w1 = <["pvc-1234" := v]> (pvs w0) ∧
    kv_disk v = Some id ∧ kv_ClaimRef v = Some ref ∧
    (∃ w2 t2, provisionClaimOperation Ok ctrl claim w1 = (Ret None, w2, t2) ∧ pvs w2 = pvs w1 ∧ ecs w2 = ecs w1) ∧
    ∀ w3, ecs w3 = ecs w1 → pvs w3 = <["pvc-1234" := set_kv_Phase v VolumeReleased]> (pvs w1) →
      ∃ w4 t4, deleteVolumeOperation ctrl (set_kv_Phase v VolumeReleased) w3 = (Ret None, w4, t4) ∧
        ecs w4 = ecs w0 ∧ pvs w4 = pvs w0.
Proof.
  apply (claim_lifecycle (λ _, "") (λ _, "") (λ _, "") Ok provider ctrl ctrl_made claim fast ref w0).
  - reflexivity.
  - reflexivity.
  - reflexivity.
  - apply claim_not_refused.
  - reflexivity.
Defined.

(** A run: the claim is reported, its lock is taken, and the callback of its elector
    schedules the provisioning. *)
Definition s1 : prov_system :=
  with_scheduled (fresh w0) (scheduleOperation NewProv 0 (lock_name claim) (LockTask claim LockNew)) w0.
Definition s2 : prov_system :=
  in_phase s1 0 (lock_name claim) claim LockAcquiring (set_electors (py_state s1) {[ "1234" := false ]}) [].
Definition s3 : prov_system := in_phase s2 0 (lock_name claim) claim LockLeading (py_state s2) [claim].
Definition s4 : prov_system :=
  with_scheduled (mkProvSystem (py_state s3) (py_running s3) [] w0)
    (scheduleOperation (py_state s3) 0 (provision_name claim) (ProvisionTask claim)) w0.

Lemma run_s4 : rtc (prov_step Ok ctrl) (fresh w0) s4.
Proof.
  eapply rtc_l; [eapply (step_addClaim _ _ _ 0 claim (scheduleOperation NewProv 0 (lock_name claim) (LockTask claim LockNew)) w0); reflexivity|].
  eapply rtc_l; [apply (step_lock _ _ s1 0 (lock_name claim) claim); [reflexivity|vm_compute; reflexivity]|].
  eapply rtc_l; [apply (step_lead _ _ s2 0 (lock_name claim) claim); reflexivity|].
  eapply rtc_l; [apply (step_callback _ _ s3 0 0 claim); reflexivity|]. apply rtc_refl.
Qed.

Lemma one_provision_per_claim_witness :
  py_running s4 !! 0%nat = Some (provision_name claim, ProvisionTask claim) ∧ 0%nat = 0%nat.
Proof.
  split; [reflexivity|].
  apply (one_provision_per_claim Ok ctrl w0 s4 0 0 (provision_name claim) (provision_name claim) claim claim run_s4);
    reflexivity.
Defined.

(** The operation runs, and the new disk has its volume. *)
Definition s5 : prov_system :=
  finished ctrl s4 (updateStats (py_state s4) claim None) 0 0 (provision_name claim) None w1.

Lemma run_s5 : rtc (cluster_step Ok ctrl ∅) s4 s5.
Proof.
  eapply rtc_l; [|apply rtc_refl]. apply by_controller.
  - intros i name v v' _ Hv. vm_compute in Hv. done.
  - apply (step_provision_task _ _ s4 0 0 (provision_name claim) claim (Ret None) w1
      (provisionClaimOperation Ok ctrl claim w0).2); vm_compute; reflexivity.
Qed.


(** A volume whose disk is gone, because the request to delete it from the API server
    failed, is not deleted any more: the disk service knows no such disk. *)
Example volume_stuck :
  let w := mkVCluster (vc_cloud w0) (vc_classes w0) (vc_pvs released) in
  match deleteVolumeOperation ctrl released_data w with
  | (Ret (Some _), w', _) => w' = w
  | _ => False
  end.
Proof. vm_compute. reflexivity. Qed.

(** ** Lost answers *)

(** An API server that saves volumes and whose answers are lost. *)
Definition lossy : Handler req vcluster := vcluster_handles true.


End VolumeRuns.
