(* ===== verification/DeviceSpec.v ===== *)
(** * Theorems about devices, volume names and mounting

    Device names between the API and the host, the search of a device over the
    pages of the disk listing, the volume name that [Detach] gets back, and
    what [MountDevice] asks of the host. *)

From S2P Require Import Prelude GoStd Kube Cloud MapUtils Provider Instances Quantity Volume SimCloud.

(** ** Device names *)

(** A device suffix: the letters after [/dev/xvd]. *)
Definition suffix_ok (x : string) : Prop := slash ∉ str_to_list x.

Lemma api2local_api x : deviceApi2Local (APIPrefix +:+ x) = LocalPrefix +:+ x.
Proof. unfold deviceApi2Local, Replace. by destruct x. Qed.

Lemma local2api_local x : deviceLocal2Api (LocalPrefix +:+ x) = APIPrefix +:+ x.
Proof. unfold deviceLocal2Api, Replace. by destruct x. Qed.

(** A suffix without a slash keeps a replacement from happening. *)
Lemma replace_from_suffix x old new n :
  suffix_ok x → replace_from (String slash old) new n 0 x = x.
Proof. apply Replace_absent. Qed.

Lemma api2local_local x : suffix_ok x → deviceApi2Local (LocalPrefix +:+ x) = LocalPrefix +:+ x.
Proof.
  intros Hx. pose proof (replace_from_suffix x "dev/xvd" LocalPrefix 1 Hx) as Hr.
  change (LocalPrefix +:+ replace_from (String slash "dev/xvd") LocalPrefix 1 0 x = LocalPrefix +:+ x).
  by rewrite Hr.
Qed.

(** ** The paged listing *)

(** The service answers the listing of an instance's disks in pages of fifty: page
    [n], counted from 1, holds the disks from [50 * (n - 1)] on. *)
Definition page (disks : list DiskItemType) (n : Z) : list DiskItemType :=
  take 50 (drop (Z.to_nat (50 * (n - 1))) disks).

Definition paged {W} `{Handler req W} (p : AliyunProvider) (instanceId : string)
    (disks : list DiskItemType) (w : W) : Prop :=
  ∀ n, 0 ≤ n →
    handle (DescribeDisks (mkDescribeDisksArgs (region p) [] instanceId (mkPagination n 50))) w =
      (Ok (page disks (Z.max 1 n), mkPaginationResult (Z.of_nat (length disks)) (Z.max 1 n) 50), w).

Lemma find_app {A} (f : A → bool) l1 l2 :
  find f (l1 ++ l2) = match find f l1 with Some x => Some x | None => find f l2 end.
Proof. induction l1 as [|x l1 IH]; simpl; [done|]. by destruct (f x). Qed.

(** A page and what follows it. *)
Lemma page_rest disks n :
  1 ≤ n → drop (Z.to_nat (50 * (n - 1))) disks = page disks n ++ drop (Z.to_nat (50 * n)) disks.
Proof.
  intros Hn. unfold page. replace (Z.to_nat (50 * n)) with (Z.to_nat (50 * (n - 1)) + 50)%nat by lia.
  rewrite <- drop_drop. symmetry. apply take_drop.
Qed.

Section devices.
Context {W : Type} `{!Handler req W}.

Definition device_result (disks : list DiskItemType) (device : string) : result DiskItemType :=
  match find (λ disk, sameDevice (di_Device disk) device) disks with
  | Some disk => Ok disk
  | None => Err (Sprintf "Device %s is not found in provider inventory" [AStr device])
  end.

(** [t] has no more requests than the listing has pages from page [n] on. *)
Definition one_per_page (disks : list DiskItemType) (n : Z) (t : list (event req)) : Prop :=
  polls t ≤ 1 ∨ 50 * (polls t - 1) < Z.of_nat (length disks) - 50 * (n - 1).

Lemma getDiskByDevice_loop_paged fuel p instanceId disks device n w :
  paged p instanceId disks w → Z.of_nat (length disks) < 2 ^ 32 →
  0 ≤ n ≤ 2 ^ 32 → (1 ≤ fuel)%nat →
  Z.of_nat (length disks) ≤ 50 * (Z.max 1 n - 1) + 50 * Z.of_nat fuel →
  ∃ t, getDiskByDevice_loop fuel p instanceId device (mkPagination n 50) w =
    (Ret (device_result (drop (Z.to_nat (50 * (Z.max 1 n - 1))) disks) device), w, t) ∧
    one_per_page disks (Z.max 1 n) t.
Proof.
  intros Hp Hlen. revert n. induction fuel as [|fuel IH]; intros n Hn Hf Hle; [lia|]. simpl.
  unfold bind_ok, mbind, M_bind, call. rewrite Hp by lia. rewrite page_rest by lia.
  unfold device_result. rewrite find_app. set (n' := Z.max 1 n) in *.
  destruct (find _ (page disks n')) as [disk|] eqn:Hfind; [eexists; split; [done|by left]|].
  unfold NextPage. cbn [pr_PageNumber pr_PageSize pr_TotalCount].
  rewrite !int64_id by (unfold in_int64; lia). case_bool_decide as Hlast.
  - rewrite drop_ge by lia. simpl. eexists; split; [done|by left].
  - destruct (IH (n' + 1)) as (t & Ht & Hpoll); [lia..|]. rewrite Ht.
    replace (Z.to_nat (50 * (Z.max 1 (n' + 1) - 1))) with (Z.to_nat (50 * n')) by lia.
    eexists; split; [done|]. unfold one_per_page in *. simpl app. rewrite polls_cons. simpl is_poll.
    cbn iota. lia.
Qed.

(** ** Theorems *)

(** Device names.  The API name of a device and its host name translate into
    each other, and [sameDevice] identifies exactly the names, of either kind, with
    the same suffix. *)
Theorem device_names x y :
  suffix_ok x → suffix_ok y →
  deviceLocal2Api (deviceApi2Local (APIPrefix +:+ x)) = APIPrefix +:+ x ∧
  deviceApi2Local (deviceLocal2Api (LocalPrefix +:+ x)) = LocalPrefix +:+ x ∧
  (sameDevice (APIPrefix +:+ x) (APIPrefix +:+ y) = true ↔ x = y) ∧
  (sameDevice (APIPrefix +:+ x) (LocalPrefix +:+ y) = true ↔ x = y) ∧
  (sameDevice (LocalPrefix +:+ x) (LocalPrefix +:+ y) = true ↔ x = y).
Proof.
  intros Hx Hy. unfold sameDevice.
  rewrite !api2local_api, !local2api_local, !api2local_api, !api2local_local by done.
  assert (∀ a b, LocalPrefix +:+ a = LocalPrefix +:+ b ↔ a = b) as Hinj.
  { intros a b. split; [by intros [=]|by intros ->]. }
  rewrite !bool_decide_eq_true, !Hinj. done.
Qed.

(** C40: [getDiskByDevice] searches all pages: when the service lists an instance's
    disks in pages of fifty, it returns after at most one request per page, with
    the first disk of that device among all of them, or an error when there is
    none. *)
Theorem getDiskByDevice_all_pages fuel p instanceId disks device w :
  paged p instanceId disks w → Z.of_nat (length disks) < 2 ^ 32 →
  (length disks / 50 < fuel)%nat →
  ∃ t, getDiskByDevice fuel p instanceId device w = (Ret (device_result disks device), w, t) ∧
    one_per_page disks 1 t.
Proof.
  intros Hp Hlen Hf. pose proof (Nat.div_mod (length disks) 50 ltac:(lia)) as Hdm.
  pose proof (Nat.mod_upper_bound (length disks) 50 ltac:(lia)) as Hub.
  destruct (getDiskByDevice_loop_paged fuel p instanceId disks device 0 w Hp Hlen) as [t Ht]; [lia..|].
  by exists t.
Qed.

(** Volume names come back.  The name [GetVolumeName] answers, under any
    directory, is the disk [Detach] works on. *)
Theorem volume_name_roundtrip show_options p options dir (w : W) :
  let diskId := opt_string options "diskId" in
  diskId ≠ "" → slash ∉ str_to_list diskId →
  ∃ ve, GetVolumeName show_options p options w = (Ret ve, w, []) ∧
    ve_Status ve = StatusSuccess ∧ path_Base (dir +:+ "/" +:+ ve_VolumeName ve) = diskId.
Proof.
  intros diskId Hd Hs. unfold GetVolumeName. rewrite bool_decide_false by done. eexists.
  split; [done|]. split; [done|]. by apply path_Base_app.
Qed.

(** [MountDevice] whatever the host answers: it looks at the directory, creates
    it only when it is missing, and mounts at most once, with the flags and the file
    system of the options; the answer is a success exactly when the mount request
    was made and succeeded. *)
Theorem MountDevice_correct p dir device options (w : W) :
  ∃ ve w' t, MountDevice p dir device options w = (Ret ve, w', t) ∧
    ∃ missing,
      let stat := Ev (StatIsNotExist dir) missing in
      let mount r := Ev (FormatAndMount device dir (opt_string options OptionFSType) (mount_flags options)) r in
      let mkdir r := Ev (MkdirAll dir 488) r in
      (∃ r, t = stat :: (if (missing : bool) then [mkdir (Ok tt)] else []) ++ [mount r] ∧
         (ve_Status ve = StatusSuccess ↔ r = Ok tt)) ∨
      (∃ e, missing = true ∧ t = [stat; mkdir (Err e)] ∧ ve_Status ve = StatusFailure).
Proof.
  apply wp_returns. unfold MountDevice. rewrite wp_bind, wp_call.
  destruct (handle (StatIsNotExist dir) w) as [missing w1]. cbn [fst snd]. cbn beta iota.
  rewrite wp_bind.
  assert (∀ Q w2 t2, (∀ ve w' r, (ve_Status ve = StatusSuccess ↔ r = Ok tt) →
      Q (Ret ve) w' (t2 ++ [Ev (FormatAndMount device dir (opt_string options OptionFSType) (mount_flags options)) r])) →
    wp (r ← call (FormatAndMount device dir (opt_string options OptionFSType) (mount_flags options));
        match r with Err e => mret (NewVolumeError e []) | Ok _ => mret VolumeSuccess end)
       (λ o w' t, Q o w' (t2 ++ t)) w2) as Hmount.
  { intros Q w2 t2 HQ. rewrite wp_bind, wp_call.
    destruct (handle (FormatAndMount _ _ _ _) w2) as [[[]|e] w3]; simpl; rewrite wp_ret; by apply HQ. }
  destruct missing.
  - rewrite wp_call. destruct (handle (MkdirAll dir 488) w1) as [[[]|e] w2]; cbn [fst snd]; cbn beta iota.
    + eapply (Hmount (λ o w' t, returns _ o w' ([Ev (StatIsNotExist dir) true] ++ t)) w2 [_]).
      intros ve w' r Hr. simpl. exists true. left. eauto.
    + rewrite wp_ret. simpl. exists true. right. eauto.
  - rewrite wp_ret. eapply (Hmount (λ o w' t, returns _ o w' ([Ev (StatIsNotExist dir) false] ++ t)) w1 []).
    intros ve w' r Hr. simpl. exists false. left. eauto.
Qed.

End devices.

(** ** Witnesses *)

Module DeviceWitness.

Definition provider : AliyunProvider :=
  mkProvider "key" "secret" "cn-hangzhou" "cn-hangzhou-a" "vpc-1" "vrt-1" "vsw-1" "rtb-1" "i-1"
    "node-1" NodeNameTypeHostname.
Definition w0 : cloud := mkCloud ∅ [] ∅ ∅ [] 0.

(** Sixty disks on two pages; the device is on the second. *)
Definition disks : list DiskItemType :=
  replicate 59 (mkDiskItem "d-0" DiskStatusInUse "i-1" "/dev/xvda") ++
  [mkDiskItem "d-59" DiskStatusInUse "i-1" "/dev/xvdb"].

(** A cloud that lists them in pages of fifty. *)
Definition paging : Handler req cloud := λ R e w,
  match e in req R return R * cloud with
  | DescribeDisks a =>
      let n := Z.max 1 (pg_PageNumber (dd_Pagination a)) in
      (Ok (page disks n, mkPaginationResult (Z.of_nat (length disks)) n 50), w)
  | e => sim_handler _ e w
  end.

Lemma device_names_witness :
  deviceLocal2Api (deviceApi2Local "/dev/xvdb") = "/dev/xvdb" ∧
  deviceApi2Local (deviceLocal2Api "/dev/vdb") = "/dev/vdb" ∧
  (sameDevice "/dev/xvdb" "/dev/xvdc" = true ↔ "b" = "c") ∧
  (sameDevice "/dev/xvdb" "/dev/vdc" = true ↔ "b" = "c") ∧
  (sameDevice "/dev/vdb" "/dev/vdc" = true ↔ "b" = "c").
Proof.
  apply (device_names "b" "c"); apply (bool_decide_unpack _); vm_compute; exact I.
Defined.

Lemma getDiskByDevice_all_pages_witness :
  ∃ t, getDiskByDevice (Handler0:=paging) 2 provider "i-1" "/dev/vdb" w0 =
    (Ret (Ok (mkDiskItem "d-59" DiskStatusInUse "i-1" "/dev/xvdb")), w0, t) ∧
    one_per_page disks 1 t.
Proof.
  apply (getDiskByDevice_all_pages (Handler0:=paging) 2 provider "i-1" disks "/dev/vdb" w0).
  - intros n Hn. reflexivity.
  - vm_compute. reflexivity.
  - vm_compute. lia.
Defined.

Definition options : gmap string json := {[ "diskId" := JString "d-1" ]}.

Lemma volume_name_roundtrip_witness :
  ∃ ve, GetVolumeName (λ _, "") provider options w0 = (Ret ve, w0, []) ∧
    ve_Status ve = StatusSuccess ∧ path_Base ("/plugins" +:+ "/" +:+ ve_VolumeName ve) = "d-1".
Proof.
  apply (volume_name_roundtrip (λ _, "") provider options "/plugins" w0).
  - done.
  - apply (bool_decide_unpack _). vm_compute. exact I.
Defined.

End DeviceWitness.
