(* ===== verification/RoutesSpec.v ===== *)
(** * Theorems about routes and zones

    What [ListRoutes] lists, and that [CreateRoute] and [DeleteRoute] add and
    remove exactly the route they are given, against the laws of the VPC service. *)

From S2P Require Import Prelude GoStd Cloud Provider Instances InstancesSpec Routes SimCloud.

(** ** Specification *)

(** The node name of an instance, when it has one. *)
Definition node_name (p : AliyunProvider) (i : InstanceAttributesType) : option string :=
  if bool_decide (nodeNameType p = NodeNameTypePrivateIP) then head (i_PrivateIpAddress i)
  else Some (i_HostName i).

(** The route an entry of the table stands for: an entry to an instance that the
    account reports once. *)
Definition route_of (p : AliyunProvider) (insts : list InstanceAttributesType)
    (r : RouteEntrySetType) : option Route :=
  if bool_decide (re_NextHopType r = NextHopIntance) then
    match filter_instances insts (byInstanceId (re_InstanceId r)) with
    | [i] => n ← node_name p i; Some (mkRoute n (re_DestinationCidrBlock r))
    | _ => None
    end
  else None.

(** The zone in a description of the switches. *)
Definition zone_answer (p : AliyunProvider) (r : result (list VSwitchSetType * PaginationResult)) :
    result Zone :=
  match r with
  | Ok (vs :: _, _) => Ok (mkZone (vs_ZoneId vs) (region p))
  | Ok ([], _) => Err "Unable to get zone: <nil>"
  | Err e => Err ("Unable to get zone: " +:+ e)
  end.

Definition routes_query (p : AliyunProvider) : DescribeRouteTablesArgs :=
  mkDescribeRouteTablesArgs (vrouterID p) (routeTable p) (mkPagination 0 10).

(** The laws of the VPC service of an account whose route table [table] nobody else
    changes, with the instances [vpc_insts]. *)
Class VPC (W : Type) `{Handler req W} : Type := {
  vpc : W → string → list RouteEntrySetType;
  vpc_insts : W → list InstanceAttributesType;
  vpc_instances : ∀ w args, ∃ pr w', handle (DescribeInstances args) w = (Ok (vpc_insts w, pr), w') ∧
    vpc w' = vpc w ∧ vpc_insts w' = vpc_insts w;
  vpc_describe : ∀ w args, ∃ t pr w', handle (DescribeRouteTables args) w = (Ok ([t], pr), w') ∧
    rt_RouteEntry t = vpc w (drt_RouteTableId args) ∧ vpc w' = vpc w ∧ vpc_insts w' = vpc_insts w;
  vpc_create : ∀ w args,
    (∀ r, r ∈ vpc w (rea_RouteTableId args) → re_DestinationCidrBlock r ≠ rea_DestinationCidrBlock args) →
    ∃ w', handle (CreateRouteEntry args) w = (Ok tt, w') ∧ vpc_insts w' = vpc_insts w ∧
      vpc w' (rea_RouteTableId args) = vpc w (rea_RouteTableId args) ++
        [mkRouteEntry (rea_DestinationCidrBlock args) NextHopIntance (rea_NextHopId args)];
  vpc_delete : ∀ w args,
    ∃ w', handle (DeleteRouteEntry args) w = (Ok tt, w') ∧ vpc_insts w' = vpc_insts w ∧
      vpc w' (rea_RouteTableId args) =
        base.filter (λ r, ¬ (re_DestinationCidrBlock r = rea_DestinationCidrBlock args ∧
                             re_InstanceId r = rea_NextHopId args)) (vpc w (rea_RouteTableId args))
}.

Lemma byInstanceId_true id i : byInstanceId id i = true ↔ i_InstanceId i = id.
Proof. unfold byInstanceId. apply bool_decide_eq_true. Qed.

(** With distinct instance ids, an id finds its instance. *)
Lemma filter_by_id insts i :
  NoDup (i_InstanceId <$> insts) → i ∈ insts →
  filter_instances insts (byInstanceId (i_InstanceId i)) = [i].
Proof.
  intros Hnd (l1 & l2 & ->)%list_elem_of_split. apply filter_instances_one. exists l1, l2.
  split_and!; [done|by apply byInstanceId_true|]. intros j Hj Hb%byInstanceId_true.
  rewrite fmap_app, fmap_cons in Hnd. apply NoDup_app in Hnd as (_ & H1 & [H2 _]%NoDup_cons).
  rewrite elem_of_app in Hj. destruct Hj as [Hj|Hj].
  - apply (H1 (i_InstanceId j)); [by apply list_elem_of_fmap_2|]. rewrite Hb. by left.
  - apply H2. rewrite <- Hb. by apply list_elem_of_fmap_2.
Qed.

Section routes_spec.
Context {W : Type} `{!Handler req W}.
Implicit Types (w : W).

Lemma mapInstanceToNodeName_run p i w n :
  node_name p i = Some n → mapInstanceToNodeName p i w = (Ret n, w, []).
Proof.
  unfold node_name, mapInstanceToNodeName. case_bool_decide; [|by intros [= ->]].
  destruct (i_PrivateIpAddress i); by intros [= ->].
Qed.

(** ** Listing *)

(** Every instance has an address. *)
Definition all_named (p : AliyunProvider) (insts : list InstanceAttributesType) : Prop :=
  ∀ i, i ∈ insts → is_Some (node_name p i).

Lemma list_entries_run p insts entries w :
  all_named p insts →
  list_entries p insts entries w = (Ret (omap (route_of p insts) entries), w, []).
Proof.
  intros Hn. induction entries as [|r entries IH]; [done|]. simpl. unfold route_of at 1.
  destruct (decide (re_NextHopType r = NextHopIntance)) as [Ht|Ht].
  2:{ rewrite bool_decide_true, bool_decide_false by done. apply IH. }
  rewrite bool_decide_false, bool_decide_true by tauto.
  destruct (filter_instances insts _) as [|i [|j l]] eqn:Hf; [apply IH| |apply IH].
  assert (i ∈ insts) as Hi.
  { apply (filter_instances_elem _ (byInstanceId (re_InstanceId r))). rewrite Hf. by left. }
  destruct (Hn i Hi) as [n Hni]. rewrite Hni. simpl.
  unfold mbind, M_bind. rewrite (mapInstanceToNodeName_run _ _ _ _ Hni). simpl. by rewrite IH.
Qed.

Lemma list_tables_run p insts tables w :
  all_named p insts →
  list_tables p insts tables w =
    (Ret (tables ≫= λ t, omap (route_of p insts) (rt_RouteEntry t)), w, []).
Proof.
  intros Hn. induction tables as [|t tables IH]; [done|]. simpl.
  unfold mbind at 1 2, M_bind at 1 2. rewrite list_entries_run by done. by rewrite IH.
Qed.

(** ** Against the laws *)

Context `{!VPC W}.

Lemma reported_vpc p w : ∃ pr, reported_instances p w = Ok (vpc_insts w, pr).
Proof.
  unfold reported_instances. destruct (vpc_instances w (instances_query p)) as (pr & w' & -> & _). eauto.
Qed.

Lemma wp_ListRoutes p clusterName w :
  all_named p (vpc_insts w) →
  wp (ListRoutes p clusterName) (returns (λ r w' _,
    r = Ok (omap (route_of p (vpc_insts w)) (vpc w (routeTable p))) ∧
    vpc w' = vpc w ∧ vpc_insts w' = vpc_insts w)) w.
Proof.
  intros Hn. unfold ListRoutes, bind_ok. rewrite wp_bind.
  unfold wp at 1, outcome_of at 1, world_of at 1, trace_of at 1. rewrite getInstances_run.
  destruct (reported_vpc p w) as [pr ->]. simpl.
  destruct (vpc_instances w (instances_query p)) as (pr' & w1 & -> & Hv1 & Hi1). simpl.
  rewrite wp_bind, wp_call. change (mkDescribeRouteTablesArgs _ _ _) with (routes_query p).
  destruct (vpc_describe w1 (routes_query p)) as (t & pr2 & w2 & -> & Ht & Hv2 & Hi2).
  cbn [fst snd]. cbn beta iota.
  rewrite wp_bind. unfold wp at 1, outcome_of at 1, world_of at 1, trace_of at 1.
  rewrite list_tables_run by done. simpl. rewrite wp_ret. simpl. rewrite app_nil_r, Ht. simpl.
  by rewrite Hv2, Hv1, Hi2, Hi1.
Qed.

Lemma wp_getInstance_vpc p nodeName i Q w :
  only_named p nodeName (vpc_insts w) i →
  (∀ w' t, vpc w' = vpc w → vpc_insts w' = vpc_insts w → Q (Ret (Ok i)) w' t) →
  wp (getInstanceByNodeName p nodeName) Q w.
Proof.
  intros Hi HQ. unfold wp, outcome_of, world_of, trace_of. rewrite getInstanceByNodeName_run.
  destruct (reported_vpc p w) as [pr ->]. simpl. apply lookup_one_ok in Hi. rewrite Hi.
  destruct (vpc_instances w (instances_query p)) as (pr' & w1 & -> & ? & ?). by apply HQ.
Qed.

Lemma wp_CreateRoute p clusterName nameHint route i w :
  only_named p (r_TargetNode route) (vpc_insts w) i →
  (∀ r, r ∈ vpc w (routeTable p) → re_DestinationCidrBlock r ≠ r_DestinationCIDR route) →
  wp (CreateRoute p clusterName nameHint route) (returns (λ r w' _, r = Ok tt ∧
    vpc_insts w' = vpc_insts w ∧
    vpc w' (routeTable p) = vpc w (routeTable p) ++
      [mkRouteEntry (r_DestinationCIDR route) NextHopIntance (i_InstanceId i)])) w.
Proof.
  intros Hi Hnew. unfold CreateRoute, bind_ok. rewrite wp_bind.
  eapply wp_getInstance_vpc; [exact Hi|]. intros w1 t1 Hv1 Hi1. rewrite wp_call.
  set (args := mkRouteEntryArgs _ _ _). destruct (vpc_create w1 args) as (w2 & -> & Hi2 & Hv2).
  - simpl. by rewrite Hv1.
  - simpl in *. rewrite Hv2, Hi2, Hv1, Hi1. done.
Qed.

Lemma wp_DeleteRoute p clusterName route i w :
  only_named p (r_TargetNode route) (vpc_insts w) i →
  wp (DeleteRoute p clusterName route) (returns (λ r w' _, r = Ok tt ∧
    vpc_insts w' = vpc_insts w ∧
    vpc w' (routeTable p) =
      base.filter (λ r, ¬ (re_DestinationCidrBlock r = r_DestinationCIDR route ∧
                           re_InstanceId r = i_InstanceId i)) (vpc w (routeTable p)))) w.
Proof.
  intros Hi. unfold DeleteRoute, bind_ok. rewrite wp_bind.
  eapply wp_getInstance_vpc; [exact Hi|]. intros w1 t1 Hv1 Hi1. rewrite wp_call.
  set (args := mkRouteEntryArgs _ _ _). destruct (vpc_delete w1 args) as (w2 & -> & Hi2 & Hv2).
  simpl in *. rewrite Hv2, Hi2, Hv1, Hi1. done.
Qed.

(** ** Theorems *)


(** A created route is listed.  After [CreateRoute] for a node of the account
    and a destination the table does not have, [ListRoutes] lists what it listed
    before and then that route. *)
Theorem CreateRoute_lists p clusterName nameHint route i w :
  all_named p (vpc_insts w) → NoDup (i_InstanceId <$> vpc_insts w) →
  only_named p (r_TargetNode route) (vpc_insts w) i → node_name p i = Some (r_TargetNode route) →
  (∀ r, r ∈ vpc w (routeTable p) → re_DestinationCidrBlock r ≠ r_DestinationCIDR route) →
  ∃ w1 t1 w2 t2,
    CreateRoute p clusterName nameHint route w = (Ret (Ok tt), w1, t1) ∧
    ListRoutes p clusterName w1 =
      (Ret (Ok (omap (route_of p (vpc_insts w)) (vpc w (routeTable p)) ++ [route])), w2, t2).
Proof.
  intros Hn Hnd Hi Hname Hnew.
  destruct (wp_returns _ _ _ (wp_CreateRoute p clusterName nameHint route i w Hi Hnew))
    as (r & w1 & t1 & Hm1 & -> & Hi1 & Hv1).
  destruct (wp_returns _ _ _ (wp_ListRoutes p clusterName w1 ltac:(by rewrite Hi1)))
    as (r & w2 & t2 & Hm2 & -> & _ & _).
  exists w1, t1, w2, t2. split; [done|]. rewrite Hm2, Hi1, Hv1, omap_app.
  assert (i ∈ vpc_insts w) as Hin.
  { destruct Hi as (l1 & l2 & -> & _). rewrite elem_of_app, elem_of_cons. auto. }
  simpl. unfold route_of at 2. simpl. rewrite filter_by_id, Hname by done. by destruct route.
Qed.

(** [DeleteRoute] undoes [CreateRoute]: after both, the table is as before. *)
Theorem CreateRoute_DeleteRoute p clusterName nameHint route i w :
  only_named p (r_TargetNode route) (vpc_insts w) i →
  (∀ r, r ∈ vpc w (routeTable p) → re_DestinationCidrBlock r ≠ r_DestinationCIDR route) →
  ∃ w1 t1 w2 t2,
    CreateRoute p clusterName nameHint route w = (Ret (Ok tt), w1, t1) ∧
    DeleteRoute p clusterName route w1 = (Ret (Ok tt), w2, t2) ∧
    vpc w2 (routeTable p) = vpc w (routeTable p).
Proof.
  intros Hi Hnew.
  destruct (wp_returns _ _ _ (wp_CreateRoute p clusterName nameHint route i w Hi Hnew))
    as (r & w1 & t1 & Hm1 & -> & Hi1 & Hv1).
  destruct (wp_returns _ _ _ (wp_DeleteRoute p clusterName route i w1 ltac:(by rewrite Hi1)))
    as (r & w2 & t2 & Hm2 & -> & _ & Hv2).
  exists w1, t1, w2, t2. split_and!; [done..|]. rewrite Hv2, Hv1, filter_app.
  rewrite filter_cons_False by tauto. rewrite app_nil_r.
  rewrite (filter_ext_elem _ (λ _, True)).
  - clear. by induction (vpc w (routeTable p)) as [|r l IH]; [done|]; rewrite filter_cons_True, IH.
  - intros x Hx. split; [done|]. intros _ [? _]. by apply (Hnew x).
Qed.

(** [GetZone] whatever the cloud answers: one read request; the zone is that of
    the first switch the service describes, in the provider's region, and an error
    or an empty answer is an error. *)
Theorem GetZone_correct p w :
  ∃ args r w', GetZone p w =
      (Ret (zone_answer p r), w', [Ev (DescribeVSwitches args) r]) ∧
    dv_VpcId args = vpcID p ∧ dv_VSwitchId args = vswitch p.
Proof.
  unfold GetZone, mbind, M_bind, call. set (args := mkDescribeVSwitchesArgs _ _ _).
  exists args, (handle (DescribeVSwitches args) w).1, (handle (DescribeVSwitches args) w).2.
  split; [|done].
  destruct (handle (DescribeVSwitches args) w) as [[[[|vs l] pr]|e] w']; simpl; [done..|].
  unfold Sprintf. simpl. by rewrite str_app_nil_r.
Qed.

End routes_spec.

(** ** The in-memory cloud obeys the laws *)

#[export, refine] Instance sim_vpc : VPC cloud :=
  {| vpc w table := default [] (c_routes w !! table); vpc_insts := c_instances |}.
Proof.
  - intros w args. eexists _, w. by split_and!.
  - intros w args. eexists _, _, w. by split_and!.
  - intros w args Hnew. eexists. split; [|split].
    + unfold handle, sim_handler.
      destruct (existsb _ _) eqn:He; [|reflexivity].
      apply existsb_exists in He as (r & Hr%list_elem_of_In & Hd%bool_decide_eq_true).
      by destruct (Hnew r Hr).
    + done.
    + simpl. by rewrite lookup_insert_eq.
  - intros w args. eexists. split; [reflexivity|]. split; [done|]. simpl. by rewrite lookup_insert_eq.
Defined.

(** ** Witnesses *)

Module RouteWitness.

Definition i1 : InstanceAttributesType := mkInstance "i-1" "node-1" ["10.0.0.1"].
Definition i2 : InstanceAttributesType := mkInstance "i-2" "node-2" ["10.0.0.2"].
Definition provider : AliyunProvider :=
  mkProvider "key" "secret" "cn-hangzhou" "cn-hangzhou-a" "vpc-1" "vrt-1" "vsw-1" "rtb-1" "i-1"
    "node-1" NodeNameTypePrivateIP.
(** A table with a route to an instance, one to a gateway and one to an instance
    that is gone. *)
Definition entries : list RouteEntrySetType :=
  [mkRouteEntry "172.16.1.0/24" "Instance" "i-1"; mkRouteEntry "172.16.2.0/24" "Tunnel" "t-1";
   mkRouteEntry "172.16.3.0/24" "Instance" "i-9"].
Definition w0 : cloud := mkCloud ∅ [i1; i2] {[ "rtb-1" := entries ]} ∅ [] 0.
Definition route : Route := mkRoute "10.0.0.2" "172.16.4.0/24".

Lemma named_all : all_named provider [i1; i2].
Proof.
  intros i Hi. rewrite !elem_of_cons, elem_of_nil in Hi.
  destruct Hi as [->|[->|[]]]; by eexists.
Qed.

Lemma route_target : only_named provider "10.0.0.2" [i1; i2] i2.
Proof. apply filter_one_only_named. reflexivity. Qed.

Lemma destination_new : ∀ r, r ∈ entries → re_DestinationCidrBlock r ≠ "172.16.4.0/24".
Proof. refine (proj1 (Forall_forall _ _) _). apply (bool_decide_unpack _). vm_compute. exact I. Qed.

(** Only the first entry is a route of the cluster. *)
Lemma listed_before :
  omap (route_of provider (vpc_insts w0)) (vpc w0 (routeTable provider)) =
    [mkRoute "10.0.0.1" "172.16.1.0/24"].
Proof. vm_compute. reflexivity. Qed.


Lemma CreateRoute_lists_witness :
  ∃ w1 t1 w2 t2,
    CreateRoute provider "cluster" "hint" route w0 = (Ret (Ok tt), w1, t1) ∧
    ListRoutes provider "cluster" w1 =
      (Ret (Ok ([mkRoute "10.0.0.1" "172.16.1.0/24"] ++ [route])), w2, t2).
Proof.
  rewrite <- listed_before.
  apply (CreateRoute_lists provider "cluster" "hint" route i2 w0).
  - apply named_all.
  - apply (bool_decide_unpack _). vm_compute. exact I.
  - apply route_target.
  - reflexivity.
  - apply destination_new.
Defined.

Lemma CreateRoute_DeleteRoute_witness :
  ∃ w1 t1 w2 t2,
    CreateRoute provider "cluster" "hint" route w0 = (Ret (Ok tt), w1, t1) ∧
    DeleteRoute provider "cluster" route w1 = (Ret (Ok tt), w2, t2) ∧
    vpc w2 "rtb-1" = vpc w0 "rtb-1".
Proof.
  apply (CreateRoute_DeleteRoute provider "cluster" "hint" route i2 w0).
  - apply route_target.
  - apply destination_new.
Defined.

End RouteWitness.
