(* ===== verification/NetSpec.v ===== *)
(** * Theorems about addresses and blocks

    What [ParseCIDR] accepts is well formed; it reads back the dotted form of a
    block; and [Contains], which compares masked bytes, decides the numeric
    interval of the block. *)

From S2P Require Import Prelude GoStd Net.

(** ** Bytes and values *)

Definition is_byte (b : Z) : Prop := 0 ≤ b < 256.

#[export] Instance is_byte_dec b : Decision (is_byte b).
Proof. unfold is_byte. apply _. Defined.

(** The number an address stands for, most significant byte first. *)
Fixpoint value (ip : list Z) : Z :=
  match ip with
  | [] => 0
  | b :: ip' => b * 2 ^ (8 * Z.of_nat (length ip')) + value ip'
  end.

Lemma value_bound ip : Forall is_byte ip → 0 ≤ value ip < 2 ^ (8 * Z.of_nat (length ip)).
Proof.
  induction 1 as [|b ip Hb _ IH]; simpl; [lia|]. unfold is_byte in Hb.
  replace (8 * Z.of_nat (S (length ip))) with (8 + 8 * Z.of_nat (length ip)) by lia.
  rewrite Z.pow_add_r by lia. nia.
Qed.

(** The size of a block of [k] bytes with [ones] mask bits. *)
Definition block_size (ones : Z) (k : nat) : Z := 2 ^ (8 * Z.of_nat k - ones).

(** ** One byte of a mask *)

(** The mask byte with [ones] leading ones is the complement of the low bits. *)
Lemma land_mask_byte b ones :
  is_byte b → 0 ≤ ones ≤ 8 →
  Z.land b (255 - (2 ^ (8 - ones) - 1)) = b / 2 ^ (8 - ones) * 2 ^ (8 - ones).
Proof.
  intros Hb Ho. unfold is_byte in Hb.
  destruct (Z_of_nat_complete b ltac:(lia)) as [n ->].
  destruct (Z_of_nat_complete ones ltac:(lia)) as [k ->].
  assert (n ∈ seq 0 256) as Hin by (rewrite elem_of_seq; lia).
  assert (k ∈ seq 0 9) as Hik by (rewrite elem_of_seq; lia). clear Hb Ho.
  revert n Hin k Hik.
  assert (Forall (λ n, Forall (λ k, Z.land (Z.of_nat n) (255 - (2 ^ (8 - Z.of_nat k) - 1)) =
    Z.of_nat n / 2 ^ (8 - Z.of_nat k) * 2 ^ (8 - Z.of_nat k)) (seq 0 9)) (seq 0 256)) as Hall.
  { apply (bool_decide_unpack _). vm_compute. exact I. }
  rewrite Forall_forall in Hall. intros n Hn k Hk. specialize (Hall n Hn). rewrite Forall_forall in Hall.
  by apply Hall.
Qed.

Lemma mul_div_inj a b s : 0 ≤ s → a / 2 ^ s * 2 ^ s = b / 2 ^ s * 2 ^ s ↔ a / 2 ^ s = b / 2 ^ s.
Proof. intros Hs. assert (0 < 2 ^ s) by lia. split; [nia|by intros ->]. Qed.

(** Division of a value splits at the first byte. *)
Lemma div_cons b v k s :
  0 ≤ s ≤ k → 0 ≤ v < 2 ^ k →
  (b * 2 ^ k + v) / 2 ^ s = b * 2 ^ (k - s) + v / 2 ^ s ∧ 0 ≤ v / 2 ^ s < 2 ^ (k - s).
Proof.
  intros Hs Hv. replace (2 ^ k) with (2 ^ (k - s) * 2 ^ s) in * by (rewrite <- Z.pow_add_r by lia; f_equal; lia).
  assert (0 < 2 ^ s) by lia. rewrite Z.mul_assoc, Z.div_add_l by lia. split; [done|]. split.
  - apply Z.div_pos; lia.
  - apply Z.div_lt_upper_bound; lia.
Qed.

Lemma div_cons_high b v k s :
  0 ≤ k ≤ s → 0 ≤ v < 2 ^ k → (b * 2 ^ k + v) / 2 ^ s = b / 2 ^ (s - k).
Proof.
  intros Hs Hv. replace (2 ^ s) with (2 ^ k * 2 ^ (s - k)) by (rewrite <- Z.pow_add_r by lia; f_equal; lia).
  rewrite <- Z.div_div by lia. rewrite Z.div_add_l, (Z.div_small v) by lia. f_equal. lia.
Qed.

Lemma CIDRMask_length ones k : length (CIDRMask ones k) = k.
Proof. revert ones. induction k as [|k IH]; intros ones; simpl; [done|]. by rewrite IH. Qed.

(** A mask without ones compares nothing. *)
Lemma same_network_nil x y ones k : ones ≤ 0 → same_network x (CIDRMask ones k) y = true.
Proof.
  revert ones x y. induction k as [|k IH]; intros ones x y Ho; [by destruct x|].
  destruct x as [|a x]; [done|]. destruct y as [|b y]; [done|]. simpl.
  rewrite (bool_decide_false (8 <= ones)), (bool_decide_true (ones <= 0)) by lia.
  rewrite !Z.land_0_r, bool_decide_true by done. apply IH. lia.
Qed.

(** The byte-wise comparison is a comparison of the leading bits. *)
Lemma same_network_div x y ones k :
  Forall is_byte x → Forall is_byte y → length x = k → length y = k →
  0 ≤ ones ≤ 8 * Z.of_nat k →
  same_network x (CIDRMask ones k) y = true ↔
    value x / block_size ones k = value y / block_size ones k.
Proof.
  unfold block_size. intros Hx. revert y ones k. induction Hx as [|a x Ha Hx IH]; intros y ones k Hy Hlx Hly Ho.
  { simpl in Hlx. subst k. destruct y; done. }
  destruct Hy as [|b y Hb Hy]; [simpl in *; lia|]. destruct k as [|k]; [done|].
  injection Hlx as Hlx. injection Hly as Hly.
  pose proof (value_bound x Hx) as Bx. pose proof (value_bound y Hy) as By. rewrite Hlx in Bx. rewrite Hly in By.
  simpl value. rewrite Hlx, Hly. simpl same_network. rewrite andb_true_iff, bool_decide_eq_true.
  case_bool_decide as H8.
  - rewrite !Z.land_ones with (n := 8) by lia. change (2 ^ 8) with 256.
    unfold is_byte in *. rewrite !Z.mod_small by lia.
    replace (8 * Z.of_nat (S k) - ones) with (8 * Z.of_nat k - (ones - 8)) by lia.
    rewrite (IH y (ones - 8) k) by (done || lia).
    destruct (div_cons a (value x) (8 * Z.of_nat k) (8 * Z.of_nat k - (ones - 8))) as [-> Hvx]; [lia..|].
    destruct (div_cons b (value y) (8 * Z.of_nat k) (8 * Z.of_nat k - (ones - 8))) as [-> Hvy]; [lia..|].
    split; [by intros [-> ->]|]. intros Heq. assert (a = b) as -> by nia. split; [done|nia].
  - rewrite same_network_nil by lia.
    case_bool_decide as H0.
    + rewrite !Z.land_0_r. assert (ones = 0) as -> by lia.
      rewrite !div_cons_high by lia. rewrite Z.sub_0_r.
      replace (8 * Z.of_nat (S k) - 8 * Z.of_nat k) with 8 by lia.
      unfold is_byte in *. rewrite !Z.div_small by (change (2 ^ 8) with 256; lia). tauto.
    + rewrite !land_mask_byte by (done || lia). rewrite mul_div_inj by lia.
      rewrite !div_cons_high by lia.
      replace (8 * Z.of_nat (S k) - ones - 8 * Z.of_nat k) with (8 - ones) by lia. tauto.
Qed.

(** ** Blocks as intervals *)

(** A block of [k] bytes: a base address of bytes under a prefix mask. *)
Definition block (ones : Z) (k : nat) (n : IPNet) : Prop :=
  0 ≤ ones ≤ 8 * Z.of_nat k ∧ length (net_IP n) = k ∧ Forall is_byte (net_IP n) ∧
  net_Mask n = CIDRMask ones k ∧ value (net_IP n) mod block_size ones k = 0.

Lemma block_size_pos ones k : ones ≤ 8 * Z.of_nat k → 0 < block_size ones k.
Proof. intros. unfold block_size. lia. Qed.

(** [Contains] on four-byte blocks and addresses decides the interval. *)
Lemma Contains_interval ones n ip :
  block ones IPv4len n → length ip = IPv4len → Forall is_byte ip →
  Contains n ip = true ↔
    value (net_IP n) ≤ value ip < value (net_IP n) + block_size ones IPv4len.
Proof.
  intros (Ho & Hl & Hb & Hm & H0) Hlip Hip.
  assert (∀ l, length l = IPv4len → To4 l = Some l) as H4
    by (intros l Hll; unfold To4; by rewrite bool_decide_true).
  assert (networkNumberAndMask n = Some (net_IP n, CIDRMask ones IPv4len)) as Hnm.
  { unfold networkNumberAndMask. rewrite H4 by done. simpl. rewrite Hm, CIDRMask_length, Hl. done. }
  unfold Contains. rewrite Hnm, H4 by done. unfold default, id.
  rewrite bool_decide_true by congruence. rewrite andb_true_l, same_network_div by done.
  pose proof (block_size_pos ones IPv4len ltac:(lia)) as Hp.
  pose proof (Z.div_mod (value (net_IP n)) (block_size ones IPv4len) ltac:(lia)) as Hn.
  pose proof (Z.div_mod (value ip) (block_size ones IPv4len) ltac:(lia)) as Hi.
  pose proof (Z.mod_pos_bound (value ip) (block_size ones IPv4len) ltac:(lia)) as Hbd.
  rewrite H0 in Hn. split.
  - intros Heq. rewrite Heq in Hn. lia.
  - intros Hin. apply (Z.div_unique_pos _ _ _ (value ip - value (net_IP n))); lia.
Qed.

(** The masked address is the start of its block. *)
Lemma value_masked ip ones k :
  Forall is_byte ip → length ip = k → 0 ≤ ones ≤ 8 * Z.of_nat k →
  Forall is_byte (and_bytes ip (CIDRMask ones k)) ∧
  value (and_bytes ip (CIDRMask ones k)) = value ip / block_size ones k * block_size ones k.
Proof.
  unfold block_size, and_bytes. intros Hip. revert ones k.
  induction Hip as [|b ip Hb Hip IH]; intros ones k Hl Ho; [simpl in Hl; subst; simpl; by split|].
  destruct k as [|k]; [done|]. injection Hl as Hl. simpl.
  assert (length (zip_with Z.land ip (CIDRMask (ones - 8) k)) = k) as Hlz
    by (rewrite length_zip_with, CIDRMask_length; lia).
  pose proof (value_bound ip Hip) as Bip. rewrite Hl in Bip. rewrite Hlz, Hl, Forall_cons.
  case_bool_decide as H8.
  - destruct (IH (ones - 8) k Hl ltac:(lia)) as [IHb ->]. rewrite Z.land_ones with (n := 8) by lia.
    change (2 ^ 8) with 256. unfold is_byte in Hb |- *. rewrite Z.mod_small by lia. split; [by split|].
    replace (8 * Z.of_nat (S k) - ones) with (8 * Z.of_nat k - (ones - 8)) by lia.
    destruct (div_cons b (value ip) (8 * Z.of_nat k) (8 * Z.of_nat k - (ones - 8))) as [-> _]; [lia..|].
    rewrite Z.mul_add_distr_r, <- Z.mul_assoc, <- Z.pow_add_r by lia. do 3 f_equal. lia.
  - assert (∀ l o, o ≤ 0 → Forall is_byte (zip_with Z.land l (CIDRMask o k)) ∧
        value (zip_with Z.land l (CIDRMask o k)) = 0) as Hz.
    { clear. induction k as [|k IH]; intros [|c l] o Ho; simpl; try by split.
      rewrite (bool_decide_false (8 <= o)), (bool_decide_true (o <= 0)), Z.land_0_r by lia.
      destruct (IH l (o - 8) ltac:(lia)) as [H1 ->]. split; [by constructor|done]. }
    destruct (Hz ip (ones - 8) ltac:(lia)) as [Hz1 ->]. rewrite div_cons_high by lia.
    case_bool_decide as H0.
    + assert (ones = 0) as -> by lia. rewrite Z.land_0_r. split; [by split|].
      replace (8 * Z.of_nat (S k) - 0 - 8 * Z.of_nat k) with 8 by lia. unfold is_byte in Hb.
      by rewrite Z.div_small by (change (2 ^ 8) with 256; lia).
    + rewrite land_mask_byte by (done || lia).
      replace (8 * Z.of_nat (S k) - ones - 8 * Z.of_nat k) with (8 - ones) by lia. split.
      * split; [|done]. unfold is_byte in *. assert (0 < 2 ^ (8 - ones)) by lia.
        pose proof (Z.mul_div_le b (2 ^ (8 - ones)) ltac:(lia)).
        pose proof (Z.div_pos b (2 ^ (8 - ones)) ltac:(lia) ltac:(lia)). nia.
      * rewrite Z.add_0_r, <- Z.mul_assoc, <- Z.pow_add_r by lia. do 2 f_equal. lia.
Qed.

(** ** What the parsers accept *)

Lemma scan_digits_nonneg val base n i s v j rest :
  (∀ c d, val c = Some d → 0 ≤ d) → 0 ≤ base → 0 ≤ n →
  scan_digits val base n i s = Some (v, j, rest) → 0 ≤ v.
Proof.
  intros Hval Hbase. revert n i. induction s as [|c s IH]; intros n i Hn; simpl; [by intros [= <- _ _]|].
  destruct (val c) as [d|] eqn:Hc; [|by intros [= <- _ _]].
  case_bool_decide; [done|]. apply IH. specialize (Hval c d Hc). nia.
Qed.

Lemma digit_val_nonneg c d : digit_val c = Some d → 0 ≤ d.
Proof.
  unfold digit_val. cbv zeta. destruct (_ && _) eqn:Hc; [|done]. intros [= <-].
  apply andb_true_iff in Hc as [H1 H2]. lia.
Qed.

Lemma hex_digit_val_nonneg c d : hex_digit_val c = Some d → 0 ≤ d.
Proof.
  unfold hex_digit_val. cbv zeta.
  repeat (destruct (_ && _) eqn:Hc; [intros [= <-]; apply andb_true_iff in Hc as [H1 H2]; lia|clear Hc]). done.
Qed.

Lemma number_nonneg val base s n rest :
  (∀ c d, val c = Some d → 0 ≤ d) → 0 ≤ base → number val base s = Some (n, rest) → 0 ≤ n.
Proof.
  unfold number. intros Hval Hbase. destruct (scan_digits _ _ _ _ _) as [[[v j] rest']|] eqn:Hs; [|done].
  destruct j; [done|]. intros [= -> _]. eapply scan_digits_nonneg; [done..| |done]. lia.
Qed.

Lemma dtoi_nonneg s n rest : dtoi s = Some (n, rest) → 0 ≤ n.
Proof. apply number_nonneg; [apply digit_val_nonneg|lia]. Qed.

Lemma xtoi_nonneg s n rest : xtoi s = Some (n, rest) → 0 ≤ n.
Proof. apply number_nonneg; [apply hex_digit_val_nonneg|lia]. Qed.

Lemma ipv4_numbers_bytes k first s ps :
  ipv4_numbers k first s = Some ps → Forall is_byte ps ∧ length ps = k.
Proof.
  revert first s ps. induction k as [|k IH]; intros first s ps; [by destruct s; intros [= <-]|].
  cbn [ipv4_numbers]. intros (s' & _ & Hk)%bind_Some.
  apply bind_Some in Hk as ([n rest] & Hd & Hk). case_bool_decide as Hn; [done|].
  apply bind_Some in Hk as (ps' & (IH1 & IH2)%IH & [= <-]). apply dtoi_nonneg in Hd.
  split; [constructor; [unfold is_byte; lia|done]|]. simpl. by rewrite IH2.
Qed.

Lemma parseIPv4_ok s ip :
  parseIPv4 s = Some ip → ∃ ps, ip = v4InV6Prefix ++ ps ∧ Forall is_byte ps ∧ length ps = IPv4len.
Proof.
  unfold parseIPv4. intros (ps & Hps%ipv4_numbers_bytes & [= <-])%bind_Some. exists ps. naive_solver.
Qed.

Lemma expand_ellipsis_ok ip e ip' :
  Forall is_byte ip → (length ip ≤ IPv6len)%nat →
  expand_ellipsis ip e = Some ip' → Forall is_byte ip' ∧ length ip' = IPv6len.
Proof.
  intros Hip Hl. unfold expand_ellipsis. case_bool_decide as Hlt.
  - intros (k & -> & [= <-])%bind_Some. split.
    + rewrite !Forall_app. split_and!; [by apply Forall_take| |by apply Forall_drop].
      apply Forall_replicate. unfold is_byte. lia.
    + rewrite !length_app, length_take, length_replicate, length_drop. lia.
  - destruct e; [done|]. intros [= <-]. split; [done|lia].
Qed.

(** A 16-bit group as two bytes. *)
Lemma group_bytes n : 0 ≤ n ≤ 65535 → Forall is_byte [Z.shiftr n 8; Z.land n 255].
Proof.
  intros Hn. rewrite Z.shiftr_div_pow2, Z.land_ones with (n := 8) by lia. change (2 ^ 8) with 256.
  repeat constructor; unfold is_byte.
  - apply Z.div_pos; lia.
  - apply Z.div_lt_upper_bound; lia.
  - apply Z.mod_pos_bound; lia.
  - apply Z.mod_pos_bound; lia.
Qed.

Lemma ipv6_groups_ok rounds ip e s ip' :
  Forall is_byte ip → (length ip + 2 * rounds = IPv6len)%nat →
  ipv6_groups rounds ip e s = Some ip' → Forall is_byte ip' ∧ length ip' = IPv6len.
Proof.
  revert ip e s. induction rounds as [|rounds IH]; intros ip e s Hip Hl; cbn [ipv6_groups].
  { destruct s; [|done]. apply expand_ellipsis_ok; [done|lia]. }
  intros ([n rest] & Hx%xtoi_nonneg & Hk)%bind_Some. case_bool_decide as Hn; [done|].
  assert (Forall is_byte (ip ++ [Z.shiftr n 8; Z.land n 255])) as Hip2
    by (apply Forall_app; split; [done|]; apply group_bytes; lia).
  assert (length (ip ++ [Z.shiftr n 8; Z.land n 255]) + 2 * rounds = IPv6len)%nat as Hl2
    by (rewrite length_app; simpl; lia).
  destruct rest as [|c rest]; [revert Hk; apply expand_ellipsis_ok; [done|lia]|].
  case_bool_decide; [|].
  - case_bool_decide; [done|]. case_bool_decide as Hroom; [done|].
    apply bind_Some in Hk as (ip4 & (ps & -> & Hps & Hlps)%parseIPv4_ok & Hk).
    rewrite drop_app_length' in Hk by done. revert Hk. apply expand_ellipsis_ok.
    + by apply Forall_app.
    + rewrite length_app, Hlps. unfold IPv4len. lia.
  - case_bool_decide; [done|]. destruct rest as [|c' rest]; [done|]. case_bool_decide; [|by eapply IH].
    destruct e; [done|]. destruct rest; [|by eapply IH]. revert Hk. apply expand_ellipsis_ok; [done|lia].
Qed.

Lemma parseIPv6_ok s ip : parseIPv6 s = Some ip → Forall is_byte ip ∧ length ip = IPv6len.
Proof.
  assert (∀ s e, ipv6_groups 8 [] e s = Some ip → Forall is_byte ip ∧ length ip = IPv6len) as Hg.
  { intros s' e. by apply ipv6_groups_ok. }
  assert (Forall is_byte (replicate IPv6len 0) ∧ length (replicate IPv6len 0) = IPv6len) as H0
    by (split; [apply Forall_replicate; unfold is_byte; lia|done]).
  unfold parseIPv6. destruct s as [|c1 [|c2 s]]; [apply Hg..|].
  case_bool_decide; [|apply Hg]. destruct s; [by intros [= <-]|apply Hg].
Qed.

Lemma mod_mult_0 a b : b ≠ 0 → (a * b) mod b = 0.
Proof. intros. by apply Z.mod_mul. Qed.

(** A masked address with its mask is a block. *)
Lemma masked_block ip ones k :
  Forall is_byte ip → length ip = k → 0 ≤ ones ≤ 8 * Z.of_nat k →
  block ones k (mkIPNet (and_bytes ip (CIDRMask ones k)) (CIDRMask ones k)).
Proof.
  intros Hip Hl Ho. destruct (value_masked ip ones k) as [Hb Hv]; [done..|]. unfold block. simpl.
  split_and!; [lia|lia| |done|done|].
  - unfold and_bytes. rewrite length_zip_with, CIDRMask_length. lia.
  - rewrite Hv. apply mod_mult_0. pose proof (block_size_pos ones k). lia.
Qed.

Lemma Mask_v4 ps ones :
  length ps = IPv4len →
  Mask (v4InV6Prefix ++ ps) (CIDRMask ones IPv4len) = Some (and_bytes ps (CIDRMask ones IPv4len)).
Proof.
  intros Hps. unfold Mask. rewrite CIDRMask_length.
  rewrite (bool_decide_false (IPv4len = IPv6len ∧ _)) by (intros [[=] _]). rewrite CIDRMask_length.
  rewrite (bool_decide_true (IPv4len = IPv4len ∧ _)).
  - rewrite drop_app_length' by done. by rewrite bool_decide_true.
  - rewrite length_app, Hps, take_app_length' by done. done.
Qed.

Lemma Mask_v6 ip ones :
  length ip = IPv6len →
  Mask ip (CIDRMask ones IPv6len) = Some (and_bytes ip (CIDRMask ones IPv6len)).
Proof.
  intros Hip. unfold Mask. rewrite CIDRMask_length, Hip.
  rewrite (bool_decide_false (IPv6len = IPv6len ∧ _)) by (intros (_ & [=] & _)). rewrite CIDRMask_length.
  rewrite (bool_decide_false (IPv6len = IPv4len ∧ _)) by (intros [[=] _]). rewrite Hip.
  by rewrite bool_decide_true.
Qed.

(** What [ParseCIDR] returns is a block of 4 or of 16 bytes. *)
Lemma ParseCIDR_ok s n :
  ParseCIDR s = Ok n → ∃ ones k, (k = IPv4len ∨ k = IPv6len) ∧ block ones k n.
Proof.
  unfold ParseCIDR. cbv zeta. destruct (cut_slash _) as [[addr mask]|]; [|done].
  destruct (parseIPv4 addr) as [ip|] eqn:H4.
  - apply parseIPv4_ok in H4 as (ps & -> & Hps & Hl).
    destruct (dtoi mask) as [[o [|? ?]]|] eqn:Hd; [|done..]. apply dtoi_nonneg in Hd.
    case_bool_decide; [done|]. rewrite Mask_v4 by done. intros <-%(inj Ok).
    exists o, IPv4len. split; [by left|]. apply masked_block; [done..|lia].
  - destruct (parseIPv6 addr) as [ip|] eqn:H6; [|done]. apply parseIPv6_ok in H6 as [Hip Hl].
    destruct (dtoi mask) as [[o [|? ?]]|] eqn:Hd; [|done..]. apply dtoi_nonneg in Hd.
    case_bool_decide; [done|]. rewrite Mask_v6 by done. intros <-%(inj Ok).
    exists o, IPv6len. split; [by right|]. apply masked_block; [done..|lia].
Qed.

(** ** The dotted form is read back *)

(** No digit at the head. *)
Definition no_digit (rest : list ascii) : Prop :=
  match rest with [] => True | c :: _ => digit_val c = None end.

Lemma scan_digits_text acc ds v i rest :
  0 ≤ acc → parse_digits acc ds = Some v → v < big → no_digit rest →
  acc ≤ v ∧
  scan_digits digit_val 10 acc i (str_to_list ds ++ rest) = Some (v, (i + String.length ds)%nat, rest).
Proof.
  revert acc i. induction ds as [|c ds IH]; intros acc i Hacc; simpl.
  - intros [= ->] _ Hr. split; [lia|]. destruct rest as [|c rest]; simpl; [do 2 f_equal; f_equal; lia|].
    simpl in Hr. rewrite Hr. do 2 f_equal. f_equal. lia.
  - destruct (digit_val c) as [d|] eqn:Hc; [|done]. intros Hp Hv Hr. pose proof (digit_val_nonneg c d Hc).
    destruct (IH (acc * 10 + d) (S i) ltac:(lia) Hp Hv Hr) as [Hle Hs].
    split; [lia|]. rewrite bool_decide_false by lia. rewrite Hs. do 2 f_equal. f_equal. lia.
Qed.

Lemma dtoi_pretty (z : Z) rest :
  0 ≤ z < big → no_digit rest → dtoi (str_to_list (pretty z) ++ rest) = Some (z, rest).
Proof.
  intros Hz Hr. rewrite pretty_Z_eq. rewrite decide_False by lia.
  destruct (scan_digits_text 0 (pretty (Z.to_N z)) (Z.of_N (Z.to_N z)) 0 rest) as [_ Hs];
    [lia|apply parse_digits_pretty|lia|done|].
  unfold dtoi, number. rewrite Hs. destruct (pretty_N_head (Z.to_N z)) as (d & s' & -> & _). simpl.
  do 2 f_equal. lia.
Qed.

(** The text [a.b.c.d/n]. *)
Definition show_cidr (a b c d n : Z) : string :=
  pretty a +:+ "." +:+ pretty b +:+ "." +:+ pretty c +:+ "." +:+ pretty d +:+ "/" +:+ pretty n.

Lemma pretty_no_slash (z : Z) : slash ∉ str_to_list (pretty z).
Proof.
  intros Hin. pose proof (pretty_Z_bytes z) as Hb. unfold str_Forall in Hb. rewrite Forall_forall in Hb.
  destruct (Hb _ Hin) as [[d Hd]|Hd]; discriminate.
Qed.

Lemma cut_slash_app l m : slash ∉ l → cut_slash (l ++ slash :: m) = Some (l, m).
Proof.
  induction l as [|c l IH]; intros Hl; simpl; [done|]. rewrite not_elem_of_cons in Hl.
  rewrite bool_decide_false by naive_solver. by rewrite IH by tauto.
Qed.

(** A number with its dot. *)
Lemma ipv4_numbers_step k (z : Z) s ps :
  is_byte z → no_digit s → ipv4_numbers k false s = Some ps →
  ipv4_numbers (S k) false ("."%char :: str_to_list (pretty z) ++ s) = Some (z :: ps).
Proof.
  intros Hz Hs Hk. cbn [ipv4_numbers]. rewrite bool_decide_true by done. simpl.
  unfold is_byte in Hz. rewrite dtoi_pretty by (unfold big; lia || done). simpl.
  rewrite bool_decide_false by lia. by rewrite Hk.
Qed.

Lemma ipv4_numbers_first k (z : Z) s ps :
  is_byte z → no_digit s → ipv4_numbers k false s = Some ps →
  ipv4_numbers (S k) true (str_to_list (pretty z) ++ s) = Some (z :: ps).
Proof.
  intros Hz Hs Hk. cbn [ipv4_numbers]. unfold is_byte in Hz.
  assert (∃ x s', str_to_list (pretty z) = x :: s') as (x & s' & Hx).
  { destruct (pretty_N_head (Z.to_N z)) as (x & s' & Hx & _). exists x, (str_to_list s').
    rewrite pretty_Z_eq, decide_False by lia. by rewrite Hx. }
  rewrite Hx. cbn [app]. rewrite app_comm_cons, <- Hx. simpl.
  rewrite dtoi_pretty by (unfold big; lia || done). simpl. rewrite bool_decide_false by lia. by rewrite Hk.
Qed.

Lemma parseIPv4_show (a b c d : Z) :
  Forall is_byte [a; b; c; d] →
  parseIPv4 (str_to_list (pretty a +:+ "." +:+ pretty b +:+ "." +:+ pretty c +:+ "." +:+ pretty d)) =
    Some (v4InV6Prefix ++ [a; b; c; d]).
Proof.
  rewrite !Forall_cons. intros (Ha & Hb & Hc & Hd & _). unfold parseIPv4, IPv4len.
  rewrite !str_to_list_app. cbn [str_to_list app]. rewrite <- (app_nil_r (str_to_list (pretty d))).
  erewrite ipv4_numbers_first; [done|done..|]. by repeat apply ipv4_numbers_step.
Qed.

(** [ParseCIDR] reads the dotted form of a block. *)
Lemma ParseCIDR_show a b c d n :
  Forall is_byte [a; b; c; d] → 0 ≤ n ≤ 32 →
  ParseCIDR (show_cidr a b c d n) =
    Ok (mkIPNet (and_bytes [a; b; c; d] (CIDRMask n IPv4len)) (CIDRMask n IPv4len)).
Proof.
  intros Hb Hn. unfold ParseCIDR, show_cidr.
  set (addr := pretty a +:+ "." +:+ pretty b +:+ "." +:+ pretty c +:+ "." +:+ pretty d).
  assert (str_to_list (pretty a +:+ "." +:+ pretty b +:+ "." +:+ pretty c +:+ "." +:+ pretty d +:+ "/" +:+
    pretty n) = str_to_list addr ++ slash :: str_to_list (pretty n)) as ->.
  { unfold addr. rewrite !str_to_list_app. rewrite <- !app_assoc. done. }
  rewrite cut_slash_app.
  2:{ unfold addr. rewrite !str_to_list_app, !not_elem_of_app. pose proof pretty_no_slash.
      split_and!; try done; simpl; rewrite list_elem_of_singleton; done. }
  unfold addr. rewrite parseIPv4_show by done.
  pose proof (dtoi_pretty n [] ltac:(unfold big; lia) I) as Hd. rewrite app_nil_r in Hd. rewrite Hd.
  rewrite bool_decide_false by (unfold IPv4len; lia). by rewrite Mask_v4.
Qed.
