(* ===== verification/RouteControllerSpec.v ===== *)
(** * Theorems about the route controller on the provider's routes

    The programs of [RouteController.v] are the provider's operations, and the test of
    responsibility decides whether the whole block of a route lies in the cluster's.
    Rounds of reconciliation are in [ReconcileSpec.v]. *)

From S2P Require Import Prelude GoStd Kube Cloud Provider Instances InstancesSpec Routes RoutesSpec Interfaces Net NetSpec Conc RouteController SimCloud.

(** ** The programs are the operations *)

Section programs.
Context {W : Type} `{!Handler req W}.
Implicit Types (w : W).

Lemma run_pbind_ok {A B} (m : prog req (result A)) (k : A → prog req (result B)) w :
  run (pbind_ok m k) w = bind_ok (run m) (λ a, run (k a)) w.
Proof.
  unfold pbind_ok, bind_ok. rewrite run_bind. apply M_bind_ext; [done|]. by intros [a|e] w'.
Qed.

Lemma bind_ok_ext {A B} (m m' : go W (result A)) (f f' : A → go W (result B)) w :
  m w = m' w → (∀ a w', f a w' = f' a w') → bind_ok m f w = bind_ok m' f' w.
Proof. intros Hm Hf. apply M_bind_ext; [done|]. intros [a|e] w'; [apply Hf|done]. Qed.

Lemma run_pgetInstances p w : run (pgetInstances p) w = getInstances p w.
Proof.
  unfold pgetInstances, getInstances. rewrite run_pbind_ok. apply bind_ok_ext; [apply run_pcall|].
  by intros [insts pr] w'.
Qed.

Lemma run_pgetInstanceByNodeName p node w :
  run (pgetInstanceByNodeName p node) w = getInstanceByNodeName p node w.
Proof.
  unfold pgetInstanceByNodeName, getInstanceByNodeName. rewrite run_pbind_ok.
  apply bind_ok_ext; [apply run_pgetInstances|]. intros insts w'.
  by destruct (filter_instances insts _) as [|i [|j l]].
Qed.

Lemma run_pmapInstanceToNodeName p i w :
  run (pmapInstanceToNodeName p i) w = mapInstanceToNodeName p i w.
Proof.
  unfold pmapInstanceToNodeName, mapInstanceToNodeName. case_bool_decide; [|done].
  by destruct (i_PrivateIpAddress i).
Qed.

Lemma run_plist_entries p insts entries w :
  run (plist_entries p insts entries) w = list_entries p insts entries w.
Proof.
  revert w. induction entries as [|r entries IH]; intros w; [done|]. cbn [plist_entries list_entries].
  case_bool_decide; [apply IH|]. destruct (filter_instances _ _) as [|i [|j l]]; [apply IH| |apply IH].
  rewrite run_bind. apply M_bind_ext; [apply run_pmapInstanceToNodeName|]. intros node w'.
  rewrite run_bind. apply M_bind_ext; [apply IH|done].
Qed.

Lemma run_plist_tables p insts tables w :
  run (plist_tables p insts tables) w = list_tables p insts tables w.
Proof.
  revert w. induction tables as [|t tables IH]; intros w; [done|]. cbn [plist_tables list_tables].
  rewrite run_bind. apply M_bind_ext; [apply run_plist_entries|]. intros rs w'.
  rewrite run_bind. apply M_bind_ext; [apply IH|done].
Qed.

Lemma run_pListRoutes p clusterName w : run (pListRoutes p clusterName) w = ListRoutes p clusterName w.
Proof.
  unfold pListRoutes, ListRoutes. rewrite run_pbind_ok. apply bind_ok_ext; [apply run_pgetInstances|].
  intros insts w'. rewrite run_bind. apply M_bind_ext; [apply run_pcall|]. intros [[tables pr]|e] w''; [|done].
  rewrite run_bind. apply M_bind_ext; [apply run_plist_tables|done].
Qed.

(** Programs that run as operations: from every world the same requests, and the same
    outcome. *)
Definition runs_as (programs : RoutesInterface (prog req)) (ops : RoutesInterface (go W)) : Prop :=
  ∀ clusterName nameHint route w,
    run (rs_ListRoutes programs clusterName) w = rs_ListRoutes ops clusterName w ∧
    run (rs_CreateRoute programs clusterName nameHint route) w = rs_CreateRoute ops clusterName nameHint route w ∧
    run (rs_DeleteRoute programs clusterName route) w = rs_DeleteRoute ops clusterName route w.

Lemma aliyun_routes_run p : runs_as (aliyun_routes p) (mkRoutesInterface (ListRoutes p) (CreateRoute p) (DeleteRoute p)).
Proof.
  intros clusterName nameHint route w. split; [apply run_pListRoutes|]. unfold aliyun_routes.
  cbn [rs_CreateRoute rs_DeleteRoute]. unfold pCreateRoute, CreateRoute, pDeleteRoute, DeleteRoute.
  split; rewrite run_pbind_ok; (apply bind_ok_ext; [apply run_pgetInstanceByNodeName|]);
    intros i w'; apply run_pcall.
Qed.

(** The programs the route controller interleaves are the provider's
    operations: run alone, from any world, each makes the requests of [ListRoutes],
    [CreateRoute] or [DeleteRoute], with the same outcome. *)
Theorem route_programs p :
  runs_as (aliyun_routes p) (mkRoutesInterface (ListRoutes p) (CreateRoute p) (DeleteRoute p)).
Proof. apply aliyun_routes_run. Qed.

End programs.

(** ** Responsibility *)

(** The last address of a block: the mask's zeros are set. *)
Definition last_address (n : IPNet) : IP :=
  zip_with (λ b m, Z.lor b (Z.lxor m 255)) (net_IP n) (net_Mask n).

(** Setting the bits of a mask's zeros in a masked byte adds them. *)
Lemma last_byte b ones :
  is_byte b → 0 ≤ ones ≤ 8 → b mod 2 ^ (8 - ones) = 0 →
  Z.lor b (Z.lxor (255 - (2 ^ (8 - ones) - 1)) 255) = b + (2 ^ (8 - ones) - 1).
Proof.
  intros Hb Ho. unfold is_byte in Hb.
  destruct (Z_of_nat_complete b ltac:(lia)) as [n ->].
  destruct (Z_of_nat_complete ones ltac:(lia)) as [k ->].
  assert (n ∈ seq 0 256) as Hin by (rewrite elem_of_seq; lia).
  assert (k ∈ seq 0 9) as Hik by (rewrite elem_of_seq; lia). clear Hb Ho.
  assert (Forall (λ n, Forall (λ k, Z.of_nat n mod 2 ^ (8 - Z.of_nat k) = 0 →
    Z.lor (Z.of_nat n) (Z.lxor (255 - (2 ^ (8 - Z.of_nat k) - 1)) 255) =
    Z.of_nat n + (2 ^ (8 - Z.of_nat k) - 1)) (seq 0 9)) (seq 0 256)) as Hall.
  { apply (bool_decide_unpack _). vm_compute. exact I. }
  rewrite Forall_forall in Hall. specialize (Hall n Hin). rewrite Forall_forall in Hall. by apply Hall.
Qed.

(** Bytes under an empty mask become ones. *)
Lemma value_ones l ones k :
  Forall is_byte l → length l = k → ones ≤ 0 →
  value (zip_with (λ b m, Z.lor b (Z.lxor m 255)) l (CIDRMask ones k)) = 2 ^ (8 * Z.of_nat k) - 1.
Proof.
  intros Hl. revert ones k. induction Hl as [|b l Hb Hl IH]; intros ones k Hk Ho; [by simpl in Hk; subst|].
  destruct k as [|k]; [done|]. injection Hk as Hk. simpl.
  rewrite (bool_decide_false (8 <= ones)), (bool_decide_true (ones <= 0)) by lia.
  rewrite IH, length_zip_with, CIDRMask_length, Hk, Nat.min_id by (done || lia).
  replace (Z.lor b (Z.lxor 0 255)) with 255.
  - replace (8 * Z.of_nat (S k)) with (8 + 8 * Z.of_nat k) by lia. rewrite Z.pow_add_r by lia. lia.
  - unfold is_byte in Hb. pose proof (Z.lor_ones_low b 8 ltac:(lia)) as H8. change (Z.ones 8) with 255 in H8.
    rewrite Z.lxor_0_l, H8; [done|]. destruct (decide (b = 0)) as [->|]; [done|]. apply Z.log2_lt_pow2; lia.
Qed.

(** A multiple of [2 ^ s] splits at the first byte. *)
Lemma mod_cons b v k s :
  0 ≤ v < 2 ^ k → 0 ≤ s → 0 ≤ k → (b * 2 ^ k + v) mod 2 ^ s = 0 →
  (s ≤ k → v mod 2 ^ s = 0) ∧ (k ≤ s → v = 0 ∧ b mod 2 ^ (s - k) = 0).
Proof.
  intros Hv Hs Hk Hmod. split; intros Hle.
  - replace (2 ^ k) with (2 ^ (k - s) * 2 ^ s) in Hmod by (rewrite <- Z.pow_add_r by lia; f_equal; lia).
    by rewrite Z.mul_assoc, Z.add_comm, Z.mod_add in Hmod by lia.
  - replace (2 ^ s) with (2 ^ k * 2 ^ (s - k)) in Hmod by (rewrite <- Z.pow_add_r by lia; f_equal; lia).
    rewrite Z.rem_mul_r in Hmod by lia.
    rewrite Z.div_add_l, (Z.div_small v), Z.add_0_r in Hmod by lia.
    rewrite (Z.add_comm _ v), Z.mod_add, (Z.mod_small v) in Hmod by lia.
    pose proof (Z.mod_pos_bound b (2 ^ (s - k)) ltac:(lia)). split; nia.
Qed.

Lemma value_last l ones k :
  Forall is_byte l → length l = k → 0 ≤ ones ≤ 8 * Z.of_nat k →
  value l mod block_size ones k = 0 →
  value (zip_with (λ b m, Z.lor b (Z.lxor m 255)) l (CIDRMask ones k)) =
    value l + block_size ones k - 1.
Proof.
  unfold block_size. intros Hl. revert ones k.
  induction Hl as [|b l Hb Hl IH]; intros ones k Hk Ho Hmod; [simpl in Hk; subst; simpl; assert (ones = 0) as -> by lia; done|].
  destruct k as [|k]; [done|]. injection Hk as Hk. pose proof (value_bound l Hl) as Hv. rewrite Hk in Hv.
  simpl value in Hmod. rewrite Hk in Hmod.
  destruct (mod_cons b (value l) (8 * Z.of_nat k) (8 * Z.of_nat (S k) - ones)) as [Hlow Hhigh]; [done|lia|lia|done|].
  simpl. rewrite length_zip_with, CIDRMask_length, Hk, Nat.min_id.
  case_bool_decide as H8.
  - replace (8 * Z.of_nat (S k) - ones) with (8 * Z.of_nat k - (ones - 8)) in * by lia.
    rewrite (IH (ones - 8) k) by (done || lia || (apply Hlow; lia)). rewrite Z.lxor_nilpotent, Z.lor_0_r. lia.
  - destruct Hhigh as [Hv0 Hb0]; [lia|]. replace (8 * Z.of_nat (S k) - ones - 8 * Z.of_nat k) with (8 - ones) in Hb0 by lia.
    rewrite value_ones by (done || lia).
    replace (if bool_decide (ones <= 0) then 0 else 255 - (2 ^ (8 - ones) - 1)) with (255 - (2 ^ (8 - ones) - 1))
      by (case_bool_decide; [assert (ones = 0) as -> by lia; done|done]).
    rewrite last_byte by (done || lia). rewrite Hv0.
    replace (8 * Z.of_nat (S k) - ones) with ((8 - ones) + 8 * Z.of_nat k) by lia. rewrite Z.pow_add_r by lia. lia.
Qed.

Lemma is_byte_bits x : is_byte x ↔ 0 ≤ x ∧ ∀ l, 8 ≤ l → Z.testbit x l = false.
Proof.
  unfold is_byte. change 256 with (2 ^ 8). split.
  - intros [Hx Hlt]. split; [done|]. apply Z.bounded_iff_bits_nonneg; lia.
  - intros [Hx Hb]. split; [done|]. apply Z.bounded_iff_bits_nonneg; [lia|done|done].
Qed.

Lemma last_is_byte b m : is_byte b → is_byte m → is_byte (Z.lor b (Z.lxor m 255)).
Proof.
  rewrite !is_byte_bits. intros [Hb Hbb] [Hm Hmb]. split.
  - rewrite Z.lor_nonneg, Z.lxor_nonneg. lia.
  - intros l Hl. rewrite Z.lor_spec, Z.lxor_spec, Hbb, Hmb by done.
    change 255 with (Z.ones 8). by rewrite Z.ones_spec_high by lia.
Qed.

Lemma CIDRMask_bytes ones k : Forall is_byte (CIDRMask ones k).
Proof.
  revert ones. induction k as [|k IH]; intros ones; simpl; constructor; [|done].
  unfold is_byte. repeat case_bool_decide; [lia|lia|].
  pose proof (Z.pow_le_mono_r 2 1 (8 - ones) ltac:(lia) ltac:(lia)).
  pose proof (Z.pow_le_mono_r 2 (8 - ones) 8 ltac:(lia) ltac:(lia)). lia.
Qed.

Lemma last_address_bytes n : Forall is_byte (net_IP n) → Forall is_byte (net_Mask n) → Forall is_byte (last_address n).
Proof.
  unfold last_address. intros Hl. revert Hl. generalize (net_Mask n). intros m Hl. revert m.
  induction Hl as [|b l Hb Hl IH]; intros m Hm; [done|]. destruct Hm as [|x m Hx Hm]; [done|].
  simpl. constructor; [by apply last_is_byte|by apply IH].
Qed.

(** The first and the last address of a block. *)
Lemma block_ends ones n :
  block ones IPv4len n →
  length (last_address n) = IPv4len ∧ Forall is_byte (last_address n) ∧
  value (last_address n) = value (net_IP n) + block_size ones IPv4len - 1.
Proof.
  intros (Ho & Hl & Hb & Hm & H0). split_and!.
  - unfold last_address. rewrite length_zip_with, Hm, CIDRMask_length, Hl. done.
  - apply last_address_bytes; [done|]. rewrite Hm. apply CIDRMask_bytes.
  - unfold last_address. rewrite Hm. by apply value_last.
Qed.

(** A parsed block of four bytes. *)
Lemma ParseCIDR_block4 s n :
  ParseCIDR s = Ok n → length (net_IP n) = IPv4len → ∃ ones, block ones IPv4len n.
Proof.
  intros (ones & k & Hk & Hb)%ParseCIDR_ok Hl. pose proof Hb as (_ & Hl' & _).
  assert (k = IPv4len) as -> by congruence. eauto.
Qed.

(** C16: the route controller answers for a route exactly when every address of the
    route's block lies in the cluster's: it looks only at the first and the last of
    them.  (Both blocks as parsed, of version 4.) *)
Theorem isResponsibleForRoute_block {F} (rc : RouteController F) route cidr clusterCIDR :
  ParseCIDR (r_DestinationCIDR route) = Ok cidr → length (net_IP cidr) = IPv4len →
  ParseCIDR clusterCIDR = Ok (rc_clusterCIDR rc) → length (net_IP (rc_clusterCIDR rc)) = IPv4len →
  isResponsibleForRoute rc route = true ↔
    ∀ ip, length ip = IPv4len → Forall is_byte ip →
      Contains cidr ip = true → Contains (rc_clusterCIDR rc) ip = true.
Proof.
  intros Hp Hl Hc Hlc. destruct (ParseCIDR_block4 _ _ Hp Hl) as [o1 B1].
  destruct (ParseCIDR_block4 _ _ Hc Hlc) as [o2 B2].
  destruct (block_ends _ _ B1) as (Ll & Lb & Lv). pose proof B1 as (Ho & _ & Hb & _ & _).
  pose proof (block_size_pos o1 IPv4len ltac:(lia)) as Hpos.
  unfold isResponsibleForRoute. rewrite Hp. change (zip_with _ _ _) with (last_address cidr).
  rewrite andb_true_iff. split.
  - intros [H1 H2] ip Hip Hbip. rewrite (Contains_interval _ _ _ B2) in H1 by done.
    rewrite (Contains_interval _ _ _ B2) in H2 by done.
    rewrite (Contains_interval _ _ _ B1), (Contains_interval _ _ _ B2) by done. lia.
  - intros Hall. split; apply Hall; try done; rewrite (Contains_interval _ _ _ B1) by done; lia.
Qed.

(** ** Witnesses *)

Module ResponsibleWitness.

Definition rc : RouteController (prog req) :=
  mkRouteController (mkRoutesInterface (λ _, mret (Ok [])) (λ _ _ _, mret (Ok tt)) (λ _ _, mret (Ok tt)))
    "cluster" (mkIPNet [172; 16; 0; 0] [255; 240; 0; 0]).

(** A block in the cluster's, and a larger one. *)
Lemma isResponsibleForRoute_block_witness :
  (∀ ip, length ip = IPv4len → Forall is_byte ip →
     Contains (mkIPNet [172; 31; 0; 0] [255; 255; 0; 0]) ip = true → Contains (rc_clusterCIDR rc) ip = true) ∧
  isResponsibleForRoute rc (mkRoute "node" "172.16.0.0/11") = false.
Proof.
  split; [|reflexivity].
  apply (isResponsibleForRoute_block rc (mkRoute "node" "172.31.5.0/16") _ "172.16.0.0/12"); reflexivity.
Defined.

End ResponsibleWitness.
