(* ===== verification/ReconcileSpec.v ===== *)
(** * Reconciliation converges

    Rounds of the route controller on the provider's routes, against the laws of the
    VPC service and of the API server: on every schedule of the goroutines a round
    ends, leaves no route of the cluster that no node has, and, when there was none
    before, leaves exactly the nodes' routes.  So two rounds converge from any table. *)

From S2P Require Import Prelude GoStd Kube Cloud Provider Instances InstancesSpec Routes RoutesSpec Interfaces Net Conc RouteController SimCloud.

(** ** What the API server promises *)

(** A node's name and CIDR. *)
Definition node_key (n : KNode) : string * string := (kn_Name n, kn_PodCIDR n).

(** The laws of an API server whose nodes stay while a round runs, beside a VPC
    service that refuses a second route of a destination. *)
Class Nodes (W : Type) `{VPC W} : Type := {
  nodes : W → list KNode;
  nodes_list : ∀ w, ∃ w', handle (Kube ListNodes) w = (Ok (nodes w), w') ∧
    vpc w' = vpc w ∧ vpc_insts w' = vpc_insts w ∧ nodes w' = nodes w;
  nodes_condition : ∀ w name c, let w' := (handle (Kube (SetNodeCondition name c)) w).2 in
    vpc w' = vpc w ∧ vpc_insts w' = vpc_insts w ∧ node_key <$> nodes w' = node_key <$> nodes w;
  nodes_instances : ∀ w args, nodes (handle (DescribeInstances args) w).2 = nodes w;
  nodes_tables : ∀ w args, nodes (handle (DescribeRouteTables args) w).2 = nodes w;
  nodes_create : ∀ w args, nodes (handle (CreateRouteEntry args) w).2 = nodes w;
  nodes_delete : ∀ w args, nodes (handle (DeleteRouteEntry args) w).2 = nodes w;
  vpc_conflict : ∀ w args,
    (∃ r, r ∈ vpc w (rea_RouteTableId args) ∧ re_DestinationCidrBlock r = rea_DestinationCidrBlock args) →
    ∃ e w', handle (CreateRouteEntry args) w = (Err e, w') ∧ vpc w' = vpc w ∧ vpc_insts w' = vpc_insts w
}.

(** ** What is wanted of the table *)

Section spec.
Context (p : AliyunProvider) (rc : RouteController (prog req)).
Context (insts : list InstanceAttributesType) (keys : list (string * string)).

(** The routes the nodes ask for. *)
Definition desired (n c : string) : Prop := (n, c) ∈ keys ∧ c ≠ "".

Definition responsible (c : string) : bool := isResponsibleForRoute rc (mkRoute "" c).

(** The entry of a node's route. *)
Definition entry (c : string) (i : InstanceAttributesType) : RouteEntrySetType :=
  mkRouteEntry c NextHopIntance (i_InstanceId i).

Definition wanted (e : RouteEntrySetType) : Prop :=
  ∃ n c i, desired n c ∧ i ∈ insts ∧ node_name p i = Some n ∧ e = entry c i.

(** An entry a round may delete: in the cluster, to an instance whose node does not
    have it. *)
Definition doomed (e : RouteEntrySetType) : Prop :=
  responsible (re_DestinationCidrBlock e) = true ∧
  ∃ n i, i ∈ insts ∧ i_InstanceId i = re_InstanceId e ∧ node_name p i = Some n ∧
    ¬ desired n (re_DestinationCidrBlock e).

(** No route of the cluster that no node has. *)
Definition settled (T : list RouteEntrySetType) : Prop :=
  ∀ r, r ∈ omap (route_of p insts) T → responsible (r_DestinationCIDR r) = true →
    desired (r_TargetNode r) (r_DestinationCIDR r).

(** Exactly the routes the nodes ask for. *)
Definition converged (T : list RouteEntrySetType) : Prop :=
  ∀ n c, responsible c = true → mkRoute n c ∈ omap (route_of p insts) T ↔ desired n c.

(** The cluster is in order: nodes and instances have names of their own, every node
    with a CIDR is an instance, and the CIDRs are distinct and in the cluster's. *)
Record cluster_ok : Prop := {
  ok_named : all_named p insts;
  ok_names : distinct_names p insts;
  ok_ids : NoDup (i_InstanceId <$> insts);
  ok_nodes : NoDup keys.*1;
  ok_cidrs : ∀ n n' c, desired n c → desired n' c → n = n';
  ok_targets : ∀ n c, desired n c → ∃ i, i ∈ insts ∧ node_name p i = Some n;
  ok_inside : ∀ n c, desired n c → responsible c = true }.

(** The nodes' CIDRs are routed to instances only. *)
Definition routed (T : list RouteEntrySetType) : Prop :=
  ∀ e n, e ∈ T → desired n (re_DestinationCidrBlock e) →
    re_NextHopType e = NextHopIntance ∧ ∃ i, i ∈ insts ∧ i_InstanceId i = re_InstanceId e.

(** What a goroutine may do to the table. *)
Definition evolves (T T' : list RouteEntrySetType) : Prop :=
  (∀ e, e ∈ T → ¬ doomed e → e ∈ T') ∧ (∀ e, e ∈ T' → e ∈ T ∨ wanted e).

Context (HC : cluster_ok).

Lemma node_name_only i n : i ∈ insts → node_name p i = Some n → only_named p n insts i.
Proof.
  intros Hi Hn. apply distinct_only_named; [apply HC|done|]. pose proof (ok_names HC) as Hd.
  unfold named, node_name, distinct_names in *. case_bool_decide.
  - destruct (i_PrivateIpAddress i); [done|]. injection Hn as ->. by left.
  - injection Hn as ->. by destruct Hd.
Qed.

Lemma node_name_inj i j n : i ∈ insts → j ∈ insts → node_name p i = Some n → node_name p j = Some n → i = j.
Proof.
  intros Hi Hj Hni Hnj.
  pose proof (node_name_only i n Hi Hni) as H1%filter_one_only_named.
  pose proof (node_name_only j n Hj Hnj) as H2%filter_one_only_named. congruence.
Qed.

Lemma id_inj i j : i ∈ insts → j ∈ insts → i_InstanceId i = i_InstanceId j → i = j.
Proof. apply NoDup_fmap_elem, HC. Qed.

(** The route of an entry. *)
Lemma route_of_Some e n c :
  route_of p insts e = Some (mkRoute n c) ↔
  ∃ i, i ∈ insts ∧ node_name p i = Some n ∧ e = entry c i.
Proof.
  unfold route_of. split.
  - case_bool_decide as Ht; [|done]. destruct (filter_instances _ _) as [|i [|]] eqn:Hf; [done| |done].
    intros (m & Hm & [= -> <-])%bind_Some. exists i.
    assert (i ∈ filter_instances insts (byInstanceId (re_InstanceId e))) as Hi by (rewrite Hf; by left).
    apply filter_instances_elem in Hi as [Hi Hid%byInstanceId_true]. split_and!; [done..|].
    destruct e as [d t id]. simpl in *. unfold entry. by subst.
  - intros (i & Hi & Hn & ->). unfold entry. simpl. rewrite filter_by_id by (done || apply HC).
    by rewrite Hn.
Qed.

Lemma listed n c (T : list RouteEntrySetType) : mkRoute n c ∈ omap (route_of p insts) T ↔
  ∃ i, i ∈ insts ∧ node_name p i = Some n ∧ entry c i ∈ T.
Proof.
  rewrite list_elem_of_omap. setoid_rewrite route_of_Some. naive_solver.
Qed.

Lemma wanted_not_doomed e : wanted e → ¬ doomed e.
Proof.
  intros (n & c & i & Hd & Hi & Hn & ->) (_ & n' & j & Hj & Hid & Hn' & Hnd). simpl in *.
  assert (j = i) as -> by (by apply id_inj). by simplify_eq.
Qed.

#[export] Instance evolves_preorder : PreOrder evolves.
Proof.
  split.
  - intros T. split; auto.
  - intros T1 T2 T3 [H12 W12] [H23 W23]. split; [by auto|]. intros e [He|He]%W23; [|auto]. auto.
Qed.

Lemma evolves_add T n c i :
  desired n c → i ∈ insts → node_name p i = Some n → evolves T (T ++ [entry c i]).
Proof.
  intros Hd Hi Hn. split; intros e; rewrite elem_of_app; [by left|].
  rewrite list_elem_of_singleton. intros [He| ->]; [by left|]. right. by exists n, c, i.
Qed.

Lemma evolves_remove T n c i :
  responsible c = true → i ∈ insts → node_name p i = Some n → ¬ desired n c →
  evolves T (base.filter (λ r, ¬ (re_DestinationCidrBlock r = c ∧ re_InstanceId r = i_InstanceId i)) T).
Proof.
  intros Hr Hi Hn Hd. split; intros e.
  - intros He Hnd. apply list_elem_of_filter. split; [|done]. intros [<- Hid]. apply Hnd.
    split; [done|]. by exists n, i.
  - intros [_ He]%list_elem_of_filter. by left.
Qed.

(** A wanted entry stays. *)
Lemma evolves_keeps T T' e : evolves T T' → wanted e → e ∈ T → e ∈ T'.
Proof. intros [H1 _] Hw He. apply H1; [done|]. by apply wanted_not_doomed. Qed.

(** A deleted route stays away. *)
Definition absent (c : string) (i : InstanceAttributesType) (T : list RouteEntrySetType) : Prop :=
  ∀ e, e ∈ T → ¬ (re_DestinationCidrBlock e = c ∧ re_InstanceId e = i_InstanceId i).

Lemma evolves_absent T T' n c i :
  evolves T T' → i ∈ insts → node_name p i = Some n → ¬ desired n c → absent c i T → absent c i T'.
Proof.
  intros [_ H2] Hi Hn Hd Ha e [He|(n' & c' & j & Hd' & Hj & Hn' & ->)]%H2; [by apply Ha|]. simpl.
  intros [-> Hid]. assert (j = i) as -> by (by apply id_inj). by simplify_eq.
Qed.

(** The destination of a node's route is free, or has that route. *)
Definition fresh (c : string) (i : InstanceAttributesType) (T : list RouteEntrySetType) : Prop :=
  ∀ e, e ∈ T → re_DestinationCidrBlock e = c → e = entry c i.

Lemma evolves_fresh T T' n c i :
  evolves T T' → desired n c → i ∈ insts → node_name p i = Some n → fresh c i T → fresh c i T'.
Proof.
  intros [_ H2] Hd Hi Hn Hf e [He|(n' & c' & j & Hd' & Hj & Hn' & ->)]%H2; [by apply Hf|]. simpl.
  intros ->. assert (n' = n) as -> by (by eapply (ok_cidrs HC)).
  by rewrite (node_name_inj j i n).
Qed.

Lemma settled_fresh T n c i :
  settled T → routed T → desired n c → i ∈ insts → node_name p i = Some n → fresh c i T.
Proof.
  intros Hs Hr Hd Hi Hn e He Hc. subst c.
  destruct (Hr e n He Hd) as (Ht & j & Hj & Hid).
  destruct (ok_named HC j Hj) as [m Hm].
  assert (e = entry (re_DestinationCidrBlock e) j) as He'
    by (destruct e; unfold entry; simpl in *; by subst).
  assert (desired m (re_DestinationCidrBlock e)) as Hdm.
  { apply (Hs (mkRoute m (re_DestinationCidrBlock e))); [|by eapply (ok_inside HC)].
    apply listed. exists j. rewrite <- He'. done. }
  assert (m = n) as -> by (by eapply (ok_cidrs HC)). by rewrite (node_name_inj i j n).
Qed.

Lemma evolves_routed T T' : evolves T T' → routed T → routed T'.
Proof.
  intros [_ H2] Hr e n [He|(n' & c' & j & Hd' & Hj & Hn' & ->)]%H2 Hd; [by eapply Hr|].
  split; [done|]. by exists j.
Qed.

(** ** The end of a round *)

(** What the goroutines of a round leave of the table [T] that was listed. *)
Lemma round_settled T T' :
  evolves T T' →
  (∀ n c i, i ∈ insts → node_name p i = Some n → entry c i ∈ T → responsible c = true →
     ¬ desired n c → absent c i T') →
  settled T'.
Proof.
  intros Hev Hdel [n c] (i & Hi & Hn & He)%listed Hr. simpl in *.
  destruct (proj2 Hev _ He) as [HeT|(n' & c' & j & Hd & Hj & Hn' & Heq)].
  - destruct (decide ((n, c) ∈ keys ∧ c ≠ "")) as [Hd|Hd]; [done|].
    by destruct (Hdel n c i Hi Hn HeT Hr Hd (entry c i) He).
  - injection Heq as -> Hid. assert (i = j) as -> by (by apply id_inj). by simplify_eq.
Qed.

Lemma round_converged T' :
  settled T' → (∀ n c i, desired n c → i ∈ insts → node_name p i = Some n → entry c i ∈ T') →
  converged T'.
Proof.
  intros Hs Hall n c Hr. split.
  - intros Hin. by apply (Hs _ Hin).
  - intros Hd. apply listed. destruct (ok_targets HC n c Hd) as (i & Hi & Hn). exists i. eauto.
Qed.

End spec.

(** ** Goroutines of a round *)

(** Without a name missing, a listing has no panic. *)
Lemma plist_entries_done p insts entries :
  all_named p insts → plist_entries p insts entries = Done (omap (route_of p insts) entries).
Proof.
  intros Hn. induction entries as [|r entries IH]; [done|]. simpl. unfold route_of at 1.
  destruct (decide (re_NextHopType r = NextHopIntance)) as [Ht|Ht].
  2:{ rewrite bool_decide_true, bool_decide_false by done. apply IH. }
  rewrite bool_decide_false, bool_decide_true by tauto.
  destruct (filter_instances insts _) as [|i [|j l]] eqn:Hf; [apply IH| |apply IH].
  assert (i ∈ insts) as Hi.
  { apply (filter_instances_elem _ (byInstanceId (re_InstanceId r))). rewrite Hf. by left. }
  destruct (Hn i Hi) as [n Hni]. rewrite Hni. simpl.
  assert (pmapInstanceToNodeName p i = Done n) as ->.
  { unfold node_name, pmapInstanceToNodeName in *. case_bool_decide; [|by injection Hni as ->].
    destruct (i_PrivateIpAddress i); [done|]. by injection Hni as ->. }
  cbn. by rewrite IH.
Qed.

Lemma plist_tables_done p insts tables :
  all_named p insts →
  plist_tables p insts tables = Done (tables ≫= λ t, omap (route_of p insts) (rt_RouteEntry t)).
Proof.
  intros Hn. induction tables as [|t tables IH]; [done|]. simpl.
  rewrite plist_entries_done by done. cbn. by rewrite IH.
Qed.

Section rounds.
Context {W : Type} `{!Handler req W} `{!VPC W} `{!Nodes W}.
Context (p : AliyunProvider) (clusterName : string) (clusterCIDR : IPNet).
Let rc : RouteController (prog req) := mkRouteController (aliyun_routes p) clusterName clusterCIDR.
Context (insts : list InstanceAttributesType) (keys : list (string * string)).
Context (HC : cluster_ok p rc insts keys).
Implicit Types (w : W).

Definition table (w : W) : list RouteEntrySetType := vpc w (routeTable p).

(** What a request of a round may change. *)
Definition rely (w w' : W) : Prop :=
  vpc_insts w' = vpc_insts w ∧ node_key <$> nodes w' = node_key <$> nodes w ∧
  evolves p rc insts keys (table w) (table w').

#[export] Instance rely_preorder : PreOrder rely.
Proof.
  pose proof (evolves_preorder p rc insts keys) as [Hr Ht].
  split.
  - intros w. split_and!; [done..|apply Hr].
  - intros w1 w2 w3 (H1 & H2 & H3) (H4 & H5 & H6). split_and!; [congruence..|by eapply Ht].
Qed.

Lemma rely_same w w' :
  vpc w' = vpc w → vpc_insts w' = vpc_insts w → node_key <$> nodes w' = node_key <$> nodes w → rely w w'.
Proof.
  intros Hv Hi Hn. split_and!; [done..|]. unfold table. rewrite Hv.
  apply (evolves_preorder p rc insts keys).
Qed.

(** A lookup finds its instance. *)
Lemma ok_getInstance name i h n Q w :
  vpc_insts w = insts → only_named p name insts i →
  (∀ w', rely w w' → Q (Ok i) h n w') →
  ok rely (pgetInstanceByNodeName p name) h (S n) Q w.
Proof.
  intros Hw Hi HQ. apply filter_one_only_named in Hi. unfold pgetInstanceByNodeName, pgetInstances, pbind_ok.
  cbn. exists n. split; [done|]. intros w0 Hw0.
  change (mkDescribeInstancesArgs _ _ _) with (instances_query p).
  pose proof (nodes_instances w0 (instances_query p)) as Hn.
  destruct (vpc_instances w0 (instances_query p)) as (pr & w1 & Heq & Hv & Hi').
  rewrite Heq in Hn |- *. simpl in Hn |- *. assert (rely w0 w1) as Hr by (apply rely_same; [done..|by rewrite Hn]).
  split; [done|]. assert (vpc_insts w0 = insts) as -> by (destruct Hw0 as [-> _]; done).
  rewrite Hi. apply HQ. by etrans.
Qed.

(** The condition updates change no route. *)
Lemma ok_update tries node created err h n (Q : option api_error → bool → nat → W → Prop) w :
  (tries ≤ n)%nat →
  (∀ e n' w', (n - tries ≤ n')%nat → rely w w' → Q e h n' w') →
  ok rely (update_condition tries node created err) h n Q w.
Proof.
  revert err n w. induction tries as [|tries IH]; intros err n w Hn HQ.
  { cbn. apply HQ; [lia|done]. }
  destruct n as [|n]; [lia|]. cbn. exists n. split; [done|]. intros w0 Hw0.
  destruct (nodes_condition w0 node (network_condition created)) as (H1 & H2 & H3).
  set (e := Kube _) in *. assert (rely w0 (handle e w0).2) as Hr by (by apply rely_same). split; [done|].
  destruct (handle e w0) as [[err'|] w1]; simpl in *.
  - destruct (IsConflict err').
    + apply IH; [lia|]. intros e' n' w' Hn' Hw'. apply HQ; [lia|]. by do 2 (etrans; [done|]).
    + cbn. apply HQ; [lia|]. by etrans.
  - cbn. apply HQ; [lia|]. by etrans.
Qed.

(** One creation: the route is there afterwards when it was made, or when its
    destination was free or its own. *)
Lemma ok_create_entry n c i hint h m (Q : result unit → bool → nat → W → Prop) w :
  vpc_insts w = insts → desired keys n c → i ∈ insts → node_name p i = Some n →
  (∀ r w', rely w w' → (r = Ok tt ∨ fresh c i (table w) → entry c i ∈ table w') → Q r h m w') →
  ok rely (pCreateRoute p clusterName hint (mkRoute n c)) h (S (S m)) Q w.
Proof.
  intros Hw Hd Hi Hn HQ. unfold pCreateRoute, pbind_ok. apply ok_bind.
  eapply ok_getInstance; [done|by eapply (node_name_only p rc insts keys)|]. intros w1 Hw1. cbn.
  exists m. split; [done|]. intros w2 Hw2. assert (rely w w2) as Hw02 by (by etrans). clear w1 Hw1 Hw2.
  set (args := mkRouteEntryArgs (routeTable p) c (i_InstanceId i)).
  pose proof (nodes_create w2 args) as Hnodes.
  destruct (decide (c ∈ re_DestinationCidrBlock <$> table w2)) as [Hin|Hnin].
  - apply list_elem_of_fmap in Hin as (r & Hrc & Hr).
    destruct (vpc_conflict w2 args) as (e & w3 & Heq & Hv & Hi3); [by exists r|].
    rewrite Heq in Hnodes |- *. simpl in *.
    assert (rely w2 w3) as Hr23 by (apply rely_same; [done..|by rewrite Hnodes]). split; [done|].
    apply HQ; [by etrans|]. intros [[=]|Hf].
    assert (fresh c i (table w2)) as Hf2 by (eapply evolves_fresh; [done|apply Hw02|done..]).
    unfold table in *. rewrite Hv, <- (Hf2 r); done.
  - destruct (vpc_create w2 args) as (w3 & Heq & Hi3 & Hv); [|].
    { intros r Hr Hrc. apply Hnin. simpl in Hrc. rewrite <- Hrc. by apply list_elem_of_fmap_2. }
    rewrite Heq in Hnodes |- *. simpl in *. fold (table w2) (table w3) in Hv. change (mkRouteEntry _ _ _) with (entry c i) in Hv.
    assert (rely w2 w3) as Hr23.
    { split_and!; [done|by rewrite Hnodes|]. rewrite Hv. by eapply evolves_add. }
    split; [done|]. apply HQ; [by etrans|]. intros _. rewrite Hv. apply elem_of_app. right. by left.
Qed.

(** A kept entry. *)
Lemma rely_entry n c i w w' :
  desired keys n c → i ∈ insts → node_name p i = Some n → rely w w' →
  entry c i ∈ table w → entry c i ∈ table w'.
Proof. intros Hd Hi Hn (_ & _ & Hev). eapply evolves_keeps; [done|done|]. by exists n, c, i. Qed.

Lemma rely_insts w w' : rely w w' → vpc_insts w = insts → vpc_insts w' = insts.
Proof. intros (-> & _) ->. done. Qed.

(** The goroutine of a creation: at most seven steps an attempt. *)
Lemma ok_create (G : Prop) tries n c i hint m w :
  vpc_insts w = insts → desired keys n c → i ∈ insts → node_name p i = Some n →
  (G → fresh c i (table w)) → (7 * tries ≤ m)%nat → (1 ≤ tries)%nat →
  ok_thread rely (create_route tries rc n hint (mkRoute n c)) false m
    (λ w', G → entry c i ∈ table w') w.
Proof.
  intros Hw Hd Hi Hn HG. revert m w Hw HG. induction tries as [|tries IH]; intros m w Hw HG Hm Ht; [lia|].
  destruct m as [|[|[|m]]]; [lia..|]. unfold ok_thread. cbn [create_route ok]. split; [done|].
  eexists. split; [done|]. apply ok_bind. eapply ok_create_entry; [done..|].
  intros r w1 Hw1 Hr. cbn [ok]. split; [done|]. destruct m as [|m]; [lia|]. eexists. split; [done|].
  apply ok_bind. apply ok_update; [unfold updateNodeStatusMaxRetries; lia|].
  intros e m' w2 Hm' Hw2. unfold updateNodeStatusMaxRetries in Hm'.
  assert (G → entry c i ∈ table w2) as Hin2.
  { intros HG'. eapply rely_entry; [done..|]. apply Hr. right. auto. }
  destruct r as [[]|e'].
  - cbn. done.
  - destruct tries as [|tries]; [by cbn|]. apply IH; [| |lia|lia].
    + eapply rely_insts; [|exact Hw]. by etrans.
    + intros HG'. eapply evolves_fresh; [exact HC|apply (transitivity Hw1 Hw2)|done..|]. auto.
Qed.

(** The goroutine of a deletion. *)
Lemma ok_delete n c i w :
  vpc_insts w = insts → responsible rc c = true → i ∈ insts → node_name p i = Some n →
  ¬ desired keys n c →
  ok_thread rely (delete_route rc (mkRoute n c)) false 2 (λ w', absent c i (table w')) w.
Proof.
  intros Hw Hr Hi Hn Hd. unfold ok_thread, delete_route. apply ok_bind.
  cbn [rc_routes rc rs_DeleteRoute aliyun_routes]. unfold pDeleteRoute, pbind_ok. apply ok_bind.
  eapply ok_getInstance; [done|by eapply (node_name_only p rc insts keys)|]. intros w1 Hw1. cbn.
  exists 0%nat. split; [done|]. intros w2 Hw2.
  set (args := mkRouteEntryArgs (routeTable p) c (i_InstanceId i)).
  pose proof (nodes_delete w2 args) as Hnodes. destruct (vpc_delete w2 args) as (w3 & Heq & Hi3 & Hv).
  rewrite Heq in Hnodes |- *. simpl in *. fold (table w2) (table w3) in Hv. split.
  - split_and!; [done|by rewrite Hnodes|]. rewrite Hv. by eapply evolves_remove.
  - split; [done|]. intros e. rewrite Hv. intros [He _]%list_elem_of_filter. done.
Qed.

Lemma stable_create (G : Prop) n c i :
  desired keys n c → i ∈ insts → node_name p i = Some n → stable rely (λ w, G → entry c i ∈ table w).
Proof. intros Hd Hi Hn w w' Hw Hr HG. eapply rely_entry; eauto. Qed.

Lemma stable_delete n c i :
  i ∈ insts → node_name p i = Some n → ¬ desired keys n c → stable rely (λ w, absent c i (table w)).
Proof. intros Hi Hn Hd w w' Hw (_ & _ & Hev). by eapply evolves_absent. Qed.

(** ** The loops of a round *)

(** [nodeCIDRs] after the first loop. *)
Definition node_cidrs (ns : list KNode) (cidrs : gmap string string) : gmap string string :=
  foldl (λ m node, if bool_decide (kn_PodCIDR node = "") then m
                   else <[kn_Name node := kn_PodCIDR node]> m) cidrs ns.

Lemma node_cidrs_lookup ns cidrs n c :
  NoDup (node_key <$> ns).*1 →
  (∀ c', cidrs !! n = Some c' → n ∉ (node_key <$> ns).*1) →
  node_cidrs ns cidrs !! n = Some c ↔ cidrs !! n = Some c ∨ ((n, c) ∈ node_key <$> ns ∧ c ≠ "").
Proof.
  revert cidrs. induction ns as [|node ns IH]; intros cidrs; simpl.
  { intros _ _. rewrite elem_of_nil. tauto. }
  intros [Hnin Hnd]%NoDup_cons Hc.
  assert (∀ c', cidrs !! n = Some c' → n ≠ kn_Name node ∧ n ∉ (node_key <$> ns).*1) as Hc'
    by (intros c' [??]%Hc%not_elem_of_cons; done).
  rewrite elem_of_cons. unfold node_key at 1. case_bool_decide as H0.
  - rewrite IH by naive_solver. naive_solver.
  - rewrite IH; [|done|].
    2:{ intros c'. destruct (decide (kn_Name node = n)) as [<-|Hne]; [done|].
        rewrite lookup_insert_ne by done. naive_solver. }
    destruct (decide (kn_Name node = n)) as [<-|Hne].
    + rewrite lookup_insert_eq. split; [naive_solver|]. intros [Hs|[[[= ->]|Hin] _]]; [naive_solver|by left|].
      destruct Hnin. by apply (list_elem_of_fmap_2 fst) in Hin.
    + rewrite lookup_insert_ne by done. naive_solver.
Qed.

(** A route of the map is one of the listed. *)
Lemma route_map_elem routes n r : route_map routes !! n = Some r → r ∈ routes ∧ r_TargetNode r = n.
Proof.
  unfold route_map. assert (∀ m : gmap string Route,
    (∀ n r, m !! n = Some r → r ∈ routes ∧ r_TargetNode r = n) → ∀ l, (∀ r, r ∈ l → r ∈ routes) →
    foldl (λ m route, <[r_TargetNode route := route]> m) m l !! n = Some r →
    r ∈ routes ∧ r_TargetNode r = n) as Hgen.
  { intros m Hm l. revert m Hm. induction l as [|x l IH]; intros m Hm Hl; [apply Hm|]. simpl. apply IH.
    - intros n' r' [[<- <-]|[_ ?]]%lookup_insert_Some; [|by apply Hm]. split; [|done]. apply Hl. by left.
    - intros r' Hr'. apply Hl. by right. }
  apply Hgen; [done|done].
Qed.

(** Every node's route is there. *)
Definition placed (ns : list KNode) (w : W) : Prop :=
  ∀ node i, node ∈ ns → kn_PodCIDR node ≠ "" → i ∈ insts → node_name p i = Some (kn_Name node) →
    entry (kn_PodCIDR node) i ∈ table w.

Definition all_fresh (w : W) : Prop :=
  ∀ n c i, desired keys n c → i ∈ insts → node_name p i = Some n → fresh c i (table w).

Lemma rely_fresh w w' : rely w w' → all_fresh w → all_fresh w'.
Proof. intros (_ & _ & Hev) Hf n c i Hd Hi Hn. eapply evolves_fresh; [exact HC|exact Hev|done..|]. by eapply Hf. Qed.

Lemma calls_only_update tries node created err : calls_only (update_condition tries node created err).
Proof.
  revert err. induction tries as [|tries IH]; intros err; [done|]. cbn. intros [e|]; [|done].
  by destruct (IsConflict e).
Qed.

Lemma ok_refresh node F (Q : unit → (W → Prop) → W → Prop) w :
  (∀ w', rely w w' → Q tt F w') → ok_main rely (refresh_condition node) F Q w.
Proof.
  intros HQ. assert (ok_main rely (_ ← updateNetworkingCondition (kn_Name node) true; mret tt) F Q w) as Hu.
  { apply ok_main_bind. eapply (ok_ok_main _ _ _ false updateNodeStatusMaxRetries); [apply calls_only_update|].
    apply ok_update; [done|]. intros e n' w' _ Hw'. cbn. by apply HQ. }
  unfold refresh_condition. destruct (GetNodeCondition _ _) as [c|]; [|exact Hu].
  case_bool_decide; [|exact Hu]. cbn. by apply HQ.
Qed.

(** The first loop: once its goroutines are done, every node has its route, if the
    destinations were free. *)
Lemma ok_reconcile_nodes (G : Prop) T1 ns cidrs F (Q : gmap string string → (W → Prop) → W → Prop) w :
  vpc_insts w = insts → evolves p rc insts keys T1 (table w) →
  (∀ node, node ∈ ns → kn_PodCIDR node ≠ "" → desired keys (kn_Name node) (kn_PodCIDR node)) →
  (G → all_fresh w) →
  (∀ F' w', rely w w' → (∀ w'', F' w'' → F w'' ∧ (rely w' w'' → G → placed ns w'')) →
     Q (node_cidrs ns cidrs) F' w') →
  ok_main rely (reconcile_nodes rc (route_map (omap (route_of p insts) T1)) ns cidrs) F Q w.
Proof.
  revert cidrs F w. induction ns as [|node ns IH]; intros cidrs F w Hw HT Hns HG HQ.
  { cbn. apply HQ; [done|]. intros w'' HF. split; [done|]. intros _ _ node i Hin. by apply elem_of_nil in Hin. }
  cbn [reconcile_nodes]. unfold node_cidrs in HQ. cbn [foldl] in HQ.
  destruct (decide (kn_PodCIDR node = "")) as [H0|H0].
  { rewrite bool_decide_true by done. rewrite bool_decide_true in HQ by done.
    apply IH; [done|done| |done|].
    - intros node' Hin. apply Hns. by right.
    - intros F' w' Hw' HF'. apply HQ; [done|]. intros w'' [HF Hp]%HF'. split; [done|].
      intros Hr HG' node' i [->|Hin]%elem_of_cons; [done|]. by apply Hp. }
  rewrite bool_decide_false by done. rewrite bool_decide_false in HQ by done.
  assert (desired keys (kn_Name node) (kn_PodCIDR node)) as Hd by (apply Hns; [by left|done]).
  destruct (ok_targets _ _ _ _ HC _ _ Hd) as (i & Hi & Hn).
  assert (∀ w' F', rely w w' → (∀ w'', F' w'' → F w'' ∧ (rely w' w'' → G → entry (kn_PodCIDR node) i ∈ table w'')) →
    ok_main rely (reconcile_nodes rc (route_map (omap (route_of p insts) T1)) ns
      (<[kn_Name node := kn_PodCIDR node]> cidrs)) F' Q w') as Hrest.
  { intros w' F' Hw' HF'. apply IH.
    - by eapply rely_insts.
    - eapply (transitivity (R := evolves p rc insts keys)); [exact HT|apply Hw'].
    - intros node' Hin. apply Hns. by right.
    - intros HG'. eapply rely_fresh; [done|auto].
    - intros F'' w'' Hw'' HF''. apply HQ; [by etrans|]. intros w3 [HF3 Hp]%HF''. apply HF' in HF3 as [HF3 Hent].
      split; [done|]. intros Hr HG' node' i' [->|Hin]%elem_of_cons; [|by apply Hp].
      intros _ Hi' Hn'. rewrite (node_name_inj p rc insts keys HC i' i _ Hi' Hi Hn' Hn). apply Hent; [|done]. by etrans. }
  case_bool_decide as Hm.
  - apply ok_main_bind, ok_refresh. intros w' Hw'. apply Hrest; [done|]. intros w'' HF. split; [done|]. intros Hr _.
    apply fmap_Some in Hm as ([m c] & [Hin Hmn]%route_map_elem & Hc). simpl in Hmn, Hc. subst m c.
    apply (listed p rc insts keys HC) in Hin as (i' & Hi' & Hn' & He).
    rewrite <- (node_name_inj p rc insts keys HC i' i _ Hi' Hi Hn' Hn).
    eapply evolves_keeps; [exact HC|..|exact He].
    + eapply (transitivity (R := evolves p rc insts keys)); [exact HT|]. apply (transitivity Hw' Hr).
    + by exists (kn_Name node), (kn_PodCIDR node), i'.
  - cbn [ok_main]. exists (7 * maxRetries)%nat, (λ w', G → entry (kn_PodCIDR node) i ∈ table w'). split_and!.
    + by eapply stable_create.
    + apply ok_create; [done..| |lia|unfold maxRetries; lia]. intros HG'. by eapply HG.
    + apply Hrest; [done|]. intros w'' [HF He]. split; [done|]. auto.
Qed.

(** The second loop: once its goroutines are done, no route that no node has is left
    of those that were listed. *)
Lemma ok_reconcile_routes cidrs routes F (Q : unit → (W → Prop) → W → Prop) w :
  vpc_insts w = insts → (∀ n c, cidrs !! n = Some c ↔ desired keys n c) →
  (∀ n c, mkRoute n c ∈ routes → ∃ i, i ∈ insts ∧ node_name p i = Some n) →
  (∀ F', (∀ w', F' w' → F w' ∧ ∀ n c i, mkRoute n c ∈ routes → responsible rc c = true →
            ¬ desired keys n c → i ∈ insts → node_name p i = Some n → absent c i (table w')) → Q tt F' w) →
  ok_main rely (reconcile_routes rc cidrs routes) F Q w.
Proof.
  intros Hw Hcidrs. revert F. induction routes as [|[n c] routes IH]; intros F Hroutes HQ.
  { cbn. apply HQ. intros w' HF. split; [done|]. intros n c i Hin. by apply elem_of_nil in Hin. }
  cbn [reconcile_routes]. change (isResponsibleForRoute rc _) with (responsible rc c). simpl r_TargetNode. simpl r_DestinationCIDR.
  assert (∀ n c, mkRoute n c ∈ routes → ∃ i, i ∈ insts ∧ node_name p i = Some n) as Hroutes'
    by (intros n' c' Hin; apply (Hroutes n' c'); by right).
  assert (default "" (cidrs !! n) = c → responsible rc c = true → desired keys n c) as Hmatch.
  { intros Hc Hr. apply Hcidrs. destruct (cidrs !! n) as [c'|] eqn:Hl; simpl in Hc; [by subst|]. by subst c. }
  destruct (responsible rc c) eqn:Hr; simpl.
  2:{ apply IH; [done|]. intros F' HF'. apply HQ. intros w' [HF Ha]%HF'. split; [done|].
      intros n' c' i [[= -> ->]|Hin]%elem_of_cons; [by rewrite Hr|by apply Ha]. }
  case_bool_decide as Hne.
  - assert (¬ desired keys n c) as Hd by (intros Hd%Hcidrs; rewrite Hd in Hne; done).
    destruct (Hroutes n c) as (i & Hi & Hn); [by left|].
    cbn [ok_main]. exists 2%nat, (λ w', absent c i (table w')). split_and!.
    + by eapply stable_delete.
    + by apply ok_delete.
    + apply IH; [done|]. intros F' HF'. apply HQ. intros w' [[HF Hai] Ha]%HF'. split; [done|].
      intros n' c' i' [[= -> ->]|Hin]%elem_of_cons; [|by apply Ha]. intros _ _ Hi' Hn'.
      by rewrite (node_name_inj p rc insts keys HC i' i _ Hi' Hi Hn' Hn).
  - assert (desired keys n c) as Hd by (apply Hmatch; [|done]; by destruct (decide (default "" (cidrs !! n) = c))).
    apply IH; [done|]. intros F' HF'. apply HQ. intros w' [HF Ha]%HF'. split; [done|].
    intros n' c' i' [[= -> ->]|Hin]%elem_of_cons; [done|by apply Ha].
Qed.

(** ** A round *)

(** A listing sees the table of one moment. *)
Lemma ok_list F (Q : result (list Route) → (W → Prop) → W → Prop) w :
  vpc_insts w = insts →
  (∀ w', rely w w' → Q (Ok (omap (route_of p insts) (table w'))) F w') →
  ok_main rely (pListRoutes p clusterName) F Q w.
Proof.
  intros Hw HQ. unfold pListRoutes, pgetInstances, pbind_ok. cbn [pcall pbind mbind prog_bind ok_main]. intros w0 Hw0.
  change (mkDescribeInstancesArgs _ _ _) with (instances_query p).
  pose proof (nodes_instances w0 (instances_query p)) as Hn.
  destruct (vpc_instances w0 (instances_query p)) as (pr & w1 & Heq & Hv & Hi').
  rewrite Heq in Hn |- *. simpl in Hn |- *. assert (rely w0 w1) as Hr by (apply rely_same; [done..|by rewrite Hn]).
  split; [done|]. intros w2 Hw2. set (args := mkDescribeRouteTablesArgs _ _ _).
  pose proof (nodes_tables w2 args) as Hn2.
  destruct (vpc_describe w2 args) as (t & pr2 & w3 & Heq2 & Ht & Hv2 & Hi2).
  rewrite Heq2 in Hn2 |- *. simpl in Hn2 |- *. assert (rely w2 w3) as Hr2 by (apply rely_same; [done..|by rewrite Hn2]).
  split; [done|]. assert (vpc_insts w0 = insts) as -> by (by eapply rely_insts).
  rewrite plist_entries_done by apply HC. cbn. rewrite app_nil_r, Ht. simpl.
  change (vpc w2 (routeTable p)) with (table w2). replace (table w2) with (table w3) by (unfold table; by rewrite Hv2).
  apply HQ. by do 3 (etrans; [done|]).
Qed.

(** What a round leaves. *)
Definition round_done (w : W) (r : option error) (w' : W) : Prop :=
  r = None ∧ rely w w' ∧ settled p rc insts keys (table w') ∧
  (settled p rc insts keys (table w) → converged p rc insts keys (table w')).

Lemma evolves_settled T T' :
  evolves p rc insts keys T T' → settled p rc insts keys T → settled p rc insts keys T'.
Proof.
  intros Hev Hs. eapply round_settled; [done..|]. intros n c i Hi Hn He Hr Hnd. destruct Hnd.
  apply (Hs (mkRoute n c)); [|done]. apply (listed p rc insts keys HC). by exists i.
Qed.

(** A converged table stays so under the goroutines of a round. *)
Lemma evolves_converged T T' :
  evolves p rc insts keys T T' → converged p rc insts keys T → converged p rc insts keys T'.
Proof.
  intros Hev Hc. apply (round_converged p rc insts keys HC).
  - apply (evolves_settled T T' Hev). intros [n c] Hin Hr. by apply Hc.
  - intros n c i Hd Hi Hn. eapply evolves_keeps; [exact HC|exact Hev|by exists n, c, i|].
    assert (mkRoute n c ∈ omap (route_of p insts) T) as Hin
      by (apply Hc; [by eapply (ok_inside _ _ _ _ HC)|done]).
    apply (listed p rc insts keys HC) in Hin as (i' & Hi' & Hn' & He).
    by rewrite (node_name_inj p rc insts keys HC i i' n).
Qed.

Lemma round_done_stable w r : stable rely (round_done w r).
Proof.
  intros w1 w2 (-> & Hw & Hs & Hc) Hr. split_and!; [done|by etrans| |].
  - eapply evolves_settled; [apply Hr|done].
  - intros H0. eapply evolves_converged; [apply Hr|auto].
Qed.

Lemma ok_round w :
  vpc_insts w = insts → node_key <$> nodes w = keys → routed insts keys (table w) →
  ok_main rely (reconcileNodeRoutes rc) (λ _, True) (λ r _, round_done w r) w.
Proof.
  intros Hw Hk Hrt. unfold reconcileNodeRoutes. apply ok_main_bind.
  apply ok_list; [done|]. intros w1 Hw1. cbn [pcall mbind prog_bind pbind ok_main]. intros w2 Hw2.
  destruct (nodes_list w2) as (w3 & Heq & Hv & Hi & Hn). rewrite Heq. simpl fst. simpl snd.
  assert (rely w2 w3) as Hr23 by (apply rely_same; [done..|by rewrite Hn]). split; [done|].
  assert (rely w1 w3) as Hw13 by (by etrans). assert (rely w w3) as Hw3 by (by etrans).
  assert (node_key <$> nodes w2 = keys) as Hk2.
  { rewrite <- Hn. destruct Hw3 as (_ & -> & _). done. }
  cbn beta iota. unfold reconcile. apply ok_main_bind.
  eapply (ok_reconcile_nodes (settled p rc insts keys (table w))).
  - by eapply rely_insts.
  - apply Hw13.
  - intros node Hin H0. split; [|done]. rewrite <- Hk2. by apply (list_elem_of_fmap_2 node_key) in Hin.
  - intros Hs. eapply rely_fresh; [exact Hw3|]. intros n c i. by apply (settled_fresh p rc insts keys HC).
  - intros F w4 Hw4 HF. apply ok_main_bind.
    assert (rely w w4) as Hw04 by (by etrans).
    apply ok_reconcile_routes.
    + by eapply rely_insts.
    + intros n c. rewrite node_cidrs_lookup by (rewrite Hk2; apply HC || done). unfold desired. rewrite Hk2.
      rewrite lookup_empty. naive_solver.
    + intros n c (i & Hi' & Hn' & _)%(listed p rc insts keys HC). eauto.
    + intros F' HF'. cbn [ok_main]. intros w5 Hw5 [[_ Hpl]%HF Habs]%HF'. cbn.
      assert (rely w1 w5) as Hw15 by (by do 2 (etrans; [done|])).
      assert (settled p rc insts keys (table w5)) as Hs5.
      { eapply round_settled; [exact HC|apply Hw15|]. intros n c i Hi' Hn' He Hr Hnd.
        eapply Habs; [|done..]. apply (listed p rc insts keys HC). by exists i. }
      split_and!; [done|by etrans|done|]. intros Hs. apply (round_converged p rc insts keys HC); [done|].
      intros n c i [Hin H0] Hi' Hn'. rewrite <- Hk2 in Hin. apply list_elem_of_fmap in Hin as (node & [= -> ->] & Hnode).
      by apply (Hpl Hw5 Hs node i).
Qed.

End rounds.

(** ** Theorems *)

Section theorems.
Context {W : Type} `{!Handler req W} `{!VPC W} `{!Nodes W}.
Context (p : AliyunProvider) (clusterName : string) (clusterCIDR : IPNet).
Implicit Types (w : W).

(** The route controller of a cluster, with the provider's routes. *)
Let rc : RouteController (prog req) := mkRouteController (aliyun_routes p) clusterName clusterCIDR.

Lemma round_eventually insts keys w :
  cluster_ok p rc insts keys → vpc_insts w = insts → node_key <$> nodes w = keys →
  routed insts keys (vpc w (routeTable p)) →
  eventually maxConcurrentRouteCreations
    (ended (round_done p clusterName clusterCIDR insts keys w)) (init (reconcileNodeRoutes rc) w).
Proof.
  intros HC Hi Hk Hr. apply (ok_main_sound _ (rely p clusterName clusterCIDR insts keys)).
  - intros r. by apply round_done_stable.
  - unfold maxConcurrentRouteCreations. lia.
  - by apply ok_round.
Qed.


(** C14: at every moment of a round, on every schedule: an entry of the table is
    still there unless it is a route in the cluster's CIDR to an instance whose node
    does not have it, and an entry that is new is the route of a node.  So traffic
    of the nodes is never interrupted, and foreign routes are left alone. *)
Theorem reconcile_keeps_routes w c :
  cluster_ok p rc (vpc_insts w) (node_key <$> nodes w) →
  routed (vpc_insts w) (node_key <$> nodes w) (vpc w (routeTable p)) →
  rtc (step maxConcurrentRouteCreations) (init (reconcileNodeRoutes rc) w) c →
  (∀ e, e ∈ vpc w (routeTable p) → ¬ doomed p rc (vpc_insts w) (node_key <$> nodes w) e →
     e ∈ vpc (c_world c) (routeTable p)) ∧
  (∀ e, e ∈ vpc (c_world c) (routeTable p) →
     e ∈ vpc w (routeTable p) ∨ wanted p (vpc_insts w) (node_key <$> nodes w) e).
Proof.
  intros HC Hr Hc.
  pose proof (ok_main_always maxConcurrentRouteCreations (rely p clusterName clusterCIDR (vpc_insts w) (node_key <$> nodes w))
    (round_done p clusterName clusterCIDR (vpc_insts w) (node_key <$> nodes w) w)) as Halways.
  apply Halways in Hc as (_ & _ & Hev); [exact Hev| |unfold maxConcurrentRouteCreations; lia|by apply ok_round].
  intros r. by apply round_done_stable.
Qed.

End theorems.

(** ** A cluster in memory *)

(** A cloud and the nodes of an API server. *)
Record cluster : Type := mkCluster { k_cloud : cloud; k_nodes : list KNode }.

Definition set_condition (name : string) (c : NodeCondition) (node : KNode) : KNode :=
  if bool_decide (kn_Name node = name)
  then mkKNode (kn_Name node) (kn_UID node) (kn_PodCIDR node)
         (c :: base.filter (λ c', nc_Type c' ≠ nc_Type c) (kn_Conditions node)) (kn_Unschedulable node) (kn_Addresses node)
  else node.

#[export] Instance cluster_handler : Handler req cluster := λ R e w,
  let '(r, c) := handle e (k_cloud w) in
  match e in req R return R → R * cluster with
  | Kube k => λ _,
      match k in kreq R return R * cluster with
      | SetNodeCondition name cond =>
          (None, mkCluster (k_cloud w) (set_condition name cond <$> k_nodes w))
      | k => (sim_kube (k_nodes w) k, w)
      end
  | _ => λ r, (r, mkCluster c (k_nodes w))
  end r.

(** A request of the cloud is the cloud's. *)
Ltac lift_handle H :=
  match goal with
  | |- context [@handle _ _ cluster_handler ?R ?e ?w] =>
      change (@handle _ _ cluster_handler R e w) with
        (let '(r, c) := handle e (k_cloud w) in (r, mkCluster c (k_nodes w)))
  end; rewrite H.

#[export, refine] Instance cluster_vpc : VPC cluster :=
  {| vpc w := vpc (k_cloud w); vpc_insts w := vpc_insts (k_cloud w) |}.
Proof.
  - intros w args. destruct (vpc_instances (k_cloud w) args) as (pr & c & Heq & H1 & H2).
    exists pr, (mkCluster c (k_nodes w)). by lift_handle Heq.
  - intros w args. destruct (vpc_describe (k_cloud w) args) as (t & pr & c & Heq & H1 & H2 & H3).
    exists t, pr, (mkCluster c (k_nodes w)). by lift_handle Heq.
  - intros w args Hnew. destruct (vpc_create (k_cloud w) args Hnew) as (c & Heq & H1 & H2).
    exists (mkCluster c (k_nodes w)). by lift_handle Heq.
  - intros w args. destruct (vpc_delete (k_cloud w) args) as (c & Heq & H1 & H2).
    exists (mkCluster c (k_nodes w)). by lift_handle Heq.
Defined.

#[export, refine] Instance cluster_api : Nodes cluster := {| nodes := k_nodes |}.
Proof.
  - intros w. by exists w.
  - intros w name c. simpl. split_and!; [done..|]. rewrite <- list_fmap_compose.
    apply list_fmap_ext. intros _ node _. unfold set_condition, compose. by case_bool_decide.
  - done.
  - done.
  - intros w args. unfold handle, cluster_handler. by destruct (handle (CreateRouteEntry args) (k_cloud w)).
  - done.
  - intros w args (r & Hr & Hd). exists "InvalidCIDRBlock.Duplicate", w. simpl. unfold handle, cluster_handler, handle, sim_handler.
    replace (existsb _ _) with true; [by destruct w|]. symmetry. apply existsb_exists. exists r.
    split; [by apply list_elem_of_In|by apply bool_decide_eq_true].
Defined.

(** ** Witnesses *)

Module ReconcileWitness.
Import RouteWitness.

Definition clusterCIDR : IPNet := mkIPNet [172; 16; 0; 0] [255; 255; 0; 0].
Definition rc : RouteController (prog req) := mkRouteController (aliyun_routes provider) "cluster" clusterCIDR.

(** Two nodes whose routes are swapped in the table, beside a foreign route. *)
Definition gateway : RouteEntrySetType := mkRouteEntry "192.168.0.0/16" "Tunnel" "t-1".
Definition swapped : list RouteEntrySetType :=
  [mkRouteEntry "172.16.1.0/24" "Instance" "i-2"; gateway; mkRouteEntry "172.16.2.0/24" "Instance" "i-1"].
Definition w1 : cluster :=
  mkCluster (mkCloud ∅ [i1; i2] {[ "rtb-1" := swapped ]} ∅ [] 0)
    [mkKNode "10.0.0.1" "uid-1" "172.16.1.0/24" [] false [];
     mkKNode "10.0.0.2" "uid-2" "172.16.2.0/24" [] false []].
Definition keys : list (string * string) :=
  [("10.0.0.1", "172.16.1.0/24"); ("10.0.0.2", "172.16.2.0/24")].

Lemma desired_keys n c :
  desired keys n c → (n = "10.0.0.1" ∧ c = "172.16.1.0/24") ∨ (n = "10.0.0.2" ∧ c = "172.16.2.0/24").
Proof. intros [Hin _]. unfold keys in Hin. rewrite !elem_of_cons, elem_of_nil in Hin. naive_solver. Qed.

Lemma cluster_in_order : cluster_ok provider rc [i1; i2] keys.
Proof.
  split.
  - apply named_all.
  - unfold distinct_names. simpl. apply (bool_decide_unpack _). vm_compute. exact I.
  - apply (bool_decide_unpack _). vm_compute. exact I.
  - apply (bool_decide_unpack _). vm_compute. exact I.
  - intros n n' c [[-> ->]|[-> ->]]%desired_keys [[-> ?]|[-> ?]]%desired_keys; done.
  - intros n c [[-> ->]|[-> ->]]%desired_keys; [exists i1|exists i2]; (split; [|done]); [left|right; left].
  - intros n c [[-> ->]|[-> ->]]%desired_keys; reflexivity.
Qed.

Lemma swapped_routed : routed [i1; i2] keys swapped.
Proof.
  intros e n He Hd%desired_keys. unfold swapped, gateway in He. rewrite !elem_of_cons, elem_of_nil in He.
  destruct He as [->|[->|[->|[]]]]; simpl in Hd.
  - split; [done|]. exists i2. split; [right; left|done].
  - by destruct Hd as [[_ ?]|[_ ?]].
  - split; [done|]. exists i1. split; [left|done].
Qed.


(** After the three listings and the start of the first goroutine. *)
Lemma reconcile_keeps_routes_witness :
  ∃ c, rtc (step maxConcurrentRouteCreations) (init (reconcileNodeRoutes rc) w1) c ∧
    length (c_threads c) = 1%nat ∧ gateway ∈ vpc (c_world c) "rtb-1".
Proof.
  assert (∃ c, rtc (step maxConcurrentRouteCreations) (init (reconcileNodeRoutes rc) w1) c ∧
    length (c_threads c) = 1%nat) as (c & Hc & Ht).
  { eexists. split.
    - do 4 (eapply rtc_l; [eapply step_main; reflexivity|]). apply rtc_refl.
    - reflexivity. }
  exists c. split_and!; [done..|].
  apply (reconcile_keeps_routes provider "cluster" clusterCIDR w1 c); [exact cluster_in_order|exact swapped_routed|exact Hc|..].
  - right. left.
  - intros [Hr _]. vm_compute in Hr. done.
Defined.

End ReconcileWitness.
