(* ===== verification/WorkQueueSpec.v ===== *)
(** * Theorems about work queues

    A key is never given to two workers at once, an added key is processed after it was
    added, and an entry that waits keeps its earliest time. *)

From stdpp Require Import sorting.
From S2P Require Import Prelude GoStd WorkQueue.

(** ** The queue *)

(** What happens to a queue: an addition, a worker that takes a key, a worker that is
    done with the key it took, the shutdown. *)
Inductive qop : Type := OAdd (k : string) | OGet (k : string) | ODone (k : string) | OShutDown.

Definition qstep (q : queue) (op : qop) : option queue :=
  match op with
  | OAdd k => Some (Add q k)
  | OGet k => match Get q with
              | Some (Some k', q') => if bool_decide (k = k') then Some q' else None
              | _ => None
              end
  | ODone k => if bool_decide (k ∈ q_processing q) then Some (QDone q k) else None
  | OShutDown => Some (QShutDown q)
  end.

Fixpoint qrun (q : queue) (ops : list qop) : option queue :=
  match ops with
  | [] => Some q
  | op :: ops' => q' ← qstep q op; qrun q' ops'
  end.

(** The queue holds, once each, the keys that need processing and are not being
    processed. *)
Record queue_inv (q : queue) : Prop := {
  qi_nodup : NoDup (q_queue q);
  qi_queue : ∀ k, k ∈ q_queue q ↔ k ∈ q_dirty q ∧ k ∉ q_processing q }.

Lemma queue_inv_new : queue_inv NewQueue.
Proof. split; [constructor|]. intros k. set_solver. Qed.

Lemma queue_inv_Add q k : queue_inv q → queue_inv (Add q k).
Proof.
  intros [Hnd Hq]. unfold Add. destruct (q_shuttingDown q); [done|]. case_bool_decide as Hd; [done|].
  case_bool_decide as Hp; split; simpl.
  - done.
  - intros k'. rewrite Hq. set_solver.
  - apply NoDup_app. split_and!; [done| |apply NoDup_singleton]. intros k'. rewrite Hq. set_solver.
  - intros k'. rewrite elem_of_app, Hq. set_solver.
Qed.

Lemma queue_inv_step q op q' : queue_inv q → qstep q op = Some q' → queue_inv q'.
Proof.
  intros Hinv. pose proof Hinv as [Hnd Hq]. destruct op as [k|k|k|]; simpl.
  - intros [= <-]. by apply queue_inv_Add.
  - unfold Get. destruct (q_queue q) as [|k' rest] eqn:Eq; [by destruct (q_shuttingDown q)|].
    case_bool_decide; [|done]. intros [= <-]. apply NoDup_cons in Hnd as [Hk Hnd]. split; [done|].
    intros x. specialize (Hq x). simpl. rewrite elem_of_cons in Hq. set_solver.
  - case_bool_decide as Hp; [|done]. intros [= <-]. unfold QDone. case_bool_decide as Hd; split; simpl.
    + apply NoDup_app. split_and!; [done| |apply NoDup_singleton]. intros k'. rewrite Hq. set_solver.
    + intros k'. rewrite elem_of_app, Hq. destruct (decide (k' = k)); set_solver.
    + done.
    + intros k'. rewrite Hq. destruct (decide (k' = k)); set_solver.
  - intros [= <-]. by split.
Qed.

Lemma queue_inv_run q ops q' : queue_inv q → qrun q ops = Some q' → queue_inv q'.
Proof.
  revert q. induction ops as [|op ops IH]; intros q Hinv; simpl; [by intros [= <-]|].
  destruct (qstep q op) as [q1|] eqn:Hs; [|done]. simpl. apply IH. by eapply queue_inv_step.
Qed.

Lemma qrun_app q ops1 ops2 : qrun q (ops1 ++ ops2) = q1 ← qrun q ops1; qrun q1 ops2.
Proof.
  revert q. induction ops1 as [|op ops1 IH]; intros q; simpl; [done|].
  destruct (qstep q op); simpl; [apply IH|done].
Qed.

(** A key stays dirty until a worker takes it. *)
Lemma dirty_until_taken q ops q' k :
  qrun q ops = Some q' → k ∈ q_dirty q → k ∈ q_dirty q' ∨ OGet k ∈ ops.
Proof.
  revert q. induction ops as [|op ops IH]; intros q; simpl; [intros [= <-]; by left|].
  destruct (qstep q op) as [q1|] eqn:Hs; [|done]. simpl. intros Hr Hk.
  assert (k ∈ q_dirty q1 ∨ op = OGet k) as [H1| ->]; [|destruct (IH _ Hr H1); set_solver|set_solver].
  destruct op as [k'|k'|k'|]; simpl in Hs.
  - injection Hs as <-. left. unfold Add. destruct (q_shuttingDown q); [done|]. case_bool_decide; [done|]. set_solver.
  - unfold Get in Hs. destruct (q_queue q) as [|x rest]; [by destruct (q_shuttingDown q)|].
    case_bool_decide; [|done]. injection Hs as <-. subst. simpl. destruct (decide (k = x)) as [->|]; [by right|]. set_solver.
  - case_bool_decide; [|done]. injection Hs as <-. by left.
  - injection Hs as <-. by left.
Qed.

(** C26: the queue's two promises, after any sequence of additions, workers taking keys
    and workers being done: no key is taken while another worker has it, and a key
    that was added after the last time it was taken is still in the queue, or is being
    processed and will be queued again when that worker is done. *)
Theorem queue_promises ops1 ops2 k q :
  qrun NewQueue (ops1 ++ OAdd k :: ops2) = Some q → OShutDown ∉ ops1 →
  (∀ q', qstep q (OGet k) = Some q' → k ∉ q_processing q) ∧
  (OGet k ∉ ops2 → k ∈ q_queue q ∨
     k ∈ q_processing q ∧ ∃ q', qstep q (ODone k) = Some q' ∧ k ∈ q_queue q').
Proof.
  intros Hr Hns. pose proof (queue_inv_run _ _ _ queue_inv_new Hr) as [_ Hq].
  rewrite qrun_app in Hr. destruct (qrun NewQueue ops1) as [q0|] eqn:H0; [|done]. simpl in Hr.
  assert (q_shuttingDown q0 = false) as Hup.
  { clear Hr Hq. assert (q_shuttingDown NewQueue = false) as Hnew by done. revert Hnew H0. generalize NewQueue.
    induction ops1 as [|op ops1 IH]; intros q1 H1; simpl; [by intros [= <-]|].
    destruct (qstep q1 op) as [q2|] eqn:Hs; [|done]. simpl. apply IH; [set_solver|].
    destruct op as [k'|k'|k'|]; simpl in Hs.
    - injection Hs as <-. unfold Add. rewrite H1. by case_bool_decide.
    - unfold Get in Hs. destruct (q_queue q1); [by rewrite H1 in Hs|]. case_bool_decide; [|done]. by injection Hs as <-.
    - case_bool_decide; [|done]. by injection Hs as <-.
    - set_solver. }
  split.
  - intros q' Hs. simpl in Hs. unfold Get in Hs. destruct (q_queue q) as [|x rest]; [by destruct (q_shuttingDown q)|].
    case_bool_decide; [|done]. subst. by apply (Hq x), elem_of_cons; left.
  - intros Hn. assert (k ∈ q_dirty (Add q0 k)) as Hd.
    { unfold Add. rewrite Hup. case_bool_decide; [done|]. set_solver. }
    destruct (dirty_until_taken _ _ _ _ Hr Hd) as [Hd'|]; [|done].
    destruct (decide (k ∈ q_processing q)) as [Hp|Hp]; [right|left; by apply Hq].
    split; [done|]. simpl. rewrite bool_decide_true by done. eexists. split; [done|].
    unfold QDone. rewrite bool_decide_true by done. simpl. set_solver.
Qed.

(** ** Entries that wait *)

Definition before (e e' : waitFor) : Prop := wf_readyAt e ≤ wf_readyAt e'.

(** In order of their times, one for each key, and those that are known. *)
Record waiting_inv (entries : list waitFor) (known : gmap string Z) : Prop := {
  wi_sorted : StronglySorted before entries;
  wi_keys : NoDup (wf_data <$> entries);
  wi_known : ∀ k t, known !! k = Some t ↔ mkWaitFor k t ∈ entries }.

(** [search] splits the entries. *)
Lemma search_split f entries :
  Forall (λ e, f e = false) (take (search f entries) entries) ∧
  match drop (search f entries) entries with [] => True | e :: _ => f e = true end.
Proof.
  induction entries as [|e entries [IH1 IH2]]; simpl; [done|].
  destruct (f e) eqn:Hf; simpl; [done|]. by split; [constructor|].
Qed.

Lemma search_first f l1 e l2 :
  Forall (λ x, f x = false) l1 → f e = true → search f (l1 ++ e :: l2) = length l1.
Proof. induction 1 as [|x l1 Hx Hl IH]; intros He; simpl; [by rewrite He|]. rewrite Hx. f_equal. by apply IH. Qed.

(** The index of a known entry is the index of that entry. *)
Lemma findEntryIndex_spec entries known k t :
  waiting_inv entries known → known !! k = Some t →
  ∃ l1 l2, entries = l1 ++ mkWaitFor k t :: l2 ∧ findEntryIndex entries t k = length l1.
Proof.
  intros [Hs Hnd Hk] Ht. apply Hk in Ht. apply list_elem_of_split in Ht as (l1 & l2 & ->).
  exists l1, l2. split; [done|]. unfold findEntryIndex.
  set (f := λ e, (t <? wf_readyAt e) || (t =? wf_readyAt e)).
  assert (∃ a b, l1 = a ++ b ∧ search f (l1 ++ mkWaitFor k t :: l2) = length a) as (a & b & -> & Hi).
  { clear Hs Hnd Hk. induction l1 as [|x l1 (a & b & -> & Hi)].
    - exists [], []. split; [done|]. simpl. unfold f. simpl. by rewrite Z.eqb_refl, orb_true_r.
    - simpl. destruct (f x); [by exists [], (x :: a ++ b)|]. exists (x :: a), b. split; [done|]. simpl. by f_equal. }
  rewrite Hi, <-app_assoc, drop_app_length.
  rewrite search_first; [by rewrite length_app| |].
  - rewrite fmap_app, NoDup_app in Hnd. destruct Hnd as (_ & Hdis & _). apply Forall_forall. intros x Hx.
    apply bool_decide_eq_false. intros Hd. apply (Hdis (wf_data x)).
    + rewrite fmap_app, elem_of_app. right. by apply list_elem_of_fmap_2.
    + rewrite Hd. left.
  - by apply bool_decide_eq_true.
Qed.

(** Putting an entry in its place. *)
Lemma place_sorted entries e :
  StronglySorted before entries →
  let i := search (λ x, wf_readyAt e <? wf_readyAt x) entries in
  StronglySorted before (take i entries ++ e :: drop i entries).
Proof.
  induction 1 as [|x entries Hs IH Hx]; simpl; [by repeat constructor|].
  destruct (wf_readyAt e <? wf_readyAt x) eqn:Hlt; simpl.
  - apply Z.ltb_lt in Hlt. constructor; [by constructor|]. constructor; [unfold before; lia|].
    eapply Forall_impl; [exact Hx|]. unfold before. intros y ?. lia.
  - apply Z.ltb_ge in Hlt. constructor; [done|]. rewrite Forall_app, Forall_cons.
    rewrite <-(take_drop (search (λ y, wf_readyAt e <? wf_readyAt y) entries) entries), Forall_app in Hx.
    destruct Hx as [H1 H2]. split_and!; [done| |done]. unfold before. lia.
Qed.

Lemma sorted_remove l1 x l2 : StronglySorted before (l1 ++ x :: l2) → StronglySorted before (l1 ++ l2).
Proof.
  induction l1 as [|y l1 IH]; simpl; inversion 1 as [|? ? Hs Hy]; subst; [done|].
  constructor; [by apply IH|]. rewrite Forall_app, Forall_cons in Hy. rewrite Forall_app. naive_solver.
Qed.

Lemma place_entry_inv rest known entry :
  StronglySorted before rest → NoDup (wf_data <$> rest) →
  (∀ k t, mkWaitFor k t ∈ rest ↔ k ≠ wf_data entry ∧ known !! k = Some t) →
  let '(entries', known') := place_entry rest known entry in
  waiting_inv entries' known' ∧ known' = <[wf_data entry := wf_readyAt entry]> known.
Proof.
  intros Hs Hnd Hr. unfold place_entry. split; [|done].
  set (i := search _ rest). assert (take i rest ++ entry :: drop i rest ≡ₚ entry :: rest) as Hperm.
  { rewrite <-Permutation_middle. by rewrite take_drop. }
  split.
  - by apply place_sorted.
  - rewrite Hperm. simpl. apply NoDup_cons. split; [|done]. intros ([k t] & Heq & Hin)%list_elem_of_fmap_1.
    apply Hr in Hin as [Hne _]. by subst.
  - intros k t. rewrite Hperm, elem_of_cons, Hr, lookup_insert_Some. destruct entry as [ek et]; simpl.
    split; [intros [[<- <-]|[? ?]]|intros [[= -> ->]|[? ?]]]; auto.
Qed.

Lemma insert_entry_spec entries known entry :
  waiting_inv entries known →
  let '(entries', known') := insert_entry entries known entry in
  waiting_inv entries' known' ∧
  ∀ k, known' !! k =
    if bool_decide (k = wf_data entry)
    then Some (match known !! k with Some t => Z.min t (wf_readyAt entry) | None => wf_readyAt entry end)
    else known !! k.
Proof.
  intros Hinv. pose proof Hinv as [Hs Hnd Hk]. unfold insert_entry.
  destruct (known !! wf_data entry) as [t|] eqn:Ht.
  - destruct (t <? wf_readyAt entry) eqn:Hlt.
    { split; [done|]. intros k. case_bool_decide as Hd; [|done]. subst. rewrite Ht. f_equal.
      apply Z.ltb_lt in Hlt. lia. }
    apply Z.ltb_ge in Hlt. destruct (findEntryIndex_spec _ _ _ _ Hinv Ht) as (l1 & l2 & Heq & Hj).
    rewrite Hj, Heq. rewrite (proj2 (Nat.ltb_lt _ _)) by (rewrite length_app; simpl; lia).
    rewrite take_app_length, drop_app_ge by lia. replace (S (length l1) - length l1)%nat with 1%nat by lia.
    rewrite Heq in Hs, Hnd, Hk. simpl drop.
    rewrite fmap_app, fmap_cons, <-Permutation_middle in Hnd. apply NoDup_cons in Hnd as [Hnotin Hnd].
    rewrite <-fmap_app in Hnotin, Hnd. simpl in Hnotin.
    assert (∀ k t', mkWaitFor k t' ∈ l1 ++ l2 ↔ k ≠ wf_data entry ∧ known !! k = Some t') as Hr.
    { intros k t'. rewrite Hk, <-Permutation_middle, elem_of_cons. split.
      - intros Hin. split; [|by right]. intros ->. apply Hnotin.
        by apply (list_elem_of_fmap_2 wf_data) in Hin.
      - intros [Hne [[= -> ->]|Hin]]; [done|done]. }
    pose proof (place_entry_inv (l1 ++ l2) known entry (sorted_remove _ _ _ Hs) Hnd Hr) as Hplace.
    destruct (place_entry _ _ _) as [entries' known'].
    destruct Hplace as [Hinv' ->]. split; [done|]. intros k. case_bool_decide as Hd.
    + subst. rewrite lookup_insert_eq, Ht. f_equal. lia.
    + by rewrite lookup_insert_ne.
  - assert (∀ k t', mkWaitFor k t' ∈ entries ↔ k ≠ wf_data entry ∧ known !! k = Some t') as Hr.
    { intros k t'. rewrite <-Hk. split; [|naive_solver]. intros Hl. split; [|done]. congruence. }
    pose proof (place_entry_inv entries known entry Hs Hnd Hr) as Hplace.
    destruct (place_entry _ _ _) as [entries' known'].
    destruct Hplace as [Hinv' ->]. split; [done|]. intros k. case_bool_decide as Hd.
    + subst. by rewrite lookup_insert_eq, Ht.
    + by rewrite lookup_insert_ne.
Qed.

(** Waiting entries: after [insert] the entries are again in the order of their
    times with one entry for each key, the key inserted has the earlier of its old and
    its new time, and every other key keeps its own. *)
Theorem insert_keeps_earliest entries known entry :
  waiting_inv entries known →
  let '(entries', known') := insert_entry entries known entry in
  waiting_inv entries' known' ∧
  ∀ k, known' !! k =
    if bool_decide (k = wf_data entry)
    then Some (match known !! k with Some t => Z.min t (wf_readyAt entry) | None => wf_readyAt entry end)
    else known !! k.
Proof. apply insert_entry_spec. Qed.

(** A key that is added with a delay waits no longer than the delay. *)
Lemma AddAfter_waits q now item duration :
  q_shuttingDown (dq_queue q) = false → waiting_inv (dq_waiting q) (dq_known q) → 0 < duration →
  waiting_inv (dq_waiting (AddAfter q now item duration)) (dq_known (AddAfter q now item duration)) ∧
  dq_queue (AddAfter q now item duration) = dq_queue q ∧
  ∃ t, dq_known (AddAfter q now item duration) !! item = Some t ∧ t ≤ now + duration.
Proof.
  intros Hup Hinv Hd. unfold AddAfter. rewrite Hup, (proj2 (Z.leb_gt _ _) Hd).
  pose proof (insert_entry_spec _ _ (mkWaitFor item (now + duration)) Hinv) as Hi.
  destruct (insert_entry _ _ _) as [waiting known]. destruct Hi as [Hinv' Hk]. simpl. split_and!; [done|done|].
  eexists. rewrite Hk, bool_decide_true by done. split; [done|]. destruct (dq_known q !! item); simpl; lia.
Qed.

(** ** Witnesses *)

Module QueueWitness.

(** A key added while a worker has it. *)
Definition ops1 : list qop := [OAdd "a"; OAdd "b"; OGet "a"].
Definition ops2 : list qop := [OGet "b"; OAdd "a"].
Definition q : queue := mkQueue [] {["a"]} {["b"; "a"]} false.

Lemma queue_promises_witness :
  (∀ q', qstep q (OGet "a") = Some q' → "a" ∉ q_processing q) ∧
  (OGet "a" ∉ ops2 → "a" ∈ q_queue q ∨
     "a" ∈ q_processing q ∧ ∃ q', qstep q (ODone "a") = Some q' ∧ "a" ∈ q_queue q').
Proof.
  apply (queue_promises ops1 ops2 "a" q).
  - vm_compute. reflexivity.
  - unfold ops1. rewrite !not_elem_of_cons. by split_and!; [..|apply not_elem_of_nil].
Defined.

Definition entries : list waitFor := [mkWaitFor "a" 5; mkWaitFor "b" 9].
Definition known : gmap string Z := {["a" := 5; "b" := 9]}.

Lemma insert_keeps_earliest_witness :
  let '(entries', known') := insert_entry entries known (mkWaitFor "b" 3) in
  waiting_inv entries' known' ∧
  ∀ k, known' !! k =
    if bool_decide (k = "b")
    then Some (match known !! k with Some t => Z.min t 3 | None => 3 end)
    else known !! k.
Proof.
  apply (insert_keeps_earliest entries known (mkWaitFor "b" 3)). split.
  - repeat constructor; unfold before; simpl; lia.
  - apply (bool_decide_unpack _). vm_compute. exact I.
  - intros k t. unfold known, entries. rewrite lookup_insert_Some, lookup_singleton_Some, !elem_of_cons. split.
    + intros [[<- <-]|[_ [<- <-]]]; auto.
    + intros [[= -> ->]|[[= -> ->]|[]%not_elem_of_nil]]; [by left|by right].
Defined.

End QueueWitness.
