(* ===== verification/ServicesSpec.v ===== *)
(** * Theorems about the service controller, for every cloud

    Which updates it ignores, how it compares sets of nodes, how its retries are spaced,
    and what it does when the provider returns no status. *)

From stdpp Require Import sorting.
From S2P Require Import Prelude GoStd Kube Cloud MapUtils Provider Instances LoadBalancer Interfaces Flags WorkQueue WorkQueueSpec SimCloud InstancesSpec LBSpec Services.

(** ** Ignored updates *)

Lemma ports_for_lb_all wants protocol ports l : ports_for_lb wants protocol ports = Some l → l = ports.
Proof.
  revert protocol l. induction ports as [|sp ports IH]; intros protocol l; simpl; [by intros [= <-]|].
  case_bool_decide; [|destruct (_ && _); [done|]]; intros (l' & Hl & ->)%fmap_Some; by rewrite (IH _ _ Hl).
Qed.

Lemma portSlicesEqualForLB_eq x y : portSlicesEqualForLB x y = true → x = y.
Proof.
  revert y. induction x as [|[n p q r] x IH]; intros [|[n' p' q' r'] y]; simpl; try done.
  intros [Hp Hx]%andb_true_iff. rewrite (IH _ Hx). unfold portEqualForLB in Hp. simpl in Hp.
  rewrite !andb_true_iff, !bool_decide_eq_true in Hp. naive_solver.
Qed.

(** An update that the controller ignores does not matter to the provider: when
    [needsUpdate] says no and the service has a load balancer, everything the provider
    reads of the service (its identity, annotations, affinity, ports and address) is as
    it was, and it had a load balancer before. *)
Theorem needsUpdate_sound oldService newService :
  needsUpdate oldService newService = false → wantsLoadBalancer newService = true →
  wantsLoadBalancer oldService = true ∧ as_Service oldService = as_Service newService.
Proof.
  intros Hn Hw. unfold needsUpdate in Hn. rewrite Hw in Hn.
  destruct (wantsLoadBalancer oldService) eqn:Ho; [|done]. split; [done|]. simpl in Hn.
  destruct (bool_decide (ks_LoadBalancerSourceRanges oldService ≠ _)); [done|].
  destruct (_ || _) eqn:Hps; [done|]. apply orb_false_iff in Hps as [Hp%negb_false_iff Hs%bool_decide_eq_false%dec_stable].
  case_bool_decide as Hip; [done|].
  destruct (bool_decide (ks_ExternalIPs oldService ≠ _)); [done|].
  case_bool_decide as Han; [done|]. apply bool_decide_eq_false, dec_stable in Hn.
  unfold portsEqualForLB in Hp. destruct (getPortsForLB oldService) as [xs|] eqn:Hx; [|done].
  destruct (getPortsForLB newService) as [ys|] eqn:Hy; [|done]. apply portSlicesEqualForLB_eq in Hp.
  apply ports_for_lb_all in Hx, Hy. unfold as_Service. congruence.
Qed.

(** ** Sets of nodes *)

Lemma ascii_compare_le a b : Ascii.compare a b ≠ Gt ↔ (N_of_ascii a ≤ N_of_ascii b)%N.
Proof. unfold Ascii.compare. done. Qed.

Lemma ascii_compare_eq a b : Ascii.compare a b = Eq → a = b.
Proof. apply Ascii.compare_eq_iff. Qed.

#[export] Instance str_le_trans : Transitive str_le.
Proof.
  intros a. unfold str_le, String.leb. induction a as [|x a IH]; intros [|y b] [|z c]; simpl; try done.
  destruct (Ascii.compare x y) eqn:Hxy, (Ascii.compare y z) eqn:Hyz; try done.
  - apply ascii_compare_eq in Hxy as ->. rewrite Hyz. apply IH.
  - apply ascii_compare_eq in Hxy as ->. by rewrite Hyz.
  - apply ascii_compare_eq in Hyz as ->. by rewrite Hxy.
  - assert (Ascii.compare x z = Lt) as ->; [|done]. unfold Ascii.compare in *.
    rewrite N.compare_lt_iff in *. lia.
Qed.

#[export] Instance str_le_total : Total str_le.
Proof. intros a b. apply String.leb_total. Qed.

#[export] Instance str_le_antisym : AntiSymm (=) str_le.
Proof. intros a b. apply String.leb_antisym. Qed.

(** The set of nodes counts as unchanged exactly when the names are the same up to
    their order. *)
Theorem nodeSlicesEqualForLB_correct x y :
  nodeSlicesEqualForLB x y = true ↔ kn_Name <$> x ≡ₚ kn_Name <$> y.
Proof.
  unfold nodeSlicesEqualForLB, stringSlicesEqual. change (map kn_Name) with (fmap kn_Name : list KNode → _).
  rewrite !length_fmap. split.
  - case_bool_decide; [done|]. intros Heq%bool_decide_eq_true. unfold sort_Strings in Heq.
    rewrite <-(merge_sort_Permutation str_le (kn_Name <$> x)), Heq. apply merge_sort_Permutation.
  - intros Hp. assert (length x = length y) as Hl by (by rewrite <-(length_fmap kn_Name), Hp, length_fmap).
    rewrite !bool_decide_false by auto. apply bool_decide_eq_true. unfold sort_Strings.
    apply (StronglySorted_unique str_le); [apply StronglySorted_merge_sort; apply _..|].
    by rewrite !merge_sort_Permutation.
Qed.

(** ** Retries *)

(** The delay after [n] failures in a row. *)
Fixpoint delay_after (n : nat) : Z := match n with O => 0 | S n' => nextRetryDelay (delay_after n') end.

(** The waiting time doubles from five seconds with every failure in a row, up to five
    minutes. *)
Theorem retry_backoff n : delay_after (S n) = Z.min maxRetryDelay (2 ^ Z.of_nat n * minRetryDelay).
Proof.
  assert (∀ d, 0 ≤ d ≤ maxRetryDelay → nextRetryDelay d = Z.min maxRetryDelay (Z.max minRetryDelay (2 * d))) as Hnext.
  { intros d Hd. unfold nextRetryDelay. assert (in_int64 (d * 2)) as Hin
      by (unfold in_int64, maxRetryDelay, Second in *; lia).
    replace (int64 (d * 2)) with (2 * d) by (rewrite int64_id; [lia|done]).
    destruct (2 * d <? minRetryDelay) eqn:H1; [apply Z.ltb_lt in H1|apply Z.ltb_ge in H1].
    - destruct (maxRetryDelay <? minRetryDelay) eqn:H2; [done|]. unfold minRetryDelay, maxRetryDelay, Second in *. lia.
    - destruct (maxRetryDelay <? 2 * d) eqn:H2; [apply Z.ltb_lt in H2|apply Z.ltb_ge in H2]; lia. }
  induction n as [|n IH]; [done|]. cbn [delay_after] in *. rewrite IH.
  rewrite Hnext; [|split; [unfold maxRetryDelay, minRetryDelay, Second; lia|lia]].
  rewrite Nat2Z.inj_succ, Z.pow_succ_r by lia.
  assert (1 ≤ 2 ^ Z.of_nat n) by (apply (Z.pow_le_mono_r 2 0); lia).
  assert (0 < minRetryDelay ≤ maxRetryDelay) by (unfold maxRetryDelay, minRetryDelay, Second; lia). nia.
Qed.

Lemma nextRetryDelay_range last : minRetryDelay ≤ nextRetryDelay last ≤ maxRetryDelay.
Proof.
  unfold nextRetryDelay. assert (minRetryDelay ≤ maxRetryDelay) by done.
  destruct (int64 (last * 2) <? minRetryDelay) eqn:H1; [apply Z.ltb_lt in H1|apply Z.ltb_ge in H1].
  - destruct (maxRetryDelay <? minRetryDelay); lia.
  - destruct (maxRetryDelay <? int64 (last * 2)) eqn:H2; [lia|apply Z.ltb_ge in H2; lia].
Qed.

(** C25: a failure is retried and nothing is forgotten, for every cloud and API server:
    when a service could not be brought into its state, whether or not the failure is
    called retryable, the service stays in the cache (so that its deletion will be
    seen to), and its key waits in the queue for at most the doubled delay. *)
Theorem syncService_retries {W} `{!Handler req W} (balancer : LoadBalancerInterface W) clusterName
    st now key namespace name service w w1 e retry w2 t :
  SplitMetaNamespaceKey key = Ok (namespace, name) →
  handle (Kube (GetService namespace name)) w = (inl service, w1) →
  createLoadBalancerIfNeeded balancer clusterName key service w1 = (Ret (Some e, retry), w2, t) →
  q_shuttingDown (dq_queue (st_queue st)) = false →
  waiting_inv (dq_waiting (st_queue st)) (dq_known (st_queue st)) →
  let last := match st_cache st !! key with Some c => cs_lastRetryDelay c | None => 0 end in
  let d := nextRetryDelay last in
  ∃ st' t', syncService balancer clusterName st now key w = (Ret (st', None), w2, t') ∧
    st_cache st' !! key = Some (mkCached (Some service) d) ∧
    minRetryDelay ≤ d ≤ maxRetryDelay ∧
    waiting_inv (dq_waiting (st_queue st')) (dq_known (st_queue st')) ∧
    ∃ at_, dq_known (st_queue st') !! key = Some at_ ∧ at_ ≤ now + d.
Proof.
  intros Hkey Hget Hfail Hup Hinv last d. pose proof (nextRetryDelay_range last) as Hd. fold d in Hd.
  assert (0 < d) as Hpos by (assert (0 < minRetryDelay) by done; lia).
  destruct (AddAfter_waits (st_queue st) now key d Hup Hinv Hpos) as (Hinv' & _ & Hat).
  eexists _, _. split.
  - unfold syncService. rewrite Hkey. unfold mbind at 1, M_bind at 1, call. rewrite Hget. cbn iota.
    unfold mbind at 1, M_bind at 1. unfold processServiceUpdate. unfold mbind at 1, M_bind at 1. rewrite Hfail.
    fold last. fold d. unfold mret at 1, M_ret at 1. cbn iota. rewrite bool_decide_true by lia. reflexivity.
  - simpl. split_and!; [apply lookup_insert_eq|lia|lia|done|done].
Qed.

(** ** Keys and events *)

(** A text without slashes stays in one piece, before and after a slash. *)
Lemma Split_slash x y : Split x slash = [x] → Split (x +:+ "/" +:+ y) slash = x :: Split y slash.
Proof.
  induction x as [|c x IH]; intros Hx; [done|]. simpl in *. case_bool_decide as Hc; [done|].
  destruct (Split x slash) as [|x0 xs]; [by injection Hx as <-|].
  injection Hx as -> ->. by rewrite IH.
Qed.

(** The key of a service leads back to it. *)
Lemma key_splits service :
  Split (ks_Namespace service) slash = [ks_Namespace service] →
  Split (ks_Name service) slash = [ks_Name service] →
  SplitMetaNamespaceKey (KeyFunc (Object service)) = Ok (ks_Namespace service, ks_Name service).
Proof.
  intros Hns Hn. unfold SplitMetaNamespaceKey, KeyFunc, MetaNamespaceKeyFunc. case_bool_decide as H.
  - by rewrite Split_slash, Hn.
  - rewrite Hn. by destruct (decide (ks_Namespace service = "")) as [->|].
Qed.

(** In an idle queue the key of an event is the next one. *)
Lemma next_is_added st obj :
  dq_queue (st_queue st) = NewQueue →
  Get (dq_queue (st_queue (enqueueService st obj))) =
    Some (Some (KeyFunc obj), mkQueue [] ∅ {[KeyFunc obj]} false).
Proof.
  intros Hq. unfold enqueueService. simpl. rewrite Hq. unfold Add, Get. simpl.
  do 2 f_equal. f_equal; set_solver.
Qed.

(** Once the only key is done, the queue is idle. *)
Lemma Done_idle key : QDone (mkQueue [] ∅ {[key]} false) key = NewQueue.
Proof. unfold QDone, NewQueue. simpl. f_equal. set_solver. Qed.

(** ** A load balancer that does not show up *)

Section crash.
Context {W : Type} `{!Handler req W} `{!FloatConv} `{!MapOrder}.

(** The provider's load balancers. *)
Definition aliyun_balancer (p : AliyunProvider) : LoadBalancerInterface W :=
  mkLoadBalancerInterface W (GetLoadBalancer p) (EnsureLoadBalancer p) (UpdateLoadBalancer p)
    (EnsureLoadBalancerDeleted p).

Lemma aliyun_balancer_handed_out p : (LoadBalancer p).1 = Some (aliyun_balancer p).
Proof. done. Qed.

(** The nodes that get traffic when a load balancer is ensured. *)
Definition lb_nodes (nodes : list KNode) : list Node :=
  map as_Node (base.filter (λ n, includeNodeFromNodeList n = true) nodes).

(** A computation whose outcome is known. *)
Lemma wp_outcome {A} (m : go W A) o w (Q : outcome A → W → list (event req) → Prop) :
  outcome_of m w = o → (∀ w' t, Q o w' t) → wp m Q w.
Proof. intros Ho HQ. unfold wp. rewrite Ho. apply HQ. Qed.

(** C27: the provider's missing status ends the controller: when the creation of a
    service's load balancer is accepted but the listings do not show it in the three
    lookups, [EnsureLoadBalancer] returns neither a status nor an error, and
    [syncService] dereferences the nil status, a panic that ends the process. *)
Theorem syncService_crashes p clusterName st now key namespace name service nodes w w1 w2 insts pr instances lbs :
  SplitMetaNamespaceKey key = Ok (namespace, name) →
  handle (Kube (GetService namespace name)) w = (inl service, w1) →
  handle (Kube ListNodes) w1 = (Ok nodes, w2) →
  wantsLoadBalancer service = true →
  check_service (as_Service service) = None →
  reported_instances p w2 = Ok (insts, pr) →
  by_names_loop (by_nodeNameType (nodeNameType p)) insts [] (n_Name <$> lb_nodes nodes) = Ok instances →
  (∀ w', (handle (DescribeLoadBalancers (region p)) w').1 = Ok lbs) →
  (∀ lb, lb ∈ lbs → lb_LoadBalancerName lb ≠ GetLoadBalancerName (as_Service service)) →
  (∀ args w', ∃ id, (handle (CreateLoadBalancer args) w').1 = Ok id) →
  ∃ msg, outcome_of (syncService (aliyun_balancer p) clusterName st now key) w = Panic msg.
Proof.
  intros Hkey Hget Hnodes Hw Hck His Hinst Hlist Hno Hcreate.
  enough (wp (syncService (aliyun_balancer p) clusterName st now key) (λ o _ _, ∃ msg, o = Panic msg) w) by done.
  unfold syncService. rewrite Hkey. cbn iota. rewrite wp_bind, wp_call, Hget. cbn [fst snd].
  rewrite wp_bind. unfold processServiceUpdate. rewrite wp_bind. unfold createLoadBalancerIfNeeded.
  rewrite Hw. cbn [negb]. rewrite wp_bind. unfold createLoadBalancer. rewrite wp_bind, wp_call, Hnodes. cbn [fst snd].
  pose proof (EnsureLoadBalancer_nil_nil p clusterName (as_Service service) (lb_nodes nodes) w2 insts pr instances lbs
    Hck His Hinst Hlist Hno Hcreate) as Hnil.
  apply (wp_outcome _ _ _ _ Hnil). intros w3 t3. cbn beta iota. unfold write_status. rewrite wp_panic. eauto.
Qed.

End crash.
