(* ===== verification/ServicesSync.v ===== *)
(** * The service controller on the provider's load balancers

    Against the laws of the load balancer service ([SLB]) and of an API server
    ([ServiceAPI]): a service that is synchronised has its load balancer with exactly
    its listeners and nodes and its status says so, synchronising it again only reads,
    a deleted service loses its load balancer, and a change of the nodes reaches every
    load balancer. *)

From S2P Require Import Prelude GoStd Kube Cloud MapUtils Provider Instances LoadBalancer Interfaces Flags WorkQueue SLB SimCloud InstancesSpec LBSpec LBSync Services ServicesSpec.

(** ** The API server *)

(** The requests of the provider's load balancer operations. *)
Definition lb_request {R} (e : req R) : bool :=
  slb_request e || match e with DescribeInstances _ | Sleep _ | CreateRandomString => true | _ => false end.

(** The laws of an API server whose services and nodes the informers know, and which
    accepts every status, beside the load balancer service. *)
Class ServiceAPI (W : Type) `{!Handler req W} `{!SLB W} : Type := {
  services : W → gmap (string * string) KService;
  api_nodes : W → list KNode;
  api_names : ∀ w ns n s, services w !! (ns, n) = Some s → ks_Namespace s = ns ∧ ks_Name s = n;
  api_get : ∀ w ns n, ∃ e w',
    handle (Kube (GetService ns n)) w =
      (match services w !! (ns, n) with Some s => inl s | None => inr (NotFoundError e) end, w') ∧
    services w' = services w ∧ api_nodes w' = api_nodes w;
  api_list : ∀ w, ∃ w', handle (Kube ListNodes) w = (Ok (api_nodes w), w') ∧
    services w' = services w ∧ api_nodes w' = api_nodes w;
  api_update : ∀ w s, is_Some (services w !! (ks_Namespace s, ks_Name s)) → ∃ w',
    handle (Kube (UpdateServiceStatus s)) w = (None, w') ∧
    services w' = alter (λ s0, set_ks_Status s0 (ks_Status s)) (ks_Namespace s, ks_Name s) (services w) ∧
    api_nodes w' = api_nodes w;
  api_slb : ∀ R (k : kreq R) w, slb (handle (Kube k) w).2 = slb w;
  api_apart : ∀ R (e : req R) w, lb_request e = true →
    services (handle e w).2 = services w ∧ api_nodes (handle e w).2 = api_nodes w;
  api_instances : ∀ R (e : req R) w args,
    lb_request e = true ∨ (∃ k : kreq R, e = Kube k) →
    (handle (DescribeInstances args) (handle e w).2).1 = (handle (DescribeInstances args) w).1 }.

Section sync.
Context {W : Type} `{!Handler req W} `{!SLB W} `{!ServiceAPI W} `{!MapOrder} `{!FloatConv}.
Implicit Types (w : W) (st : sc_state).

(** ** What the provider's operations leave alone *)

Section keeps.
Context (p : AliyunProvider).
Context (I : W → Prop) (HI : ∀ R (e : req R) w, lb_request e = true → I w → I (handle e w).2).

Lemma slb_keeps R (e : req R) w : slb_request e = true → I w → I (handle e w).2.
Proof using HI. intros He. apply HI. unfold lb_request. by rewrite He. Qed.

Lemma call_keeps {R} (e : req R) : lb_request e = true → preserves I (call e).
Proof using HI. intros He. apply preserves_call. intros w. by apply HI. Qed.

Lemma getLoadBalancer_keeps name : preserves I (getLoadBalancer p name).
Proof using HI. apply getLoadBalancer_apart, slb_keeps. Qed.

Lemma ensureLBListeners_keeps lb ports options : preserves I (ensureLBListeners lb ports options).
Proof using HI. apply ensureLBListeners_apart, slb_keeps. Qed.

Lemma ensureLBBackends_keeps lb instances : preserves I (ensureLBBackends lb instances).
Proof using HI.
  unfold ensureLBBackends. destruct (backend_diff _ _ _) as [expected removals].
  apply preserves_bind_ok; [|intros _].
  - destruct removals; [apply preserves_ret|by apply call_keeps].
  - destruct (map _ _); [apply preserves_ret|by apply call_keeps].
Qed.

Lemma getInstancesByNodes_keeps nodes : preserves I (getInstancesByNodes p nodes).
Proof using HI.
  unfold getInstancesByNodes, getInstancesByNodeNames, getInstances.
  apply preserves_bind_ok; [|intros ?; apply preserves_ret].
  apply preserves_bind_ok; [by apply call_keeps|]. intros [insts pr]. apply preserves_ret.
Qed.

Lemma sync_lb_keeps lb service options instances : preserves I (sync_lb lb service options instances).
Proof using HI.
  unfold sync_lb. apply preserves_bind; [apply ensureLBListeners_keeps|]. intros [[]|e]; [|apply preserves_ret].
  apply preserves_bind; [apply ensureLBBackends_keeps|]. intros [[]|e]; apply preserves_ret.
Qed.

Lemma wait_created_keeps retry name err : preserves I (wait_created retry p name err).
Proof using HI.
  revert err. induction retry as [|retry IH]; intros err; simpl; [apply preserves_ret|].
  apply preserves_bind; [by apply call_keeps|intros _].
  apply preserves_bind; [apply getLoadBalancer_keeps|]. intros [[lb|]|e]; [apply preserves_ret|apply IH..].
Qed.

Lemma EnsureLoadBalancer_keeps clusterName service nodes :
  preserves I (EnsureLoadBalancer p clusterName service nodes).
Proof using HI.
  unfold EnsureLoadBalancer. destruct (check_service service); [apply preserves_ret|].
  apply preserves_bind; [apply getInstancesByNodes_keeps|]. intros [instances|e]; [|apply preserves_ret].
  apply preserves_bind; [apply getLoadBalancer_keeps|]. intros [[lb|]|e]; [apply sync_lb_keeps| |apply preserves_ret].
  apply preserves_bind; [by apply call_keeps|intros token].
  apply preserves_bind; [by apply call_keeps|]. intros [id|e]; [|apply preserves_ret].
  apply preserves_bind; [apply wait_created_keeps|]. intros [[lb|] err]; [apply sync_lb_keeps|apply preserves_ret].
Qed.

Lemma UpdateLoadBalancer_keeps clusterName service nodes :
  preserves I (UpdateLoadBalancer p clusterName service nodes).
Proof using HI.
  unfold UpdateLoadBalancer. apply preserves_bind_ok; [apply getLoadBalancer_keeps|].
  intros [lb|]; [|apply preserves_ret]. apply preserves_bind_ok; [apply ensureLBListeners_keeps|intros _].
  apply preserves_bind_ok; [apply getInstancesByNodes_keeps|]. intros instances. apply ensureLBBackends_keeps.
Qed.

Lemma EnsureLoadBalancerDeleted_keeps clusterName service :
  preserves I (EnsureLoadBalancerDeleted p clusterName service).
Proof using HI.
  unfold EnsureLoadBalancerDeleted. apply preserves_bind_ok; [apply getLoadBalancer_keeps|].
  intros [lb|]; [by apply call_keeps|apply preserves_ret].
Qed.

Lemma GetLoadBalancer_keeps clusterName service : preserves I (GetLoadBalancer p clusterName service).
Proof using HI.
  unfold GetLoadBalancer. apply preserves_bind; [apply getLoadBalancer_keeps|].
  intros [[lb|]|e]; apply preserves_ret.
Qed.

End keeps.

(** What the API server has, and what the compute service reports. *)
Definition api_view (p : AliyunProvider) w :=
  (services w, api_nodes w, reported_instances p w).

Lemma api_view_kept p v R (e : req R) w :
  lb_request e = true → api_view p w = v → api_view p (handle e w).2 = v.
Proof.
  intros He <-. unfold api_view. destruct (api_apart R e w He) as [-> ->].
  unfold reported_instances. by rewrite api_instances by auto.
Qed.

(** ** Ensuring a service's load balancer *)

(** A load balancer that serves a service on instances. *)
Record lb_serves (service : Service) (ids : list string) (lb : LBState) : Prop := {
  ls_name : s_name lb = GetLoadBalancerName service;
  ls_listeners : listeners_synced (s_listeners lb) (svc_Ports service);
  ls_servers : ∀ s, is_Some (s_servers lb !! s) ↔ s ∈ ids }.

Lemma servers_synced_exact old new ids :
  servers_synced old new ids → ∀ s, is_Some (new !! s) ↔ s ∈ ids.
Proof. intros Hs s. rewrite Hs. case_bool_decide; [by split; eauto|]. split; [by intros []|done]. Qed.

(** A service the provider can serve, in an account and on nodes. *)
Record servable (p : AliyunProvider) (service : Service) (nodes : list Node) (ids : list string) w : Prop := {
  sb_check : check_service service = None;
  sb_ports : ports_ok (svc_Ports service);
  sb_unique : unique_names (slb w);
  sb_range : ∀ id lb, slb w !! id = Some lb → s_name lb = GetLoadBalancerName service →
    backends_in_range (s_listeners lb);
  sb_instances : ∃ insts pr instances, reported_instances p w = Ok (insts, pr) ∧
    by_names_loop (by_nodeNameType (nodeNameType p)) insts [] (n_Name <$> nodes) = Ok instances ∧
    ids = i_InstanceId <$> instances }.

(** The load balancer of the name, old or new. *)
Lemma wp_EnsureLoadBalancer p clusterName service nodes ids w :
  servable p service nodes ids w →
  wp (EnsureLoadBalancer p clusterName service nodes) (returns (λ r w' _,
    ∃ id lb, r = (Some [s_address lb], None) ∧ lb_serves service ids lb ∧
      (∀ lb0, slb w !! id = Some lb0 → s_name lb0 = s_name lb) ∧
      slb w' = <[id := lb]> (slb w))) w.
Proof.
  intros [Hck Hok Huniq Hr (insts & pr & instances & His & Hinst & ->)].
  destruct (decide (map_Forall (λ _ lb, s_name lb ≠ GetLoadBalancerName service) (slb w))) as [Hno|Hyes].
  - eapply wp_mono; [by eapply (wp_EnsureLoadBalancer_creates p clusterName service nodes)|].
    intros [r| | |] w' t Hret; simpl in Hret; try done.
    destruct Hret as (id & a & ls' & ss' & -> & Hid & Hls & Hss & Hw').
    exists id, (mkLBState (GetLoadBalancerName service) a ls' ss'). split_and!; [done| |by rewrite Hid|done].
    split; [done|done|]. by eapply servers_synced_exact.
  - rewrite map_not_Forall in Hyes by apply _. destruct Hyes as (id & st0 & Hst & Hname%dec_stable).
    eapply wp_mono; [by eapply (wp_EnsureLoadBalancer_existing p clusterName service nodes w id st0); eauto|].
    intros [r| | |] w' t Hret; simpl in Hret; try done.
    destruct Hret as (-> & ls' & ss' & Hls & Hss & Hw').
    exists id, (set_servers (set_listeners st0 ls') ss'). split_and!; [done| | |done].
    + split; [done|done|]. by eapply servers_synced_exact.
    + intros lb0 Hlb0. by simplify_eq.
Qed.

(** ** Writing the status *)

Lemma set_ks_Status_same s : set_ks_Status s (ks_Status s) = s.
Proof. by destruct s. Qed.

(** After a load balancer was ensured, the API server has the address. *)
Lemma wp_write_status ns n service address w (Q : outcome (option error * bool) → W → list (event req) → Prop) :
  services w !! (ns, n) = Some service →
  (∀ w' t, services w' = <[(ns, n) := set_ks_Status service [mkIngress address ""]]> (services w) →
     slb w' = slb w → (ks_Status service = [mkIngress address ""] → t = []) →
     Q (Ret (None, false)) w' t) →
  wp (write_status service (Some [address])) Q w.
Proof.
  intros Hs HQ. destruct (api_names w ns n service Hs) as [Hns Hn]. unfold write_status. cbn [map].
  case_bool_decide as Hd.
  2:{ rewrite wp_ret. apply HQ; [|done|done]. rewrite <-Hd, set_ks_Status_same. by rewrite insert_id. }
  set (s' := set_ks_Status service [mkIngress address ""]).
  assert (is_Some (services w !! (ks_Namespace s', ks_Name s'))) as Hin by (simpl; rewrite Hns, Hn; by eexists).
  destruct (api_update w s' Hin) as (w' & Hh & Hsv & _). simpl in Hsv. rewrite Hns, Hn in Hsv.
  unfold persistUpdate, clientRetryCount. cbn [persist]. rewrite !wp_bind, wp_call, Hh. cbn [fst snd].
  rewrite wp_ret. cbn beta iota. rewrite wp_ret. apply HQ; [| |done].
  - rewrite Hsv. apply map_eq. intros k. destruct (decide (k = (ns, n))) as [->|Hk].
    + by rewrite lookup_alter_eq, Hs, lookup_insert_eq.
    + by rewrite lookup_alter_ne, lookup_insert_ne.
  - change w' with (None : option api_error, w').2. rewrite <-Hh. apply api_slb.
Qed.

(** ** Requests to the API server *)

Lemma servable_ext p service nodes ids w w' :
  slb w' = slb w → reported_instances p w' = reported_instances p w →
  servable p service nodes ids w → servable p service nodes ids w'.
Proof. intros Hs Hi [H1 H2 H3 H4 H5]. split; rewrite ?Hs, ?Hi; done. Qed.

(** A request to the API server leaves the cloud alone. *)
Lemma kube_cloud {R} (k : kreq R) w r w' p :
  handle (Kube k) w = (r, w') → slb w' = slb w ∧ reported_instances p w' = reported_instances p w.
Proof.
  intros Hh. change w' with (r, w').2. rewrite <-Hh. split; [apply api_slb|].
  unfold reported_instances. apply api_instances. right. by exists k.
Qed.

Lemma wp_GetService p ns n w (Q : outcome (KService + api_error) → W → list (event req) → Prop) :
  (∀ e w' t, slb w' = slb w → api_view p w' = api_view p w → Forall read_only t →
     Q (Ret (match services w !! (ns, n) with Some s => inl s | None => inr (NotFoundError e) end)) w' t) →
  wp (call (Kube (GetService ns n))) Q w.
Proof.
  intros HQ. destruct (api_get w ns n) as (e & w' & Hh & Hs & Hn). destruct (kube_cloud _ _ _ _ p Hh) as [Hb Hi].
  rewrite wp_call, Hh. cbn [fst snd]. apply HQ; [done| |by repeat constructor]. unfold api_view. by rewrite Hs, Hn, Hi.
Qed.

Lemma wp_ListNodes p w (Q : outcome (result (list KNode)) → W → list (event req) → Prop) :
  (∀ w' t, slb w' = slb w → api_view p w' = api_view p w → Forall read_only t → Q (Ret (Ok (api_nodes w))) w' t) →
  wp (call (Kube ListNodes)) Q w.
Proof.
  intros HQ. destruct (api_list w) as (w' & Hh & Hs & Hn). destruct (kube_cloud _ _ _ _ p Hh) as [Hb Hi].
  rewrite wp_call, Hh. cbn [fst snd]. apply HQ; [done| |by repeat constructor]. unfold api_view. by rewrite Hs, Hn, Hi.
Qed.

(** ** Synchronising a service *)

(** [syncService] of a service that exists, once its load balancer is ensured. *)
Lemma wp_syncService_update p clusterName st now key ns n service w
    (E : LBState → list (event req) → W → Prop) (Q : outcome (sc_state * option error) → W → list (event req) → Prop) :
  SplitMetaNamespaceKey key = Ok (ns, n) → services w !! (ns, n) = Some service →
  wantsLoadBalancer service = true →
  (∀ w', slb w' = slb w → api_view p w' = api_view p w →
     wp (EnsureLoadBalancer p clusterName (as_Service service) (lb_nodes (api_nodes w)))
       (returns (λ r w'' t, ∃ lb, r = (Some [s_address lb], None) ∧ E lb t w'')) w') →
  (∀ lb w1 w2 t0 t t', E lb t w1 → Forall read_only t0 → slb w2 = slb w1 →
     services w2 = <[(ns, n) := set_ks_Status service [mkIngress (s_address lb) ""]]> (services w) →
     (ks_Status service = [mkIngress (s_address lb) ""] → t' = []) →
     Q (Ret (set_cache st (<[key := mkCached (Some service) 0]> (st_cache st)), None)) w2 (t0 ++ t ++ t')) →
  wp (syncService (aliyun_balancer p) clusterName st now key) Q w.
Proof.
  intros Hkey Hsv Hw HE HQ. unfold syncService. rewrite Hkey. cbn iota. rewrite wp_bind.
  apply (wp_GetService p). rewrite Hsv. intros e w1 t1 Hs1 Hv1 Ht1. cbn beta iota. rewrite wp_bind.
  unfold processServiceUpdate. rewrite wp_bind. unfold createLoadBalancerIfNeeded. rewrite Hw. cbn [negb].
  rewrite wp_bind. unfold createLoadBalancer. rewrite wp_bind. apply (wp_ListNodes p).
  intros w2 t2 Hs2 Hv2 Ht2. cbn beta iota.
  assert (api_view p w2 = api_view p w) as Hv by congruence.
  assert (api_nodes w1 = api_nodes w) as Hn by (unfold api_view in Hv1; congruence).
  assert (services w2 = services w) as Hsv2 by (unfold api_view in Hv; congruence).
  eapply wp_mono.
  { eapply (wp_preserves (λ w', api_view p w' = api_view p w)); [|exact Hv|].
    - apply EnsureLoadBalancer_keeps. intros R e'. apply api_view_kept.
    - rewrite Hn. apply HE; [congruence|done]. }
  intros [r| | |] w3 t3 [Hv3 Hret]; simpl in Hret; try done. destruct Hret as (lb & -> & HE3).
  assert (services w3 = services w) as Hsv3 by (unfold api_view in Hv3; congruence).
  cbn beta iota. apply (wp_write_status ns n); [by rewrite Hsv3|].
  intros w4 t4 Hs4 Hb4 Ht4. cbn beta iota. rewrite wp_ret. cbn beta iota.
  rewrite bool_decide_false by (intros []; done). rewrite wp_ret, !app_nil_r, <-!app_assoc, app_assoc.
  eapply HQ; [done|by apply Forall_app|done|by rewrite Hs4, Hsv3|done].
Qed.

(** Synchronising a service of type LoadBalancer gives it what it asks for: there is
    a load balancer of its name, old or new, with exactly its listeners and with the
    instances of the schedulable nodes as servers; no other load balancer has changed;
    the API server has the load balancer's address as the status; and the service is in
    the cache, with nothing to retry. *)
Lemma syncService_serves p clusterName st now key ns n service ids w :
  SplitMetaNamespaceKey key = Ok (ns, n) → services w !! (ns, n) = Some service →
  wantsLoadBalancer service = true →
  servable p (as_Service service) (lb_nodes (api_nodes w)) ids w →
  ∃ w' t id lb,
    syncService (aliyun_balancer p) clusterName st now key w =
      (Ret (set_cache st (<[key := mkCached (Some service) 0]> (st_cache st)), None), w', t) ∧
    lb_serves (as_Service service) ids lb ∧
    (∀ lb0, slb w !! id = Some lb0 → s_name lb0 = s_name lb) ∧
    slb w' = <[id := lb]> (slb w) ∧
    services w' = <[(ns, n) := set_ks_Status service [mkIngress (s_address lb) ""]]> (services w).
Proof.
  intros Hkey Hsv Hw Hsb.
  assert (wp (syncService (aliyun_balancer p) clusterName st now key) (returns (λ r w' _,
    r = (set_cache st (<[key := mkCached (Some service) 0]> (st_cache st)), None) ∧ ∃ id lb,
    lb_serves (as_Service service) ids lb ∧ (∀ lb0, slb w !! id = Some lb0 → s_name lb0 = s_name lb) ∧
    slb w' = <[id := lb]> (slb w) ∧
    services w' = <[(ns, n) := set_ks_Status service [mkIngress (s_address lb) ""]]> (services w))) w) as Hwp.
  { eapply (wp_syncService_update p clusterName st now key ns n service w
      (λ lb _ w', lb_serves (as_Service service) ids lb ∧ ∃ id,
         (∀ lb0, slb w !! id = Some lb0 → s_name lb0 = s_name lb) ∧ slb w' = <[id := lb]> (slb w))); [done..| |].
    - intros w1 Hs1 Hv1. eapply wp_mono.
      { apply wp_EnsureLoadBalancer. eapply servable_ext; [done| |done]. unfold api_view in Hv1. congruence. }
      intros [r| | |] w2 t2 Hret; simpl in Hret; try done. destruct Hret as (id & lb & -> & Hlb & Hold & Hw2).
      rewrite Hs1 in Hold, Hw2. exists lb. eauto 10.
    - intros lb w1 w2 t0 t t' (Hlb & id & Hold & Hw1) _ Hs2 Hsv2 _. split; [done|]. exists id, lb.
      by rewrite Hs2. }
  destruct (wp_returns _ _ _ Hwp) as (r & w' & t & Hm & -> & id & lb & ? & ? & ? & ?). eauto 10.
Qed.


(** C8: synchronising is idempotent: when the service's load balancer serves it and the
    API server has its address, [syncService] makes read requests only, and nothing in
    the account or the API server changes. *)
Theorem syncService_idempotent p clusterName st now key ns n service ids w id lb :
  SplitMetaNamespaceKey key = Ok (ns, n) → services w !! (ns, n) = Some service →
  wantsLoadBalancer service = true →
  servable p (as_Service service) (lb_nodes (api_nodes w)) ids w →
  slb w !! id = Some lb → lb_serves (as_Service service) ids lb →
  ks_Status service = [mkIngress (s_address lb) ""] →
  ∃ w' t,
    syncService (aliyun_balancer p) clusterName st now key w =
      (Ret (set_cache st (<[key := mkCached (Some service) 0]> (st_cache st)), None), w', t) ∧
    mutations t = [] ∧ slb w' = slb w ∧ services w' = services w.
Proof.
  intros Hkey Hsv Hw Hsb Hlb [Hname Hls Hss] Hstatus.
  destruct Hsb as [Hck Hok Huniq Hr (insts & pr & instances & His & Hinst & ->)].
  assert (wp (syncService (aliyun_balancer p) clusterName st now key) (returns (λ r w' t,
    r = (set_cache st (<[key := mkCached (Some service) 0]> (st_cache st)), None) ∧
    mutations t = [] ∧ slb w' = slb w ∧ services w' = services w)) w) as Hwp.
  { eapply (wp_syncService_update p clusterName st now key ns n service w
      (λ lb' t w', lb' = lb ∧ Forall read_only t ∧ slb w' = slb w)); [done..| |].
    - intros w1 Hs1 Hv1. eapply wp_mono.
      { eapply (wp_EnsureLoadBalancer_synced p clusterName _ _ w1 id lb insts pr instances); try done.
        - by rewrite Hs1.
        - by rewrite Hs1.
        - unfold api_view in Hv1. congruence. }
      intros [r| | |] w2 t2 Hret; simpl in Hret; try done. destruct Hret as (-> & Ht2 & Hw2).
      exists lb. by rewrite Hw2, Hs1.
    - intros lb' w1 w2 t0 t t' (-> & Ht & Hw1) Ht0 Hs2 Hsv2 Ht'. split; [done|]. split_and!.
      + apply read_only_mutations. rewrite Ht' by done. rewrite app_nil_r. by apply Forall_app.
      + congruence.
      + rewrite Hsv2, <-Hstatus, set_ks_Status_same. by rewrite insert_id. }
  destruct (wp_returns _ _ _ Hwp) as (r & w' & t & Hm & -> & ? & ? & ?). by exists w', t.
Qed.

(** C6: a service that is gone loses its load balancer: when the API server has no
    service of the key and the cache has one of type LoadBalancer, [syncService] deletes
    the load balancer of its name and no other, and forgets the service. *)
Theorem syncService_deletes p clusterName st now key ns n service d w :
  SplitMetaNamespaceKey key = Ok (ns, n) → services w !! (ns, n) = None →
  st_cache st !! key = Some (mkCached (Some service) d) → wantsLoadBalancer service = true →
  unique_names (slb w) →
  ∃ w' t,
    syncService (aliyun_balancer p) clusterName st now key w =
      (Ret (set_cache st (delete key (st_cache st)), None), w', t) ∧
    (∀ id, slb w' !! id =
       match slb w !! id with
       | Some lb => if bool_decide (s_name lb = GetLoadBalancerName (as_Service service)) then None else Some lb
       | None => None
       end) ∧
    services w' = services w.
Proof.
  intros Hkey Hsv Hc Hw Huniq.
  assert (wp (syncService (aliyun_balancer p) clusterName st now key) (returns (λ r w' t,
    r = (set_cache st (delete key (st_cache st)), None) ∧
    (∀ id, slb w' !! id =
       match slb w !! id with
       | Some lb => if bool_decide (s_name lb = GetLoadBalancerName (as_Service service)) then None else Some lb
       | None => None
       end) ∧
    services w' = services w)) w) as Hwp.
  { unfold syncService. rewrite Hkey. cbn iota. rewrite wp_bind. apply (wp_GetService p). rewrite Hsv.
    intros e w1 t1 Hs1 Hv1 _. cbn beta iota. rewrite wp_bind. unfold processServiceDeletion. rewrite Hc.
    cbn [cs_state]. rewrite Hw. cbn [negb]. rewrite wp_bind. eapply wp_mono.
    { eapply (wp_preserves (λ w', api_view p w' = api_view p w)); [|exact Hv1|].
      - apply EnsureLoadBalancerDeleted_keeps. intros R e'. apply api_view_kept.
      - apply wp_EnsureLoadBalancerDeleted. by rewrite Hs1. }
    intros [r| | |] w2 t2 [Hv2 Hret]; simpl in Hret; try done. destruct Hret as (-> & Hdel).
    cbn beta iota. rewrite wp_ret. cbn beta iota. rewrite bool_decide_false by (intros []; done).
    rewrite wp_ret. split; [done|]. split.
    - intros id. by rewrite Hdel, Hs1.
    - unfold api_view in Hv2. congruence. }
  destruct (wp_returns _ _ _ Hwp) as (r & w' & t & Hm & -> & ? & ?). by exists w', t.
Qed.

(** ** Following the nodes *)

(** The load balancers of the names have exactly the given servers, and the others are
    as they were. *)
Record hosts_updated (names : list string) (ids : list string) (m m' : gmap string LBState) : Prop := {
  hu_none : ∀ id, m !! id = None → m' !! id = None;
  hu_some : ∀ id lb, m !! id = Some lb → ∃ lb', m' !! id = Some lb' ∧ s_name lb' = s_name lb ∧
    (backends_in_range (s_listeners lb) → backends_in_range (s_listeners lb')) ∧
    (s_name lb ∈ names → ∀ s, is_Some (s_servers lb' !! s) ↔ s ∈ ids) ∧
    (s_name lb ∉ names → lb' = lb) }.

Lemma hosts_updated_refl names ids m :
  (∀ id lb, m !! id = Some lb → s_name lb ∉ names) → hosts_updated names ids m m.
Proof. intros Hno. split; [done|]. intros id lb Hlb. exists lb. split_and!; try done. by intros Hin; destruct (Hno id lb). Qed.

Lemma hosts_updated_trans n1 n2 ids m m1 m2 :
  hosts_updated n1 ids m m1 → hosts_updated n2 ids m1 m2 → hosts_updated (n1 ++ n2) ids m m2.
Proof.
  intros [Hn1 Hs1] [Hn2 Hs2]. split; [by eauto|]. intros id lb Hlb.
  destruct (Hs1 id lb Hlb) as (lb1 & Hlb1 & Hname1 & Hr1 & Hin1 & Hout1).
  destruct (Hs2 id lb1 Hlb1) as (lb2 & Hlb2 & Hname2 & Hr2 & Hin2 & Hout2). rewrite Hname1 in *.
  exists lb2. split_and!; [done|congruence|by auto| |].
  - rewrite elem_of_app. intros Hin. destruct (decide (s_name lb ∈ n2)) as [H2|H2]; [by apply Hin2|].
    rewrite (Hout2 H2). apply Hin1. by destruct Hin.
  - rewrite not_elem_of_app. intros [Ho1 Ho2]. by rewrite (Hout2 Ho2), (Hout1 Ho1).
Qed.

Lemma hosts_updated_names names ids m m' :
  hosts_updated names ids m m' → unique_names m → unique_names m'.
Proof.
  intros [Hn Hs] Hu id1 id2 lb1 lb2 H1 H2 Heq.
  assert (∀ id lb', m' !! id = Some lb' → ∃ lb, m !! id = Some lb ∧ s_name lb = s_name lb') as Hback.
  { intros id lb' Hlb'. destruct (m !! id) as [lb|] eqn:Hlb; [|by rewrite (Hn _ Hlb) in Hlb'].
    destruct (Hs id lb Hlb) as (lb2' & ? & ? & _). simplify_eq. eauto. }
  destruct (Hback _ _ H1) as (a & Ha & Hna), (Hback _ _ H2) as (b & Hb & Hnb). eapply Hu; [done..|congruence].
Qed.

Definition all_in_range (m : gmap string LBState) : Prop :=
  ∀ id lb, m !! id = Some lb → backends_in_range (s_listeners lb).

Lemma hosts_updated_range names ids m m' :
  hosts_updated names ids m m' → all_in_range m → all_in_range m'.
Proof.
  intros [Hn Hs] Hr id lb' Hlb'. destruct (m !! id) as [lb|] eqn:Hlb; [|by rewrite (Hn _ Hlb) in Hlb'].
  destruct (Hs id lb Hlb) as (lb2' & ? & _ & Hr' & _). simplify_eq. by eapply Hr', Hr.
Qed.

Lemma synced_in_range ls ports : ports_ok ports → listeners_synced ls ports → backends_in_range ls.
Proof.
  intros Hok [H1 H2] port l Hl. destruct (H2 port l Hl) as (sp & Hsp & <-).
  destruct (H1 sp Hsp) as (l' & Hl' & _ & Hb & _). simplify_eq. rewrite Hb. by apply (po_range _ Hok).
Qed.

(** A service with a load balancer gets the hosts. *)
Lemma wp_locked_hosts p clusterName service hosts ids w v :
  wantsLoadBalancer service = true → ports_ok (svc_Ports (as_Service service)) →
  unique_names (slb w) → all_in_range (slb w) → api_view p w = v →
  (∃ insts pr instances, reported_instances p w = Ok (insts, pr) ∧
     by_names_loop (by_nodeNameType (nodeNameType p)) insts [] (n_Name <$> map as_Node hosts) = Ok instances ∧
     ids = i_InstanceId <$> instances) →
  wp (lockedUpdateLoadBalancerHosts (aliyun_balancer p) clusterName service hosts) (returns (λ r w' _,
    r = None ∧ api_view p w' = v ∧
    hosts_updated [GetLoadBalancerName (as_Service service)] ids (slb w) (slb w'))) w.
Proof.
  intros Hw Hok Huniq Hr Hv (insts & pr & instances & His & Hinst & ->). unfold lockedUpdateLoadBalancerHosts.
  rewrite Hw. cbn [negb]. rewrite wp_bind. eapply wp_mono.
  { eapply (wp_preserves (λ w', api_view p w' = v)); [|exact Hv|].
    - apply UpdateLoadBalancer_keeps. intros R e'. apply api_view_kept.
    - by eapply wp_UpdateLoadBalancer. }
  intros [r| | |] w1 t1 [Hv1 Hret]; simpl in Hret; try done.
  destruct Hret as [(-> & Hw1 & Hno)|(-> & id & lb & ls' & ss' & Hlb & Hname & Hls & Hss & Hw1)].
  - cbn beta iota. rewrite wp_bind. cbn [l_GetLoadBalancer aliyun_balancer]. unfold GetLoadBalancer. rewrite wp_bind.
    eapply wp_mono.
    { eapply (wp_preserves (λ w', api_view p w' = v)); [|exact Hv1|apply wp_getLoadBalancer].
      apply getLoadBalancer_keeps. intros R e'. apply api_view_kept. }
    intros [r| | |] w2 t2 [Hv2 Hr2]; simpl in Hr2; try done. rewrite Hw1 in Hr2.
    destruct Hr2 as (Hw2 & _ & [[-> _]|(lb & x & -> & Hlb & Hname & _)]); [|by destruct (Hno _ _ Hlb)].
    rewrite !wp_ret. split_and!; [done|done|]. rewrite Hw2. apply hosts_updated_refl.
    intros id lb Hlb. rewrite list_elem_of_singleton. by eapply Hno.
  - cbn beta iota. rewrite wp_ret. split_and!; [done|done|]. rewrite Hw1. split.
    + intros id' Hid'. rewrite lookup_insert_ne; [done|]. intros ->. congruence.
    + intros id' lb' Hlb'. destruct (decide (id' = id)) as [->|Hne].
      * simplify_eq. eexists. rewrite lookup_insert_eq. split; [done|]. simpl. split_and!; [done| | |].
        -- intros _. by eapply synced_in_range.
        -- intros _. by eapply servers_synced_exact.
        -- rewrite list_elem_of_singleton. done.
      * exists lb'. rewrite lookup_insert_ne by done. split_and!; try done.
        rewrite list_elem_of_singleton. intros Hn. destruct Hne. eapply Huniq; [done..|congruence].
Qed.

(** The names of the load balancers of services. *)
Definition lb_names (services : list (option KService)) : list string :=
  s ← services; match s with
                | Some s => if wantsLoadBalancer s then [GetLoadBalancerName (as_Service s)] else []
                | None => [] end.

Definition ports_all_ok (services : list (option KService)) : Prop :=
  ∀ s, Some s ∈ services → wantsLoadBalancer s = true → ports_ok (svc_Ports (as_Service s)).

Lemma wp_updateLoadBalancerHosts p clusterName services hosts ids w v :
  ports_all_ok services → unique_names (slb w) → all_in_range (slb w) → api_view p w = v →
  (∃ insts pr instances, v.2 = Ok (insts, pr) ∧
     by_names_loop (by_nodeNameType (nodeNameType p)) insts [] (n_Name <$> map as_Node hosts) = Ok instances ∧
     ids = i_InstanceId <$> instances) →
  wp (updateLoadBalancerHosts (aliyun_balancer p) clusterName services hosts) (returns (λ r w' _,
    r = [] ∧ api_view p w' = v ∧ hosts_updated (lb_names services) ids (slb w) (slb w'))) w.
Proof.
  intros Hok Hu Hr Hv Hids. revert w Hu Hr Hv.
  induction services as [|[s|] services IH]; intros w Hu Hr Hv; cbn [updateLoadBalancerHosts].
  - rewrite wp_ret. split_and!; [done|done|]. apply hosts_updated_refl. intros id lb _. apply not_elem_of_nil.
  - assert (ports_all_ok services) as Hok' by (intros s' Hs'; apply Hok; by apply elem_of_cons; right).
    specialize (IH Hok'). rewrite wp_bind. destruct (wantsLoadBalancer s) eqn:Hw.
    + eapply wp_mono.
      { apply (wp_locked_hosts p clusterName s hosts ids w v); [done| |done|done|done|].
        - apply Hok; [|done]. by apply elem_of_cons; left.
        - rewrite <-Hv in Hids. exact Hids. }
      intros [r| | |] w1 t1 Hret; simpl in Hret; try done. destruct Hret as (-> & Hv1 & Hu1).
      rewrite wp_bind. eapply wp_mono.
      { apply IH; [by eapply hosts_updated_names|by eapply hosts_updated_range|done]. }
      intros [r| | |] w2 t2 Hret; simpl in Hret; try done. destruct Hret as (-> & Hv2 & Hu2).
      rewrite wp_ret. split_and!; [done|done|]. unfold lb_names. cbn [mbind list_bind]. rewrite Hw.
      by eapply hosts_updated_trans.
    + unfold lockedUpdateLoadBalancerHosts. rewrite Hw. cbn [negb]. rewrite wp_ret. cbn beta iota.
      rewrite wp_bind. eapply wp_mono; [by apply IH|].
      intros [r| | |] w2 t2 Hret; simpl in Hret; try done. destruct Hret as (-> & Hv2 & Hu2).
      rewrite wp_ret. split_and!; [done|done|]. unfold lb_names. cbn [mbind list_bind]. by rewrite Hw.
  - apply IH; [|done..]. intros s' Hs'. apply Hok. by apply elem_of_cons; right.
Qed.


End sync.
