(* ===== verification/SimKube.v ===== *)
(** * An in-memory cluster

    The in-memory account of [SimCloud] beside an API server with services and nodes: an
    implementation of the laws that the theorems about the service controller use, and
    the examples on which they are run. *)

From S2P Require Import Prelude GoStd Kube Cloud MapUtils Provider Instances LoadBalancer Interfaces Flags WorkQueue WorkQueueSpec SLB SimCloud InstancesSpec LBSpec LBSync Services ServicesSpec ServicesSync.

Record kcluster : Type := mkKCluster {
  kc_cloud : cloud; kc_services : gmap (string * string) KService; kc_nodes : list KNode }.

Definition is_kube {R} (e : req R) : bool := match e with Kube _ => true | _ => false end.

Definition put_status (s : KService) (m : gmap (string * string) KService) : gmap (string * string) KService :=
  alter (λ s0, set_ks_Status s0 (ks_Status s)) (ks_Namespace s, ks_Name s) m.

(** The services under their own names. *)
Definition named_services (w : kcluster) : gmap (string * string) KService :=
  filter (λ kv, kv.1 = (ks_Namespace kv.2, ks_Name kv.2)) (kc_services w).

#[export] Instance kcluster_handler : Handler req kcluster := λ R e w,
  let '(r, c) := handle e (kc_cloud w) in
  match e in req R return R → R * kcluster with
  | Kube k => λ _,
      match k in kreq R return R * kcluster with
      | GetService ns n =>
          (match named_services w !! (ns, n) with Some s => inl s | None => inr (NotFoundError n) end, w)
      | UpdateServiceStatus s =>
          match named_services w !! (ks_Namespace s, ks_Name s) with
          | Some _ => (None, mkKCluster (kc_cloud w) (put_status s (kc_services w)) (kc_nodes w))
          | None => (Some (NotFoundError (ks_Name s)), w)
          end
      | k => (sim_kube (kc_nodes w) k, w)
      end
  | _ => λ r, (r, mkKCluster c (kc_services w) (kc_nodes w))
  end r.

(** A request of the cloud is the cloud's. *)
Lemma kcluster_cloud {R} (e : req R) w :
  is_kube e = false →
  handle e w = ((handle e (kc_cloud w)).1, mkKCluster (handle e (kc_cloud w)).2 (kc_services w) (kc_nodes w)).
Proof.
  intros He. change (@handle req kcluster kcluster_handler R e w) with (kcluster_handler R e w).
  unfold kcluster_handler. destruct (handle e (kc_cloud w)) as [r c]. by destruct e.
Qed.

(** A request to the API server is not. *)
Lemma kcluster_kube {R} (k : kreq R) w : kc_cloud (handle (Kube k) w).2 = kc_cloud w.
Proof.
  change (@handle req kcluster kcluster_handler R (Kube k) w) with (kcluster_handler R (Kube k) w).
  unfold kcluster_handler. destruct (handle (Kube k) (kc_cloud w)) as [r c]. destruct k; try done.
  by destruct (named_services w !! _).
Qed.

Lemma slb_not_kube {R} (e : req R) : slb_request e = true → is_kube e = false.
Proof. by destruct e. Qed.

Lemma lift_accepts {R} (e : req (result R)) w P m :
  is_kube e = false → accepts slb e (kc_cloud w) P m → accepts (slb ∘ kc_cloud) e w P m.
Proof.
  intros He (r & c & Hh & HP & Hm). exists r, (mkKCluster c (kc_services w) (kc_nodes w)).
  rewrite (kcluster_cloud e w He), Hh. done.
Qed.

#[export, refine] Instance kcluster_slb : SLB kcluster := {| slb := slb ∘ kc_cloud |}.
Proof.
  - intros w region. apply lift_accepts; [done|apply slb_list].
  - intros w id st Hst. apply lift_accepts; [done|by apply slb_describe].
  - intros w id st port l H1 H2 H3. apply lift_accepts; [done|by eapply slb_tcp].
  - intros w id st port l H1 H2 H3. apply lift_accepts; [done|by eapply slb_udp].
  - intros w id st port l H1 H2. apply lift_accepts; [done|by apply slb_start].
  - intros w id st port l H1 H2. apply lift_accepts; [done|by eapply slb_delete_listener].
  - intros w st args H1 H2. apply lift_accepts; [done|by apply slb_create_tcp].
  - intros w st args H1 H2. apply lift_accepts; [done|by apply slb_create_udp].
  - intros w id st servers H1 H2. apply lift_accepts; [done|by apply slb_add].
  - intros w id st servers H1. apply lift_accepts; [done|by apply slb_remove].
  - intros w id st H1. apply lift_accepts; [done|by eapply slb_delete].
  - intros w args. destruct (slb_create (kc_cloud w) args) as (id & a & c & Hh & H1 & H2).
    exists id, a, (mkKCluster c (kc_services w) (kc_nodes w)). rewrite kcluster_cloud, Hh by done. done.
  - intros w n. rewrite kcluster_cloud by done. apply slb_sleep.
  - intros w. rewrite kcluster_cloud by done. apply slb_random.
  - intros R e w args He. rewrite (kcluster_cloud (DescribeInstances args) w eq_refl).
    rewrite (kcluster_cloud (DescribeInstances args) _ eq_refl).
    rewrite (kcluster_cloud e w (slb_not_kube e He)). by apply slb_apart.
  - intros w args. rewrite kcluster_cloud by done. apply slb_instances.
Defined.

Lemma named_put w s :
  filter (λ kv : string * string * KService, kv.1 = (ks_Namespace kv.2, ks_Name kv.2)) (put_status s (kc_services w)) =
  put_status s (named_services w).
Proof.
  apply map_eq. intros k. unfold put_status, named_services.
  apply option_eq. intros s'. rewrite map_lookup_filter_Some, !lookup_alter_Some, !map_lookup_filter_Some.
  split.
  - intros [[(<- & s0 & H1 & ->)|(Hk & H1)] H2]; [left|by right]. split; [done|]. exists s0.
    by rewrite map_lookup_filter_Some.
  - intros [(<- & s0 & H1 & ->)|(Hk & H1 & H2)]; [|by auto]. apply map_lookup_filter_Some in H1 as [H1 H2].
    split; [|done]. left. eauto.
Qed.

(** Requests of the load balancer operations leave the instances alone. *)
Lemma sim_keeps_instances R (e : req R) (c : cloud) : lb_request e = true → c_instances (handle e c).2 = c_instances c.
Proof.
  intros He. destruct e; try done; unfold handle; simpl; rewrite ?on_lb_instances; try done;
    [by destruct (_ !! _)|..]; apply on_lb_instances.
Qed.

Lemma lb_not_kube {R} (e : req R) : lb_request e = true → is_kube e = false.
Proof. by destruct e. Qed.

#[export, refine] Instance kcluster_api : ServiceAPI kcluster :=
  {| services := named_services; api_nodes := kc_nodes |}.
Proof.
  - intros w ns n s [_ Hk]%map_lookup_filter_Some. by injection Hk as <- <-.
  - intros w ns n. by exists n, w.
  - intros w. by exists w.
  - intros w s [s0 Hs]. eexists. split_and!.
    + unfold handle, kcluster_handler. simpl. by rewrite Hs.
    + apply named_put.
    + done.
  - intros R k w. simpl. by rewrite kcluster_kube.
  - intros R e w He. rewrite (kcluster_cloud e w (lb_not_kube e He)). done.
  - intros R e w args He. rewrite !(kcluster_cloud (DescribeInstances args)) by done. cbn [fst].
    assert (∀ c : cloud, (handle (DescribeInstances args) c).1 = Ok (one_page (c_instances c))) as Hd by done.
    rewrite !Hd. do 2 f_equal.
    destruct He as [He|[k ->]].
    + rewrite (kcluster_cloud e w (lb_not_kube e He)). simpl. by apply sim_keeps_instances.
    + by rewrite kcluster_kube.
Defined.

(** ** Witnesses *)

Module ServiceWitness.
Import SyncWitness.

#[local] Existing Instance canonical_order.
#[local] Existing Instance text_float.

(** A service of type LoadBalancer, a node that is ready and one that is cordoned. *)
Definition kports : list KServicePort :=
  [mkKServicePort "http" "TCP" 80 30080; mkKServicePort "dns" "UDP" 53 30053; mkKServicePort "ssh" "TCP" 22 0].
Definition web (status : list LoadBalancerIngress) : KService :=
  mkKService "default" "web" "1234-abcd" None "LoadBalancer" kports "None" "" None [] status.
Definition ready : NodeCondition := mkNodeCondition "Ready" "True" "" "".
Definition knodes : list KNode :=
  [mkKNode "node-1" "uid-1" "172.16.1.0/24" [ready] false []; mkKNode "node-2" "uid-2" "172.16.2.0/24" [ready] true []].

Definition in_cluster (lbs : gmap string LBState) (status : list LoadBalancerIngress) : kcluster :=
  mkKCluster (account lbs) {[("default", "web") := web status]} knodes.
Definition k_none : kcluster := in_cluster {[ "lb-2" := other ]} [].
Definition k_synced : kcluster := in_cluster {[ "lb-1" := synced; "lb-2" := other ]} [mkIngress "1.2.3.4" ""].
Definition k_stale : kcluster := in_cluster {[ "lb-1" := stale; "lb-2" := other ]} [].
Definition k_deleted : kcluster := mkKCluster (account {[ "lb-1" := synced; "lb-2" := other ]}) ∅ knodes.

Definition st0 : sc_state := mkSC [] [] ∅ NewDelayingQueue.
Definition st1 : sc_state := set_cache st0 {["default/web" := mkCached (Some (web [])) 0]}.

Lemma range_by_name m :
  bool_decide (Forall (λ kv, map_Forall (λ (_ : Z) l, in_int32 (l_backend l)) (s_listeners kv.2)) (map_to_list m)) = true →
  all_in_range m.
Proof.
  intros Hm%bool_decide_eq_true id lb Hlb port l Hl. rewrite Forall_forall in Hm.
  exact (Hm (id, lb) (proj2 (elem_of_map_to_list _ _ _) Hlb) port l Hl).
Qed.

Lemma web_servable lbs status :
  bool_decide (NoDup (s_name <$> (map_to_list lbs).*2)) = true →
  bool_decide (Forall (λ kv, map_Forall (λ (_ : Z) l, in_int32 (l_backend l)) (s_listeners kv.2)) (map_to_list lbs)) = true →
  servable provider (as_Service (web status)) (lb_nodes knodes) ["i-1"] (in_cluster lbs status).
Proof.
  intros Hn Hr. split.
  - reflexivity.
  - apply ports_ok_example.
  - by apply unique_by_name.
  - intros id lb Hlb _. by eapply range_by_name.
  - exists [i1], (mkPaginationResult 1 1 1), [i1]. by split_and!.
Qed.


Lemma synced_serves : lb_serves (as_Service (web [mkIngress "1.2.3.4" ""])) ["i-1"] synced.
Proof.
  split; [reflexivity|exact synced_listeners|]. intros s. simpl. rewrite lookup_singleton, list_elem_of_singleton.
  case_decide; subst; simpl; [by split; eauto|]. split; [by intros []|congruence].
Qed.

Lemma syncService_idempotent_witness :
  ∃ w' t,
    syncService (aliyun_balancer provider) "cluster" st0 0 "default/web" k_synced =
      (Ret (set_cache st0 (<["default/web" := mkCached (Some (web [mkIngress "1.2.3.4" ""])) 0]> (st_cache st0)), None),
       w', t) ∧
    mutations t = [] ∧ slb w' = slb k_synced ∧ services w' = services k_synced.
Proof.
  apply (syncService_idempotent provider "cluster" st0 0 "default/web" "default" "web"
    (web [mkIngress "1.2.3.4" ""]) ["i-1"] k_synced "lb-1" synced).
  - reflexivity.
  - reflexivity.
  - reflexivity.
  - apply web_servable; vm_compute; reflexivity.
  - reflexivity.
  - apply synced_serves.
  - reflexivity.
Defined.

Lemma syncService_deletes_witness :
  ∃ w' t,
    syncService (aliyun_balancer provider) "cluster" st1 0 "default/web" k_deleted =
      (Ret (set_cache st1 (delete "default/web" (st_cache st1)), None), w', t) ∧
    (∀ id, slb w' !! id =
       match slb k_deleted !! id with
       | Some lb => if bool_decide (s_name lb = GetLoadBalancerName (as_Service (web []))) then None else Some lb
       | None => None
       end) ∧
    services w' = services k_deleted.
Proof.
  apply (syncService_deletes provider "cluster" st1 0 "default/web" "default" "web" (web []) 0 k_deleted).
  - reflexivity.
  - reflexivity.
  - reflexivity.
  - reflexivity.
  - apply unique_by_name. vm_compute. reflexivity.
Defined.


(** A change of the status is ignored, unless protocols are mixed. *)
Definition tcp_only (status : list LoadBalancerIngress) : KService :=
  mkKService "default" "web" "1234-abcd" None "LoadBalancer" [mkKServicePort "http" "TCP" 80 30080] "None" "" None []
    status.

Lemma needsUpdate_sound_witness :
  wantsLoadBalancer (tcp_only []) = true ∧ as_Service (tcp_only []) = as_Service (tcp_only [mkIngress "1.2.3.4" ""]).
Proof. apply (needsUpdate_sound (tcp_only []) (tcp_only [mkIngress "1.2.3.4" ""])); reflexivity. Defined.

Example mixed_protocols_always_update : needsUpdate (web []) (web []) = true.
Proof. reflexivity. Qed.

(** A cluster whose listings stay empty. *)
Definition hidden : Handler req kcluster := λ R e w,
  match e in req R return R * kcluster with
  | DescribeLoadBalancers _ => (Ok [], w)
  | e => kcluster_handler _ e w
  end.

Lemma syncService_crashes_witness :
  ∃ msg, outcome_of (syncService (Handler0:=hidden) (aliyun_balancer (Handler0:=hidden) provider) "cluster" st0 0 "default/web")
    k_none = Panic msg.
Proof.
  apply (syncService_crashes (Handler0:=hidden) provider "cluster" st0 0 "default/web" "default" "web" (web []) knodes
    k_none k_none k_none [i1] (mkPaginationResult 1 1 1) [i1] []).
  - reflexivity.
  - reflexivity.
  - reflexivity.
  - reflexivity.
  - reflexivity.
  - reflexivity.
  - reflexivity.
  - intros w'. reflexivity.
  - intros lb Hlb. by apply elem_of_nil in Hlb.
  - intros args w'. eexists. reflexivity.
Defined.

(** The provider has no session affinity: it turns such a service down. *)
Definition sticky : KService :=
  mkKService "default" "web" "1234-abcd" None "LoadBalancer" kports "ClientIP" "" None [] [].
Definition k_sticky : kcluster :=
  mkKCluster (account {[ "lb-2" := other ]}) {[("default", "web") := sticky]} knodes.
Definition turned_down : outcome (option error * bool) * kcluster * list (event req) :=
  createLoadBalancerIfNeeded (aliyun_balancer provider) "cluster" "default/web" sticky k_sticky.
Definition turned_down_error : error := match turned_down.1.1 with Ret (Some e, _) => e | _ => "" end.

Lemma syncService_retries_witness :
  ∃ st' t', syncService (aliyun_balancer provider) "cluster" st0 0 "default/web" k_sticky =
      (Ret (st', None), turned_down.1.2, t') ∧
    st_cache st' !! "default/web" = Some (mkCached (Some sticky) minRetryDelay) ∧
    minRetryDelay ≤ minRetryDelay ≤ maxRetryDelay ∧
    waiting_inv (dq_waiting (st_queue st')) (dq_known (st_queue st')) ∧
    ∃ at_, dq_known (st_queue st') !! "default/web" = Some at_ ∧ at_ ≤ 0 + minRetryDelay.
Proof.
  apply (syncService_retries (aliyun_balancer provider) "cluster" st0 0 "default/web" "default" "web" sticky k_sticky
    k_sticky turned_down_error true turned_down.1.2 turned_down.2).
  - reflexivity.
  - reflexivity.
  - vm_compute. reflexivity.
  - reflexivity.
  - split; [constructor|constructor|]. intros k t. change ((∅ : gmap string Z) !! k = Some t ↔ mkWaitFor k t ∈ []).
    by rewrite lookup_empty, elem_of_nil.
Defined.

End ServiceWitness.
