(* ===== verification/FlagsSpec.v ===== *)
(** * Lemmas about flags

    The parser's fuel is enough; what an assignment on the command line does; which
    flags a set has after additions and a change of normalization; and numbers and
    durations are read back as they are printed. *)

From S2P Require Import Prelude GoStd Flags.

(** ** Numbers *)

Lemma digit_in_val base c d : 10 ≤ base → digit_val c = Some d → digit_in base c = Some d.
Proof.
  unfold digit_val, digit_in. intros Hb Hd.
  destruct ((48 <=? Z.of_N (N_of_ascii c)) && (Z.of_N (N_of_ascii c) <=? 57)) eqn:E; [|done].
  injection Hd as <-. apply andb_true_iff in E as [E1%Z.leb_le E2%Z.leb_le].
  by rewrite (proj2 (Z.ltb_lt _ _)) by lia.
Qed.

Lemma digits_in_parse s acc n : parse_digits acc s = Some n → digits_in 10 acc s = Some n.
Proof.
  revert acc. induction s as [|c s IH]; intros acc; simpl; [done|].
  destruct (digit_val c) as [d|] eqn:Hd; [|done]. intros Hp.
  rewrite (digit_in_val 10 c d) by (done || lia). simpl. by apply IH.
Qed.

(** A positive number does not start with a zero. *)
Lemma pretty_go_no_zero (x : N) s :
  (0 < x)%N → ∃ d s', pretty_N_go x s = String d s' ∧ is_Some (digit_val d) ∧ d ≠ "0"%char.
Proof.
  revert s. induction (N.lt_wf_0 x) as [x _ IH]; intros s Hx. rewrite pretty_N_go_step by lia.
  destruct (decide (x `div` 10 = 0)%N) as [E|E].
  - rewrite E, pretty_N_go_0. do 2 eexists. split; [done|]. apply N.div_small_iff in E; [|lia].
    rewrite N.mod_small by lia. rewrite digit_val_pretty_char by lia. split; [eauto|].
    assert (x ∈ [1; 2; 3; 4; 5; 6; 7; 8; 9]%N) as Hin by (rewrite !elem_of_cons; lia).
    by repeat (apply elem_of_cons in Hin as [->|Hin]; [done|]); apply not_elem_of_nil in Hin.
  - apply IH; [apply N.div_lt; lia|by apply N.neq_0_lt_0].
Qed.

Lemma ParseUint0_pretty (x : N) : ParseUint0 (pretty x) = Some (Z.of_N x).
Proof.
  pose proof (digits_in_parse _ _ _ (parse_digits_pretty x)) as Hd.
  unfold pretty, pretty_N in *. case_decide as Hx; [by subst|].
  destruct (pretty_go_no_zero x "" ltac:(lia)) as (d & s & Heq & Hdig & Hne). rewrite Heq in *.
  unfold ParseUint0. destruct d as [[] [] [] [] [] [] [] []]; done.
Qed.

Lemma signed_int_pretty neg (x : N) :
  let v := if (neg : bool) then - Z.of_N x else Z.of_N x in
  in_int64 v → signed_int neg (pretty x) = Some v.
Proof. intros v Hv. unfold signed_int. rewrite ParseUint0_pretty. simpl. by rewrite bool_decide_true. Qed.

(** [strconv.ParseInt] with base 0 reads back what [%d] prints. *)
Lemma ParseInt0_pretty z : in_int64 z → ParseInt0 (pretty z) = Some z.
Proof.
  intros Hz. rewrite pretty_Z_eq. case_decide as Hneg.
  - change (ParseInt0 ("-" +:+ ?s)) with (signed_int true s).
    rewrite signed_int_pretty; rewrite Z2N.id by lia; rewrite Z.opp_involutive; done.
  - transitivity (signed_int false (pretty (Z.to_N z))).
    + destruct (pretty_N_head (Z.to_N z)) as (d & s & -> & v & Hd).
      destruct d as [[] [] [] [] [] [] [] []]; done.
    + rewrite signed_int_pretty; by rewrite Z2N.id by lia.
Qed.

(** ** Durations *)

(** A duration printed in nanoseconds. *)
Definition show_ns (d : Z) : string := pretty d +:+ "ns".

Lemma parse_digits_bound s acc n : parse_digits acc s = Some n → 0 ≤ acc → acc ≤ n.
Proof.
  revert acc. induction s as [|c s IH]; intros acc; simpl; [intros [= ->]; lia|].
  destruct (digit_val c) as [d|] eqn:Hd; [|done]. intros Hp Hacc. unfold digit_val in Hd.
  destruct ((48 <=? _) && _) eqn:E; [|done]. injection Hd as <-.
  apply andb_true_iff in E as [E1%Z.leb_le E2%Z.leb_le].
  specialize (IH _ Hp). lia.
Qed.

Lemma leadingInt_digits s rest acc n :
  parse_digits acc s = Some n → 0 ≤ acc → n ≤ max_int64 →
  (∀ c s', rest = String c s' → digit_val c = None) →
  leadingInt acc (s +:+ rest) = Some (n, rest).
Proof.
  revert acc. induction s as [|c s IH]; intros acc; simpl.
  - intros [= ->] _ _ Hr. destruct rest as [|c r]; [done|]. simpl. by rewrite (Hr c r).
  - destruct (digit_val c) as [d|] eqn:Hd; [|done]. intros Hp Hacc Hn Hr.
    pose proof Hd as Hd'. unfold digit_val in Hd'. destruct ((48 <=? _) && _) eqn:E; [|done].
    injection Hd' as Hd'. apply andb_true_iff in E as [E1%Z.leb_le E2%Z.leb_le].
    pose proof (parse_digits_bound _ _ _ Hp ltac:(lia)) as Hle. unfold max_int64 in *.
    rewrite (proj2 (Z.ltb_ge _ _)) by (apply Z.div_le_lower_bound; lia).
    assert (int64 (acc * 10 + d) = acc * 10 + d) as ->.
    { unfold int64, wrap. rewrite Z.mod_small; lia. }
    rewrite (proj2 (Z.ltb_ge _ _)) by lia. apply IH; [done|lia|done|done].
Qed.

Lemma str_length_app (s1 s2 : string) : String.length (s1 +:+ s2) = (String.length s1 + String.length s2)%nat.
Proof. induction s1 as [|c s1 IH]; [done|]. change (String c s1 +:+ s2) with (String c (s1 +:+ s2)). simpl. lia. Qed.

Lemma str_app_neq (s1 s2 : string) : s1 ≠ "" → s2 ≠ s1 +:+ s2.
Proof.
  intros Hne Heq. apply (f_equal String.length) in Heq. rewrite str_length_app in Heq.
  destruct s1; [done|]. simpl in Heq. lia.
Qed.

Lemma duration_term_ns (x : N) :
  Z.of_N x ≤ max_int64 → duration_term (pretty x +:+ "ns") = Some (Z.of_N x, "").
Proof.
  intros Hx. pose proof (leadingInt_digits _ "ns" 0 _ (parse_digits_pretty x) ltac:(done) Hx) as Hl.
  specialize (Hl ltac:(by intros c s' [= <- <-])). destruct (pretty_N_head x) as (d & s & Heq & Hd).
  pose proof (str_app_neq (pretty x) "ns" ltac:(by rewrite Heq)) as Hne.
  rewrite Heq in *. change (String d s +:+ "ns") with (String d (s +:+ "ns")) in *. unfold duration_term.
  unfold is_num_byte. rewrite (bool_decide_true (is_Some _)) by done. rewrite orb_true_r. cbn [negb].
  rewrite Hl. cbn [mbind option_bind]. rewrite (bool_decide_true ("ns" ≠ _)) by done. cbn [negb andb].
  change (leadingUnit "ns") with ("ns", ""). cbn beta iota. rewrite bool_decide_false by done.
  change (unit_of "ns") with (Some 1). cbn [mbind option_bind]. rewrite Z.div_1_r.
  rewrite (proj2 (Z.ltb_ge _ _)) by done. simpl. rewrite Z.mul_1_r. by rewrite (proj2 (Z.ltb_ge _ _)) by lia.
Qed.

Lemma signed_duration_ns neg (x : N) :
  Z.of_N x ≤ max_int64 →
  signed_duration neg (pretty x +:+ "ns") = Some (if neg then - Z.of_N x else Z.of_N x).
Proof.
  intros Hx. unfold signed_duration. destruct (pretty_N_head x) as (d & s & Heq & Hd).
  rewrite !bool_decide_false by (rewrite Heq; destruct s; done).
  assert (∀ z, - max_int64 ≤ z ≤ max_int64 → int64 z = z) as Hid.
  { intros z Hz. unfold int64, wrap, max_int64 in *. rewrite Z.mod_small; lia. }
  cbn [duration_terms]. rewrite bool_decide_false by (by rewrite Heq). rewrite duration_term_ns by done.
  cbn [mbind option_bind]. rewrite Z.add_0_l, Hid by (unfold max_int64 in *; lia).
  rewrite (proj2 (Z.ltb_ge _ _)) by lia.
  destruct (String.length (pretty x +:+ "ns")) as [|n] eqn:Hn; [by rewrite Heq in Hn|].
  cbn [duration_terms]. rewrite bool_decide_true by done. cbn [mbind option_bind].
  destruct neg; [|done]. by rewrite Hid by (unfold max_int64 in *; lia).
Qed.

(** [time.ParseDuration] reads nanoseconds back; the least int64 is out of range. *)
Lemma ParseDuration_ns d : - max_int64 ≤ d ≤ max_int64 → ParseDuration (show_ns d) = Some d.
Proof.
  intros Hd. unfold show_ns. rewrite pretty_Z_eq. case_decide as Hneg.
  - rewrite str_app_assoc. change (ParseDuration ("-" +:+ ?s)) with (signed_duration true s).
    rewrite signed_duration_ns by lia. f_equal. lia.
  - transitivity (signed_duration false (pretty (Z.to_N d) +:+ "ns")).
    + destruct (pretty_N_head (Z.to_N d)) as (c & s & -> & v & Hc).
      destruct c as [[] [] [] [] [] [] [] []]; done.
    + rewrite signed_duration_ns by lia. f_equal. lia.
Qed.

(** The fuel of the terms is enough: every term takes at least a byte. *)
Lemma leadingInt_length x s n rest : leadingInt x s = Some (n, rest) → (String.length rest ≤ String.length s)%nat.
Proof.
  revert x. induction s as [|c s IH]; intros x; simpl; [by intros [= _ <-]|].
  destruct (digit_val c); [|by intros [= _ <-]]. destruct (_ <? x); [done|]. destruct (_ <? 0); [done|].
  intros Hl%IH. lia.
Qed.

Lemma leadingFraction_length x scale o s n sc rest :
  leadingFraction x scale o s = (n, sc, rest) → (String.length rest ≤ String.length s)%nat.
Proof.
  revert x scale o. induction s as [|c s IH]; intros x scale o; simpl; [by intros [= _ _ <-]|].
  destruct (digit_val c); [|by intros [= _ _ <-]].
  destruct o; [intros H%IH; lia|]. destruct (_ <? x); [intros H%IH; lia|].
  destruct (_ <? 0); intros H%IH; lia.
Qed.

Lemma leadingUnit_length s u rest :
  leadingUnit s = (u, rest) → (String.length rest + String.length u = String.length s)%nat.
Proof.
  revert u. induction s as [|c s IH]; intros u; simpl; [by intros [= <- <-]|].
  destruct (is_num_byte c); [by intros [= <- <-]|].
  destruct (leadingUnit s) as [u' r]. intros [= <- <-]. specialize (IH u' eq_refl). simpl. lia.
Qed.

Lemma duration_term_length s v rest :
  duration_term s = Some (v, rest) → (String.length rest < String.length s)%nat.
Proof.
  unfold duration_term. destruct s as [|c s0]; [done|]. destruct (negb _); [done|].
  set (s := String c s0). intros ([n s1] & Hl & Hrest)%bind_Some. apply leadingInt_length in Hl. revert Hrest.
  destruct (match s1 with String "." _ => _ | _ => _ end) as [[[f sc] s2] post] eqn:Hm.
  assert (String.length s2 ≤ String.length s1)%nat as H2.
  { destruct s1 as [|d s1]; [by injection Hm as _ _ <- _|].
    destruct (decide (d = "."%char)) as [->|Hne].
    - destruct (leadingFraction _ _ _ s1) as [[f' sc'] r] eqn:Hf. injection Hm as _ _ <- _.
      apply leadingFraction_length in Hf. simpl. lia.
    - destruct d as [[] [] [] [] [] [] [] []]; first [by injection Hm as _ _ <- _|done]. }
  destruct (_ && _); [done|]. destruct (leadingUnit s2) as [u s3] eqn:Hu. apply leadingUnit_length in Hu.
  case_bool_decide as Hue; [done|]. intros (unit & _ & Hr)%bind_Some. revert Hr.
  destruct (_ <? n); [done|]. destruct (_ <? 0) eqn:Hneg; [done|].
  intros [= _ <-]. destruct u; [done|]. simpl in Hu. lia.
Qed.

Lemma duration_terms_fuel n m d s :
  (String.length s < n)%nat → (String.length s < m)%nat → duration_terms n d s = duration_terms m d s.
Proof.
  revert m d s. induction n as [|n IH]; intros m d s Hn Hm; [lia|]. destruct m as [|m]; [lia|]. simpl.
  case_bool_decide; [done|]. destruct (duration_term s) as [[v s']|] eqn:Ht; [|done]. simpl.
  apply duration_term_length in Ht. destruct (_ <? 0); [done|]. apply IH; lia.
Qed.

(** ** Flag sets *)

Section sets.
Context {S : Type}.
Implicit Types (fs : FlagSet S) (flag : Flag S) (st : S).

(** A flag up to its name. *)
Definition same_flag (f g : Flag S) : Prop :=
  f_Shorthand f = f_Shorthand g ∧ f_NoOptDefVal f = f_NoOptDefVal g ∧ f_Set f = f_Set g.

Lemma AddFlag_ok fs flag fs' :
  AddFlag fs flag = Ok fs' →
  fs_normalize fs' = fs_normalize fs ∧
  fs_formal fs !! fs_normalize fs (f_Name flag) = None ∧
  fs_formal fs' = <[fs_normalize fs (f_Name flag) := set_Name flag (fs_normalize fs (f_Name flag))]> (fs_formal fs).
Proof.
  unfold AddFlag. destruct (fs_formal fs !! _) eqn:Hl; [done|]. simpl.
  destruct (f_Shorthand flag) as [|c [|]]; [by intros [= <-]| |done].
  destruct (fs_shorthands fs !! c); [done|]. by intros [= <-].
Qed.

(** The flags of a set after additions. *)
Lemma AddFlagList_keeps fs flags fs' k flag :
  AddFlagList fs flags = Ok fs' → fs_formal fs !! k = Some flag → fs_formal fs' !! k = Some flag.
Proof.
  revert fs. induction flags as [|g flags IH]; intros fs; simpl; [by intros [= ->]|].
  destruct (AddFlag fs g) as [fs1|] eqn:Ha; [|done]. apply AddFlag_ok in Ha as (_ & Hnone & Hf).
  intros Hl Hk. eapply IH; [done|]. rewrite Hf, lookup_insert_ne; [done|]. intros Heq. by rewrite Heq, Hk in Hnone.
Qed.

Lemma AddFlagList_adds fs flags fs' flag :
  AddFlagList fs flags = Ok fs' → flag ∈ flags → (∀ s, fs_normalize fs s = s) →
  ∃ g, fs_formal fs' !! f_Name flag = Some g ∧ same_flag g flag.
Proof.
  revert fs. induction flags as [|g flags IH]; intros fs; simpl; [by intros _ Hin%elem_of_nil|].
  destruct (AddFlag fs g) as [fs1|] eqn:Ha; [|done]. apply AddFlag_ok in Ha as (Hn & _ & Hf).
  intros Hl [->|Hin]%elem_of_cons Hid.
  - exists (set_Name g (f_Name g)). split; [|done]. eapply AddFlagList_keeps; [done|].
    by rewrite Hf, Hid, lookup_insert_eq.
  - by apply (IH fs1); [done|done|rewrite Hn].
Qed.

(** A flag of a set is an added one, or an old one. *)
Lemma AddFlagList_inv fs flags fs' k g :
  AddFlagList fs flags = Ok fs' → fs_formal fs' !! k = Some g →
  fs_formal fs !! k = Some g ∨ ∃ flag, flag ∈ flags ∧ k = fs_normalize fs (f_Name flag).
Proof.
  revert fs. induction flags as [|h flags IH]; intros fs; simpl; [intros [= ->]; by left|].
  destruct (AddFlag fs h) as [fs1|] eqn:Ha; [|done]. apply AddFlag_ok in Ha as (Hn & _ & Hf).
  intros Hl Hk. destruct (IH _ Hl Hk) as [Hold|(flag & Hin & ->)].
  - rewrite Hf in Hold. apply lookup_insert_Some in Hold as [[<- _]|[_ Hold]]; [|by left].
    right. exists h. split; [by left|done].
  - right. exists flag. rewrite Hn. split; [by right|done].
Qed.

Lemma AddFlagList_normalize fs flags fs' : AddFlagList fs flags = Ok fs' → fs_normalize fs' = fs_normalize fs.
Proof.
  revert fs. induction flags as [|g flags IH]; intros fs; simpl; [by intros [= ->]|].
  destruct (AddFlag fs g) as [fs1|] eqn:Ha; [|done]. apply AddFlag_ok in Ha as (<- & _). apply IH.
Qed.

(** A new normalization: a flag that keeps its name, and that no other takes. *)
Lemma SetNormalizeFunc_keeps fs n k flag :
  fs_formal fs !! k = Some flag → n k = k →
  (∀ k' g, fs_formal fs !! k' = Some g → n k' = k → k' = k) →
  fs_formal (SetNormalizeFunc fs n) !! k = Some (set_Name flag k).
Proof.
  simpl. generalize (fs_formal fs). intros m. revert k flag.
  apply (map_fold_weak_ind (λ r m, ∀ k flag, m !! k = Some flag → n k = k →
    (∀ k' g, m !! k' = Some g → n k' = k → k' = k) → r !! k = Some (set_Name flag k))); [done|].
  intros i x m' r Hi IH k flag Hk Hn Huniq. destruct (decide (i = k)) as [->|Hne].
  - rewrite lookup_insert_eq in Hk. injection Hk as ->. by rewrite Hn, lookup_insert_eq.
  - rewrite lookup_insert_ne in Hk by done. rewrite lookup_insert_ne.
    + apply IH; [done|done|]. intros k' g Hk'. apply (Huniq k' g). rewrite lookup_insert_ne by congruence. done.
    + intros Heq. apply Hne. apply (Huniq i x); [by rewrite lookup_insert_eq|done].
Qed.

Lemma SetNormalizeFunc_absent fs n k :
  (∀ k' g, fs_formal fs !! k' = Some g → n k' ≠ k) →
  fs_formal (SetNormalizeFunc fs n) !! k = None.
Proof.
  simpl. generalize (fs_formal fs). intros m. revert k.
  apply (map_fold_weak_ind (λ r m, ∀ k, (∀ k' g, m !! k' = Some g → n k' ≠ k) → r !! k = None)); [done|].
  intros i x m' r Hi IH k Habs. rewrite lookup_insert_ne.
  - apply IH. intros k' g Hk'. apply (Habs k' g). rewrite lookup_insert_ne by congruence. done.
  - apply (Habs i x). by rewrite lookup_insert_eq.
Qed.

(** Go's flags do not replace a flag, nor change the normalization. *)
Lemma AddGoFlagSet_keeps fs flags fs' :
  AddGoFlagSet fs flags = Ok fs' →
  fs_normalize fs' = fs_normalize fs ∧
  (∀ k flag, fs_formal fs !! k = Some flag → fs_formal fs' !! k = Some flag) ∧
  (∀ k, fs_formal fs !! k = None → (∀ g, g ∈ flags → fs_normalize fs (f_Name g) ≠ k) → fs_formal fs' !! k = None).
Proof.
  revert fs. induction flags as [|g flags IH]; intros fs; simpl; [intros [= ->]; naive_solver|].
  destruct (Lookup fs (f_Name g)) as [old|] eqn:Hl.
  - intros (Hn & Hk & Ha)%IH. split_and!; [done|done|]. intros k Hnone Hall. apply Ha; [done|].
    intros h Hh. apply Hall. by right.
  - destruct (AddFlag fs g) as [fs1|] eqn:Hadd; [|done]. apply AddFlag_ok in Hadd as (Hn1 & Hnone1 & Hf).
    intros (Hn & Hk & Ha)%IH. split_and!; [congruence| |].
    + intros k flag Hlk. apply Hk. rewrite Hf, lookup_insert_ne; [done|]. intros Heq. by rewrite Heq, Hlk in Hnone1.
    + intros k Hnone Hall. apply Ha.
      * rewrite Hf, lookup_insert_ne; [done|]. apply Hall. by left.
      * intros h Hh. rewrite Hn1. apply Hall. by right.
Qed.

(** ** The parser *)

(** A name that can be written before an equals sign. *)
Definition plain_name (name : string) : Prop :=
  match name with
  | EmptyString => False
  | String c _ => c ≠ "-"%char ∧ "="%char ∉ str_to_list name
  end.

#[global] Instance plain_name_dec name : Decision (plain_name name).
Proof. destruct name; simpl; apply _. Defined.

(** [--name=value]. *)
Definition assign (name value : string) : string := "--" +:+ name +:+ "=" +:+ value.

Lemma split_eq_app name value :
  "="%char ∉ str_to_list name → split_eq (name +:+ "=" +:+ value) = (name, Some value).
Proof.
  induction name as [|c name IH]; [done|]. simpl str_to_list. intros [Hc Hn]%not_elem_of_cons.
  change (String c name +:+ ?s) with (String c (name +:+ s)).
  transitivity (let '(n, v) := split_eq (name +:+ "=" +:+ value) in (String c n, v)).
  - destruct c as [[] [] [] [] [] [] [] []]; done.
  - by rewrite IH.
Qed.

(** A long argument that is not refused for its syntax. *)
Lemma parseLongArg_named fs s name args st :
  match name with EmptyString => False | String c _ => c ≠ "-"%char ∧ c ≠ "="%char end →
  parseLongArg fs s name args st =
    let '(name, v) := split_eq name in
    match Lookup fs name with
    | None => inr (if bool_decide (name = "help") then ErrHelp else UnknownFlag name)
    | Some flag =>
        let with_value value args :=
          match setFlag flag value s st with inl st' => inl (args, st') | inr e => inr e end in
        match v with
        | Some value => with_value value args
        | None =>
            if bool_decide (f_NoOptDefVal flag ≠ "") then with_value (f_NoOptDefVal flag) args
            else match args with
                 | value :: args' => with_value value args'
                 | [] => inr (NeedsArgument s)
                 end
        end
    end.
Proof.
  destruct name as [|c name]; [done|]. intros [H1 H2]. unfold parseLongArg.
  destruct c as [[] [] [] [] [] [] [] []]; done.
Qed.

Lemma parseLongArg_assign fs s name value args st flag st' :
  plain_name name → Lookup fs name = Some flag → f_Set flag value st = Some st' →
  parseLongArg fs s (name +:+ "=" +:+ value) args st = inl (args, st').
Proof.
  intros Hp Hl Hs. rewrite parseLongArg_named.
  - rewrite split_eq_app by (destruct name; [done|apply Hp]). rewrite Hl. unfold setFlag. by rewrite Hs.
  - destruct name as [|c name]; [done|]. destruct Hp as [H1 H2]. simpl in *.
    apply not_elem_of_cons in H2 as [H2 _]. by split.
Qed.

(** A long argument on the command line. *)
Lemma parseArgs_long n fs name args rest st :
  name ≠ "" →
  parseArgs (Datatypes.S n) fs (("--" +:+ name) :: args) rest st =
    match parseLongArg fs ("--" +:+ name) name args st with
    | inl (args', st') => parseArgs n fs args' rest st'
    | inr e => inr e
    end.
Proof.
  intros Hne. change ("--" +:+ name) with (String "-" (String "-" name)). cbn [parseArgs].
  by rewrite bool_decide_false.
Qed.

Lemma plain_assign name value : plain_name name → name +:+ "=" +:+ value ≠ "".
Proof. by destruct name. Qed.

Lemma parse_assign n fs name value args rest st flag st' :
  plain_name name → Lookup fs name = Some flag → f_Set flag value st = Some st' →
  parseArgs (Datatypes.S n) fs (assign name value :: args) rest st = parseArgs n fs args rest st'.
Proof.
  intros Hp Hl Hs. unfold assign. rewrite parseArgs_long by by apply plain_assign.
  by erewrite parseLongArg_assign.
Qed.

(** A run of assignments. *)
Fixpoint set_all fs (l : list (string * string)) st : option S :=
  match l with
  | [] => Some st
  | (name, value) :: l' =>
      flag ← Lookup fs name; st' ← f_Set flag value st; set_all fs l' st'
  end.

Lemma Parse_assignments fs l st st' :
  Forall plain_name l.*1 → set_all fs l st = Some st' →
  Parse fs (map (λ nv : string * string, assign nv.1 nv.2) l) st = inl (st', []).
Proof.
  unfold Parse. rewrite length_map. generalize (@nil string). revert st.
  induction l as [|[name value] l IH]; intros st rest; cbn [map length set_all fmap list_fmap fst snd]; [by intros _ [= ->]|].
  intros [Hp Hps]%Forall_cons (flag & Hl & (st1 & Hs & Hall)%bind_Some)%bind_Some.
  erewrite parse_assign by done. by apply IH.
Qed.

(** An unknown flag is refused, whatever follows. *)
Lemma Parse_unknown fs name args st :
  plain_name name → name ≠ "help" → Lookup fs name = None →
  Parse fs (("--" +:+ name) :: args) st = inr (UnknownFlag name).
Proof.
  intros Hp Hh Hl. unfold Parse. cbn [length]. rewrite parseArgs_long by by destruct name.
  rewrite parseLongArg_named.
  - assert (split_eq name = (name, None)) as ->.
    { assert ("="%char ∉ str_to_list name) as Hn by (destruct name; [done|apply Hp]). clear Hp Hh Hl.
      induction name as [|c name IH]; [done|]. simpl in Hn. apply not_elem_of_cons in Hn as [Hc Hn].
      transitivity (let '(n, v) := split_eq name in (String c n, v)); [|by rewrite IH].
      destruct c as [[] [] [] [] [] [] [] []]; done. }
    rewrite Hl. by rewrite bool_decide_false.
  - destruct name as [|c name]; [done|]. destruct Hp as [H1 H2]. simpl in *.
    apply not_elem_of_cons in H2 as [H2 _]. by split.
Qed.

(** The fuel of the parser is enough: an argument is used up in every turn. *)
Lemma parseLongArg_length fs s name args st args' st' :
  parseLongArg fs s name args st = inl (args', st') → (length args' ≤ length args)%nat.
Proof.
  assert (∀ flag value a, match setFlag flag value s st with inl st' => inl (a, st') | inr e => inr e end
    = inl (args', st') → args' = a) as Hset.
  { intros flag value a. by destruct (setFlag _ _ _ _); intros [= <- <-]. }
  destruct name as [|c name]; [done|].
  destruct (decide (c = "-"%char)) as [->|H1]; [done|]. destruct (decide (c = "="%char)) as [->|H2]; [done|].
  rewrite parseLongArg_named by done. destruct (split_eq (String c name)) as [nm v].
  destruct (Lookup fs nm) as [flag|]; [|done]. cbn zeta.
  destruct v as [v|]; [by intros ->%Hset|]. case_bool_decide; [by intros ->%Hset|].
  destruct args as [|a args]; [done|]. intros ->%Hset. simpl. lia.
Qed.

Lemma parseSingleShortArg_length fs c rest args st shorts args' st' :
  parseSingleShortArg fs c rest args st = inl (shorts, args', st') →
  (length args' ≤ length args)%nat ∧ (String.length shorts ≤ String.length rest)%nat.
Proof.
  unfold parseSingleShortArg. destruct (String.prefix _ _); [intros [= <- <- <-]; simpl; lia|].
  destruct (fs_shorthands fs !! c) as [flag|]; [|done]. cbn zeta.
  assert (∀ value sh a, match setFlag flag value (String c rest) st with
    | inl st' => inl (sh, a, st') | inr e => inr e end = inl (shorts, args', st') → shorts = sh ∧ args' = a) as Hset.
  { intros value sh a. by destruct (setFlag _ _ _ _); intros [= <- <- <-]. }
  assert ((if bool_decide (f_NoOptDefVal flag ≠ "")
     then match setFlag flag (f_NoOptDefVal flag) (String c rest) st with
          | inl st' => inl (rest, args, st') | inr e => inr e end
     else match rest with
          | String _ _ => match setFlag flag rest (String c rest) st with
                          | inl st' => inl ("", args, st') | inr e => inr e end
          | EmptyString => match args with
              | value :: a' => match setFlag flag value (String c rest) st with
                               | inl st' => inl ("", a', st') | inr e => inr e end
              | [] => inr (NeedsArgument (String c rest)) end
          end) = inl (shorts, args', st') →
    (length args' ≤ length args)%nat ∧ (String.length shorts ≤ String.length rest)%nat) as Hplain.
  { case_bool_decide; [intros [-> ->]%Hset; lia|]. destruct rest as [|d rest]; [|intros [-> ->]%Hset; simpl; lia].
    destruct args as [|a args]; [done|]. intros [-> ->]%Hset. simpl. lia. }
  destruct rest as [|d [|e rest]]; [exact Hplain| |].
  - destruct d as [[] [] [] [] [] [] [] []]; exact Hplain.
  - destruct (decide (d = "="%char)) as [->|Hne]; [intros [-> ->]%Hset; simpl; lia|].
    destruct d as [[] [] [] [] [] [] [] []]; first [exact Hplain|done].
Qed.

Lemma parseShortArg_length n fs shorthands args a st args' st' :
  parseShortArg n fs shorthands args a st = inl (args', st') →
  (length a ≤ length args)%nat → (length args' ≤ length args)%nat.
Proof.
  revert shorthands a st. induction n as [|n IH]; intros shorthands a st; simpl; [by intros [= <- _]|].
  destruct shorthands as [|c rest]; [by intros [= <- _]|].
  destruct (parseSingleShortArg fs c rest args st) as [[[sh a'] st1]|] eqn:Hp; [|done].
  apply parseSingleShortArg_length in Hp as [Ha _]. intros Hn _. by eapply IH.
Qed.

(** The fuel of the shorthands of one argument is enough too. *)
Lemma parseShortArg_fuel n m fs shorthands args a st :
  (String.length shorthands ≤ n)%nat → (String.length shorthands ≤ m)%nat →
  parseShortArg n fs shorthands args a st = parseShortArg m fs shorthands args a st.
Proof.
  revert m shorthands a st. induction n as [|n IH]; intros m shorthands a st Hn Hm.
  { destruct shorthands; [|simpl in Hn; lia]. by destruct m. }
  destruct m as [|m]; [destruct shorthands; [done|simpl in Hm; lia]|]. cbn [parseShortArg].
  destruct shorthands as [|c rest]; [done|]. simpl in Hn, Hm.
  destruct (parseSingleShortArg fs c rest args st) as [[[sh a'] st1]|] eqn:Hp; [|done].
  apply parseSingleShortArg_length in Hp as [_ Hs]. apply IH; lia.
Qed.

Lemma parseArgs_fuel n m fs args rest st :
  (length args ≤ n)%nat → (length args ≤ m)%nat →
  parseArgs n fs args rest st = parseArgs m fs args rest st.
Proof.
  revert m args rest st. induction n as [|n IH]; intros m args rest st Hn Hm.
  { destruct args; [|simpl in Hn; lia]. by destruct m. }
  destruct m as [|m]; [destruct args; [done|simpl in Hm; lia]|].
  destruct args as [|s args]; [done|]. simpl in Hn, Hm.
  assert (parseArgs n fs args (rest ++ [s]) st = parseArgs m fs args (rest ++ [s]) st) as Hpos by (apply IH; lia).
  destruct s as [|c s]; [exact Hpos|].
  destruct (decide (c = "-"%char)) as [->|Hc].
  2:{ destruct c as [[] [] [] [] [] [] [] []]; first [exact Hpos|done]. }
  destruct s as [|d s]; [exact Hpos|]. destruct (decide (d = "-"%char)) as [->|Hd].
  - cbn [parseArgs]. case_bool_decide; [done|].
    destruct (parseLongArg fs _ s args st) as [[args' st']|] eqn:Hl; [|done].
    apply parseLongArg_length in Hl. apply IH; lia.
  - assert (∀ k, parseArgs (Datatypes.S k) fs (String "-" (String d s) :: args) rest st =
      match parseShortArg (String.length (String d s)) fs (String d s) args args st with
      | inl (args'', st') => parseArgs k fs args'' rest st' | inr e => inr e end) as Hshort
      by (intros k; destruct d as [[] [] [] [] [] [] [] []]; done).
    rewrite !Hshort. destruct (parseShortArg _ fs _ args args st) as [[args' st']|] eqn:Hl; [|done].
    apply parseShortArg_length in Hl; [|done]. apply IH; lia.
Qed.

End sets.
