(* ===== verification/OptionsSpec.v ===== *)
(** * Lemmas about the options on the command line

    Every option can be set by its flag, in either spelling, and is read back as it
    was written; a name that nobody defines is unknown. *)

From S2P Require Import Prelude GoStd Kube Flags FlagsSpec Options Controller.

(** The names of the options' flags. *)
Definition own_names : list string :=
  ["cluster-cidr"; "instance-name"; "in-cluster"; "concurrent-service-syncs"; "shutdown-grace-period";
   "route-reconcilation-period"; "kubeconfig"; "provision-retry"; "leader-elect";
   "leader-elect-lease-duration"; "leader-elect-renew-deadline"; "leader-elect-retry-period";
   "client-certificate"; "client-key"; "token"; "as"; "username"; "password"; "server"; "api-version";
   "certificate-authority"; "insecure-skip-tls-verify"; "cluster"; "user"; "namespace"; "context";
   "request-timeout"].

Lemma own_names_eq host : (λ b, f_Name (b_flag b)) <$> option_bindings host = own_names.
Proof. reflexivity. Qed.

(** The texts that set the options to [o], in the order of the flags. *)
Definition option_values (o : Options) : list string :=
  let l := o_LeaderElection o in
  let ov := o_Overrides o in
  [o_ClusterCIDR o; o_Name o; show_bool (o_InCluster o); pretty (o_ConcurrentServiceSyncs o);
   show_ns (o_ShutdownGracePeriod o); show_ns (o_RouteReconcilationPeriod o); o_Kubeconfig o;
   pretty (o_ProvisionRetry o);
   show_bool (le_LeaderElect l); show_ns (le_LeaseDuration l); show_ns (le_RenewDeadline l);
   show_ns (le_RetryPeriod l);
   ov_ClientCertificate ov; ov_ClientKey ov; ov_Token ov; ov_Impersonate ov; ov_Username ov;
   ov_Password ov; ov_Server ov; ov_APIVersion ov; ov_CertificateAuthority ov;
   show_bool (ov_InsecureSkipTLSVerify ov); ov_Cluster ov; ov_AuthInfo ov; ov_Namespace ov;
   ov_CurrentContext ov; ov_Timeout ov].

(** The assignments of all options, the names spelled by [sp]. *)
Definition assignments (sp : string → string) (o : Options) : list (string * string) :=
  zip_with (λ n v, (sp n, v)) own_names (option_values o).
Definition render_options (sp : string → string) (o : Options) : list string :=
  map (λ nv, assign nv.1 nv.2) (assignments sp o).

(** A way to spell the names: dashes may be underscores. *)
Definition spelling (sp : string → string) : Prop :=
  Forall (λ n, plain_name (sp n) ∧ WordSepNormalizeFunc (sp n) = n) own_names.

(** The numbers are of Go's types; the least duration has no text. *)
Definition representable (o : Options) : Prop :=
  in_int64 (o_ConcurrentServiceSyncs o) ∧ in_int64 (o_ProvisionRetry o) ∧
  Forall (λ d, - max_int64 ≤ d ≤ max_int64)
    [o_ShutdownGracePeriod o; o_RouteReconcilationPeriod o; le_LeaseDuration (o_LeaderElection o);
     le_RenewDeadline (o_LeaderElection o); le_RetryPeriod (o_LeaderElection o)].

(** The flags of imported packages do not take an option's name. *)
Definition no_clash {X} (pflags : list (Flag X)) : Prop :=
  ∀ f, f ∈ pflags → WordSepNormalizeFunc (f_Name f) ∉ own_names.

Lemma own_plain : Forall (λ n, WordSepNormalizeFunc n = n) own_names.
Proof. apply (bool_decide_unpack _). vm_compute. exact I. Qed.

Lemma read_show_bool b : read_bool (show_bool b) = Some b.
Proof. by destruct b. Qed.

Section flags.
Context {X : Type} (host : string) (pflags goflags : list (Flag X)).
Context (fs : FlagSet (Options * X)) (o0 : Options).
Context (Hcmd : command_line host pflags goflags = Ok (fs, o0)).

(** The steps that built the flag set. *)
Lemma command_line_inv :
  ∃ cmd ps, AddFlagList NewFlagSet (map foreign_flag pflags) = Ok cmd ∧
    AddFlagList cmd (map (λ b, own_flag (b_flag b)) (option_bindings host)) = Ok ps ∧
    AddGoFlagSet (SetNormalizeFunc ps WordSepNormalizeFunc) (map foreign_flag goflags) = Ok fs.
Proof.
  unfold command_line, AddFlags in Hcmd.
  destruct (AddFlagList NewFlagSet _) as [cmd|] eqn:H1; [|done].
  destruct (AddFlagList cmd _) as [ps|] eqn:H2; [|done].
  destruct (AddGoFlagSet _ _) as [fs'|] eqn:H3; [|done]. apply (inj Ok), pair_equal_spec in Hcmd as [<- _]. by exists cmd, ps.
Qed.

Lemma cmd_normalize cmd : AddFlagList (S := Options * X) NewFlagSet (map foreign_flag pflags) = Ok cmd →
  ∀ s, fs_normalize cmd s = s.
Proof. intros Hc s. apply AddFlagList_normalize in Hc. by rewrite Hc. Qed.

(** The names before the normalization. *)
Lemma names_before cmd ps k g :
  AddFlagList NewFlagSet (map foreign_flag pflags) = Ok cmd →
  AddFlagList cmd (map (λ b, own_flag (b_flag b)) (option_bindings host)) = Ok ps →
  fs_formal ps !! k = Some g → k ∈ own_names ∨ ∃ f, f ∈ pflags ∧ k = f_Name f.
Proof.
  intros Hc Hp Hk. destruct (AddFlagList_inv _ _ _ _ _ Hp Hk) as [Hk'|(flag & Hin & ->)].
  - destruct (AddFlagList_inv _ _ _ _ _ Hc Hk') as [Hk''|(flag & Hin & ->)]; [done|].
    apply list_elem_of_In, in_map_iff in Hin as (f & <- & Hf%list_elem_of_In). right. by exists f.
  - left. apply list_elem_of_In, in_map_iff in Hin as (b & <- & Hb%list_elem_of_In).
    rewrite (cmd_normalize cmd Hc). rewrite <- (own_names_eq host). by apply (list_elem_of_fmap_2 (λ b, f_Name (b_flag b))).
Qed.

Context (Hclash : no_clash pflags).

Lemma Lookup_own k b :
  option_bindings host !! k = Some b →
  ∃ g, fs_formal fs !! f_Name (b_flag b) = Some g ∧ same_flag g (own_flag (b_flag b)).
Proof.
  intros Hb%list_elem_of_lookup_2. destruct command_line_inv as (cmd & ps & Hc & Hp & Hg).
  assert (f_Name (b_flag b) ∈ own_names) as Hname.
  { rewrite <- (own_names_eq host). by apply (list_elem_of_fmap_2 (λ b, f_Name (b_flag b))). }
  destruct (AddFlagList_adds _ _ _ (own_flag (b_flag b)) Hp) as (g & Hl & Hs).
  { apply list_elem_of_In, in_map_iff. exists b. split; [done|]. by apply list_elem_of_In. }
  { by apply cmd_normalize. }
  exists (set_Name g (f_Name (b_flag b))). split; [|exact Hs].
  apply AddGoFlagSet_keeps in Hg as (_ & Hkeep & _). apply Hkeep. pose proof own_plain as Hplain.
  rewrite Forall_forall in Hplain. apply SetNormalizeFunc_keeps; [exact Hl|by apply Hplain|].
  intros k' g' Hk' Hn. destruct (names_before cmd ps k' g' Hc Hp Hk') as [Hown|(f & Hf & ->)].
  - by rewrite (Hplain k' Hown) in Hn.
  - destruct (Hclash f Hf). by rewrite Hn.
Qed.

Lemma fs_normalize_eq : fs_normalize fs = WordSepNormalizeFunc.
Proof.
  destruct command_line_inv as (cmd & ps & _ & _ & Hg). by apply AddGoFlagSet_keeps in Hg as (-> & _).
Qed.

(** One assignment of an option. *)
Lemma set_own k sp name v l o o' x r b :
  option_bindings host !! k = Some b → f_Name (b_flag b) = name → WordSepNormalizeFunc (sp name) = name →
  f_Set (b_flag b) v o = Some o' → set_all fs l (o', x) = r →
  set_all fs ((sp name, v) :: l) (o, x) = r.
Proof.
  intros Hk <- Hsp Hs Hr. destruct (Lookup_own k b Hk) as (g & Hl & _ & _ & Hset). cbn [set_all].
  unfold Lookup. rewrite fs_normalize_eq, Hsp, Hl. cbn [mbind option_bind]. rewrite Hset.
  cbn [own_flag f_Set]. rewrite Hs. cbn [mbind option_bind]. exact Hr.
Qed.

End flags.

(** The value of an option's flag, and the assignments from the [k]th option on. *)
Ltac set_value :=
  cbn [f_Set b_flag bindString bindStringP bindBool bindInt bindDuration
       StringVar StringVarP BoolVar IntVar DurationVar var_flag];
  rewrite ?read_show_bool, ?ParseInt0_pretty, ?ParseDuration_ns by (done || lia); reflexivity.
Ltac set_options Hcmd Hclash Hnames k :=
  lazymatch goal with
  | |- set_all _ [] _ = _ => idtac
  | |- set_all _ (_ :: _) _ = _ =>
      eapply (set_own _ _ _ _ _ Hcmd Hclash k);
      [reflexivity|reflexivity
      |apply Hnames, (bool_decide_unpack _); vm_compute; exact I
      |set_value
      |set_options Hcmd Hclash Hnames (S k)]
  end.

Lemma set_all_options {X} host (pflags goflags : list (Flag X)) fs o0 sp o o1 (x : X) :
  command_line host pflags goflags = Ok (fs, o0) → no_clash pflags → spelling sp → representable o →
  set_all fs (assignments sp o) (o1, x) = Some (o, x).
Proof.
  intros Hcmd Hclash Hsp (Hc & Hp & Hd). rewrite !Forall_cons in Hd. destruct Hd as (Hd1 & Hd2 & Hd3 & Hd4 & Hd5 & _).
  assert (∀ n, n ∈ own_names → WordSepNormalizeFunc (sp n) = n) as Hnames.
  { intros n Hn. unfold spelling in Hsp. rewrite Forall_forall in Hsp. by apply Hsp. }
  unfold assignments, own_names, option_values. cbn [zip_with].
  set_options Hcmd Hclash Hnames 0%nat.
  destruct o as [? ? ? ? ? ? ? ? [] []]. reflexivity.
Qed.

Lemma Parse_options {X} host (pflags goflags : list (Flag X)) fs o0 sp o o1 (x : X) :
  command_line host pflags goflags = Ok (fs, o0) → no_clash pflags → spelling sp → representable o →
  Parse fs (render_options sp o) (o1, x) = inl ((o, x), []).
Proof.
  intros Hcmd Hclash Hsp Hrep. apply Parse_assignments; [|by eapply set_all_options].
  apply Forall_forall. intros n Hn. unfold spelling in Hsp. rewrite Forall_forall in Hsp.
  apply list_elem_of_fmap in Hn as ([n' v] & -> & Hin). unfold assignments in Hin.
  apply elem_of_lookup_zip_with in Hin as (i & n & v' & [= -> ->] & Hi & _).
  apply Hsp. by eapply list_elem_of_lookup_2.
Qed.

(** A name that neither the options nor an imported package has. *)
Lemma Lookup_foreign {X} host (pflags goflags : list (Flag X)) fs o0 name :
  command_line host pflags goflags = Ok (fs, o0) → WordSepNormalizeFunc name ∉ own_names →
  (∀ f, f ∈ pflags ++ goflags → WordSepNormalizeFunc (f_Name f) ≠ WordSepNormalizeFunc name) →
  Lookup fs name = None.
Proof.
  intros Hcmd Hown Hf. unfold Lookup. rewrite (fs_normalize_eq _ _ _ _ _ Hcmd).
  destruct (command_line_inv _ _ _ _ _ Hcmd) as (cmd & ps & Hc & Hp & Hg).
  apply AddGoFlagSet_keeps in Hg as (_ & _ & Habs). apply Habs.
  - apply SetNormalizeFunc_absent. intros k g Hk Heq.
    destruct (names_before host pflags cmd ps k g Hc Hp Hk) as [Hk'|(f & Hin & ->)].
    + pose proof own_plain as Hplain. rewrite Forall_forall in Hplain. rewrite (Hplain k Hk') in Heq. by subst.
    + apply (Hf f); [apply elem_of_app; by left|done].
  - intros g Hin. apply list_elem_of_In, in_map_iff in Hin as (f & <- & Hin%list_elem_of_In).
    apply (Hf f). apply elem_of_app. by right.
Qed.

(** The fuel of the parser is its number of arguments, and more does not help. *)
Lemma Parse_fuel {S} (fs : FlagSet S) n args st :
  (length args ≤ n)%nat → Parse fs args st = parseArgs n fs args [] st.
Proof. intros Hn. by apply parseArgs_fuel. Qed.
