(* ===== verification/ControllerSpec.v ===== *)
(** * Theorems about the controller manager

    What [NewController] builds and when it does, that [main] runs it with the
    options of the command line, and what [Run] does: who starts which controller
    when, and how the process ends. *)

From S2P Require Import Prelude GoStd Kube Cloud MapUtils Provider Instances Quantity Volume LoadBalancer Routes Interfaces Net Conc RouteController Flags FlagsSpec Options Controller OptionsSpec NetSpec RouteControllerSpec SimCloud.

(** A network of four or sixteen bytes, masked by its mask. *)
Definition well_formed (n : IPNet) : Prop :=
  ∃ ones k, (k = IPv4len ∨ k = IPv6len) ∧ block ones k n.

Section spec.
Context {W : Type} `{!Handler req W} `{!FloatConv} `{!MapOrder}.
Context (show_options : gmap string json → string).
Context (show_pv : PersistentVolume → string) (show_fv : FlexVolumeSource → string).
Implicit Types (w : W).

(** ** NewController *)

(** The controller that the options ask for: its route controller has the Aliyun
    provider's routes, the cluster's name and its parsed CIDR; the service controller
    its load balancers; the provision controller its volumes. *)
Record controller_of (o : Options) (p : AliyunProvider) (c : Controller W) : Prop := {
  co_options : c_Options c = o;
  co_provider : c_provider c = as_Provider show_options show_pv show_fv p;
  co_sc : sc_balancer (c_sc c) = (LoadBalancer p).1 ∧ sc_clusterName (c_sc c) = ov_Cluster (o_Overrides o);
  co_routes : runs_as (aliyun_routes p) (rc_routes (c_rc c));
  co_rc : rc_clusterName (c_rc c) = ov_Cluster (o_Overrides o) ∧
    ParseCIDR (o_ClusterCIDR o) = Ok (rc_clusterCIDR (c_rc c));
  co_pvc : ∃ pvc, c_pvc c = Some pvc ∧ pvc_provisionerName pvc = ProvisionerName p ∧
    pvc_failedRetryThreshold pvc = o_ProvisionRetry o;
  co_done : c_done c = false }.

Lemma NewProvider_reads env host : emits read_only (NewProvider (W:=W) env host).
Proof. unfold NewProvider. go_struct; done. Qed.

Lemma NewProvider_returns env host : total (NewProvider (W:=W) env host).
Proof. unfold NewProvider. go_struct; done. Qed.

(** The registry's provider. *)
Lemma wp_GetProvider_reads env host (Q : outcome (result (ProviderInterface W)) → W → list (event req) → Prop) w :
  (∀ p w' t, Forall read_only t → Q (Ret (Ok (as_Provider show_options show_pv show_fv p))) w' t) →
  wp (GetProvider (providers show_options show_pv show_fv env host) "aliyun") Q w.
Proof.
  intros HQ. unfold GetProvider, providers, RegisterProvider. rewrite lookup_insert_eq.
  rewrite !wp_bind. unfold wp. destruct (NewProvider_returns env host w) as [p ->]. cbn beta iota.
  unfold mret, M_ret, outcome_of, world_of, trace_of. cbn. rewrite !app_nil_r. apply HQ, NewProvider_reads.
Qed.

(** The service controller that [service.New] makes of the provider, when the query
    for the zone finds a switch, and the error otherwise. *)
Lemma wp_service_New p name (Q : outcome (result (ServiceController W)) → W → list (event req) → Prop) w :
  (∀ args w' vs l pr, (handle (DescribeVSwitches args) w).1 = Ok (vs :: l, pr) →
     Q (Ret (Ok (mkServiceController (LoadBalancer p).1 (mkZone (vs_ZoneId vs) (region p)) name))) w'
       [Ev (DescribeVSwitches args) (Ok (vs :: l, pr))]) →
  (∀ args w' r e, (handle (DescribeVSwitches args) w).1 = r → (∀ vs l pr, r ≠ Ok (vs :: l, pr)) →
     Q (Ret (Err e)) w' [Ev (DescribeVSwitches args) r]) →
  wp (service_New (as_Provider show_options show_pv show_fv p) name) Q w.
Proof.
  intros HOk HErr. unfold service_New, as_Provider. cbn [pi_LoadBalancer pi_Zones LoadBalancer Zones negb zs_GetZone].
  unfold GetZone. rewrite !wp_bind, wp_call. cbn beta iota. set (args := mkDescribeVSwitchesArgs _ _ _).
  specialize (HOk args). specialize (HErr args).
  destruct (handle (DescribeVSwitches args) w) as [[[[|vs l] pr]|e] w']; cbn [fst snd] in *;
    rewrite wp_ret; cbn beta iota; rewrite wp_ret; [by apply HErr|by apply HOk|by apply HErr].
Qed.

(** How [NewController] ends on every answer of the cloud and of the API server. *)
Definition starts (o : Options) (out : outcome (result (Controller W))) (t : list (event req)) : Prop :=
  match out with
  | Ret (Ok c) => ∃ p, controller_of o p c
  | Exit code => code = 255
  | Panic _ => ∃ v, Ev (Kube ServerVersion) (Ok v) ∈ t ∧ ParseGeneric v = None
  | Ret (Err _) | OutOfFuel => False
  end.

Lemma wp_client_config o (Q : outcome (result RestConfig) → W → list (event req) → Prop) w :
  (∀ r w' ev, read_only ev → Q (Ret r) w' [ev]) → wp (client_config o) Q w.
Proof.
  intros HQ. unfold client_config. destruct (o_InCluster o); [|case_bool_decide]; rewrite wp_call; by apply HQ.
Qed.

(** A fatal error after requests that only read. *)
#[local] Ltac fatal_ends :=
  unfold log_Fatalf; rewrite wp_exit; split; [rewrite !Forall_app; repeat constructor|].

Lemma wp_NewController env host o w :
  wp (NewController show_options show_pv show_fv env host o) (λ out _ t, Forall read_only t ∧ starts o out t) w.
Proof.
  unfold NewController, bind_ok. rewrite wp_bind. apply wp_GetProvider_reads. intros p w1 t1 Ht1. cbn beta iota.
  rewrite wp_bind. apply wp_client_config. intros [cfg|e] w2 ev2 Hev2; cbn beta iota.
  2:{ by fatal_ends. }
  rewrite wp_bind, wp_call. cbn beta iota. destruct (handle (Kube (KubernetesForConfig cfg)) w2) as [[[]|e] w3]; cbn [fst snd].
  2:{ by fatal_ends. }
  rewrite wp_bind. apply wp_service_New; [intros args w4 vs l pr _|intros args w4 r e _ _]; cbn beta iota.
  2:{ by fatal_ends. }
  cbn [pi_Routes as_Provider fst Routes Interfaces.Routes]. destruct (ParseCIDR (o_ClusterCIDR o)) as [cidr|e] eqn:Hcidr.
  2:{ by fatal_ends. }
  rewrite wp_bind, wp_call. cbn beta iota. destruct (handle (Kube (ClientKubernetesForConfig cfg)) w4) as [[[]|e] w5]; cbn [fst snd].
  2:{ by fatal_ends. }
  rewrite wp_bind. unfold new_pvc. cbn [pi_Volume as_Provider Volume Interfaces.Volume negb].
  rewrite wp_bind, wp_call. cbn beta iota. destruct (handle (Kube ServerVersion) w5) as [[v|e] w6]; cbn [fst snd].
  2:{ by fatal_ends. }
  rewrite wp_bind. unfold NewProvisionController. destruct (ParseGeneric v) as [vs'|] eqn:Hv.
  - rewrite wp_ret. cbn beta iota. rewrite !wp_ret. cbn beta iota. split; [rewrite !Forall_app; by repeat constructor|].
    exists p. split; try done; [apply aliyun_routes_run|by eexists].
  - rewrite wp_panic. cbn beta iota. split; [rewrite !Forall_app; by repeat constructor|].
    exists v. split; [|done]. rewrite !elem_of_app. do 5 right. left. left.
Qed.

(** C17: [NewController] whatever the cloud, the metadata service and the API server
    answer: all its requests only read; it returns the controller of the options and
    of the Aliyun provider, or ends the process with 255, or panics because the API
    server's version has no numbers; it never returns an error. *)
Theorem NewController_ends env host o w :
  let '(out, _, t) := NewController show_options show_pv show_fv env host o w in
  Forall read_only t ∧ starts o out t.
Proof.
  pose proof (wp_NewController env host o w) as Hwp. unfold wp, outcome_of, trace_of in Hwp.
  by destruct (NewController _ _ _ _ _ _ w) as [[out w'] t].
Qed.


(** What the API server, the cloud and the options must offer. *)
Record serves (o : Options) : Prop := {
  sv_config : ∀ w, ∃ cfg, outcome_of (client_config o) w = Ret (Ok cfg);
  sv_client : ∀ w cfg, (handle (Kube (KubernetesForConfig cfg)) w).1 = Ok tt;
  sv_client2 : ∀ w cfg, (handle (Kube (ClientKubernetesForConfig cfg)) w).1 = Ok tt;
  sv_version : ∀ w, ∃ v, (handle (Kube ServerVersion) w).1 = Ok v ∧ is_Some (ParseGeneric v);
  sv_switch : ∀ w args, ∃ vs l pr, (handle (DescribeVSwitches args) w).1 = Ok (vs :: l, pr);
  sv_cidr : ∃ cidr, ParseCIDR (o_ClusterCIDR o) = Ok cidr }.

Lemma NewController_returns env host o w :
  serves o →
  ∃ p c w' t, NewController show_options show_pv show_fv env host o w = (Ret (Ok c), w', t) ∧
    controller_of o p c.
Proof.
  intros [Hcfg Hcl Hcl2 Hver Hsw Hcidr].
  enough (wp (NewController show_options show_pv show_fv env host o)
    (returns (λ r _ _, ∃ p c, r = Ok c ∧ controller_of o p c)) w) as Hwp.
  { apply wp_returns in Hwp as (r & w' & t & Heq & p & c & -> & Hc). by exists p, c, w', t. }
  unfold NewController, bind_ok. rewrite wp_bind. apply wp_GetProvider_reads. intros p w1 t1 _. cbn beta iota.
  rewrite wp_bind. unfold wp at 1. destruct (Hcfg w1) as [cfg ->]. cbn beta iota.
  generalize (world_of (client_config o) w1), (trace_of (client_config o) w1). intros w2 t2.
  rewrite wp_bind, wp_call. cbn beta iota. rewrite Hcl. cbn beta iota. rewrite wp_bind.
  apply wp_service_New; [intros args w4 vs l pr _|intros args w4 r e Hr Hno]; cbn beta iota.
  2:{ destruct (Hsw (handle (Kube (KubernetesForConfig cfg)) w2).2 args) as (vs & l & pr & Heq). rewrite Heq in Hr. by destruct (Hno vs l pr). }
  cbn [pi_Routes as_Provider fst Routes Interfaces.Routes]. destruct Hcidr as [cidr Hc]. rewrite Hc.
  rewrite wp_bind, wp_call. cbn beta iota. rewrite Hcl2. cbn beta iota.
  rewrite wp_bind. unfold new_pvc. cbn [pi_Volume as_Provider Volume Interfaces.Volume negb].
  rewrite wp_bind, wp_call. cbn beta iota. destruct (Hver (handle (Kube (ClientKubernetesForConfig cfg)) w4).2) as (v & -> & ver & Hv).
  cbn beta iota. rewrite wp_bind. unfold NewProvisionController. rewrite Hv.
  rewrite wp_ret. cbn beta iota. rewrite !wp_ret. cbn beta iota. eexists p, _. split; [done|].
  split; try done; [apply aliyun_routes_run|by eexists].
Qed.

(** [NewController] succeeds when a client configuration can be made, the clients
    are accepted, the switch of the provider is found, the cluster's CIDR parses and
    the API server tells its version. *)
Theorem NewController_succeeds env host o w :
  serves o →
  ∃ p c w' t, NewController show_options show_pv show_fv env host o w = (Ret (Ok c), w', t) ∧
    controller_of o p c.
Proof. apply NewController_returns. Qed.

(** ** main *)

(** C19: [main] given the flags of all options (with dashes or underscores) makes the
    controller of exactly those options, and then runs it, without the dry run and
    without the profiling server. *)
Theorem main_runs_options {X} env host (pflags goflags : list (Flag X)) x fs o0 sp o w :
  command_line host pflags goflags = Ok (fs, o0) → no_clash pflags → spelling sp → representable o →
  main show_options show_pv show_fv env host pflags goflags x (render_options sp o) w =
  (r ← NewController show_options show_pv show_fv env host o;
   match r with Err e => panic e | Ok c => mret (Runs c false) end) w.
Proof.
  intros Hcmd Hclash Hsp Hrep. unfold main. rewrite Hcmd. by erewrite Parse_options.
Qed.

(** None of the flags that [main] itself defines is accepted: they are in a flag
    set that is never parsed.  With [--test] (or [--profiling], and so on) as its
    first argument the process exits with 2 before any request, unless an imported
    package happens to define a flag of that name. *)
Theorem main_refuses_own_flags {X} env host (pflags goflags : list (Flag X)) x fs o0 name args w :
  command_line host pflags goflags = Ok (fs, o0) →
  name ∈ ["test"; "profiling"; "profiling_host"; "profiling_port"] →
  (∀ f, f ∈ pflags ++ goflags → WordSepNormalizeFunc (f_Name f) ≠ WordSepNormalizeFunc name) →
  main show_options show_pv show_fv env host pflags goflags x (("--" +:+ name) :: args) w =
    (Exit 2, w, []).
Proof.
  intros Hcmd Hname Hforeign. unfold main. rewrite Hcmd.
  assert (plain_name name ∧ name ≠ "help" ∧ WordSepNormalizeFunc name ∉ own_names) as (Hp & Hh & Hn).
  { rewrite !elem_of_cons, elem_of_nil in Hname. destruct Hname as [->|[->|[->|[->|[]]]]];
      (split_and!; [|done|]); apply (bool_decide_unpack _); vm_compute; exact I. }
  rewrite (Parse_unknown _ name); [done|done|done|]. by eapply Lookup_foreign.
Qed.

End spec.

(** ** Witnesses *)

(** The cloud in memory, in an account that has a switch. *)
Record zoned : Type := mkZoned { z_cloud : cloud }.

#[export] Instance zoned_handler : Handler req zoned := λ R e w,
  let '(r, c) := handle e (z_cloud w) in
  match e in req R return R → R * zoned with
  | DescribeVSwitches _ => λ _, (Ok (one_page [mkVSwitch "vsw-1" "cn-hangzhou-a"]), w)
  | _ => λ r, (r, mkZoned c)
  end r.

Module ControllerWitness.

Definition w0 : zoned := mkZoned (mkCloud ∅ [] ∅ ∅ [] 0).
Definition options : Options :=
  mkOptions "controller-1" "/etc/kubeconfig" "172.16.0.0/16" false 10 3 (3 * Second) (30 * Second)
    DefaultLeaderElectionConfiguration (mkOverrides "" "" "" "" "" "" "" "" "" false "kubernetes" "" "" "" "0").

(** Flags that imported packages define: [log-flush-frequency], and glog's [v] and
    [log_dir] among Go's flags; their variables are the frequency and a text. *)
Definition pflags : list (Flag (Z * string)) := [DurationVar (λ d x, (d, x.2)) "log-flush-frequency"].
Definition goflags : list (Flag (Z * string)) :=
  [StringVar (λ s x, (x.1, s)) "log_dir"; StringVarP (λ s x, (x.1, s)) "v" "v"].

Lemma options_serve : serves (W:=zoned) options.
Proof.
  split.
  - intros w. by eexists.
  - done.
  - done.
  - intros w. exists "v1.6.0". split; [done|]. by eexists.
  - intros w args. by do 3 eexists.
  - by eexists.
Qed.

Lemma NewController_succeeds_witness :
  ∃ p c w' t, NewController (λ _, "") (λ _, "") (λ _, "") (λ _, "") "host" options w0 = (Ret (Ok c), w', t) ∧
    controller_of (λ _, "") (λ _, "") (λ _, "") options p c.
Proof. apply (NewController_succeeds (λ _, "") (λ _, "") (λ _, "") (λ _, "") "host" options w0). apply options_serve. Defined.


Lemma flags_defined : ∃ fs o0, command_line "host" pflags goflags = Ok (fs, o0).
Proof.
  assert (is_err (command_line "host" pflags goflags) = false) as He by (vm_compute; reflexivity).
  destruct (command_line "host" pflags goflags) as [[fs o0]|e]; [|done]. by exists fs, o0.
Qed.

(** The first dash an underscore, as in [--cluster_cidr]. *)
Definition underscores (name : string) : string := Replace name "-" "_" 1.

Lemma main_runs_options_witness :
  main (λ _, "") (λ _, "") (λ _, "") (λ _, "") "host" pflags goflags (0, "") (render_options underscores options) w0 =
  (r ← NewController (λ _, "") (λ _, "") (λ _, "") (λ _, "") "host" options;
   match r with Err e => panic e | Ok c => mret (Runs c false) end) w0.
Proof.
  destruct flags_defined as (fs & o0 & Hcmd).
  apply (main_runs_options (λ _, "") (λ _, "") (λ _, "") (λ _, "") "host" pflags goflags (0, "") fs o0).
  - exact Hcmd.
  - intros f Hf. unfold pflags in Hf. apply list_elem_of_singleton in Hf as ->.
    apply (bool_decide_unpack _). vm_compute. exact I.
  - unfold spelling. apply (bool_decide_unpack _). vm_compute. exact I.
  - unfold representable. apply (bool_decide_unpack _). vm_compute. exact I.
Defined.

Lemma main_refuses_own_flags_witness :
  main (λ _, "") (λ _, "") (λ _, "") (λ _, "") "host" pflags goflags (0, "") ["--test"] w0 = (Exit 2, w0, []).
Proof.
  destruct flags_defined as (fs & o0 & Hcmd).
  apply (main_refuses_own_flags (λ _, "") (λ _, "") (λ _, "") (λ _, "") "host" pflags goflags (0, "") fs o0 "test" []).
  - exact Hcmd.
  - left.
  - intros f Hf. unfold pflags, goflags in Hf. simpl in Hf. rewrite !elem_of_cons, elem_of_nil in Hf.
    destruct Hf as [->|[->|[->|[]]]]; done.
Defined.

End ControllerWitness.
