(* ===== verification/RunSpec.v ===== *)
(** * Theorems about [Run]

    The invariant of its goroutines, how a process without leader election serves,
    and that losing the lead ends the process without the grace period. *)

From S2P Require Import Prelude GoStd Kube Cloud Provider Instances Routes Interfaces Net RouteController Flags Options LeaderElection Controller ControllerRun.

Section spec.
Context {W : Type}.
Implicit Types (c : Controller W) (s : run_state).

(** The controllers, in the order in which [run] starts them. *)
Definition all_workers c : list worker :=
  [ServiceRun (o_ConcurrentServiceSyncs (c_Options c)); RouteRun (o_RouteReconcilationPeriod (c_Options c));
   ProvisionRun; InformersStart].

(** How many of them have been started. *)
Definition started (r : runner) : nat :=
  match r with
  | NotLeading | StartServices => 0 | StartRoutes => 1 | StartProvision => 2 | StartInformers => 3 | WaitDone => 4
  end.

Definition elects c : bool := le_LeaderElect (o_LeaderElection (c_Options c)).

(** The elector has taken the lease, or there is none to take. *)
Definition may_lead (e : elector) : bool :=
  match e with Acquire | StartLeading => false | _ => true end.

(** The lease is lost and the stop channel closed; [OnStoppedLeading] has begun. *)
Definition lost (e : elector) : bool :=
  match e with StoppedLeading | Sleeping _ => true | _ => false end.
Definition stopping (e : elector) : bool := match e with Sleeping _ => true | _ => false end.

(** The elector's configuration is refused. *)
Definition refused c : Prop := elects c = true ∧ NewLeaderElector (o_LeaderElection (c_Options c)) ≠ Ok tt.

Record run_inv c s : Prop := {
  ri_workers : r_workers s = take (started (r_runner s)) (all_workers c);
  ri_leads : r_runner s ≠ NotLeading → may_lead (r_elector s) = true;
  ri_election : elects c = false → r_elector s = NoElector;
  ri_stop : r_stop s = lost (r_elector s);
  ri_done : r_done s = stopping (r_elector s);
  ri_exit : ∀ code, r_exit s = Some code →
    (code = 255 ∧ lost (r_elector s) = true) ∨ (code = 2 ∧ (c_pvc c = None ∨ refused c)) }.

(** Close the fields of the invariant that the parts of a state decide. *)
#[local] Ltac run_fields :=
  split; simpl in *; try done; try (intros; congruence);
  try (intros Hrun; match goal with H : _ → _ = true |- _ => by specialize (H Hrun) end);
  try (intros Hf; match goal with H : elects _ = false → _ |- _ => by specialize (H Hf) end);
  try (intros code [= <-]; by left).

Lemma run_inv_init c : c_done c = false → run_inv c (Run c).
Proof.
  intros Hd. unfold Run. fold (elects c). rewrite Hd. destruct (elects c) eqn:He; simpl; [|run_fields].
  destruct (NewLeaderElector _) as [[]|e] eqn:Hn; run_fields.
  intros code [= <-]. right. split; [done|]. right. split; [done|by rewrite Hn].
Qed.

Lemma run_inv_elector c ok s s' :
  run_inv c s → r_exit s = None → elector_step c ok s = Some s' → run_inv c s'.
Proof.
  destruct s as [el r st d ws cl ex]. intros [Hw Hl He Hs Hd Hx] Hexit. unfold elector_step. simpl in *. subst ex.
  destruct el; [done|destruct ok|..|destruct (_ <=? _); [|done]]; try destruct ok; intros [= <-]; run_fields;
    (destruct r; [done|by specialize (Hl ltac:(done))..]).
Qed.

Lemma run_inv_runner c s s' :
  run_inv c s → r_exit s = None → runner_step c s = Some s' → run_inv c s'.
Proof.
  destruct s as [el r st d ws cl ex]. intros [Hw Hl He Hs Hd Hx] Hexit. unfold runner_step. simpl in *. subst ex ws.
  destruct r; [done|..|destruct st; [|done]]; intros [= <-]; run_fields; by (intros; apply Hl).
Qed.

Lemma run_inv_step c s s' : run_inv c s → run_step c s s' → run_inv c s'.
Proof.
  intros Hinv [ok s1 Hex Hs|s1 Hex Hs|s1 Hex Hs|d Hex Hd].
  - by eapply run_inv_elector.
  - by eapply run_inv_runner.
  - unfold provision_step in Hs. destruct (c_pvc c) eqn:Hp; [done|]. destruct (existsb _ _); [|done].
    injection Hs as <-. destruct Hinv as [Hw Hl He Hst Hdn Hx]. run_fields.
    intros code [= <-]. right. auto.
  - destruct Hinv as [Hw Hl He Hst Hdn Hx]. run_fields.
Qed.


(** [run] gets to its [select]. *)
Lemma runner_finishes c s :
  run_inv c s → r_exit s = None → r_runner s ≠ NotLeading →
  ∃ s', rtc (run_step c) s s' ∧ r_workers s' = all_workers c ∧ r_exit s' = None.
Proof.
  intros Hinv. remember (4 - started (r_runner s))%nat as n eqn:Hn. revert s Hn Hinv.
  induction n as [|n IH]; intros s Hn Hinv Hex Hr.
  - exists s. split; [done|]. split; [|done]. rewrite (ri_workers _ _ Hinv). by destruct (r_runner s).
  - destruct (runner_step c s) as [s1|] eqn:Hs; [|by unfold runner_step in Hs; destruct (r_runner s)].
    pose proof (run_inv_runner c s s1 Hinv Hex Hs) as Hinv1.
    assert (n = 4 - started (r_runner s1) ∧ r_exit s1 = None ∧ r_runner s1 ≠ NotLeading)%nat as (Hn1 & Hex1 & Hr1)
      by (unfold runner_step in Hs; destruct (r_runner s); simplify_eq/=; done).
    destruct (IH s1 Hn1 Hinv1 Hex1 Hr1) as (s' & Hrtc & Hw & Hx). exists s'. split; [|done].
    eapply rtc_l; [by eapply step_runner|done].
Qed.

(** Without leader election the process serves until it is killed: at every
    moment it has not ended, and all its controllers are started, or will be as soon
    as [run] goes on. *)
Theorem Run_serves c s :
  elects c = false → c_done c = false → is_Some (c_pvc c) → rtc (run_step c) (Run c) s →
  r_exit s = None ∧ ∃ s', rtc (run_step c) s s' ∧ r_workers s' = all_workers c.
Proof.
  intros He Hd Hpvc Hs.
  assert (run_inv c s ∧ r_runner s ≠ NotLeading) as [Hinv Hr].
  { assert (run_inv c (Run c) ∧ r_runner (Run c) ≠ NotLeading) as Hinit.
    { split; [by apply run_inv_init|]. unfold Run. fold (elects c). by rewrite He. }
    induction Hs as [s|s1 s2 s3 Hstep _ IH]; [done|]. apply IH. destruct Hinit as [Hinv Hr].
    split; [by eapply run_inv_step|]. pose proof (ri_election _ _ Hinv He) as Hel.
    destruct Hstep as [ok s2 _ Hs2|s2 _ Hs2|s2 _ Hs2|d _ _]; [|..|done].
    - unfold elector_step in Hs2. by rewrite Hel in Hs2.
    - unfold runner_step in Hs2. destruct (r_runner s1) eqn:Er; simplify_eq/=; try done.
      destruct (r_stop s1); [|done]. simplify_eq/=. by rewrite Er.
    - unfold provision_step in Hs2. destruct (c_pvc c); [done|]. destruct (existsb _ _); [|done]. by simplify_eq/=. }
  assert (r_exit s = None) as Hex.
  { destruct (r_exit s) as [code|] eqn:Hx; [|done]. pose proof (ri_election _ _ Hinv He) as Hel.
    destruct (ri_exit _ _ Hinv code Hx) as [[_ Hl]|[_ [Hp|[Hf _]]]].
    - by rewrite Hel in Hl.
    - rewrite Hp in Hpvc. by destruct Hpvc.
    - congruence. }
  split; [done|]. destruct (runner_finishes c s Hinv Hex Hr) as (s' & Hrtc & Hw & _). eauto.
Qed.

(** C29: the grace period is not kept: whatever [shutdown-grace-period] says, a
    controller that has lost its lead can be gone at once, before [OnStoppedLeading]
    has begun and with no time passed, because [run] ends the process as soon as the
    stop channel is closed. *)
Theorem Run_ignores_grace_period c :
  elects c = true → NewLeaderElector (o_LeaderElection (c_Options c)) = Ok tt →
  ∃ s, rtc (run_step c) (Run c) s ∧ r_workers s = all_workers c ∧
    r_exit s = Some 255 ∧ r_elector s = StoppedLeading ∧ r_done s = c_done c ∧ r_clock s = 0.
Proof.
  intros He Hn. unfold Run. fold (elects c). rewrite He, Hn. simpl. eexists. split.
  - eapply rtc_l; [eapply (step_elector _ _ true); reflexivity|].
    eapply rtc_l; [eapply (step_elector _ _ true); reflexivity|].
    do 4 (eapply rtc_l; [eapply step_runner; reflexivity|]).
    do 2 (eapply rtc_l; [eapply (step_elector _ _ false); reflexivity|]).
    eapply rtc_l; [eapply step_runner; reflexivity|]. apply rtc_refl.
  - done.
Qed.

End spec.

(** ** Witnesses *)

Module RunWitness.

Definition overrides : ConfigOverrides := mkOverrides "" "" "" "" "" "" "" "" "" false "" "" "" "" "0".
Definition options (elect : bool) : Options :=
  mkOptions "controller-1" "" "172.16.0.0/16" true 10 3 (3 * Second) (30 * Second)
    (mkLeaderElection elect (15 * Second) (10 * Second) (2 * Second)) overrides.

(** A controller of a provider without operations, with and without an election. *)
Definition volume : VolumeInterface unit :=
  mkVolumeInterface unit (mret VolumeSuccess) (λ _ _, mret VolumeSuccess) (λ _ _, mret VolumeSuccess)
    (λ _ _ _, mret VolumeSuccess) (λ _, mret VolumeSuccess) (λ _ _, mret VolumeSuccess)
    (λ _, mret VolumeSuccess) (λ _ _, mret VolumeSuccess) "provisioner"
    (λ _, mret (Err "")) (λ _, mret None).
Definition routes : RoutesInterface (go unit) :=
  mkRoutesInterface (λ _, mret (Ok [])) (λ _ _ _, mret (Ok tt)) (λ _ _, mret (Ok tt)).
Definition controller (elect : bool) : Controller unit :=
  mkController (options elect)
    (mkProviderInterface unit (None, false) false (None, false) false (Some routes, true) "test"
       (λ ns ss, (ns, ss)) (Some volume, true))
    (mkServiceController None (mkZone "zone" "region") "cluster")
    (mkRouteController routes "cluster" (mkIPNet [172; 16; 0; 0] [255; 255; 0; 0]))
    (Some (mkProvisionController ResyncPeriod "provisioner" volume false false 10 (15 * Second)
             (10 * Second) (2 * Second) DefaultTermLimit)) false.

(** The default durations are accepted; a deadline of 1.2 times the retry period is
    not. *)
Example default_durations :
  NewLeaderElector DefaultLeaderElectionConfiguration = Ok tt ∧
  NewLeaderElector (mkLeaderElection true (15 * Second) (12 * Second) (10 * Second)) =
    Err "renewDeadline must be greater than retryPeriod*JitterFactor".
Proof. vm_compute. done. Qed.


Lemma Run_serves_witness :
  r_exit (Run (controller false)) = None ∧
  ∃ s', rtc (run_step (controller false)) (Run (controller false)) s' ∧
    r_workers s' = [ServiceRun 3; RouteRun (30 * Second); ProvisionRun; InformersStart].
Proof.
  apply (Run_serves (controller false) (Run (controller false))); [done|done|by eexists|apply rtc_refl].
Defined.

Lemma Run_ignores_grace_period_witness :
  ∃ s, rtc (run_step (controller true)) (Run (controller true)) s ∧
    r_workers s = all_workers (controller true) ∧
    r_exit s = Some 255 ∧ r_elector s = StoppedLeading ∧ r_done s = false ∧ r_clock s = 0.
Proof. apply (Run_ignores_grace_period (controller true)); reflexivity. Defined.

End RunWitness.
