(* ===== verification/LeaderElectionSpec.v ===== *)
(** * Theorems about the leader election

    What one attempt on the lease does; that at most one replica leads at a time when
    the lease is long enough for the delays; and how much longer than the renew
    deadline it has to be. *)

From S2P Require Import Prelude GoStd Conc Flags Options LeaderElection.

(** ** Invariants of replicas on one lock *)

(** The record an object carries, as [Get] reads it. *)
Definition record_of (e : Endpoints) : option LeaderElectionRecord :=
  match default NoRecord (ep_Annotations e) with
  | NoRecord => Some zero_record | Malformed => None | RecordText r => Some r
  end.

(** The record in the lock. *)
Definition stored (store : option Endpoints) : option LeaderElectionRecord := e ← store; record_of e.

Section mutex.
Context (config : LeaderElectionConfiguration) (skew : string → Z) (delta : Z).
Implicit Types (store : option Endpoints) (le : LeaderElector) (rp : replica) (i j : string).

Abbreviation LD := (le_LeaseDuration config).
Abbreviation RD := (le_RenewDeadline config).

(** A record is not from the future of its holder. *)
Definition fresh (now : Z) (r : LeaderElectionRecord) : Prop :=
  HolderIdentity r ≠ "" → RenewTime r - skew (HolderIdentity r) ≤ now.

(** What a replica has observed was written before it observed it. *)
Definition obs_ok i le : Prop := fresh (observedTime le - skew i) (observedRecord le).

(** An object read earlier: when its version is still that of the lock, so is its
    record. *)
Definition seen store (version : option Z) (r : option LeaderElectionRecord) : Prop :=
  ∃ e0 v v0, version = Some v ∧ store = Some e0 ∧ ep_ResourceVersion e0 = Some v0 ∧ v ≤ v0 ∧
    (v = v0 → record_of e0 = r).

(** The lock names [i]; its attempt began before [b], by the clock without skew. *)
Definition holds store i (b : Z) : Prop :=
  ∃ r, stored store = Some r ∧ HolderIdentity r = i ∧ b = RenewTime r - skew i + Second.

(** The record a replica writes in an attempt that began at [t0]. *)
Definition own_record i (t0 : Z) (r : LeaderElectionRecord) : Prop :=
  HolderIdentity r = i ∧ RenewTime r = t0 + skew i.

(** Where an attempt can be. *)
Inductive attempt_ok (now : Z) store i : attempt → Prop :=
| ok_waiting : attempt_ok now store i Waiting
| ok_get le t0 :
    obs_ok i le → t0 ≤ now →
    attempt_ok now store i
      (Trying (Call GetEndpoints (λ ans, got config i le (t0 + skew i) (lock_got ans))) t0 t0)
| ok_got le t0 ans :
    obs_ok i le → t0 ≤ now →
    (∀ e, ans = inl e → seen store (ep_ResourceVersion e) (record_of e) ∧
       ∀ r, record_of e = Some r → fresh now r) →
    attempt_ok now store i (Replied (got config i le (t0 + skew i) (lock_got ans)) t0 t0)
| ok_create le r t0 t :
    obs_ok i le → t0 ≤ t ≤ now → t ≤ t0 + delta → own_record i t0 r →
    attempt_ok now store i
      (Trying (Call (CreateEndpoints (mkEndpoints None (Some (Marshal r))))
         (λ ans, wrote le r (lock_reply ans))) t0 t)
| ok_update le r old version t0 t :
    obs_ok i le → t0 ≤ t ≤ now → t ≤ t0 + delta → own_record i t0 r →
    seen store version (Some old) →
    (HolderIdentity old = i ∨ observedRecord le = old ∧ observedTime le + LD ≤ t0 + skew i) →
    attempt_ok now store i
      (Trying (Call (UpdateEndpoints (mkEndpoints version (Some (Marshal r))))
         (λ ans, wrote le r (lock_reply ans))) t0 t)
| ok_wrote le r ans t0 t :
    obs_ok i le → t0 ≤ t ≤ now → t ≤ t0 + delta → own_record i t0 r →
    (∀ e, ans = inl e → ∃ b, holds store i b ∧ t0 < b) →
    attempt_ok now store i (Replied (wrote le r (lock_reply ans)) t0 t).

(** When the running attempt began. *)
Definition began_in (lo hi : Z) (a : attempt) : Prop :=
  match a with Waiting => True | Trying _ t0 _ | Replied _ t0 _ => lo ≤ t0 ≤ hi end.

(** How long ago a leader began the attempt by which it holds the lease. *)
Definition role_bound (b : Z) rp : Prop :=
  match rp_role rp with
  | Candidate _ | Exited => True
  | Starting u => u < b + 2 * delta ∧ rp_attempt rp = Waiting
  | Polling p e => p < b + 3 * delta ∧ e ≤ p + RD + 3 * delta ∧
      began_in p (p + RD + delta) (rp_attempt rp)
  | Final p => p < b + 3 * delta ∧ rp_attempt rp ≠ Waiting ∧
      began_in p (p + RD + 4 * delta) (rp_attempt rp)
  | Stopping u => u < b + RD + 9 * delta ∧ rp_attempt rp = Waiting
  end.

Record replica_inv (now : Z) store i rp : Prop := {
  ri_obs : obs_ok i (rp_le rp);
  ri_attempt : attempt_ok now store i (rp_attempt rp);
  ri_role : leading (rp_role rp) = true → ∃ b, holds store i b ∧ role_bound b rp;
  ri_timely : timely config delta now rp }.

Record system_inv (s : system) : Prop := {
  si_store : ∀ e, sy_store s = Some e → is_Some (ep_ResourceVersion e) ∧
    ∀ r, record_of e = Some r → fresh (sy_now s) r;
  si_replicas : map_Forall (replica_inv (sy_now s) (sy_store s)) (sy_replicas s);
  si_names : sy_replicas s !! "" = None }.

Context (Hdelta : 0 ≤ delta) (Hdeadline : 0 < RD).
Context (Hlease : RD + Second + 10 * delta ≤ LD).

(** ** Time *)

Lemma truncate_bounds t : truncate t ≤ t < truncate t + Second.
Proof.
  unfold truncate. assert (0 < Second) by done.
  pose proof (Z.mul_div_le t Second). pose proof (Z.mod_pos_bound t Second).
  pose proof (Z.div_mod t Second). lia.
Qed.

(** When the attempt of a replica began. *)
Lemma attempt_time now store i a :
  attempt_ok now store i a →
  match a with Waiting => True | Trying _ t0 t | Replied _ t0 t => t0 ≤ t ≤ now ∧ t ≤ t0 + delta end.
Proof. destruct 1; lia. Qed.

(** While a replica leads, less than a lease has passed since it began to take it. *)
Lemma leader_in_time now store i rp b :
  replica_inv now store i rp → leading (rp_role rp) = true → role_bound b rp →
  now < b + RD + 10 * delta.
Proof using Hdelta Hdeadline.
  intros [_ Ha%attempt_time _ Ht] Hl Hb. unfold timely, deadline in Ht. unfold role_bound in Hb.
  destruct (rp_role rp) as [e|u|p e|p|u|]; try done.
  - destruct Hb as [Hu Hw]. rewrite Hw in Ht. specialize (Ht _ eq_refl). lia.
  - destruct Hb as (Hp & He & Hw).
    destruct (rp_attempt rp) as [|q t0 t|q t0 t]; simpl in Hw; specialize (Ht _ eq_refl); lia.
  - destruct Hb as (Hp & Hne & Hw).
    destruct (rp_attempt rp) as [|q t0 t|q t0 t]; simpl in Hw; [done|..]; specialize (Ht _ eq_refl); lia.
  - destruct Hb as [Hu Hw]. rewrite Hw in Ht. specialize (Ht _ eq_refl). lia.
Qed.

(** ** Writing the lock *)

(** A record that was just written. *)
Lemma holds_written i t0 r v :
  own_record i t0 r → ∃ b, holds (Some (mkEndpoints v (Some (Marshal r)))) i b ∧ t0 < b.
Proof.
  intros [Hi Hr]. eexists. split; [eexists; split; [reflexivity|]; split; [exact Hi|reflexivity]|].
  simpl. rewrite Hr. pose proof (truncate_bounds (t0 + skew i)). lia.
Qed.

Lemma fresh_written now i t0 r v r' :
  own_record i t0 r → t0 ≤ now → record_of (mkEndpoints v (Some (Marshal r))) = Some r' → fresh now r'.
Proof.
  intros [Hi Hr] Ht [= <-] _. simpl. rewrite Hi, Hr. pose proof (truncate_bounds (t0 + skew i)). lia.
Qed.

(** What a write by [i] leaves of what others know. *)
Record store_step (now : Z) i store store' : Prop := {
  ss_ok : ∀ e, store' = Some e → is_Some (ep_ResourceVersion e) ∧
    ∀ r, record_of e = Some r → fresh now r;
  ss_seen : ∀ v r, seen store v r → seen store' v r;
  ss_others : ∀ j b, j ≠ i → j ≠ "" → holds store j b → now < b + RD + 10 * delta → holds store' j b }.

Definition store_ok (now : Z) store : Prop :=
  ∀ e, store = Some e → is_Some (ep_ResourceVersion e) ∧ ∀ r, record_of e = Some r → fresh now r.

Lemma store_step_refl now i store : store_ok now store → store_step now i store store.
Proof. intros Hok. by split. Qed.

Lemma create_step now i t0 r store v :
  store = None → own_record i t0 r → t0 ≤ now →
  store_step now i store (Some (mkEndpoints (Some v) (Some (Marshal r)))).
Proof.
  intros -> Hr Ht. split.
  - intros e [= <-]. split; [by eexists|]. intros r'. by eapply fresh_written.
  - by intros v' r' (e0 & ? & ? & ? & ? & _).
  - by intros j b _ _ (r' & ? & _).
Qed.

(** A replica that may update has waited for a lease since the record appeared, or
    holds it. *)
Lemma update_step now i le t0 r old version store v' :
  obs_ok i le → own_record i t0 r → t0 ≤ now → seen store version (Some old) →
  (HolderIdentity old = i ∨ observedRecord le = old ∧ observedTime le + LD ≤ t0 + skew i) →
  updates store (mkEndpoints version (Some (Marshal r))) v' →
  store_step now i store (Some (mkEndpoints (Some v') (Some (Marshal r)))).
Proof using Hlease.
  intros Hobs Hr Ht (e0 & v & v0 & -> & -> & Hv0 & Hle & Hsame) Hold (e1 & v1 & [= <-] & Hv1 & Hver & Hgrow).
  rewrite Hv0 in Hv1. simplify_eq/=. destruct Hver as [[= ->]|?]; [|done]. specialize (Hsame eq_refl). split.
  - intros e [= <-]. split; [by eexists|]. intros r'. by eapply fresh_written.
  - intros version r' (e2 & w & w0 & -> & [= <-] & Hw0 & Hwle & Hw). rewrite Hv0 in Hw0. simplify_eq/=.
    eexists _, w, v'. split_and!; [done|done|done|lia|]. intros ->.
    destruct Hgrow as [?|[-> Ha]]; [lia|]. rewrite <-Hw by done. unfold record_of. simpl. by rewrite <-Ha.
  - intros j b Hj Hne (r' & Hst & Hh & ->) Hb. exfalso. simpl in Hst. rewrite Hsame in Hst.
    injection Hst as <-. destruct Hold as [Hold|[<- Hexp]]; [congruence|].
    unfold obs_ok, fresh in Hobs. rewrite Hh in Hobs. specialize (Hobs Hne). lia.
Qed.

(** ** Steps of the replica that moves *)

(** A request is served. *)
Lemma serve_ok now i store p p' t0 t store' :
  store_ok now store → attempt_ok now store i (Trying p t0 t) → served store p p' store' →
  store_step now i store store' ∧ attempt_ok now store' i (Replied p' t0 t) ∧
  ∀ b, holds store i b → ∃ b', holds store' i b' ∧ (b' = b ∨ t0 < b').
Proof using Hlease.
  intros Hok Ha. inversion Ha; subst; intros (ans & Hs & ->).
  - destruct Hs as [Hg ->]. split_and!; [by apply store_step_refl| |by eauto].
    constructor; [done|done|]. intros e ->. inversion Hg as [e' He| |]; subst. destruct (Hok _ eq_refl) as [[v Hv] Hf].
    split; [|done]. exists e, v, v. rewrite Hv. split_and!; [done|done|done|lia|done].
  - match goal with H : own_record _ _ _ |- _ => rename H into Hr end.
    inversion Hs as [v Hnone|v Hnone|]; subst.
    + split; [by apply (create_step now i t0 r); [..|lia]|]. split; [|by intros b (r' & ? & _)].
      constructor; [done..|]. intros e _. by eapply holds_written.
    + split; [by apply (create_step now i t0 r); [..|lia]|]. split; [|by intros b (r' & ? & _)].
      by constructor.
    + split; [by apply store_step_refl|]. split; [by constructor|eauto].
  - match goal with H : own_record _ _ _ |- _ => rename H into Hr end.
    inversion Hs as [v' Hu|v' Hu|]; subst.
    + split; [by apply (update_step now i le t0 r old version); [..|lia| | |]|]. split.
      * constructor; [done..|]. intros e _. by eapply holds_written.
      * intros b _. destruct (holds_written i t0 r (Some v') Hr) as (b' & ? & ?). eauto.
    + split; [by apply (update_step now i le t0 r old version); [..|lia| | |]|]. split; [by constructor|].
      intros b _. destruct (holds_written i t0 r (Some v') Hr) as (b' & ? & ?). eauto.
    + split; [by apply store_step_refl|]. split; [by constructor|eauto].
Qed.

(** What is known of a replica in an attempt: when it began, and what its role says. *)
Definition in_attempt (now : Z) store i (r : role) (t0 : Z) : Prop :=
  t0 ≤ now ∧
  match r with
  | Candidate _ => True
  | Polling p e => (∃ b, holds store i b ∧ p < b + 3 * delta) ∧ e ≤ p + RD + 3 * delta ∧ p ≤ t0 ≤ p + RD + delta
  | Final p => (∃ b, holds store i b ∧ p < b + 3 * delta) ∧ p ≤ t0 ≤ p + RD + 4 * delta
  | Starting _ | Stopping _ => False
  | Exited => True
  end.

Lemma obs_ok_report i le : obs_ok i le → obs_ok i (maybeReportTransition le).
Proof. unfold maybeReportTransition. by case_bool_decide. Qed.

(** The end of an attempt. *)
Lemma finish_ok now store i r le succeeded t0 :
  obs_ok i le → in_attempt now store i r t0 → now ≤ t0 + 2 * delta →
  (succeeded = true → ∃ b, holds store i b ∧ t0 < b) →
  replica_inv now store i (finish now r le succeeded).
Proof using Hdelta Hdeadline.
  intros Hobs [Ht0 Hr] Hnow Hs. pose proof (obs_ok_report i le Hobs).
  assert (∀ l, obs_ok i l → (∃ b, holds store i b ∧ t0 < b) →
            replica_inv now store i (mkReplica l (Starting now) Waiting)) as Hstart.
  { intros l Hl (b & Hb & Hlt). split; [done|constructor| |].
    - intros _. exists b. split; [done|]. split; [simpl; lia|done].
    - intros d [= <-]. lia. }
  destruct r as [e|u|p e|p|u|]; try done; [..|split; [done|constructor|done|by intros d [=]]];
    destruct succeeded; simpl; try (by apply Hstart; auto).
  - split; [done|constructor|done|]. intros d [= <-]. lia.
  - destruct Hr as ((b & Hb & Hp) & He & Hlo). split; [done|constructor| |].
    + intros _. exists b. split; [done|]. simpl. split_and!; [done|lia|done].
    + intros d [= <-]. lia.
  - destruct Hr as ((b & Hb & Hp) & Hlo). split; [done|constructor| |].
    + intros _. exists b. split; [done|]. simpl. split; [lia|done].
    + intros d [= <-]. lia.
Qed.

(** An attempt that sends its next request. *)
Lemma trying_ok now store i le r p t0 :
  obs_ok i le → in_attempt now store i r t0 → attempt_ok now store i (Trying p t0 now) →
  replica_inv now store i (mkReplica le r (Trying p t0 now)).
Proof using Hdelta.
  intros Hobs [Ht0 Hr] Ha. split; [done|done| |].
  - intros Hl. destruct r as [e|u|q e|q|u|]; try done.
    + destruct Hr as ((b & Hb & Hp) & He & Hlo). by exists b.
    + destruct Hr as ((b & Hb & Hp) & Hlo). by exists b.
  - intros d [= <-]. lia.
Qed.

(** The answer to [Get]: the attempt ends, or writes. *)
Lemma got_ok now store i rp t0 le ans :
  obs_ok i (rp_le rp) → in_attempt now store i (rp_role rp) t0 → now ≤ t0 + delta → obs_ok i le →
  (∀ e, ans = inl e → seen store (ep_ResourceVersion e) (record_of e) ∧
     ∀ r, record_of e = Some r → fresh now r) →
  replica_inv now store i
    (continue now (skew i) t0 rp (got config i le (t0 + skew i) (lock_got ans))).
Proof using Hdelta Hdeadline.
  intros Hrp Hin Hnow Hle Hans. pose proof Hin as [Ht0 _].
  assert (∀ l, obs_ok i l → replica_inv now store i (finish now (rp_role rp) l false)) as Hdone.
  { intros l Hl. eapply finish_ok; [done|done|lia|done]. }
  destruct ans as [e|err].
  2:{ destruct err; [|by apply Hdone]. apply trying_ok; [done|done|].
      constructor; [done|lia|lia|done]. }
  destruct (Hans e eq_refl) as [Hseen Hfresh]. unfold lock_got, record_of in *.
  set (a := default NoRecord (ep_Annotations e)) in *. set (el := mkEndpoints _ (Some a)).
  assert (∀ old, record_of e = Some old →
            replica_inv now store i (continue now (skew i) t0 rp
              (obtained config i (with_Lock le (Some el)) (t0 + skew i) old))) as Hobt.
  2:{ unfold got. subst a. unfold record_of in Hobt. destruct (default NoRecord (ep_Annotations e)).
      - by apply Hobt.
      - by apply Hdone.
      - by apply Hobt. }
  intros old Hold.
  assert (∃ le', obs_ok i le' ∧ observedRecord le' = old ∧ le_Lock le' = Some el ∧
    continue now (skew i) t0 rp (obtained config i (with_Lock le (Some el)) (t0 + skew i) old) =
    continue now (skew i) t0 rp
      (if (t0 + skew i <? observedTime le' + LD) && bool_decide (HolderIdentity old ≠ i)
       then Done (le', false)
       else reply ← lock_Update (le_Lock le') (corrected config i (t0 + skew i) old);
            wrote le' (corrected config i (t0 + skew i) old) reply)) as (le' & Hobs' & Hrec & Hel & ->).
  { unfold obtained. destruct (decide (observedRecord (with_Lock le (Some el)) = old)) as [Heq|Hne].
    - exists (with_Lock le (Some el)). split_and!; try done. by rewrite (bool_decide_false (_ ≠ old)) by auto.
    - exists (observe (with_Lock le (Some el)) old (now + skew i)). rewrite (bool_decide_true _ Hne).
      split_and!; try done. intros Hh. specialize (Hfresh old Hold Hh). simpl. lia. }
  destruct (_ && _) eqn:Hexp; [by apply Hdone|].
  rewrite Hel. apply trying_ok; [done|done|].
  apply (ok_update now store i le' _ old); [done|lia|lia| | |].
  - clear Hexp. unfold own_record, corrected. by case_bool_decide.
  - rewrite <-Hold. exact Hseen.
  - apply andb_false_iff in Hexp as [Hexp%Z.ltb_ge|Hexp%bool_decide_eq_false%dec_stable]; [right|by left].
    split; [done|lia].
Qed.

(** The answer to a write: the attempt ends. *)
Lemma wrote_ok now store i rp t0 le r ans :
  in_attempt now store i (rp_role rp) t0 → now ≤ t0 + 2 * delta → obs_ok i le → own_record i t0 r →
  (∀ e, ans = inl e → ∃ b, holds store i b ∧ t0 < b) →
  replica_inv now store i (continue now (skew i) t0 rp (wrote le r (lock_reply ans))).
Proof using Hdelta Hdeadline.
  intros Hin Hnow Hle Hr Hans. pose proof Hin as [Ht0 _]. unfold continue. destruct ans as [e|err]; simpl.
  - eapply finish_ok; [|done|done|by intros _; eapply Hans].
    destruct Hr as [Hi Hr]. intros _. simpl. rewrite Hi, Hr. lia.
  - by eapply finish_ok.
Qed.

(** An attempt begins. *)
Lemma begin_ok now store i rp :
  obs_ok i (rp_le rp) → in_attempt now store i (rp_role rp) now →
  replica_inv now store i (begin config i now (skew i) rp).
Proof using Hdelta.
  intros Hobs Hin. change (begin config i now (skew i) rp) with
    (mkReplica (rp_le rp) (rp_role rp)
       (Trying (Call GetEndpoints (λ ans, got config i (rp_le rp) (now + skew i) (lock_got ans))) now now)).
  apply trying_ok; [done|done|]. by constructor.
Qed.

Lemma new_elector_ok i : obs_ok i new_elector.
Proof. by intros []. Qed.

Lemma Exited_ok now store i le : obs_ok i le → replica_inv now store i (mkReplica le Exited Waiting).
Proof. intros Hobs. split; [done|constructor|done|]. by intros d [=]. Qed.

(** A leader in an attempt keeps its bounds as long as it holds the lock, whichever of
    its attempts wrote it. *)
Lemma role_bound_in_attempt now store i le r a t0 :
  replica_inv now store i (mkReplica le r a) → t0 ≤ now → began_in t0 t0 a → a ≠ Waiting →
  in_attempt now store i r t0.
Proof.
  intros [Hobs Ha Hrole _] Ht0 Hbegan Hne. split; [done|]. simpl in *.
  destruct r as [e|u|p e|p|u|]; try done; destruct (Hrole eq_refl) as (b & Hb & Hbound); simpl in Hbound.
  - by destruct Hbound.
  - destruct Hbound as (Hp & He & Hin). split; [by eauto|]. split; [done|].
    destruct a; [done|simpl in *; lia..].
  - destruct Hbound as (Hp & _ & Hin). split; [by eauto|]. destruct a; [done|simpl in *; lia..].
  - by destruct Hbound.
Qed.

Lemma role_bound_served b b' le r p p' t0 t :
  role_bound b (mkReplica le r (Trying p t0 t)) → b' = b ∨ t0 < b' →
  role_bound b' (mkReplica le r (Replied p' t0 t)).
Proof using Hdelta.
  unfold role_bound. cbn [rp_role rp_attempt began_in]. intros Hb Heq.
  destruct r; try done; try (by destruct Hb); split_and!; try done; (lia || by destruct Hb).
Qed.

(** The replica that moves keeps its invariant. *)
Lemma step_mover now i store rp rp' store' :
  store_ok now store → replica_inv now store i rp →
  replica_step config skew delta now i store rp rp' store' →
  store_step now i store store' ∧ replica_inv now store' i rp'.
Proof using Hdelta Hdeadline Hlease.
  intros Hok Hinv Hstep. pose proof Hinv as [Hobs Ha Hrole Ht].
  destruct Hstep as [le e _|le u|le p e k Hpos Hk Hnow Hrd|le p e Hrd|le r p p' t0 t store' Hs|le r p t0 t|le u|rp|le];
    simpl in Hobs, Ha; try (split; [by apply store_step_refl|]).
  - by apply begin_ok.
  - destruct (Hrole eq_refl) as (b & Hb & Hu & _). specialize (Ht _ eq_refl). simpl in Hu.
    split; [done|constructor| |].
    + intros _. exists b. split; [done|]. simpl. split_and!; [lia|lia|done].
    + intros d [= <-]. lia.
  - destruct (Hrole eq_refl) as (b & Hb & Hp & He & _). apply begin_ok; [done|].
    split; [lia|]. split; [by exists b|]. split; [done|]. nia.
  - destruct (Hrole eq_refl) as (b & Hb & Hp & He & _). specialize (Ht _ eq_refl). simpl in Ht.
    apply begin_ok; [done|]. split; [simpl; lia|]. split; [by exists b|]. lia.
  - destruct (serve_ok _ _ _ _ _ _ _ _ Hok Ha Hs) as (Hss & Ha' & Hholds). split; [done|].
    split; [done|done| |exact Ht]. intros Hl. destruct (Hrole Hl) as (b & Hb & Hbound).
    destruct (Hholds b Hb) as (b' & Hb' & Heq). exists b'. split; [done|].
    by eapply role_bound_served.
  - pose proof (attempt_time _ _ _ _ Ha) as [Ht0 Htd]. specialize (Ht _ eq_refl).
    assert (in_attempt now store i r t0) as Hin.
    { eapply role_bound_in_attempt; [done|lia| |done]. simpl. lia. }
    inversion Ha; subst.
    + by apply got_ok; [..|lia| |].
    + by apply wrote_ok; [|lia|..].
  - by apply Exited_ok.
  - by apply Exited_ok.
  - split; [apply new_elector_ok|constructor|done|]. by intros d [=].
Qed.

(** So do the others. *)
Lemma step_other now i j store store' rp :
  j ≠ i → j ≠ "" → replica_inv now store j rp → store_step now i store store' →
  replica_inv now store' j rp.
Proof using Hdelta Hdeadline.
  intros Hj Hne Hinv [_ Hseen Hothers]. pose proof Hinv as [Hobs Ha Hrole Ht]. split; [done| | |done].
  - unfold timely, deadline in Ht. destruct Ha; try (by constructor).
    + constructor; [done..|]. intros e ->. naive_solver.
    + econstructor; eauto.
    + constructor; [done..|]. intros e He. destruct (H3 e He) as (b & Hb & Hlt). exists b.
      split; [|done]. apply Hothers; [done..|]. specialize (Ht _ eq_refl). lia.
  - intros Hl. destruct (Hrole Hl) as (b & Hb & Hbound). exists b. split; [|done].
    apply Hothers; [done..|]. by eapply leader_in_time.
Qed.

Lemma fresh_mono now now' r : now ≤ now' → fresh now r → fresh now' r.
Proof. intros Hle Hf Hne. specialize (Hf Hne). lia. Qed.

(** Time passes. *)
Lemma replica_inv_time now now' store i rp :
  now ≤ now' → replica_inv now store i rp → timely config delta now' rp → replica_inv now' store i rp.
Proof.
  intros Hle [Hobs Ha Hrole _] Ht. split; [done| |done|done].
  destruct Ha as [|? ? Ho Ht0|? ? ? Ho Ht0 Hans|? ? ? ? Ho Ht0|? ? ? ? ? ? Ho Ht0|? ? ? ? ? Ho Ht0].
  - constructor.
  - constructor; [done|lia].
  - constructor; [done|lia|]. intros e He. destruct (Hans e He) as [Hs Hf]. split; [done|].
    intros r Hr. by eapply fresh_mono, Hf.
  - constructor; (done || lia).
  - econstructor; (done || lia).
  - constructor; (done || lia).
Qed.

Lemma system_inv_step s s' : system_inv s → system_step config skew delta s s' → system_inv s'.
Proof using Hdelta Hdeadline Hlease.
  intros [Hst Hrep Hnames] [i rp rp' store' Hi Hstep|d Hd Ht].
  - assert (i ≠ "") as Hne by (intros ->; congruence).
    destruct (step_mover _ _ _ _ _ _ Hst (Hrep _ _ Hi) Hstep) as [Hss Hrp'].
    split; cbn [sy_now sy_store sy_replicas]; [apply Hss| |by rewrite lookup_insert_ne]. intros j rj.
    destruct (decide (i = j)) as [<-|Hij].
    + rewrite lookup_insert_eq. by intros [= <-].
    + rewrite lookup_insert_ne by done. intros Hj. eapply step_other; [done| |by apply Hrep|done].
      intros ->. congruence.
  - split; [| |done].
    + intros e He. destruct (Hst e He) as [Hv Hf]. split; [done|]. intros r Hr. simpl.
      eapply fresh_mono, Hf; [lia|done].
    + intros j rj Hj. eapply replica_inv_time; [|by apply Hrep|by eapply Ht]. simpl. lia.
Qed.

Lemma system_inv_init s : starts skew s → system_inv s.
Proof.
  intros [Hrep Hst]. split.
  - intros e He. destruct (Hst e He) as [Hv Hf]. split; [done|]. unfold record_of.
    destruct (ep_Annotations e) as [[| |r']|] eqn:Ha; simpl; intros r [= <-]; try (by intros []); [].
    intros _. by apply Hf.
  - intros i rp Hi. destruct (Hrep i rp Hi) as [_ ->]. split; [apply new_elector_ok|constructor|done|]. by intros d [=].
  - destruct (sy_replicas s !! "") as [rp|] eqn:He; [|done]. by destruct (Hrep _ _ He) as [? _].
Qed.

Lemma leads_holds s i : system_inv s → leads s i → ∃ r, stored (sy_store s) = Some r ∧ HolderIdentity r = i.
Proof.
  intros [_ Hrep _] (rp & Hi & Hl). destruct (Hrep _ _ Hi) as [_ _ Hrole _].
  destruct (Hrole Hl) as (b & (r & Hr & Hh & _) & _). eauto.
Qed.

End mutex.

Lemma reachable_inv config skew delta s0 s :
  0 ≤ delta → 0 < le_RenewDeadline config →
  le_RenewDeadline config + Second + 10 * delta ≤ le_LeaseDuration config →
  starts skew s0 → rtc (system_step config skew delta) s0 s → system_inv config skew delta s.
Proof.
  intros Hd Hrd Hl H0%(system_inv_init config skew delta) Hs.
  induction Hs as [s|s1 s2 s3 Hstep _ IH]; [done|]. apply IH. by eapply system_inv_step.
Qed.

(** ** Theorems *)

(** C5: at most one replica leads at a time, and the lock names it: for any number of
    replicas with clocks that differ, whatever requests fail, before or after they
    took effect, and whichever processes crash and start again, provided that the
    lease is longer than the renew deadline by a second (the precision of the times
    in the record) and ten times the longest delay of a request or a wake-up. *)
Theorem at_most_one_leader config skew delta s0 s i j :
  0 ≤ delta → 0 < le_RenewDeadline config →
  le_RenewDeadline config + Second + 10 * delta ≤ le_LeaseDuration config →
  starts skew s0 → rtc (system_step config skew delta) s0 s →
  leads s i → leads s j →
  i = j ∧ ∃ r, stored (sy_store s) = Some r ∧ HolderIdentity r = i.
Proof.
  intros Hd Hrd Hl H0 Hs Hi Hj. pose proof (reachable_inv _ _ _ _ _ Hd Hrd Hl H0 Hs) as Hinv.
  destruct (leads_holds _ _ _ _ _ Hinv Hi) as (r & Hr & Hri), (leads_holds _ _ _ _ _ Hinv Hj) as (r' & Hr' & Hrj).
  rewrite Hr in Hr'. simplify_eq. eauto.
Qed.
