(* ===== verification/LeaseRuns.v ===== *)
(** * Runs of the leader election

    Schedules of replicas on one lock that can be computed, each a run of the step
    relation; what one attempt does on a lock that answers; that an expired lease is
    taken over; and that a lease only a little longer than the renew deadline allows
    two leaders, even when nothing takes time. *)

From S2P Require Import Prelude GoStd Conc Flags Options LeaderElection LeaderElectionSpec.

(** ** One attempt on a lock that answers *)

(** The lock, the local time and the next version. *)
Record lock_world : Type := mkLockWorld {
  lw_now : Z; lw_store : option Endpoints; lw_version : Z }.

Definition set_store (w : lock_world) (e : Endpoints) : lock_world :=
  mkLockWorld (lw_now w) (Some e) (lw_version w + 1).

#[export] Instance lock_handler : Handler lreq lock_world := λ R e w,
  match e in lreq R return R * lock_world with
  | TimeNow => (lw_now w, w)
  | GetEndpoints => (match lw_store w with Some e => inl e | None => inr NotFound end, w)
  | CreateEndpoints e =>
      match lw_store w with
      | Some _ => (inr OtherLockError, w)
      | None => let e' := mkEndpoints (Some (lw_version w)) (ep_Annotations e) in (inl e', set_store w e')
      end
  | UpdateEndpoints e =>
      match lw_store w with
      | Some e0 =>
          if bool_decide (ep_ResourceVersion e = ep_ResourceVersion e0)
          then let e' := mkEndpoints (Some (lw_version w)) (ep_Annotations e) in (inl e', set_store w e')
          else (inr OtherLockError, w)
      | None => (inr NotFound, w)
      end
  end.

Section alone.
Context (config : LeaderElectionConfiguration) (id : string).
Implicit Types (le : LeaderElector) (w : lock_world).

(** Whether a replica that reads [old] may take the lease. *)
Definition may_take le (now : Z) (old : LeaderElectionRecord) : bool :=
  bool_decide (HolderIdentity old = id) ||
  bool_decide (observedRecord le = old ∧ observedTime le + le_LeaseDuration config ≤ now).

(** The update of step 3, on the lock that was read. *)
Lemma update_alone le w e r :
  lw_store w = Some e →
  le_Lock le = Some (mkEndpoints (ep_ResourceVersion e) (Some (default NoRecord (ep_Annotations e)))) →
  run (reply ← lock_Update (le_Lock le) r; wrote le r reply) w =
  let e' := mkEndpoints (Some (lw_version w)) (Some (Marshal r)) in
  (Ret (observe (with_Lock le (Some e')) r (lw_now w), true), set_store w e',
   [Ev (UpdateEndpoints (mkEndpoints (ep_ResourceVersion e) (Some (Marshal r)))) (inl e'); Ev TimeNow (lw_now w)]).
Proof.
  intros Hw ->. unfold lock_Update, pcall. cbn [ep_Annotations mbind prog_bind pbind run].
  unfold mbind, M_bind, call, handle, lock_handler. rewrite Hw. cbn [ep_ResourceVersion].
  rewrite bool_decide_true by done. done.
Qed.

(** Steps 2 and 3. *)
Lemma obtained_alone le w e old :
  0 < le_LeaseDuration config → lw_store w = Some e →
  le_Lock le = Some (mkEndpoints (ep_ResourceVersion e) (Some (default NoRecord (ep_Annotations e)))) →
  let le1 := if bool_decide (observedRecord le = old) then le else observe le old (lw_now w) in
  ∃ t, run (obtained config id le (lw_now w) old) w =
    if may_take le (lw_now w) old then
      let r := corrected config id (lw_now w) old in
      let e' := mkEndpoints (Some (lw_version w)) (Some (Marshal r)) in
      (Ret (observe (with_Lock le1 (Some e')) r (lw_now w), true), set_store w e', t)
    else (Ret (le1, false), w, t).
Proof.
  intros Hpos Hw Hel le1. unfold obtained, may_take.
  assert (le_Lock le1 = le_Lock le) as Hel1 by (unfold le1; by case_bool_decide).
  assert (∃ t, ∀ k : LeaderElector → prog lreq (LeaderElector * bool),
    run ((if bool_decide (observedRecord le ≠ old) then t ← pcall TimeNow; Done (observe le old t) else Done le) ≫= k) w =
    let '(o, w', t') := run (k le1) w in (o, w', t ++ t')) as (t1 & Hk).
  { destruct (decide (observedRecord le = old)) as [Heq|Hne].
    - exists []. intros k. unfold le1. rewrite bool_decide_false, bool_decide_true by auto.
      change (run (k le) w = let '(o, w', t') := run (k le) w in (o, w', t')).
      by destruct (run (k le) w) as [[o w'] t'].
    - exists [Ev TimeNow (lw_now w)]. intros k. unfold le1. rewrite (bool_decide_true _ Hne), bool_decide_false by done.
      cbn. unfold mbind at 1, M_bind at 1, call, handle, lock_handler.
      by destruct (run (k _) w) as [[o w'] t']. }
  rewrite Hk. clear Hk.
  assert ((lw_now w <? observedTime le1 + le_LeaseDuration config) && bool_decide (HolderIdentity old ≠ id) =
          negb (may_take le (lw_now w) old)) as Hg.
  { unfold may_take, le1. destruct (decide (HolderIdentity old = id)) as [Hh|Hh].
    - rewrite (bool_decide_false (_ ≠ id)), (bool_decide_true (_ = id)) by auto. by rewrite andb_false_r.
    - rewrite (bool_decide_true (_ ≠ id)), (bool_decide_false (_ = id)) by auto. rewrite andb_true_r. simpl.
      destruct (decide (observedRecord le = old)) as [Heq|Hne].
      + rewrite (bool_decide_true (observedRecord le = old)) by done. rewrite Z.ltb_antisym. f_equal.
        apply eq_bool_prop_intro. rewrite bool_decide_spec, Is_true_true, Z.leb_le. naive_solver.
      + rewrite (bool_decide_false (observedRecord le = old)) by done. simpl.
        rewrite bool_decide_false by naive_solver. apply Z.ltb_lt. lia. }
  unfold may_take in Hg. rewrite Hg. destruct (_ || _); simpl.
  - rewrite (update_alone le1 w e) by (done || congruence). simpl. eauto.
  - eauto.
Qed.

(** An attempt is what it makes of the lock's answer. *)
Lemma attempt_gets le w :
  run (tryAcquireOrRenew config id le) w =
  let ans := match lw_store w with Some e => inl e | None => inr NotFound end in
  let '(o, w', t) := run (got config id le (lw_now w) (lock_got ans)) w in
  (o, w', Ev TimeNow (lw_now w) :: Ev GetEndpoints ans :: t).
Proof.
  change (run (tryAcquireOrRenew config id le)) with
    (now ← call TimeNow; ans ← call GetEndpoints; run (got config id le now (lock_got ans)) : M lreq lock_world _).
  unfold mbind, M_bind, call, handle, lock_handler. by destruct (run _ w) as [[o w'] t].
Qed.

(** An attempt that reads a record. *)
Lemma attempt_read le w e old :
  0 < le_LeaseDuration config → lw_store w = Some e → record_of e = Some old →
  ∃ le' t, run (tryAcquireOrRenew config id le) w =
      (Ret (le', may_take le (lw_now w) old),
       if may_take le (lw_now w) old
       then set_store w (mkEndpoints (Some (lw_version w)) (Some (Marshal (corrected config id (lw_now w) old))))
       else w, t) ∧
    observedRecord le' = (if may_take le (lw_now w) old then corrected config id (lw_now w) old else old) ∧
    observedTime le' = (if may_take le (lw_now w) old then lw_now w
                        else if bool_decide (observedRecord le = old) then observedTime le else lw_now w).
Proof.
  intros Hpos Hw Hold. rewrite attempt_gets, Hw. cbv zeta.
  set (el := mkEndpoints (ep_ResourceVersion e) (Some (default NoRecord (ep_Annotations e)))).
  destruct (obtained_alone (with_Lock le (Some el)) w e old Hpos Hw eq_refl) as [t Ht].
  change (may_take (with_Lock le (Some el))) with (may_take le) in Ht. cbn [observedRecord with_Lock] in Ht.
  assert (got config id le (lw_now w) (lock_got (inl e)) = obtained config id (with_Lock le (Some el)) (lw_now w) old)
    as Hgot.
  { unfold got, lock_got, record_of, el in *. destruct (default NoRecord (ep_Annotations e)); simplify_eq; done. }
  rewrite Hgot, Ht.
  destruct (may_take le (lw_now w) old); eexists _, _; split; try reflexivity; try done.
  case_bool_decide; done.
Qed.

Definition with_now w (now : Z) : lock_world := mkLockWorld now (lw_store w) (lw_version w).

(** How a lease passes on: a replica that first sees the record of another holder
    lets it be; on its next attempt, with the lock unchanged, it takes the lease
    exactly when the lease duration has passed since that first sight, and then the
    lock names it, with one more transition and the time of the attempt. *)
Theorem lease_passes_on le w e old n2 :
  0 < le_LeaseDuration config → lw_store w = Some e → record_of e = Some old →
  HolderIdentity old ≠ id → observedRecord le ≠ old →
  ∃ le1 t1, run (tryAcquireOrRenew config id le) w = (Ret (le1, false), w, t1) ∧
  let taken := bool_decide (lw_now w + le_LeaseDuration config ≤ n2) in
  ∃ le2 w2 t2, run (tryAcquireOrRenew config id le1) (with_now w n2) = (Ret (le2, taken), w2, t2) ∧
    if taken then
      ∃ r, stored (lw_store w2) = Some r ∧ HolderIdentity r = id ∧
        RenewTime r = truncate n2 ∧ AcquireTime r = truncate n2 ∧
        LeaderTransitions r = int64 (LeaderTransitions old + 1)
    else w2 = with_now w n2.
Proof.
  intros Hpos Hw Hold Hh Hobs.
  destruct (attempt_read le w e old Hpos Hw Hold) as (le1 & t1 & H1 & Hr1 & Ht1).
  unfold may_take in H1, Hr1, Ht1. rewrite (bool_decide_false (HolderIdentity old = id)) in H1, Hr1, Ht1 by done.
  rewrite (bool_decide_false (observedRecord le = old ∧ _)) in H1, Hr1, Ht1 by naive_solver. simpl in *.
  rewrite bool_decide_false in Ht1 by done. exists le1, t1. split; [done|].
  destruct (attempt_read le1 (with_now w n2) e old Hpos Hw Hold) as (le2 & t2 & H2 & _).
  assert (may_take le1 n2 old = bool_decide (lw_now w + le_LeaseDuration config ≤ n2)) as Hm.
  { unfold may_take. rewrite (bool_decide_false (HolderIdentity old = id)) by done. simpl.
    apply bool_decide_ext. rewrite Hr1, Ht1. naive_solver. }
  cbn [lw_now with_now] in H2. rewrite Hm in H2. eexists le2, _, t2. split; [exact H2|].
  case_bool_decide; [|done]. eexists. split; [done|]. simpl. unfold corrected.
  rewrite bool_decide_false by done. done.
Qed.

End alone.

(** ** Schedules *)

(** How a request fares: it is answered (with the version it leaves), it fails, or its
    answer is lost. *)
Inductive fate : Type := Answered (v : Z) | Failed | Lost (v : Z).

(** One step of a schedule: of a replica, or of the time. *)
Inductive move : Type :=
| Attempt (i : string) | Poll (i : string) | Tick (i : string) (k : Z) | Timeout (i : string)
| Serve (i : string) (f : fate) | Reply (i : string) | Pass (d : Z).

Definition may_update (store : option Endpoints) (e : Endpoints) (v' : Z) : bool :=
  match store with
  | Some (mkEndpoints (Some v) _) => bool_decide (ep_ResourceVersion e = Some v) && (v <? v')
  | _ => false
  end.

Definition answer (store : option Endpoints) (f : fate) {R} (e : lreq R) : option (R * option Endpoints) :=
  match e with
  | TimeNow => None
  | GetEndpoints =>
      match f with
      | Answered _ => Some (match store with Some e => inl e | None => inr NotFound end, store)
      | _ => Some (inr OtherLockError, store)
      end
  | CreateEndpoints e =>
      let e' v := mkEndpoints (Some v) (ep_Annotations e) in
      match f, store with
      | Answered v, None => Some (inl (e' v), Some (e' v))
      | Lost v, None => Some (inr OtherLockError, Some (e' v))
      | _, _ => Some (inr OtherLockError, store)
      end
  | UpdateEndpoints e =>
      let e' v := mkEndpoints (Some v) (ep_Annotations e) in
      match f with
      | Answered v => if may_update store e v then Some (inl (e' v), Some (e' v)) else None
      | Lost v => if may_update store e v then Some (inr OtherLockError, Some (e' v)) else None
      | Failed => Some (inr OtherLockError, store)
      end
  end.

Lemma answer_serves store f R (e : lreq R) ans store' :
  answer store f e = Some (ans, store') → serves store e ans store'.
Proof.
  assert (∀ e v, may_update store e v = true → updates store e v) as Hu.
  { intros e' v Hm. unfold may_update in Hm. destruct store as [[[v0|] a]|]; try done.
    apply andb_true_iff in Hm as [Hv%bool_decide_eq_true Hlt%Z.ltb_lt].
    eexists _, v0. split_and!; try done; by left. }
  destruct e as [| |e|e]; simpl.
  - done.
  - destruct f, store; intros [= <- <-]; split; try done; by constructor.
  - destruct f, store; intros [= <- <-]; by constructor.
  - destruct f as [v| |v]; try (destruct (may_update store e v) eqn:Hm; [|done]); intros [= <- <-];
      constructor; by apply Hu.
Qed.

Section schedule.
Context (config : LeaderElectionConfiguration) (skew : string → Z) (delta : Z).

(** A step of one replica. *)
Definition move_replica (now : Z) (i : string) (store : option Endpoints) (rp : replica) (m : move) :
    option (replica * option Endpoints) :=
  match m, rp_role rp, rp_attempt rp with
  | Attempt _, Candidate e, Waiting =>
      if (match e with None => true | Some t => t + le_RetryPeriod config <=? now end)
      then Some (begin config i now (skew i) rp, store) else None
  | Poll _, Starting _, Waiting => Some (mkReplica (rp_le rp) (Polling now now) Waiting, store)
  | Tick _ k, Polling p e, Waiting =>
      let t := p + k * le_RetryPeriod config in
      if (0 <? le_RetryPeriod config) && (0 <? k) && (t <=? now) && (now <=? t + delta)
         && (now <=? p + le_RenewDeadline config + delta)
      then Some (begin config i now (skew i) rp, store) else None
  | Timeout _, Polling p e, Waiting =>
      if p + le_RenewDeadline config <=? now
      then Some (begin config i now (skew i) (mkReplica (rp_le rp) (Final p) Waiting), store) else None
  | Serve _ f, r, Trying (Call e k) t0 t =>
      '(ans, store') ← answer store f e;
      Some (mkReplica (rp_le rp) r (Replied (k ans) t0 t), store')
  | Reply _, _, Replied p t0 t => Some (continue now (skew i) t0 rp p, store)
  | _, _, _ => None
  end.

Definition on_time (now : Z) (rp : replica) : bool :=
  match deadline config delta rp with None => true | Some d => now <=? d end.

Definition mover (m : move) : option string :=
  match m with
  | Attempt i | Poll i | Tick i _ | Timeout i | Serve i _ | Reply i => Some i
  | Pass _ => None
  end.

Definition do_move (s : system) (m : move) : option system :=
  match m with
  | Pass d =>
      if (0 <? d) && forallb (λ ir : string * replica, on_time (sy_now s + d) ir.2) (map_to_list (sy_replicas s))
      then Some (mkSystem (sy_now s + d) (sy_store s) (sy_replicas s)) else None
  | _ =>
      i ← mover m;
      rp ← sy_replicas s !! i;
      '(rp', store') ← move_replica (sy_now s) i (sy_store s) rp m;
      Some (mkSystem (sy_now s) store' (<[i := rp']> (sy_replicas s)))
  end.

Fixpoint do_moves (s : system) (ms : list move) : option system :=
  match ms with
  | [] => Some s
  | m :: ms' => s' ← do_move s m; do_moves s' ms'
  end.

Lemma move_replica_step now i store rp m rp' store' :
  move_replica now i store rp m = Some (rp', store') →
  replica_step config skew delta now i store rp rp' store'.
Proof.
  destruct rp as [le r a]. unfold move_replica. cbn [rp_role rp_attempt rp_le].
  destruct m as [j|j|j k|j|j f|j|d], r as [e|u|p e|p|u|], a as [|q t0 t|q t0 t]; try done;
    try (destruct q as [| |R' e' k'| | | |]; try done).
  all: try (destruct (answer store f e') as [[ans s']|] eqn:Ha; [|done]).
  all: try (intros [= <- <-]; apply step_serve; exists ans; split; [by eapply answer_serves|done]).
  all: try (intros [= <- <-]; by constructor).
  - destruct e as [t|]; [destruct (_ <=? _) eqn:Hle; [|done]|]; intros [= <- <-]; apply step_acquire; try done.
    intros ? [= <-]. by apply Z.leb_le.
  - destruct (_ && _) eqn:Hb; [|done]. intros [= <- <-].
    rewrite !andb_true_iff, !Z.ltb_lt, !Z.leb_le in Hb. destruct Hb as [[[[? ?] ?] ?] ?].
    by apply (step_tick _ _ _ _ _ _ _ _ _ k).
  - destruct (_ <=? _) eqn:Hb; [|done]. intros [= <- <-]. apply Z.leb_le in Hb. by eapply step_timeout.
Qed.

Lemma do_moves_steps s ms s' : do_moves s ms = Some s' → rtc (system_step config skew delta) s s'.
Proof.
  revert s. induction ms as [|m ms IH]; intros s; cbn [do_moves]; [by intros [= <-]|].
  destruct (do_move s m) as [s1|] eqn:Hm; [|done]. cbn [mbind option_bind]. intros Hs. eapply rtc_l; [|by apply IH].
  assert (∀ i, mover m = Some i → system_step config skew delta s s1) as Hmove.
  { intros i Hi. assert ((rp ← sy_replicas s !! i; '(rp', store') ← move_replica (sy_now s) i (sy_store s) rp m;
      Some (mkSystem (sy_now s) store' (<[i := rp']> (sy_replicas s)))) = Some s1) as Hm'
      by (destruct m; simplify_eq/=; done).
    destruct (sy_replicas s !! i) as [rp|] eqn:Hrp; [|done]. cbn [mbind option_bind] in Hm'.
    destruct (move_replica _ _ _ _ _) as [[rp' store']|] eqn:Hr; [|done]. simpl in Hm'. injection Hm' as <-.
    eapply step_replica; [done|]. by eapply move_replica_step. }
  destruct m as [i|i|i k|i|i f|i|d]; try (by eapply Hmove). cbn [do_move] in Hm.
  destruct (_ && _) eqn:Hb; [|done]. injection Hm as <-.
  apply andb_true_iff in Hb as [Hd%Z.ltb_lt Hall]. apply step_time; [done|].
  intros i rp Hi%elem_of_map_to_list%list_elem_of_In d' Hd'.
  pose proof (proj1 (forallb_forall _ _) Hall _ Hi) as Ht. unfold on_time in Ht. simpl in Ht.
  rewrite Hd' in Ht. by apply Z.leb_le.
Qed.

(** A property of where a schedule leads, by computation. *)
Lemma run_schedule s0 ms (P : system → bool) :
  match do_moves s0 ms with Some s => P s | None => false end = true →
  ∃ s, rtc (system_step config skew delta) s0 s ∧ P s = true.
Proof.
  intros HP. destruct (do_moves s0 ms) as [s|] eqn:Hs; [|done]. exists s. split; [|done].
  by eapply do_moves_steps.
Qed.

End schedule.

(** ** A lease that is too short *)

(** The replicas [a] and [b] on a lock that does not exist yet. *)
Definition two_replicas : system :=
  let r := mkReplica new_elector (Candidate None) Waiting in
  mkSystem 0 None (<["a" := r]> {["b" := r]}).

Definition no_skew : string → Z := λ _, 0.

Lemma two_replicas_start skew : starts skew two_replicas.
Proof.
  split; [|done]. intros i rp. unfold two_replicas. cbn [sy_replicas].
  rewrite lookup_insert_Some, lookup_singleton_Some. by intros [[<- <-]|[_ [<- <-]]].
Qed.

Definition leads_b (s : system) (i : string) : bool :=
  match sy_replicas s !! i with Some rp => leading (rp_role rp) | None => false end.

Lemma leads_b_leads s i : leads_b s i = true → leads s i.
Proof. unfold leads_b, leads. destruct (_ !! i) as [rp|]; [eauto|done]. Qed.

(** A lease of 2.4 s with a renew deadline of 2 s and a retry period of 0.5 s. *)
Definition short_lease : LeaderElectionConfiguration :=
  mkLeaderElection true (2400 * Millisecond) (2000 * Millisecond) (500 * Millisecond).

(** [i] takes the missing lock; renews it; fails to reach it; reads it. *)
Definition takes (i : string) : list move := [Attempt i; Serve i (Answered 0); Reply i; Serve i (Answered 1); Reply i; Poll i].
Definition renews (i : string) (k : Z) : list move :=
  [Tick i k; Serve i (Answered 0); Reply i; Serve i (Answered 2); Reply i; Poll i].
Definition fails (i : string) (k : Z) : list move := [Tick i k; Serve i Failed; Reply i].
Definition reads (i : string) : list move := [Attempt i; Serve i (Answered 0); Reply i].

(** [a] takes the lease at 0, which [b] sees, and renews it at 0.5 s, in the same
    second, so that the record [b] reads later is the one it has seen; then [a]'s
    requests fail, and [b] takes the lease 2.4 s after it first saw it, while [a] leads
    until 2.5 s. *)
Definition short_schedule : list move :=
  takes "a" ++ reads "b" ++ [Pass (500 * Millisecond)] ++ renews "a" 1 ++
  [Pass (500 * Millisecond)] ++ fails "a" 1 ++ reads "b" ++
  [Pass (500 * Millisecond)] ++ fails "a" 2 ++ reads "b" ++
  [Pass (500 * Millisecond)] ++ fails "a" 3 ++
  [Pass (400 * Millisecond); Attempt "b"; Serve "b" (Answered 0); Reply "b"; Serve "b" (Answered 3); Reply "b"].

(** C28: the check of the configuration is not enough: a lease that [NewLeaderElector]
    accepts, 0.4 s longer than the renew deadline, lets two replicas lead at the same
    time, although no request takes any time, because renewals in the same second
    leave the record as it was. *)
Theorem short_lease_two_leaders :
  NewLeaderElector short_lease = Ok tt ∧ starts no_skew two_replicas ∧
  ∃ s, rtc (system_step short_lease no_skew 0) two_replicas s ∧ leads s "a" ∧ leads s "b".
Proof.
  split; [vm_compute; reflexivity|]. split; [apply two_replicas_start|].
  destruct (run_schedule short_lease no_skew 0 two_replicas short_schedule (λ s, leads_b s "a" && leads_b s "b"))
    as (s & Hs & [Ha Hb]%andb_true_iff); [vm_compute; reflexivity|].
  exists s. split; [done|]. split; by apply leads_b_leads.
Qed.

(** ** Witnesses *)

Module LeaseWitness.

(** The defaults, on which requests may take 0.4 s. *)
Definition config : LeaderElectionConfiguration := mkLeaderElection true (15 * Second) (10 * Second) (2 * Second).
Definition delta : Z := 400 * Millisecond.

(** [a] takes the lease; a request of [b] is under way; [a] renews. *)
Definition schedule : list move :=
  takes "a" ++ [Pass (1900 * Millisecond); Attempt "b"; Pass (200 * Millisecond)] ++ renews "a" 1.

Lemma at_most_one_leader_witness :
  ∃ s, rtc (system_step config no_skew delta) two_replicas s ∧ leads s "a" ∧
    "a" = "a" ∧ ∃ r, stored (sy_store s) = Some r ∧ HolderIdentity r = "a".
Proof.
  destruct (run_schedule config no_skew delta two_replicas schedule (λ s, leads_b s "a"))
    as (s & Hs & Ha%leads_b_leads); [vm_compute; reflexivity|].
  exists s. split; [done|]. split; [done|].
  apply (at_most_one_leader config no_skew delta two_replicas s "a" "a").
  - done.
  - done.
  - done.
  - apply two_replicas_start.
  - done.
  - done.
  - done.
Defined.

Definition held : LeaderElectionRecord := mkRecord "a" 15 (100 * Second) (130 * Second) 4.
Definition lock : lock_world :=
  mkLockWorld (131 * Second) (Some (mkEndpoints (Some 7) (Some (RecordText held)))) 8.

Lemma lease_passes_on_witness :
  ∃ le1 t1, run (tryAcquireOrRenew config "b" new_elector) lock = (Ret (le1, false), lock, t1) ∧
  let taken := bool_decide (131 * Second + 15 * Second ≤ 146 * Second) in
  ∃ le2 w2 t2, run (tryAcquireOrRenew config "b" le1) (with_now lock (146 * Second)) = (Ret (le2, taken), w2, t2) ∧
    if taken then
      ∃ r, stored (lw_store w2) = Some r ∧ HolderIdentity r = "b" ∧
        RenewTime r = truncate (146 * Second) ∧ AcquireTime r = truncate (146 * Second) ∧
        LeaderTransitions r = int64 (4 + 1)
    else w2 = with_now lock (146 * Second).
Proof.
  apply (lease_passes_on config "b" new_elector lock (mkEndpoints (Some 7) (Some (RecordText held))) held (146 * Second)).
  - done.
  - reflexivity.
  - reflexivity.
  - done.
  - done.
Defined.

End LeaseWitness.
