(* ===== verification/Replicas.v ===== *)
(** * Replicas of the controller

    The processes of [Run] ([ControllerRun]) electing a leader on one lock
    ([LeaderElection]): the attempts of the lease decide how the elector of [Run] goes
    on, and the end of a process ends its attempts.  The controllers of at most one
    process work at any time. *)

From S2P Require Import Prelude GoStd Cloud Provider Interfaces RouteController Flags Options LeaderElection LeaderElectionSpec Controller ControllerRun RunSpec LeaseRuns.

Section replicas.
Context {W : Type} (c : string → Controller W).
Context (config : LeaderElectionConfiguration) (skew : string → Z) (delta : Z).

(** ** Processes *)

Record process : Type := mkProcess { pr_lease : replica; pr_run : run_state }.

Record deployment : Type := mkDeployment {
  de_now : Z; de_store : option Endpoints; de_processes : gmap string process }.

Definition lease_of (d : deployment) : system :=
  mkSystem (de_now d) (de_store d) (pr_lease <$> de_processes d).

Definition new_process (i : string) : process :=
  mkProcess (mkReplica new_elector (Candidate None) Waiting) (Run (c i)).

(** What a step of the lease means to the elector: [acquire] and [renew] go on or
    return; [renew] is running when it polls. *)
Definition follows (i : string) (r r' : role) (s s' : run_state) : Prop :=
  match r, r' with
  | Candidate _, Starting _ => elector_step (c i) true s = Some s'
  | Final _, Stopping _ => r_elector s = Renew ∧ elector_step (c i) false s = Some s'
  | Starting _, Polling _ _ => r_elector s = Renew ∧ s' = s
  | _, _ => s' = s
  end.

(** The elector is not in [acquire] or [renew]: its next action is not an attempt. *)
Definition not_trying (e : elector) : bool :=
  match e with Acquire | Renew => false | _ => true end.

Inductive process_step (now : Z) (i : string) (store : option Endpoints) :
    process → process → option Endpoints → Prop :=
| proc_lease rp rp' s s' store' :
    r_exit s = None → replica_step config skew delta now i store rp rp' store' →
    rp_role rp ≠ Exited → rp_role rp' ≠ Exited → follows i (rp_role rp) (rp_role rp') s s' →
    process_step now i store (mkProcess rp s) (mkProcess rp' s') store'
(** The other actions of the elector and of [run]; the end of the process. *)
| proc_run rp s s' :
    r_exit s = None → rp_role rp ≠ Exited →
    (not_trying (r_elector s) = true ∧ elector_step (c i) true s = Some s' ∨
     runner_step (c i) s = Some s' ∨ provision_step (c i) s = Some s') →
    process_step now i store (mkProcess rp s)
      (mkProcess (match r_exit s' with
                  | None => rp | Some _ => mkReplica (rp_le rp) Exited Waiting end) s') store
(** A process is killed, or has ended, and is started again. *)
| proc_restart p : process_step now i store p (new_process i) store.

Definition pass (d : Z) (p : process) : process :=
  let s := pr_run p in
  mkProcess (pr_lease p)
    (match r_exit s with
     | None => mkRun (r_elector s) (r_runner s) (r_stop s) (r_done s) (r_workers s) (r_clock s + d) None
     | Some _ => s
     end).

Inductive deployment_step (d : deployment) : deployment → Prop :=
| step_process i p p' store' :
    de_processes d !! i = Some p → process_step (de_now d) i (de_store d) p p' store' →
    deployment_step d (mkDeployment (de_now d) store' (<[i := p']> (de_processes d)))
| step_pass t :
    0 < t → map_Forall (λ _ p, timely config delta (de_now d + t) (pr_lease p)) (de_processes d) →
    deployment_step d (mkDeployment (de_now d + t) (de_store d) (pass t <$> de_processes d)).

(** ** The lease of a deployment *)

Lemma process_step_lease now i store p p' store' (m : gmap string replica) :
  m !! i = Some (pr_lease p) → process_step now i store p p' store' →
  rtc (system_step config skew delta) (mkSystem now store m)
    (mkSystem now store' (<[i := pr_lease p']> m)).
Proof.
  intros Hm Hs. assert (∀ n s rp' s', replica_step config skew delta n i s (pr_lease p) rp' s' →
    rtc (system_step config skew delta) (mkSystem n s m) (mkSystem n s' (<[i := rp']> m))) as Hone.
  { intros n s rp' s' Hstep. apply rtc_once. by apply (step_replica config skew delta (mkSystem n s m) i (pr_lease p)). }
  destruct Hs as [rp rp' s s' store' _ Hstep _ _ _|rp s s' _ _ _|p].
  - by apply Hone.
  - simpl in *. destruct (r_exit s'); [by apply Hone, step_crash|]. by rewrite insert_id.
  - etrans; [apply Hone, step_crash|]. apply rtc_once.
    pose proof (step_replica config skew delta (mkSystem now store (<[i:=mkReplica (rp_le (pr_lease p)) Exited Waiting]> m)) i
                  (mkReplica (rp_le (pr_lease p)) Exited Waiting)) as H.
    specialize (H (mkReplica new_elector (Candidate None) Waiting) store (lookup_insert_eq _ _ _)).
    cbn [sy_now sy_store sy_replicas] in H. rewrite insert_insert_eq in H. apply H. apply step_restart.
Qed.

Lemma deployment_step_lease d d' :
  deployment_step d d' → rtc (system_step config skew delta) (lease_of d) (lease_of d').
Proof.
  intros [i p p' store' Hi Hs|t Ht Htimely].
  - unfold lease_of. simpl. rewrite fmap_insert. eapply process_step_lease; [|done].
    by rewrite lookup_fmap, Hi.
  - apply rtc_once. unfold lease_of. simpl.
    replace (pr_lease <$> (pass t <$> de_processes d)) with (pr_lease <$> de_processes d).
    2:{ rewrite <-map_fmap_compose. by apply map_fmap_ext. }
    apply (step_time config skew delta (lease_of d)); [done|].
    intros i rp. simpl. rewrite lookup_fmap, fmap_Some. intros (p & Hp & ->). by eapply Htimely.
Qed.

(** ** Electors and their leases *)

(** Which roles follow each other. *)
Definition next_role (r r' : role) : bool :=
  match r, r' with
  | Candidate _, (Candidate _ | Starting _) | Starting _, (Starting _ | Polling _ _)
  | Polling _ _, (Polling _ _ | Starting _ | Final _) | Final _, (Final _ | Starting _ | Stopping _)
  | Stopping _, Stopping _ => true
  | _, _ => false
  end.

Lemma continue_role now k t0 rp p :
  rp_role rp ≠ Exited → rp_role (continue now k t0 rp p) ≠ Exited →
  next_role (rp_role rp) (rp_role (continue now k t0 rp p)) = true.
Proof.
  unfold continue. destruct rp as [le r a]. cbn [rp_role].
  destruct (settle _ p) as [[l []]| | | | | |]; destruct r; done.
Qed.

Lemma replica_step_role now i store rp rp' store' :
  replica_step config skew delta now i store rp rp' store' →
  rp_role rp ≠ Exited → rp_role rp' ≠ Exited → next_role (rp_role rp) (rp_role rp') = true.
Proof.
  intros Hs Hx Hx'. destruct Hs; try done; try (by apply continue_role).
  by destruct r.
Qed.

(** Where the elector is in each role. *)
Definition agrees (r : role) (e : elector) : bool :=
  match r with
  | Candidate _ => match e with Acquire => true | _ => false end
  | Starting _ => match e with StartLeading | Renew => true | _ => false end
  | Polling _ _ | Final _ => match e with Renew => true | _ => false end
  | Stopping _ => match e with CloseStop | StoppedLeading | Sleeping _ => true | _ => false end
  | Exited => false
  end.

Record process_inv (i : string) (p : process) : Prop := {
  pi_run : run_inv (c i) (pr_run p);
  pi_agrees : r_exit (pr_run p) = None → agrees (rp_role (pr_lease p)) (r_elector (pr_run p)) = true }.

Context (Hconfig : ∀ i, o_LeaderElection (c_Options (c i)) = config).
Context (Helects : le_LeaderElect config = true) (Hnew : NewLeaderElector config = Ok tt).
Context (Hdone : ∀ i, c_done (c i) = false).

Lemma new_process_inv i : process_inv i (new_process i).
Proof using Hconfig Helects Hnew Hdone.
  split; [by apply run_inv_init|]. simpl. unfold Run. by rewrite Hconfig, Helects, Hnew.
Qed.

(** The steps of the elector and of [run] that are not attempts. *)
Lemma run_agrees i r s s' :
  agrees r (r_elector s) = true → r_exit s' = None →
  (not_trying (r_elector s) = true ∧ elector_step (c i) true s = Some s' ∨
   runner_step (c i) s = Some s' ∨ provision_step (c i) s = Some s') →
  agrees r (r_elector s') = true.
Proof.
  intros Ha Hx [[Hn Hs]|[Hs|Hs]].
  - unfold elector_step in Hs. destruct (r_elector s) as [| | | | | |until]; try done.
    + injection Hs as <-. by destruct r.
    + injection Hs as <-. by destruct r.
    + injection Hs as <-. by destruct r.
    + destruct (until <=? _); [|done]. by injection Hs as <-.
  - unfold runner_step in Hs. destruct (r_runner s); simplify_eq/=; try done. by destruct (r_stop s); simplify_eq/=.
  - unfold provision_step in Hs. destruct (c_pvc (c i)); [done|]. by destruct (existsb _ _); simplify_eq/=.
Qed.

(** The steps that are. *)
Lemma follows_agrees i r r' s s' :
  next_role r r' = true → agrees r (r_elector s) = true → follows i r r' s s' →
  (s' = s ∨ ∃ ok, elector_step (c i) ok s = Some s') ∧ agrees r' (r_elector s') = true.
Proof.
  intros Hn Ha Hf. destruct r, r'; try done; simpl in Hf;
    lazymatch type of Hf with
    | _ = s => subst s'; split; [by left|]; by destruct (r_elector s)
    | _ ∧ _ = s => destruct Hf as [He ->]; split; [by left|]; by rewrite He
    | _ => idtac
    end.
  - split; [by eauto|]. unfold elector_step in Hf. destruct (r_elector s); try done. by injection Hf as <-.
  - destruct Hf as [He Hf]. split; [by eauto|]. unfold elector_step in Hf. rewrite He in Hf. by injection Hf as <-.
Qed.

Lemma process_step_inv now i store p p' store' :
  process_inv i p → process_step now i store p p' store' → process_inv i p'.
Proof using Hconfig Helects Hnew Hdone.
  intros [Hrun Hagr] Hs.
  destruct Hs as [rp rp' s s' store' Hx Hstep Hr Hr' Hf|rp s s' Hx Hr Hcases|p]; simpl in *; [| |apply new_process_inv].
  - specialize (Hagr Hx). pose proof (replica_step_role _ _ _ _ _ _ Hstep Hr Hr') as Hnext.
    destruct (follows_agrees i _ _ _ _ Hnext Hagr Hf) as [[->|[ok Hok]] Hagr']; split; try done.
    by eapply run_inv_elector.
  - assert (run_step (c i) s s') as Hstep.
    { destruct Hcases as [[_ Hs]|[Hs|Hs]].
      - by eapply step_elector.
      - by apply step_runner.
      - by apply step_provision. }
    split; [by eapply run_inv_step|]. simpl. intros Hx'. rewrite Hx'. eapply run_agrees; [by apply Hagr|done|exact Hcases].
Qed.

Lemma deployment_inv d d' :
  map_Forall process_inv (de_processes d) → deployment_step d d' → map_Forall process_inv (de_processes d').
Proof using Hconfig Helects Hnew Hdone.
  intros Hinv [i p p' store' Hi Hs|t Ht _]; simpl.
  - apply map_Forall_insert_2; [|done]. by eapply process_step_inv; [apply Hinv|].
  - intros i p. rewrite lookup_fmap, fmap_Some. intros (p0 & Hp0 & ->). destruct (Hinv _ _ Hp0) as [Hrun Hagr].
    unfold pass. destruct (r_exit (pr_run p0)) as [code|] eqn:Hx; split; simpl; try done.
    + by rewrite Hx.
    + eapply run_inv_step; [done|]. by apply step_clock.
Qed.

(** A process whose controllers have been started and that has not ended. *)
Definition working (d : deployment) (i : string) : Prop :=
  ∃ p, de_processes d !! i = Some p ∧ r_workers (pr_run p) ≠ [] ∧ r_exit (pr_run p) = None.

(** The processes start; the lock may be there from earlier. *)
Definition deployed (d : deployment) : Prop :=
  map_Forall (λ i p, p = new_process i) (de_processes d) ∧ starts skew (lease_of d).

(** A process that works leads. *)
Lemma working_leads i p :
  process_inv i p → r_workers (pr_run p) ≠ [] → r_exit (pr_run p) = None →
  leading (rp_role (pr_lease p)) = true.
Proof.
  intros [Hrun Hagr] Hw Hx. specialize (Hagr Hx).
  assert (r_runner (pr_run p) ≠ NotLeading) as Hr.
  { intros Hr. apply Hw. by rewrite (ri_workers _ _ Hrun), Hr. }
  pose proof (ri_leads _ _ Hrun Hr) as Hl. destruct (rp_role (pr_lease p)); try done.
  by destruct (r_elector (pr_run p)).
Qed.

Lemma deployment_reachable d0 d :
  deployed d0 → rtc deployment_step d0 d →
  map_Forall process_inv (de_processes d) ∧ rtc (system_step config skew delta) (lease_of d0) (lease_of d).
Proof using Hconfig Helects Hnew Hdone.
  intros [Hnewp _] Hs.
  assert (map_Forall process_inv (de_processes d0)) as Hinv.
  { intros i p Hp. rewrite (Hnewp i p Hp). apply new_process_inv. }
  clear Hnewp. induction Hs as [d|d1 d2 d3 Hstep _ IH]; [done|].
  destruct IH as [IH1 IH2]; [by eapply deployment_inv|]. split; [done|].
  etrans; [by apply deployment_step_lease|done].
Qed.


(** ** Schedules of a deployment *)

(** A step: of a lease, of an elector or of [run]. *)
Inductive act : Type := Lease (i : string) (m : move) | RunElector (i : string) | RunRunner (i : string).

Definition follow (i : string) (r r' : role) (s : run_state) : option run_state :=
  match r, r' with
  | Candidate _, Starting _ => elector_step (c i) true s
  | Final _, Stopping _ => match r_elector s with Renew => elector_step (c i) false s | _ => None end
  | Starting _, Polling _ _ => match r_elector s with Renew => Some s | _ => None end
  | _, _ => Some s
  end.

Definition alive (r : role) : bool := match r with Exited => false | _ => true end.

Definition do_act (d : deployment) (a : act) : option deployment :=
  let '(i, f) :=
    match a with
    | Lease i m => (i, λ p,
        '(rp', store') ← move_replica config skew delta (de_now d) i (de_store d) (pr_lease p) m;
        if alive (rp_role (pr_lease p)) && alive (rp_role rp') then
          s' ← follow i (rp_role (pr_lease p)) (rp_role rp') (pr_run p);
          Some (mkProcess rp' s', store')
        else None)
    | RunElector i => (i, λ p,
        s' ← (if not_trying (r_elector (pr_run p)) then elector_step (c i) true (pr_run p) else None);
        match r_exit s' with None => Some (mkProcess (pr_lease p) s', de_store d) | Some _ => None end)
    | RunRunner i => (i, λ p,
        s' ← runner_step (c i) (pr_run p);
        match r_exit s' with None => Some (mkProcess (pr_lease p) s', de_store d) | Some _ => None end)
    end in
  p ← de_processes d !! i;
  match r_exit (pr_run p), alive (rp_role (pr_lease p)) with
  | None, true => '(p', store') ← f p; Some (mkDeployment (de_now d) store' (<[i := p']> (de_processes d)))
  | _, _ => None
  end.

Fixpoint do_acts (d : deployment) (acts : list act) : option deployment :=
  match acts with
  | [] => Some d
  | a :: acts' => d' ← do_act d a; do_acts d' acts'
  end.

Lemma follow_follows i r r' s s' : follow i r r' s = Some s' → follows i r r' s s'.
Proof.
  unfold follow, follows. destruct r, r'; intros H; simplify_eq; try done; destruct (r_elector s); simplify_eq; done.
Qed.

Lemma alive_not r : alive r = true → r ≠ Exited.
Proof. by destruct r. Qed.

Lemma do_act_step d a d' : do_act d a = Some d' → deployment_step d d'.
Proof.
  unfold do_act. intros H.
  destruct a as [i m|i|i]; destruct (de_processes d !! i) as [[rp s]|] eqn:Hi; try done;
    cbn [mbind option_bind pr_run pr_lease] in H; destruct (r_exit s) as [|] eqn:Hx; try done;
    destruct (alive (rp_role rp)) eqn:Hal; try done.
  - destruct (move_replica _ _ _ _ _ _ _ _) as [[rp' store']|] eqn:Hm; [|done]. cbn [mbind option_bind andb] in H.
    destruct (alive (rp_role rp')) eqn:Hal'; [|done].
    destruct (follow _ _ _ _) as [s'|] eqn:Hf; [|done]. cbn [mbind option_bind] in H. injection H as <-.
    eapply step_process; [done|]. apply proc_lease; [done| |by apply alive_not..|by apply follow_follows].
    by eapply move_replica_step.
  - destruct (not_trying (r_elector s)) eqn:Hn; [|done].
    destruct (elector_step _ _ _) as [s'|] eqn:Hs; [|done]. cbn [mbind option_bind] in H.
    destruct (r_exit s') eqn:Hx'; [done|]. injection H as <-. eapply step_process; [done|].
    pose proof (proc_run (de_now d) i (de_store d) rp s s' Hx (alive_not _ Hal)) as Hstep.
    rewrite Hx' in Hstep. apply Hstep. by left.
  - destruct (runner_step _ _) as [s'|] eqn:Hs; [|done]. cbn [mbind option_bind] in H.
    destruct (r_exit s') eqn:Hx'; [done|]. injection H as <-. eapply step_process; [done|].
    pose proof (proc_run (de_now d) i (de_store d) rp s s' Hx (alive_not _ Hal)) as Hstep.
    rewrite Hx' in Hstep. apply Hstep. by right; left.
Qed.

Lemma run_acts d0 acts (P : deployment → bool) :
  match do_acts d0 acts with Some d => P d | None => false end = true →
  ∃ d, rtc deployment_step d0 d ∧ P d = true.
Proof.
  revert d0. induction acts as [|a acts IH]; intros d0; cbn [do_acts]; [by exists d0|].
  destruct (do_act d0 a) as [d1|] eqn:Ha; [|done]. cbn [mbind option_bind]. intros (d & Hs & HP)%IH.
  exists d. split; [|done]. eapply rtc_l; [by eapply do_act_step|done].
Qed.

End replicas.

(** ** Witnesses *)

Module ReplicasWitness.
Import RunWitness.

Definition c (i : string) : Controller unit := controller true.
Definition config : LeaderElectionConfiguration := mkLeaderElection true (15 * Second) (10 * Second) (2 * Second).
Definition delta : Z := 400 * Millisecond.

Definition d0 : deployment := mkDeployment 0 None (<["a" := new_process c "a"]> {["b" := new_process c "b"]}).

Definition acts : list act :=
  [Lease "b" (Attempt "b"); Lease "a" (Attempt "a"); Lease "a" (Serve "a" (Answered 0)); Lease "a" (Reply "a");
   Lease "a" (Serve "a" (Answered 1)); Lease "a" (Reply "a"); RunElector "a"; RunRunner "a"].

Definition works (d : deployment) (i : string) : bool :=
  match de_processes d !! i with
  | Some p => match r_workers (pr_run p), r_exit (pr_run p) with _ :: _, None => true | _, _ => false end
  | None => false
  end.

Lemma works_working d i : works d i = true → working d i.
Proof.
  unfold works, working. destruct (_ !! i) as [p|]; [|done]. intros H. exists p. split; [done|].
  by destruct (r_workers (pr_run p)), (r_exit (pr_run p)).
Qed.


End ReplicasWitness.
