(* ===== verification/Json.v ===== *)
(** * Package encoding/json, as the flex volume command uses it

    [Marshal] of a flat object (strings and booleans) and [Unmarshal] into a
    [map[string]interface{}].  Texts are taken as bytes: bytes from 128 on are
    copied, which is what the package does for valid UTF-8 other than U+2028 and
    U+2029.  A number is kept as its literal; a literal that overflows a float64 is
    an error, as in the package. *)

From S2P Require Import Prelude GoStd Provider.

Definition dquote : ascii := ascii_of_N 34.
Definition backslash : ascii := ascii_of_N 92.

(** ** Encoding *)

Definition hex_digit (n : N) : ascii :=
  if (n <? 10)%N then ascii_of_N (48 + n) else ascii_of_N (87 + n).

(** One byte of a string, escaped: the HTML characters are escaped too. *)
Definition escape_byte (c : ascii) : list ascii :=
  let n := N_of_ascii c in
  if bool_decide (c = dquote) then [backslash; dquote]
  else if bool_decide (c = backslash) then [backslash; backslash]
  else if bool_decide (n = 10%N) then [backslash; "n"%char]
  else if bool_decide (n = 13%N) then [backslash; "r"%char]
  else if bool_decide (n = 9%N) then [backslash; "t"%char]
  else if (n <? 32)%N || bool_decide (c ∈ ["<"; ">"; "&"]%char) then
    [backslash; "u"; "0"; "0"; hex_digit (n / 16); hex_digit (n mod 16)]%char
  else [c].

Definition encode_string (s : string) : list ascii :=
  dquote :: (str_to_list s ≫= escape_byte) ++ [dquote].

(** The field values of a response. *)
Inductive flat : Type := FString (s : string) | FBool (b : bool).

Definition flat_json (v : flat) : json :=
  match v with FString s => JString s | FBool b => JBool b end.

Definition encode_flat (v : flat) : list ascii :=
  match v with
  | FString s => encode_string s
  | FBool b => str_to_list (show_bool b)
  end.

Definition encode_member (kv : string * flat) : list ascii :=
  encode_string kv.1 ++ ":"%char :: encode_flat kv.2.

Fixpoint encode_members (ms : list (string * flat)) : list ascii :=
  match ms with
  | [] => []
  | [kv] => encode_member kv
  | kv :: ms' => encode_member kv ++ ","%char :: encode_members ms'
  end.

Definition encode_object (ms : list (string * flat)) : list ascii :=
  "{"%char :: encode_members ms ++ ["}"%char].

(** ** Decoding: tokens *)

Definition is_ws (c : ascii) : bool :=
  bool_decide (N_of_ascii c ∈ [32; 9; 10; 13]%N).
Definition skip_ws (l : list ascii) : list ascii := drop_while is_ws l.

Definition hex_val (c : ascii) : option N :=
  let n := N_of_ascii c in
  if (48 <=? n)%N && (n <=? 57)%N then Some (n - 48)%N
  else if (97 <=? n)%N && (n <=? 102)%N then Some (n - 87)%N
  else if (65 <=? n)%N && (n <=? 70)%N then Some (n - 55)%N
  else None.

(** Four hexadecimal digits of an escape. *)
Definition hex4 (a b c d : ascii) : option N :=
  a ← hex_val a; b ← hex_val b; c ← hex_val c; d ← hex_val d;
  Some (4096 * a + 256 * b + 16 * c + d)%N.

Definition is_surrogate (u : N) : bool := (55296 <=? u)%N && (u <=? 57343)%N.
Definition is_high (u : N) : bool := (55296 <=? u)%N && (u <? 56320)%N.
Definition is_low (u : N) : bool := (56320 <=? u)%N && (u <=? 57343)%N.

(** [utf8.EncodeRune]. *)
Definition encode_rune (r : N) : list ascii :=
  if (r <? 128)%N then [ascii_of_N r]
  else if (r <? 2048)%N then [ascii_of_N (192 + r / 64); ascii_of_N (128 + r mod 64)]
  else if (r <? 65536)%N then
    [ascii_of_N (224 + r / 4096); ascii_of_N (128 + (r / 64) mod 64); ascii_of_N (128 + r mod 64)]
  else [ascii_of_N (240 + r / 262144); ascii_of_N (128 + (r / 4096) mod 64);
        ascii_of_N (128 + (r / 64) mod 64); ascii_of_N (128 + r mod 64)].

Definition replacement : list ascii := encode_rune 65533.

(** The one-byte escapes. *)
Definition simple_escape (c : ascii) : option ascii :=
  if bool_decide (c = dquote) || bool_decide (c = backslash) || bool_decide (c = "/"%char) then Some c
  else if bool_decide (c = "b"%char) then Some (ascii_of_N 8)
  else if bool_decide (c = "f"%char) then Some (ascii_of_N 12)
  else if bool_decide (c = "n"%char) then Some (ascii_of_N 10)
  else if bool_decide (c = "r"%char) then Some (ascii_of_N 13)
  else if bool_decide (c = "t"%char) then Some (ascii_of_N 9)
  else None.

(** Put decoded bytes in front of the result of the rest. *)
Definition prepend (bytes : list ascii) (r : option (list ascii * list ascii)) :
    option (list ascii * list ascii) :=
  match r with Some (s, rest) => Some (bytes ++ s, rest) | None => None end.

(** The inside of a string literal up to its closing quote, decoded, and what
    follows the quote. *)
Fixpoint parse_string (l : list ascii) : option (list ascii * list ascii) :=
  match l with
  | [] => None
  | c :: l1 =>
      if bool_decide (c = dquote) then Some ([], l1)
      else if bool_decide (c = backslash) then
        match l1 with
        | [] => None
        | e :: l2 =>
            if bool_decide (e = "u"%char) then
              match l2 with
              | a :: b :: c :: d :: l3 =>
                  match hex4 a b c d with
                  | None => None
                  | Some u =>
                      if is_surrogate u then
                        match l3 with
                        | b1 :: u1 :: a2 :: b2 :: c2 :: d2 :: l4 =>
                            match (if bool_decide (b1 = backslash) && bool_decide (u1 = "u"%char)
                                   then hex4 a2 b2 c2 d2 else None) with
                            | Some u2 =>
                                if is_high u && is_low u2
                                then prepend (encode_rune (65536 + (u - 55296) * 1024 + (u2 - 56320)))
                                       (parse_string l4)
                                else prepend replacement (parse_string l3)
                            | None => prepend replacement (parse_string l3)
                            end
                        | _ => prepend replacement (parse_string l3)
                        end
                      else prepend (encode_rune u) (parse_string l3)
                  end
              | _ => None
              end
            else match simple_escape e with
                 | Some b => prepend [b] (parse_string l2)
                 | None => None
                 end
        end
      else if (N_of_ascii c <? 32)%N then None
      else prepend [c] (parse_string l1)
  end.

Definition is_digit (c : ascii) : bool := (48 <=? N_of_ascii c)%N && (N_of_ascii c <=? 57)%N.

(** At least one digit. *)
Definition digits1 (l : list ascii) : option (list ascii * list ascii) :=
  match take_while is_digit l with
  | [] => None
  | ds => Some (ds, drop (length ds) l)
  end.

(** An optional part that starts with one of the given bytes. *)
Definition parse_frac (l : list ascii) : option (list ascii * list ascii) :=
  match l with
  | c :: l1 => if bool_decide (c = "."%char) then '(ds, r) ← digits1 l1; Some (c :: ds, r)
               else Some ([], l)
  | [] => Some ([], l)
  end.
Definition parse_exp (l : list ascii) : option (list ascii * list ascii) :=
  match l with
  | c :: l1 =>
      if bool_decide (c = "e"%char) || bool_decide (c = "E"%char) then
        let '(sign, l2) := match l1 with
          | s :: l2 => if bool_decide (s = "+"%char) || bool_decide (s = "-"%char) then ([s], l2) else ([], l1)
          | [] => ([], l1)
          end in
        '(ds, r) ← digits1 l2; Some (c :: sign ++ ds, r)
      else Some ([], l)
  | [] => Some ([], l)
  end.

Definition digits_val (ds : list ascii) : Z :=
  foldl (λ acc c, 10 * acc + Z.of_N (N_of_ascii c - 48)) 0 ds.

(** The exponent of a literal, from its text after the [e]. *)
Definition exp_val (ex : list ascii) : Z :=
  match ex with
  | _ :: s :: ds =>
      if bool_decide (s = "-"%char) then - digits_val ds
      else if bool_decide (s = "+"%char) then digits_val ds
      else digits_val (s :: ds)
  | _ => 0
  end.

(** The literal rounds to an infinite float64: from [2^1024 - 2^970] on. *)
Definition overflows (ip fr ex : list ascii) : bool :=
  let digits := ip ++ drop 1 fr in
  let mant := digits_val digits in
  let e := exp_val ex - Z.of_nat (length (drop 1 fr)) in
  let bound := 2 ^ 1024 - 2 ^ 970 in
  if bool_decide (mant = 0) then false
  else if bool_decide (400 < e) then true
  else if bool_decide (0 <= e) then bool_decide (bound <= mant * 10 ^ e)
  else if bool_decide (Z.of_nat (length digits) < - e) then false
  else bool_decide (bound * 10 ^ (- e) <= mant).

(** A number: sign, integer part without leading zeros, fraction, exponent. *)
Definition parse_number (l : list ascii) : option (json * list ascii) :=
  let '(sign, l1) := match l with
    | s :: l1 => if bool_decide (s = "-"%char) then ([s], l1) else ([], l)
    | [] => ([], l)
    end in
  '(ip, l2) ← match l1 with
    | z :: l2 => if bool_decide (z = "0"%char) then Some ([z], l2) else digits1 l1
    | [] => None
    end;
  '(fr, l3) ← parse_frac l2;
  '(ex, l4) ← parse_exp l3;
  if overflows ip fr ex then None
  else Some (JNumber (list_to_str (sign ++ ip ++ fr ++ ex)), l4).

(** A keyword. *)
Definition parse_word (w : string) (v : json) (l : list ascii) : option (json * list ascii) :=
  if bool_decide (take (String.length w) l = str_to_list w)
  then Some (v, drop (String.length w) l) else None.

(** ** Decoding: values *)

(** Values, the members of an object after its opening brace, the elements of an
    array after its opening bracket.  [fuel] bounds the nesting and the number of
    members; more than twice the bytes of the text is enough ([parse_value_fuel] in
    JsonSpec.v). *)
Fixpoint parse_value (fuel : nat) (l : list ascii) : option (json * list ascii) :=
  match fuel with
  | O => None
  | S fuel' =>
      match skip_ws l with
      | [] => None
      | c :: l1 =>
          if bool_decide (c = dquote) then
            '(s, r) ← parse_string l1; Some (JString (list_to_str s), r)
          else if bool_decide (c = "{"%char) then
            match skip_ws l1 with
            | [] => None
            | d :: l2 =>
                if bool_decide (d = "}"%char) then Some (JObject [], l2)
                else '(ms, r) ← parse_members fuel' l1; Some (JObject ms, r)
            end
          else if bool_decide (c = "["%char) then
            match skip_ws l1 with
            | [] => None
            | d :: l2 =>
                if bool_decide (d = "]"%char) then Some (JArray [], l2)
                else '(vs, r) ← parse_elements fuel' l1; Some (JArray vs, r)
            end
          else if bool_decide (c = "t"%char) then parse_word "true" (JBool true) (c :: l1)
          else if bool_decide (c = "f"%char) then parse_word "false" (JBool false) (c :: l1)
          else if bool_decide (c = "n"%char) then parse_word "null" JNull (c :: l1)
          else parse_number (c :: l1)
      end
  end
with parse_members (fuel : nat) (l : list ascii) : option (list (string * json) * list ascii) :=
  match fuel with
  | O => None
  | S fuel' =>
      match skip_ws l with
      | [] => None
      | c :: l1 =>
          if bool_decide (c = dquote) then
            '(k, l2) ← parse_string l1;
            match skip_ws l2 with
            | [] => None
            | d :: l3 =>
                if bool_decide (d = ":"%char) then
                  '(v, l4) ← parse_value fuel' l3;
                  match skip_ws l4 with
                  | [] => None
                  | e :: l5 =>
                      if bool_decide (e = "}"%char) then Some ([(list_to_str k, v)], l5)
                      else if bool_decide (e = ","%char) then
                        '(ms, r) ← parse_members fuel' l5; Some ((list_to_str k, v) :: ms, r)
                      else None
                  end
                else None
            end
          else None
      end
  end
with parse_elements (fuel : nat) (l : list ascii) : option (list json * list ascii) :=
  match fuel with
  | O => None
  | S fuel' =>
      '(v, l1) ← parse_value fuel' l;
      match skip_ws l1 with
      | [] => None
      | d :: l2 =>
          if bool_decide (d = "]"%char) then Some ([v], l2)
          else if bool_decide (d = ","%char) then
            '(vs, r) ← parse_elements fuel' l2; Some (v :: vs, r)
          else None
      end
  end.

(** A whole text: one value and white space. *)
Definition parse_json (s : string) : option json :=
  '(v, r) ← parse_value (S (2 * String.length s)) (str_to_list s);
  match skip_ws r with [] => Some v | _ => None end.

(** [json.Unmarshal] into a [map[string]interface{}]: an object gives its members,
    the last of equal keys winning; [null] leaves the nil map; any other value, and
    a text that is not JSON, is an error. *)
Definition Unmarshal (s : string) : option (gmap string json) :=
  match parse_json s with
  | Some (JObject ms) => Some (list_to_map (rev ms))
  | Some JNull => Some ∅
  | _ => None
  end.
