(* ===== verification/JsonSpec.v ===== *)
(** * Theorems about encoding/json

    The fuel of the decoder is enough, and it reads back what the encoder writes. *)

From S2P Require Import Prelude GoStd Provider Json.

(** ** The decoder consumes its input *)

Lemma skip_ws_length l : (length (skip_ws l) ≤ length l)%nat.
Proof. unfold skip_ws. induction l as [|c l IH]; simpl; [done|]. destruct (is_ws c); simpl; lia. Qed.

Lemma skip_ws_cons l c l1 : skip_ws l = c :: l1 → (length l1 < length l)%nat.
Proof. intros Hs. pose proof (skip_ws_length l) as Hl. rewrite Hs in Hl. simpl in Hl. lia. Qed.

Lemma prepend_Some bytes r s rest :
  prepend bytes r = Some (s, rest) → ∃ s', r = Some (s', rest).
Proof. destruct r as [[s' rest']|]; simpl; [|done]. intros [= <- <-]. eauto. Qed.

Lemma parse_string_length l s r : parse_string l = Some (s, r) → (length r < length l)%nat.
Proof.
  revert s r. induction l as [l IH] using (induction_ltof1 _ (@length ascii)); unfold ltof in IH.
  intros s r. destruct l as [|c l1]; [done|]. cbn [parse_string].
  assert (∀ bytes l' s r, (length l' < length (c :: l1))%nat →
    prepend bytes (parse_string l') = Some (s, r) → (length r < length (c :: l1))%nat) as Hp.
  { intros bytes l' s0 r0 Hl [s' Hs']%prepend_Some. apply IH in Hs'; lia. }
  case_bool_decide; [intros [= _ <-]; simpl; lia|].
  case_bool_decide; [|destruct (_ <? _)%N; [done|apply Hp; simpl; lia]].
  destruct l1 as [|e l2]; [done|]. case_bool_decide.
  2:{ destruct (simple_escape e); [apply Hp; simpl; lia|done]. }
  destruct l2 as [|h1 [|h2 [|h3 [|h4 l3]]]]; try done.
  destruct (hex4 h1 h2 h3 h4); [|done]. destruct (is_surrogate _); [|apply Hp; simpl; lia].
  destruct l3 as [|b1 [|u1 [|a2 [|b2 [|c2 [|d2 l4]]]]]]; try (apply Hp; simpl; lia).
  repeat case_match; apply Hp; simpl; lia.
Qed.

Lemma digits1_length l ds r : digits1 l = Some (ds, r) → (length r < length l)%nat.
Proof.
  unfold digits1. destruct (take_while is_digit l) as [|d ds'] eqn:Ht; [done|].
  intros [= <- <-]. rewrite length_drop. destruct l; [done|]. simpl. lia.
Qed.

Lemma parse_frac_length l fr r : parse_frac l = Some (fr, r) → (length r ≤ length l)%nat.
Proof.
  unfold parse_frac. destruct l as [|c l1]; [by intros [= _ <-]|]. case_bool_decide; [|by intros [= _ <-]].
  destruct (digits1 l1) as [[ds r']|] eqn:Hd; [|done]. intros [= _ <-]. apply digits1_length in Hd. simpl. lia.
Qed.

Lemma parse_exp_length l ex r : parse_exp l = Some (ex, r) → (length r ≤ length l)%nat.
Proof.
  unfold parse_exp. destruct l as [|c l1]; [by intros [= _ <-]|]. destruct (_ || _); [|by intros [= _ <-]].
  set (p := match l1 with [] => _ | _ => _ end). assert (length p.2 ≤ length l1)%nat as Hp.
  { unfold p. destruct l1 as [|s l2]; [done|]. destruct (_ || _); simpl; lia. }
  destruct p as [sign l2]. simpl in Hp. destruct (digits1 l2) as [[ds r']|] eqn:Hd; [|done].
  intros [= _ <-]. apply digits1_length in Hd. simpl. lia.
Qed.

Lemma parse_number_length l v r : parse_number l = Some (v, r) → (length r < length l)%nat.
Proof.
  unfold parse_number. set (p := match l with [] => _ | _ => _ end).
  assert (length p.2 ≤ length l)%nat as Hp.
  { unfold p. destruct l as [|s l2]; [done|]. case_bool_decide; simpl; lia. }
  destruct p as [sign l1]. simpl in Hp.
  destruct (match l1 with [] => _ | _ => _ end) as [[ip l2]|] eqn:Hi; [|done]. simpl.
  assert (length l2 < length l1)%nat as Hl2.
  { destruct l1 as [|z l1']; [done|]. revert Hi. case_bool_decide; [by intros [= _ <-]; simpl; lia|].
    apply digits1_length. }
  destruct (parse_frac l2) as [[fr l3]|] eqn:Hf; [|done]. simpl. apply parse_frac_length in Hf.
  destruct (parse_exp l3) as [[ex l4]|] eqn:He; [|done]. simpl. apply parse_exp_length in He.
  destruct (overflows ip fr ex); [done|]. intros [= _ <-]. lia.
Qed.

Lemma parse_word_length w v l v' r :
  w ≠ "" → parse_word w v l = Some (v', r) → (length r < length l)%nat.
Proof.
  intros Hw. unfold parse_word. case_bool_decide as Ht; [|done]. intros [= _ <-].
  apply (f_equal length) in Ht. rewrite length_take, str_to_list_length in Ht.
  rewrite length_drop. destruct w as [|c w]; [done|]. cbn [String.length] in *. lia.
Qed.

Lemma parse_length fuel :
  (∀ l v r, parse_value fuel l = Some (v, r) → (length r < length l)%nat) ∧
  (∀ l ms r, parse_members fuel l = Some (ms, r) → (length r < length l)%nat) ∧
  (∀ l vs r, parse_elements fuel l = Some (vs, r) → (length r < length l)%nat).
Proof.
  induction fuel as [|fuel (IHv & IHm & IHe)]; [done|]. split_and!.
  - intros l v r. cbn [parse_value]. destruct (skip_ws l) as [|c l1] eqn:Hs; [done|].
    apply skip_ws_cons in Hs as Hl.
    case_bool_decide.
    { destruct (parse_string l1) as [[s r']|] eqn:Hp; [|done]. intros [= _ <-].
      apply parse_string_length in Hp. lia. }
    case_bool_decide.
    { destruct (skip_ws l1) as [|d l2] eqn:Hs2; [done|]. apply skip_ws_cons in Hs2.
      case_bool_decide; [intros [= _ <-]; lia|].
      destruct (parse_members fuel l1) as [[ms r']|] eqn:Hm; [|done]. intros [= _ <-].
      apply IHm in Hm. lia. }
    case_bool_decide.
    { destruct (skip_ws l1) as [|d l2] eqn:Hs2; [done|]. apply skip_ws_cons in Hs2.
      case_bool_decide; [intros [= _ <-]; lia|].
      destruct (parse_elements fuel l1) as [[vs r']|] eqn:Hm; [|done]. intros [= _ <-].
      apply IHe in Hm. lia. }
    pose proof (skip_ws_length l) as Hl'. rewrite Hs in Hl'.
    repeat case_bool_decide; intros Hw; first [apply parse_word_length in Hw; [lia|done]
      |apply parse_number_length in Hw; lia].
  - intros l ms r. cbn [parse_members]. destruct (skip_ws l) as [|c l1] eqn:Hs; [done|].
    apply skip_ws_cons in Hs. case_bool_decide; [|done].
    destruct (parse_string l1) as [[k l2]|] eqn:Hk; [|done]. apply parse_string_length in Hk. simpl.
    destruct (skip_ws l2) as [|d l3] eqn:Hs2; [done|]. apply skip_ws_cons in Hs2.
    case_bool_decide; [|done].
    destruct (parse_value fuel l3) as [[v l4]|] eqn:Hv; [|done]. apply IHv in Hv. simpl.
    destruct (skip_ws l4) as [|e l5] eqn:Hs3; [done|]. apply skip_ws_cons in Hs3.
    case_bool_decide; [intros [= _ <-]; lia|]. case_bool_decide; [|done].
    destruct (parse_members fuel l5) as [[ms' r']|] eqn:Hm; [|done]. intros [= _ <-].
    apply IHm in Hm. lia.
  - intros l vs r. cbn [parse_elements].
    destruct (parse_value fuel l) as [[v l1]|] eqn:Hv; [|done]. apply IHv in Hv. simpl.
    destruct (skip_ws l1) as [|d l2] eqn:Hs; [done|]. apply skip_ws_cons in Hs.
    case_bool_decide; [intros [= _ <-]; lia|]. case_bool_decide; [|done].
    destruct (parse_elements fuel l2) as [[vs' r']|] eqn:Hm; [|done]. intros [= _ <-].
    apply IHe in Hm. lia.
Qed.

(** ** The fuel is enough *)

Lemma parse_fuel_step n :
  (∀ l f1 f2, (length l < n)%nat → (2 * length l < f1)%nat → (2 * length l < f2)%nat →
     parse_value f1 l = parse_value f2 l) ∧
  (∀ l f1 f2, (length l < n)%nat → (2 * length l + 1 < f1)%nat → (2 * length l + 1 < f2)%nat →
     parse_members f1 l = parse_members f2 l) ∧
  (∀ l f1 f2, (length l < n)%nat → (2 * length l + 1 < f1)%nat → (2 * length l + 1 < f2)%nat →
     parse_elements f1 l = parse_elements f2 l).
Proof.
  induction n as [|n (IHv & IHm & IHe)]; [split_and!; lia|].
  assert (∀ l f1 f2, (length l < S n)%nat → (2 * length l < f1)%nat → (2 * length l < f2)%nat →
     parse_value f1 l = parse_value f2 l) as Hv.
  { intros l [|f1] [|f2] Hl Hf1 Hf2; [lia..|]. cbn [parse_value].
    destruct (skip_ws l) as [|c l1] eqn:Hs; [done|]. apply skip_ws_cons in Hs.
    rewrite (IHm l1 f1 f2), (IHe l1 f1 f2) by lia. done. }
  split_and!; [exact Hv| |].
  - intros l [|f1] [|f2] Hl Hf1 Hf2; [lia..|]. cbn [parse_members].
    destruct (skip_ws l) as [|c l1] eqn:Hs; [done|]. apply skip_ws_cons in Hs.
    case_bool_decide; [|done].
    destruct (parse_string l1) as [[k l2]|] eqn:Hk; [|done]. apply parse_string_length in Hk. simpl.
    destruct (skip_ws l2) as [|d l3] eqn:Hs2; [done|]. apply skip_ws_cons in Hs2.
    case_bool_decide; [|done]. rewrite (Hv l3 f1 f2) by lia.
    destruct (parse_value f2 l3) as [[v l4]|] eqn:Hpv; [|done]. simpl.
    apply (proj1 (parse_length f2)) in Hpv.
    destruct (skip_ws l4) as [|e l5] eqn:Hs3; [done|]. apply skip_ws_cons in Hs3.
    by rewrite (IHm l5 f1 f2) by lia.
  - intros l [|f1] [|f2] Hl Hf1 Hf2; [lia..|]. cbn [parse_elements]. rewrite (Hv l f1 f2) by lia.
    destruct (parse_value f2 l) as [[v l1]|] eqn:Hpv; [|done]. simpl.
    apply (proj1 (parse_length f2)) in Hpv.
    destruct (skip_ws l1) as [|d l2] eqn:Hs; [done|]. apply skip_ws_cons in Hs.
    by rewrite (IHe l2 f1 f2) by lia.
Qed.

(** More fuel than twice the length of the text changes nothing. *)
Lemma parse_value_fuel l f1 f2 :
  (2 * length l < f1)%nat → (2 * length l < f2)%nat → parse_value f1 l = parse_value f2 l.
Proof. intros H1 H2. apply (proj1 (parse_fuel_step (S (length l)))); lia. Qed.

(** ** What the encoder writes is read back *)

Lemma parse_escape c l : parse_string (escape_byte c ++ l) = prepend [c] (parse_string l).
Proof.
  destruct c as [[] [] [] [] [] [] [] []]; cbv -[parse_string prepend app];
    cbn [app]; cbn [parse_string]; try reflexivity.
Qed.

Lemma parse_encoded s l : parse_string ((str_to_list s ≫= escape_byte) ++ dquote :: l) = Some (str_to_list s, l).
Proof.
  induction s as [|c s IH]; [done|]. cbn [str_to_list]. rewrite bind_cons, <- app_assoc, parse_escape, IH. done.
Qed.

Lemma parse_flat v r f : parse_value (S f) (encode_flat v ++ r) = Some (flat_json v, r).
Proof.
  destruct v as [s|[]]; [|reflexivity..]. cbn [encode_flat flat_json]. unfold encode_string.
  cbn [app parse_value]. change (skip_ws (dquote :: ?l)) with (dquote :: l). cbn iota beta.
  rewrite bool_decide_true by done. rewrite <- app_assoc. cbn [app].
  rewrite parse_encoded. simpl. by rewrite str_to_list_to_str.
Qed.

(** One member and its separator. *)
Lemma parse_member k v d r f :
  parse_members (S (S f)) (encode_member (k, v) ++ d :: r) =
  if bool_decide (d = "}"%char) then Some ([(k, flat_json v)], r)
  else if bool_decide (d = ","%char) then
    '(ms, r') ← parse_members (S f) r; Some ((k, flat_json v) :: ms, r')
  else match skip_ws (d :: r) with
       | [] => None
       | e :: l5 =>
           if bool_decide (e = "}"%char) then Some ([(k, flat_json v)], l5)
           else if bool_decide (e = ","%char) then
             '(ms, r') ← parse_members (S f) l5; Some ((k, flat_json v) :: ms, r')
           else None
       end.
Proof.
  unfold encode_member, encode_string. cbn [fst snd].
  rewrite <- !app_assoc. cbn [app]. rewrite <- !app_assoc. cbn [app].
  cbn [parse_members]. change (skip_ws (dquote :: ?l)) with (dquote :: l). cbn iota beta.
  rewrite (bool_decide_true (dquote = dquote)) by done. rewrite parse_encoded. cbn [mbind option_bind].
  change (skip_ws (":"%char :: ?l)) with (":"%char :: l). cbn iota beta.
  rewrite (bool_decide_true (":"%char = ":"%char)) by done. rewrite parse_flat. cbn [mbind option_bind].
  rewrite str_to_list_to_str.
  case_bool_decide as H1; [subst; reflexivity|]. case_bool_decide as H2; [subst; reflexivity|]. done.
Qed.

Lemma parse_members_encoded ms r f :
  ms ≠ [] → (length ms < f)%nat →
  parse_members f (encode_members ms ++ "}"%char :: r) =
    Some ((λ kv, (kv.1, flat_json kv.2)) <$> ms, r).
Proof.
  revert f. induction ms as [|[k v] ms IH]; intros f Hne Hf; [done|].
  destruct f as [|[|f]]; [simpl in Hf; lia..|]. destruct ms as [|kv ms].
  - cbn [encode_members]. by rewrite parse_member.
  - cbn [encode_members]. rewrite <- app_assoc. cbn [app]. rewrite parse_member.
    rewrite bool_decide_false, bool_decide_true by done. rewrite IH; [done..|]. simpl in *. lia.
Qed.

Lemma encode_members_length ms : (length ms ≤ length (encode_members ms))%nat.
Proof.
  induction ms as [|kv ms IH]; [done|]. destruct ms as [|kv' ms]; [simpl; lia|].
  cbn [encode_members]. rewrite length_app. simpl in *. lia.
Qed.

Lemma encode_members_head ms : ms ≠ [] → ∃ l, encode_members ms = dquote :: l.
Proof. destruct ms as [|kv [|kv' ms]]; [done|..]; intros _; unfold encode_members, encode_member, encode_string; eauto. Qed.

(** Decoding an encoded object of flat fields gives the fields. *)
Lemma Unmarshal_encode_object ms :
  ms ≠ [] → NoDup ms.*1 →
  Unmarshal (list_to_str (encode_object ms)) =
    Some (list_to_map ((λ kv, (kv.1, flat_json kv.2)) <$> ms)).
Proof.
  intros Hne Hnd. unfold Unmarshal, parse_json.
  rewrite <- str_to_list_length, list_to_str_to_list. set (n := (2 * length (encode_object ms))%nat).
  assert (parse_value (S n) (encode_object ms) =
    Some (JObject ((λ kv, (kv.1, flat_json kv.2)) <$> ms), [])) as ->.
  { unfold encode_object. cbn [parse_value]. change (skip_ws ("{"%char :: ?l)) with ("{"%char :: l).
    cbn iota beta. rewrite bool_decide_false, bool_decide_true by done.
    destruct (encode_members_head ms Hne) as [l Hl].
    assert (skip_ws (encode_members ms ++ ["}"%char]) = dquote :: l ++ ["}"%char]) as -> by (by rewrite Hl).
    rewrite bool_decide_false by done. rewrite parse_members_encoded; [done..|].
    unfold n, encode_object. pose proof (encode_members_length ms). simpl. rewrite length_app. simpl. lia. }
  simpl. f_equal. apply list_to_map_proper.
  - rewrite <- Permutation_rev, <- list_fmap_compose. done.
  - symmetry. apply Permutation_rev.
Qed.
