(* ===== verification/FlexV.v ===== *)
(** * cmd/aliyun-flexv/main.go: the flex volume command

    The command the kubelet runs: it decodes its arguments, runs one operation of
    the provider, prints the response as json and ends with an exit code. *)

From S2P Require Import Prelude GoStd Kube Cloud Provider Json Instances MapUtils Quantity Volume LoadBalancer Routes Interfaces Flags GoFlag.

(** ** The response *)

(** The json fields of a [VolumeError]: a [flexvolume.DriverStatus], whose fields
    other than the status are left out when empty. *)
Definition response_fields (v : VolumeError) : list (string * flat) :=
  ("status", FString (ve_Status v)) ::
  (if bool_decide (ve_Message v = "") then [] else [("message", FString (ve_Message v))]) ++
  (if bool_decide (ve_DevicePath v = "") then [] else [("device", FString (ve_DevicePath v))]) ++
  (if bool_decide (ve_VolumeName v = "") then [] else [("volumeName", FString (ve_VolumeName v))]) ++
  (if ve_Attached v then [("attached", FBool true)] else []).

(** [func (v VolumeError) ToJson() string]. *)
Definition ToJson (v : VolumeError) : string := list_to_str (encode_object (response_fields v)).

Section flexv.
Context {W : Type} `{!Handler req W}.

(** [fmt.Printf(v.ToJson())]: the text is used as a format. *)
Definition print_response (v : VolumeError) : go W unit := call (Print (Sprintf (ToJson v) [])).

(** [func fatalf(msg string, args ...interface{})]. *)
Definition fatalf {A} (msg : string) (args : list fmt_arg) : go W A :=
  _ ← print_response (mkVolumeError "Failure" (Sprintf msg args) "" "" false);
  exit 1.

(** [func printResult(err error)]: [None] is nil, [inr e] an error of another type. *)
Definition printResult {A} (err : option (VolumeError + error)) : go W A :=
  match default (inl VolumeSuccess) err with
  | inr e => fatalf "Unknown error: %v" [AStr e]
  | inl ve =>
      _ ← print_response ve;
      if bool_decide (ve_Status ve = "Success") then exit 0 else exit 1
  end.

(** [func ensureVolumeOptions(v string) (vo cloudprovider.VolumeOptions)]. *)
Definition ensureVolumeOptions (v : string) : go W (gmap string json) :=
  match Unmarshal v with
  | Some vo => mret vo
  | None => fatalf "Invalid json options: %s" [AStr v]
  end.

(** The [switch] on the operation; [op] is the first argument,
    [p] the provider's [Volume]. *)
Definition run_op (p : VolumeInterface W) (op : string) (args : list string) : go W VolumeError :=
  if bool_decide (op = "init") then v_Init p
  else if bool_decide (op = "attach") then
    match args with
    | a0 :: a1 :: _ => vo ← ensureVolumeOptions a0; v_Attach p vo a1
    | _ => fatalf "attach requires options in json format and a node name" []
    end
  else if bool_decide (op = "isattached") then
    match args with
    | a0 :: a1 :: _ => vo ← ensureVolumeOptions a0; v_Attach p vo a1
    | _ => fatalf "isattached requires options in json format and a node name" []
    end
  else if bool_decide (op = "detach") then
    match args with
    | a0 :: a1 :: _ => v_Detach p a0 a1
    | _ => fatalf "detach requires a device path and a node name" []
    end
  else if bool_decide (op = "mountdevice") then
    match args with
    | a0 :: a1 :: a2 :: _ => vo ← ensureVolumeOptions a2; v_MountDevice p a0 a1 vo
    | _ => fatalf "mountdevice requires a mount path, a device path and mount options" []
    end
  else if bool_decide (op = "unmountdevice") then
    match args with
    | a0 :: _ => v_UnmountDevice p a0
    | _ => fatalf "unmountdevice requires a mount path" []
    end
  else if bool_decide (op = "waitforattach") then
    match args with
    | a0 :: a1 :: _ => vo ← ensureVolumeOptions a1; v_WaitForAttach p a0 vo
    | _ => fatalf "waitforattach requires a device path and options in json format" []
    end
  else if bool_decide (op = "getvolumename") then
    match args with
    | a0 :: _ => vo ← ensureVolumeOptions a0; v_GetVolumeName p vo
    | _ => fatalf "getvolumename requires options in json format" []
    end
  else mret (NewVolumeNotSupported op).

Context `{!FloatConv} `{!MapOrder}.
Context (show_options : gmap string json → string).
Context (show_pv : PersistentVolume → string) (show_fv : FlexVolumeSource → string).

(** The variables of the command line: [*test], those of glog and those of the other
    imported packages. *)
Definition flexv_vars (X : Type) : Type := bool * Logging * X.

(** A flag of a part of the variables. *)
Definition log_flag {X} (f : GoFlag Logging) : GoFlag (flexv_vars X) :=
  mkGoFlag (gf_Name f) (gf_IsBoolFlag f) (λ s '(test, l, x), l' ← gf_Set f s l; Some (test, l', x)).
Definition other_flag {X} (f : GoFlag X) : GoFlag (flexv_vars X) :=
  mkGoFlag (gf_Name f) (gf_IsBoolFlag f) (λ s '(test, l, x), x' ← gf_Set f s x; Some (test, l, x')).
Definition test_flag {X} : GoFlag (flexv_vars X) := go_BoolVar (λ b '(_, l, x), (b, l, x)) "test".

(** The flags when the command line is parsed: the imported packages' flags are
    defined first. *)
Definition flexv_flags {X} (other : list (GoFlag X)) : result (gmap string (GoFlag (flexv_vars X))) :=
  go_Vars ∅ (map log_flag glog_flags ++ map other_flag other ++ [test_flag]).

(** The calls of [flag.Set]; their errors are not looked at. *)
Definition prepare_logs {X} (formal : gmap string (GoFlag (flexv_vars X))) (st : flexv_vars X) :
    flexv_vars X :=
  let st := (go_Set formal "logtostderr" "true" st).1 in
  let st := (go_Set formal "alsologtostderr" "false" st).1 in
  let st := (go_Set formal "log_dir" "/opt/logs/flexv" st).1 in
  (go_Set formal "stderrThreshold" "fatal" st).1.

(** [main] after the test flag: [arg0] is [os.Args[0]], [args] is [flag.Args()]. *)
Definition serve (env : string → string) (host arg0 : string) (args : list string) : go W unit :=
  r ← GetProvider (providers show_options show_pv show_fv env host) "aliyun";
  match r with
  | Err _ => fatalf "Error getting provider" []
  | Ok pp =>
      match (pi_Volume pp).1 with
      | None => fatalf "Provider doesn't support volume" []
      | Some p =>
          match args with
          | [] => fatalf "Usage: %s init|attach|detach|mountdevice|unmountdevice|waitforattach|getvolumename|isattached"
                    [AStr arg0]
          | op :: args => ret ← run_op p op args; printResult (Some (inl ret))
          end
      end
  end.

(** [func main()]: [arg0 :: args] is [os.Args], [other] and [x] the flags of the
    packages other than glog with their variables.  A refused command line is the exit
    of [flag.ExitOnError]. *)
Definition main {X} (env : string → string) (host : string) (other : list (GoFlag X)) (x : X)
    (arg0 : string) (args : list string) : go W unit :=
  match flexv_flags other with
  | Err e => panic e
  | Ok formal =>
      _ ← call (MkdirAll "/opt/logs/flexv" 488);
      match go_Parse formal args (false, glog_init, x) with
      | inr _ => exit 2
      | inl (st, args) =>
          let '(test, _, _) := prepare_logs formal st in
          if test then mret tt else serve env host arg0 args
      end
  end.

End flexv.
