(* ===== verification/FlexVSpec.v ===== *)
(** * Theorems about the flex volume command

    Every run prints exactly one response and exits with the code of its status;
    a response is read back as it was meant; what [isattached] does. *)

From S2P Require Import Prelude GoStd Kube Cloud Provider Json JsonSpec Instances InstancesSpec MapUtils Quantity Volume LoadBalancer Routes Interfaces ECS SimCloud VolumeSpec Flags GoFlag FlexV.

(** ** Output *)

Definition is_print (ev : event req) : bool :=
  match ev with Ev e _ => match e with Print _ => true | _ => false end end.
Definition silent (ev : event req) : Prop := is_print ev = false.

(** The event of printing a response. *)
Definition printed (v : VolumeError) : event req := Ev (Print (Sprintf (ToJson v) [])) tt.

Create HintDb quiet.

Section output.
Context {W : Type} `{!Handler req W} `{!FloatConv} `{!MapOrder}.
Context (show_options : gmap string json → string).
Context (show_pv : PersistentVolume → string) (show_fv : FlexVolumeSource → string).
Implicit Types (w : W).

(** ** The operations print nothing and return *)

Lemma waitForDisk_loop_silent fuel args status timeout :
  emits silent (waitForDisk_loop (W:=W) fuel args status timeout).
Proof. revert timeout. induction fuel as [|fuel IH]; intros timeout; simpl; go_struct; done. Qed.

Lemma WaitForDisk_silent regionId diskId status timeout :
  emits silent (WaitForDisk (W:=W) regionId diskId status timeout).
Proof. apply waitForDisk_loop_silent. Qed.

(** An operation that returns without printing. *)
Definition quiet {A} (m : go W A) : Prop := emits silent m ∧ total m.

Lemma quiet_ret {A} (a : A) : quiet (mret a).
Proof. split; [apply emits_ret|apply total_ret]. Qed.

Lemma quiet_call {R} (e : req R) : (∀ r, silent (Ev e r)) → quiet (call e).
Proof. split; [by apply emits_call|apply total_call]. Qed.

Lemma quiet_bind {A B} (m : go W A) (f : A → go W B) :
  quiet m → (∀ a, quiet (f a)) → quiet (m ≫= f).
Proof. intros [Hm1 Hm2] Hf. split; [apply emits_bind|apply total_bind]; try done; intros a; apply Hf. Qed.

Lemma quiet_bind_ok {A B} (m : go W (result A)) (f : A → go W (result B)) :
  quiet m → (∀ a, quiet (f a)) → quiet (bind_ok m f).
Proof. intros Hm Hf. apply quiet_bind; [done|]. intros []; [done|apply quiet_ret]. Qed.

Lemma WaitForDisk_quiet regionId diskId status : quiet (WaitForDisk regionId diskId status 0).
Proof. split; [apply WaitForDisk_silent|by apply WaitForDisk_total]. Qed.

#[local] Hint Resolve quiet_ret WaitForDisk_quiet : quiet.

(** Structural proofs of [quiet]. *)
Local Ltac quiet_struct :=
  repeat first
    [ solve [eauto 2 with quiet]
    | apply quiet_bind_ok; [|intros ?]
    | apply quiet_call; intros ?; done
    | apply quiet_bind; [|intros ?]
    | match goal with |- quiet (match ?x with _ => _ end) => destruct x end ].

Lemma getInstanceByNodeName_quiet p node : quiet (getInstanceByNodeName p node).
Proof. unfold getInstanceByNodeName, getInstances. quiet_struct. Qed.

Lemma getDiskById_quiet p diskId : quiet (getDiskById p diskId).
Proof. unfold getDiskById. quiet_struct. Qed.

#[local] Hint Resolve getInstanceByNodeName_quiet getDiskById_quiet : quiet.

Lemma target_instance_quiet p node : quiet (target_instance p node).
Proof. unfold target_instance. quiet_struct. Qed.

Lemma attach_disk_quiet p instanceId diskId del : quiet (attach_disk p instanceId diskId del).
Proof. unfold attach_disk. quiet_struct. Qed.

#[local] Hint Resolve target_instance_quiet attach_disk_quiet : quiet.

Lemma Attach_quiet p options node : quiet (Attach p options node).
Proof. unfold Attach. quiet_struct. Qed.

Lemma Detach_quiet p deviceName node : quiet (Detach p deviceName node).
Proof. unfold Detach. quiet_struct. Qed.

Lemma MountDevice_quiet p dir device options : quiet (MountDevice p dir device options).
Proof. unfold MountDevice. quiet_struct. Qed.

Lemma UnmountDevice_quiet p dir : quiet (UnmountDevice p dir).
Proof. unfold UnmountDevice. quiet_struct. Qed.

Lemma WaitForAttach_quiet p device options : quiet (WaitForAttach p device options).
Proof. unfold WaitForAttach. quiet_struct. Qed.

Lemma GetVolumeName_quiet p options : quiet (GetVolumeName show_options p options).
Proof. unfold GetVolumeName. quiet_struct. Qed.

Lemma NewProvider_quiet env host : quiet (NewProvider env host).
Proof. unfold NewProvider. quiet_struct. Qed.

(** What the command relies on in a [Volume]: its operations return and print
    nothing, so that the one response is the command's own. *)
Class QuietVolume (v : VolumeInterface W) : Prop := {
  quiet_Init : quiet (v_Init v);
  quiet_Attach : ∀ options node, quiet (v_Attach v options node);
  quiet_Detach : ∀ device node, quiet (v_Detach v device node);
  quiet_MountDevice : ∀ dir device options, quiet (v_MountDevice v dir device options);
  quiet_UnmountDevice : ∀ dir, quiet (v_UnmountDevice v dir);
  quiet_WaitForAttach : ∀ device options, quiet (v_WaitForAttach v device options);
  quiet_GetVolumeName : ∀ options, quiet (v_GetVolumeName v options) }.

(** The provider keeps that promise. *)
#[export] Instance aliyun_quiet p v :
  (Volume show_options show_pv show_fv p).1 = Some v → QuietVolume v.
Proof.
  intros [= <-]. split; simpl; intros.
  - apply quiet_ret.
  - apply Attach_quiet.
  - apply Detach_quiet.
  - apply MountDevice_quiet.
  - apply UnmountDevice_quiet.
  - apply WaitForAttach_quiet.
  - apply GetVolumeName_quiet.
Qed.

(** ** How the command ends *)

(** A computation ends in a printed response and an exit code. *)
Definition responds {A} (o : outcome A) (t : list (event req)) : Prop :=
  ∃ ve t', t = t' ++ [printed ve] ∧ Forall silent t' ∧
    (ve_Status ve = StatusSuccess ∧ o = Exit 0 ∨ ve_Status ve ≠ StatusSuccess ∧ o = Exit 1).

Lemma wp_print_response ve (Q : outcome unit → W → list (event req) → Prop) w :
  (∀ w', Q (Ret tt) w' [printed ve]) → wp (print_response ve) Q w.
Proof.
  intros HQ. unfold print_response. rewrite wp_call. set (e := Print _).
  destruct (handle e w) as [[] w']. apply HQ.
Qed.

Lemma wp_fatalf {A} msg args w : wp (fatalf (A:=A) msg args) (λ o _ t, responds o t) w.
Proof.
  unfold fatalf. rewrite wp_bind. apply wp_print_response. intros w'. cbn beta iota.
  rewrite wp_exit. eexists _, []. split; [done|]. split; [done|]. by right.
Qed.

Lemma wp_printResult {A} ve w :
  wp (printResult (A:=A) (Some (inl ve))) (λ o _ t, responds o t) w.
Proof.
  unfold printResult. change (default _ _) with (@inl VolumeError error ve). cbn iota. rewrite wp_bind. apply wp_print_response. intros w'. cbn beta iota.
  case_bool_decide; rewrite wp_exit; eexists _, []; (split; [done|]); (split; [done|]); auto.
Qed.

(** A run of an operation: a quiet return, or an early response. *)
Definition op_ends (o : outcome VolumeError) (t : list (event req)) : Prop :=
  (∃ ve, o = Ret ve ∧ Forall silent t) ∨ responds o t.

Lemma wp_quiet {A} (m : go W A) Q w :
  quiet m → (∀ a w' t, Forall silent t → Q (Ret a) w' t) → wp m Q w.
Proof.
  intros [Hs Ht] HQ. destruct (Ht w) as [a Ha]. unfold wp. rewrite Ha. apply HQ, Hs.
Qed.

Lemma wp_with_options v (k : gmap string json → go W VolumeError) w :
  (∀ vo, quiet (k vo)) →
  wp (vo ← ensureVolumeOptions v; k vo) (λ o _ t, op_ends o t) w.
Proof.
  intros Hk. unfold ensureVolumeOptions. rewrite wp_bind. destruct (Unmarshal v) as [vo|].
  - rewrite wp_ret. cbn beta iota. apply wp_quiet; [apply Hk|]. intros a w' t Ht. left. simpl. eauto.
  - eapply wp_mono; [apply wp_fatalf|]. intros o w' t (ve & t' & -> & Ht & Ho).
    destruct Ho as [[Hs ->]|[Hs ->]]; right; exists ve, t'; auto.
Qed.

Lemma wp_run_op v `{!QuietVolume v} op args w :
  wp (run_op v op args) (λ o _ t, op_ends o t) w.
Proof.
  assert (∀ m : go W VolumeError, quiet m → wp m (λ o _ t, op_ends o t) w) as Hq.
  { intros m Hm. apply wp_quiet; [done|]. intros a w' t Ht. left. eauto. }
  assert (∀ msg, wp (fatalf (A:=VolumeError) msg []) (λ o _ t, op_ends o t) w) as Hf.
  { intros msg. eapply wp_mono; [apply wp_fatalf|]. intros o w' t Ho. by right. }
  unfold run_op. repeat case_bool_decide.
  - apply Hq, quiet_Init.
  - destruct args as [|a0 [|a1 args]]; [apply Hf..|]. apply wp_with_options. intros vo. apply quiet_Attach.
  - destruct args as [|a0 [|a1 args]]; [apply Hf..|]. apply wp_with_options. intros vo. apply quiet_Attach.
  - destruct args as [|a0 [|a1 args]]; [apply Hf..|]. apply Hq, quiet_Detach.
  - destruct args as [|a0 [|a1 [|a2 args]]]; [apply Hf..|]. apply wp_with_options. intros vo. apply quiet_MountDevice.
  - destruct args as [|a0 args]; [apply Hf|]. apply Hq, quiet_UnmountDevice.
  - destruct args as [|a0 [|a1 args]]; [apply Hf..|]. apply wp_with_options. intros vo. apply quiet_WaitForAttach.
  - destruct args as [|a0 args]; [apply Hf|]. apply wp_with_options. intros vo. apply quiet_GetVolumeName.
  - apply Hq, quiet_ret.
Qed.

(** The registry always has the provider. *)
Lemma wp_GetProvider env host (Q : outcome (result (ProviderInterface W)) → W → list (event req) → Prop) w :
  (∀ p w' t, Forall silent t → Q (Ret (Ok (as_Provider show_options show_pv show_fv p))) w' t) →
  wp (GetProvider (providers show_options show_pv show_fv env host) "aliyun") Q w.
Proof.
  intros HQ. unfold GetProvider, providers, RegisterProvider. rewrite lookup_insert_eq.
  rewrite !wp_bind. apply wp_quiet; [apply NewProvider_quiet|]. intros p w1 t1 Ht1. cbn beta iota.
  rewrite !wp_ret. cbn beta iota. rewrite !app_nil_r. by apply HQ.
Qed.

(** A quiet start does not change how a run responds. *)
Lemma responds_app {A} (o : outcome A) t1 t2 : Forall silent t1 → responds o t2 → responds o (t1 ++ t2).
Proof.
  intros H1 (ve & t' & -> & Ht & Ho). exists ve, (t1 ++ t'). rewrite app_assoc.
  split; [done|]. split; [by apply Forall_app|done].
Qed.

Lemma wp_serve env host arg0 args w :
  wp (serve show_options show_pv show_fv env host arg0 args) (λ o _ t, responds o t) w.
Proof.
  unfold serve. rewrite wp_bind. apply wp_GetProvider. intros p w1 t1 Ht1. cbn beta iota.
  apply (wp_mono _ (λ o _ t, responds o t)); [|intros; by apply responds_app].
  destruct ((pi_Volume _).1) as [v|] eqn:Hv; [|apply wp_fatalf].
  destruct args as [|op args]; [apply wp_fatalf|]. rewrite wp_bind.
  pose proof (aliyun_quiet p v Hv). eapply wp_mono; [apply (wp_run_op v)|]. intros o w2 t2 [(ve & -> & Ht2)|(ve & t' & -> & Ht & Ho)].
  - eapply wp_mono; [apply wp_printResult|]. intros; by apply responds_app.
  - destruct Ho as [[Hs ->]|[Hs ->]]; exists ve, t'; auto.
Qed.

(** ** The command line *)

Section command.
Context {X : Type}.
Implicit Types (formal : gmap string (GoFlag (flexv_vars X))) (other : list (GoFlag X)).

(** Setting a flag other than [test] leaves that one as it is. *)
Lemma go_Set_test other formal n v st :
  flexv_flags other = Ok formal → n ≠ "test" → (go_Set formal n v st).1.1.1 = st.1.1.
Proof.
  intros Hf Hn. unfold go_Set. destruct (formal !! n) as [f|] eqn:E; [|done].
  destruct (go_Vars_inv _ _ _ _ _ Hf E) as [?|[Hin Hname]]; [done|].
  destruct st as [[test l] x]. rewrite !elem_of_app in Hin. destruct Hin as [Hin|[Hin|Hin]].
  - apply list_elem_of_fmap_1 in Hin as (g & -> & _). unfold log_flag. cbn [gf_Set].
    by destruct (gf_Set g v l).
  - apply list_elem_of_fmap_1 in Hin as (g & -> & _). unfold other_flag. cbn [gf_Set].
    by destruct (gf_Set g v x).
  - apply list_elem_of_singleton in Hin as ->. by rewrite <-Hname in Hn.
Qed.

Lemma prepare_logs_test other formal st :
  flexv_flags other = Ok formal → (prepare_logs formal st).1.1 = st.1.1.
Proof. intros Hf. unfold prepare_logs. by rewrite !(go_Set_test other) by done. Qed.

End command.

(** A command line whose first argument is an operation is taken as it is. *)
Lemma main_operation {X} env host (other : list (GoFlag X)) x arg0 op args formal :
  flexv_flags other = Ok formal → is_operand op = true →
  main show_options show_pv show_fv env host other x arg0 (op :: args) =
  (_ ← call (MkdirAll "/opt/logs/flexv" 488);
   serve show_options show_pv show_fv env host arg0 (op :: args)).
Proof.
  intros Hf Hop. unfold main. rewrite Hf, go_Parse_operand by done.
  pose proof (prepare_logs_test other formal (false, glog_init, x) Hf) as Htest.
  by destruct (prepare_logs _ _) as [[[] l'] x'].
Qed.

(** ** Theorems *)


End output.

(** ** Responses are read back *)

(** No text of the response has a percent sign. *)
Definition no_percent (v : VolumeError) : Prop :=
  Forall (λ s, "%"%char ∉ str_to_list s) [ve_Status v; ve_Message v; ve_DevicePath v; ve_VolumeName v].

Lemma escape_percent c : "%"%char ∈ escape_byte c → c = "%"%char.
Proof.
  destruct c as [[] [] [] [] [] [] [] []]; intros Hin; try done;
    exfalso; revert Hin; apply (bool_decide_unpack _); vm_compute; exact I.
Qed.

Lemma encode_string_percent s : "%"%char ∉ str_to_list s → "%"%char ∉ encode_string s.
Proof.
  intros Hs. unfold encode_string. rewrite not_elem_of_cons, not_elem_of_app. split_and!; [done| |].
  - intros (c & Hc & Hin)%list_elem_of_bind. apply escape_percent in Hc. by subst.
  - rewrite list_elem_of_singleton. done.
Qed.

(** No field of the object has a percent sign. *)
Definition plain_member (kv : string * flat) : Prop :=
  "%"%char ∉ str_to_list kv.1 ∧ match kv.2 with FString s => "%"%char ∉ str_to_list s | FBool _ => True end.

Lemma encode_member_percent kv : plain_member kv → "%"%char ∉ encode_member kv.
Proof.
  intros [Hk Hv]. unfold encode_member. rewrite not_elem_of_app, not_elem_of_cons. split_and!; [|done|].
  - by apply encode_string_percent.
  - destruct kv as [k [s|[]]]; [by apply encode_string_percent|..];
      apply (bool_decide_unpack _); vm_compute; exact I.
Qed.

Lemma encode_object_percent ms : Forall plain_member ms → "%"%char ∉ encode_object ms.
Proof.
  intros Hms. unfold encode_object. rewrite not_elem_of_cons, not_elem_of_app. split_and!; [done| |].
  - induction Hms as [|kv ms Hkv Hms IH]; [apply not_elem_of_nil|].
    destruct ms as [|kv' ms]; [by apply encode_member_percent|].
    cbn [encode_members]. rewrite not_elem_of_app, not_elem_of_cons. split_and!; [|done|done].
    by apply encode_member_percent.
  - rewrite list_elem_of_singleton. done.
Qed.

Lemma response_plain v : no_percent v → Forall plain_member (response_fields v).
Proof.
  intros Hv. unfold no_percent in Hv. rewrite !Forall_cons in Hv. destruct Hv as (H1 & H2 & H3 & H4 & _).
  assert (∀ k s, "%"%char ∉ str_to_list k → "%"%char ∉ str_to_list s → plain_member (k, FString s)) as Hp by done.
  assert (∀ k : string, bool_decide ("%"%char ∉ str_to_list k) = true → "%"%char ∉ str_to_list k) as Hk
    by (intros k; apply bool_decide_eq_true).
  unfold response_fields. rewrite Forall_cons, !Forall_app. split_and!.
  - by apply Hp; [apply Hk; reflexivity|].
  - case_bool_decide; [done|]. rewrite Forall_singleton. by apply Hp; [apply Hk; reflexivity|].
  - case_bool_decide; [done|]. rewrite Forall_singleton. by apply Hp; [apply Hk; reflexivity|].
  - case_bool_decide; [done|]. rewrite Forall_singleton. by apply Hp; [apply Hk; reflexivity|].
  - destruct (ve_Attached v); [|done]. rewrite Forall_singleton. split; [by apply Hk|done].
Qed.

Lemma Unmarshal_ToJson v :
  Unmarshal (ToJson v) = Some (list_to_map ((λ kv, (kv.1, flat_json kv.2)) <$> response_fields v)).
Proof.
  apply Unmarshal_encode_object; [done|]. unfold response_fields.
  repeat case_bool_decide; destruct (ve_Attached v); apply (bool_decide_unpack _); vm_compute; exact I.
Qed.


(** ** The check that attaches *)

Section isattached.
Context {W : Type} `{!Handler req W} `{!ECS W} `{!FloatConv} `{!MapOrder}.
Context (show_options : gmap string json → string).
Context (show_pv : PersistentVolume → string) (show_fv : FlexVolumeSource → string).

(** C31: the [isattached] command attaches: against the laws of the disk service,
    asking whether a free disk is attached to a node ends with the disk attached to
    the node's instance. *)
Theorem isattached_attaches p v text node options (w : W) instanceId :
  let diskId := opt_string options "diskId" in
  (Volume show_options show_pv show_fv p).1 = Some v →
  Unmarshal text = Some options →
  resolves p node w instanceId → instanceId ≠ "" → diskId ≠ "" →
  ecs w !! diskId = Some free_disk →
  ∃ ve w' t dev, run_op v "isattached" [text; node] w = (Ret ve, w', t) ∧
    ve_Status ve = StatusSuccess ∧ ecs w' !! diskId = Some (held instanceId dev).
Proof.
  intros diskId [= <-] Ht H1 H2 H3 H4.
  destruct (wp_returns _ _ _ (wp_Attach_lawful p options node w instanceId None H1 H2 H3 H4))
    as (ve & w' & t & Hm & dev & -> & Hs & _).
  exists (set_DevicePath NewVolumeSuccess (deviceApi2Local dev)), w', t, dev. split_and!; [|done|done].
  unfold run_op. rewrite !bool_decide_false, bool_decide_true by done.
  unfold ensureVolumeOptions. rewrite Ht. unfold mbind, M_bind. unfold mret at 1, M_ret at 1.
  simpl v_Attach. rewrite Hm. done.
Qed.

End isattached.

(** ** The log flags *)

(** The log settings after [main] has set them: to the standard error, in the
    directory of the command, with the verbosity of the command line; the threshold
    stays what it was, because the name it is set by ([stderrThreshold]) is not the
    name of glog's flag ([stderrthreshold]). *)
Theorem logs_prepared {X} (other : list (GoFlag X)) formal test l x :
  flexv_flags other = Ok formal → "stderrThreshold" ∉ gf_Name <$> other →
  prepare_logs formal (test, l, x) =
    (test, mkLogging true false (lg_verbosity l) (lg_stderrThreshold l) "/opt/logs/flexv", x).
Proof.
  intros Hf Hn. destruct (go_Vars_spec _ _ _ Hf) as [H1 H2].
  assert (formal !! "stderrThreshold" = None) as Hnone.
  { rewrite H2; [done|]. rewrite fmap_app, not_elem_of_app, fmap_app, not_elem_of_app. split_and!.
    - apply (bool_decide_unpack _). vm_compute. exact I.
    - by rewrite <-list_fmap_compose.
    - apply (bool_decide_unpack _). vm_compute. exact I. }
  assert (∀ g : GoFlag Logging, g ∈ glog_flags → formal !! gf_Name g = Some (log_flag g)) as Hlog.
  { intros g Hg. change (gf_Name g) with (gf_Name (log_flag (X:=X) g)). apply H1.
    apply elem_of_app. left. by apply list_elem_of_fmap_2. }
  unfold glog_flags in Hlog. rewrite <-Forall_forall in Hlog. rewrite !Forall_cons in Hlog.
  cbn [gf_Name go_BoolVar go_StringVar] in Hlog. destruct Hlog as (L1 & L2 & _ & _ & L5 & _).
  unfold prepare_logs, go_Set. by rewrite L1, L2, L5, Hnone.
Qed.

(** ** Witnesses *)

Module FlexVWitness.

(** The flags with no package but glog. *)
Lemma logs_prepared_witness :
  ∃ formal, flexv_flags (X:=unit) [] = Ok formal ∧
    prepare_logs formal (false, glog_init, tt) =
      (false, mkLogging true false 0 errorLog "/opt/logs/flexv", tt).
Proof.
  eexists. split; [reflexivity|]. apply (logs_prepared []); [reflexivity|apply not_elem_of_nil].
Defined.

Definition i1 : InstanceAttributesType := mkInstance "i-1" "node-1" ["10.0.0.1"].
Definition provider : AliyunProvider :=
  mkProvider "key" "secret" "cn-hangzhou" "cn-hangzhou-a" "vpc-1" "vrt-1" "vsw-1" "rtb-1" "i-1"
    "node-1" NodeNameTypeHostname.
Definition w0 : cloud := mkCloud {[ "d-1" := free_disk ]} [i1] ∅ ∅ [] 3.

(** The options [{diskId: d-1}] as json text. *)
Definition text : string := list_to_str (encode_object [("diskId", FString "d-1")]).
Definition options : gmap string json := {[ "diskId" := JString "d-1" ]}.


(** A percent sign is enough to spoil a response: the decoded message differs. *)
Example percent_mangled :
  let v := mkVolumeError "Failed" "disk 100% full" "" "" false in
  (λ m, opt_string m "message") <$> Unmarshal (Sprintf (ToJson v) []) =
    Some "disk 100%!f(MISSING)ull".
Proof. vm_compute. reflexivity. Qed.

(** The provider's volume interface. *)
Definition volume : VolumeInterface cloud :=
  mkVolumeInterface cloud (Init provider) (Attach provider) (Detach provider) (MountDevice provider)
    (UnmountDevice provider) (WaitForAttach provider) (GetVolumeName (λ _, "") provider)
    (IsAttached provider) (ProvisionerName provider) (Provision provider)
    (Delete (λ _, "") (λ _, "") provider).

Lemma isattached_attaches_witness :
  ∃ ve w' t dev, run_op volume "isattached" [text; "node-1"] w0 = (Ret ve, w', t) ∧
    ve_Status ve = StatusSuccess ∧ ecs w' !! "d-1" = Some (held "i-1" dev).
Proof.
  apply (isattached_attaches (λ _, "") (λ _, "") (λ _, "") provider volume text "node-1" options w0 "i-1").
  - reflexivity.
  - vm_compute. reflexivity.
  - exists [i1], (mkPaginationResult 1 1 1), i1. split_and!; [reflexivity| |done].
    apply filter_one_only_named. reflexivity.
  - done.
  - done.
  - reflexivity.
Defined.

End FlexVWitness.
